(** * Polymarket BTC 15-minute arbitrage bot: the trading core

    A shallow embedding of the four modules that make up the core of the
    repository,

    - [src/trading.py]        (fill estimation, order polling),
    - [src/risk_manager.py]   (the risk gate),
    - [src/cex_price_feed.py] (momentum signals and their fusion),
    - [src/main.py]           (opportunity detection and execution),

    followed by the properties stated about them.

    Numbers.  The program computes on Python floats.  Every definition
    below is written once, over an abstract arithmetic [Arith F], and has
    two instances: exact rationals ([Q], where the general theorems are
    proved) and IEEE binary64 ([PrimFloat.float], which has the rounding of
    the running program and is used where rounding is observable).

    Environment.  Readings of the clocks ([time.time()],
    [time.monotonic()], [date.today()]) and the answers of the exchange
    are inputs of the functions that use them; calls made to the outside
    are recorded in a trace.  Logging is not modelled. *)

From Stdlib Require Import QArith Qminmax Qabs Lqa ZArith List String Ascii Bool Lia.
From Stdlib Require Import Sorting.Sorted Sorting.Permutation.
From Stdlib Require Floats.
From stdpp Require Import gmap strings pretty.

Local Open Scope Q_scope.

(* ===================================================================== *)
(** * Arithmetic *)
(* ===================================================================== *)

(** The operations the program applies to numbers. *)
Class Arith (F : Type) := {
  lit    : Q -> F;             (* a numeric literal of the source text *)
  fadd   : F -> F -> F;
  fsub   : F -> F -> F;
  fmul   : F -> F -> F;
  fdiv   : F -> F -> F;        (* only ever applied behind a guard on the divisor *)
  fneg   : F -> F;             (* -x *)
  fabs   : F -> F;             (* abs(x) *)
  flt    : F -> F -> bool;     (* x < y *)
  fle    : F -> F -> bool;     (* x <= y *)
  feq    : F -> F -> bool;     (* x == y *)
  to_int : F -> option Z;      (* int(x): truncation; None when Python raises *)
  fmt2f  : F -> string         (* the rendering of f"{x:.2f}" *)
}.

Declare Scope py_scope.
Delimit Scope py_scope with py.
Notation "x + y" := (fadd x y) : py_scope.
Notation "x - y" := (fsub x y) : py_scope.
Notation "x * y" := (fmul x y) : py_scope.
Notation "x / y" := (fdiv x y) : py_scope.
Notation "- x" := (fneg x) : py_scope.
Notation "x <? y" := (flt x y) : py_scope.
Notation "x <=? y" := (fle x y) : py_scope.
Notation "x >? y" := (flt y x) : py_scope.
Notation "x >=? y" := (fle y x) : py_scope.
Notation "x =? y" := (feq x y) : py_scope.

(** [min(a, b)] and [max(a, b)] of Python: the first argument is kept
    unless the second is strictly better. *)
Definition pymin {F} `{Arith F} (a b : F) : F := if (b <? a)%py then b else a.
Definition pymax {F} `{Arith F} (a b : F) : F := if (b >? a)%py then b else a.

(** Truth value of a float: false exactly for zero. *)
Definition truthy {F} `{Arith F} (x : F) : bool := negb (x =? lit 0)%py.

(** Truth value of an optional float ([None] is false). *)
Definition truthy_opt {F} `{Arith F} (x : option F) : bool :=
  match x with Some v => truthy v | None => false end.

(** ** Exact arithmetic *)

Definition Qltb (x y : Q) : bool :=
  match x ?= y with Lt => true | _ => false end.

(** Nearest integer, ties to the even one. *)
Definition round_half_even (q : Q) : Z :=
  let n := Qnum q in
  let d := Zpos (Qden q) in
  let f := (n / d)%Z in
  let r2 := (2 * (n mod d))%Z in
  if (r2 <? d)%Z then f
  else if (d <? r2)%Z then (f + 1)%Z
  else if Z.even f then f else (f + 1)%Z.

Definition two_digits (z : Z) : string :=
  if (z <? 10)%Z then "0" +:+ pretty z else pretty z.

Definition fmt2f_Q (q : Q) : string :=
  let c := round_half_even (Qabs q * 100) in
  (if Qltb q 0 then "-" else "") +:+ pretty (c / 100)%Z +:+ "." +:+ two_digits (c mod 100)%Z.

#[export] Instance Q_arith : Arith Q := {|
  lit q := q;
  fadd := Qplus;
  fsub := Qminus;
  fmul := Qmult;
  fdiv := Qdiv;
  fneg := Qopp;
  fabs := Qabs;
  flt := Qltb;
  fle := Qle_bool;
  feq := Qeq_bool;
  to_int q := Some (Z.quot (Qnum q) (Zpos (Qden q)));
  fmt2f := fmt2f_Q
|}.

(** ** IEEE binary64 *)

Module Binary64.
Import Floats.

Definition of_Z (z : Z) : float :=
  match z with
  | Z0 => PrimFloat.zero
  | Zpos _ => PrimFloat.of_uint63 (Uint63.of_Z z)
  | Zneg p => PrimFloat.opp (PrimFloat.of_uint63 (Uint63.of_Z (Zpos p)))
  end.

(** A decimal literal [n/d] with [n] and [d] below [2^53] is the
    correctly rounded quotient of two exact floats, that is, the float
    the Python parser produces for it. *)
Definition of_Q (q : Q) : float :=
  PrimFloat.div (of_Z (Qnum q)) (of_Z (Zpos (Qden q))).

(** The exact value of a finite float. *)
Definition to_Q (x : float) : option Q :=
  match Prim2SF x with
  | S754_zero _ => Some 0
  | S754_finite s m e =>
      let v := match e with
               | Zneg p => Zpos m # (2 ^ p)
               | _ => inject_Z (Zpos m * 2 ^ e)
               end in
      Some (if s then - v else v)
  | _ => None
  end.

Definition trunc (x : float) : option Z :=
  match to_Q x with
  | Some q => Some (Z.quot (Qnum q) (Zpos (Qden q)))
  | None => None
  end.

Definition fmt (x : float) : string :=
  match Prim2SF x with
  | S754_nan => "nan"
  | S754_infinity s => if s then "-inf" else "inf"
  | S754_zero s => if s then "-0.00" else "0.00"
  | S754_finite s _ _ =>
      match to_Q x with
      | Some q => (if s then "-" else "") +:+ fmt2f_Q (Qabs q)
      | None => ""
      end
  end.

#[export] Instance float_arith : Arith float := {|
  lit := of_Q;
  fadd := PrimFloat.add;
  fsub := PrimFloat.sub;
  fmul := PrimFloat.mul;
  fdiv := PrimFloat.div;
  fneg := PrimFloat.opp;
  fabs := PrimFloat.abs;
  flt := PrimFloat.ltb;
  fle := PrimFloat.leb;
  feq := PrimFloat.eqb;
  to_int := trunc;
  fmt2f := fmt
|}.
End Binary64.

(* ===================================================================== *)
(** * Python values at the boundary *)
(* ===================================================================== *)

(** [s.lower()], on ASCII letters. *)
Definition ascii_lower (c : ascii) : ascii :=
  let n := N_of_ascii c in
  if ((65 <=? n) && (n <=? 90))%N then ascii_of_N (n + 32) else c.

Fixpoint lower (s : string) : string :=
  match s with
  | EmptyString => EmptyString
  | String c s' => String (ascii_lower c) (lower s')
  end.

(** A value found in a payload of the exchange, seen through the three
    operations the program applies to such values. *)
Record PyVal (F : Type) := {
  py_bool  : bool;        (* its truth value *)
  py_str   : string;      (* str(v) *)
  py_float : option F     (* float(v); None when that raises *)
}.
Arguments py_bool {F}.
Arguments py_str {F}.
Arguments py_float {F}.

(** The string [""], the default of [od.get(key, "")]. *)
Definition py_empty {F} : PyVal F :=
  {| py_bool := false; py_str := ""; py_float := None |}.

(** [a or b]. *)
Definition py_or {F} (a b : PyVal F) : PyVal F := if py_bool a then a else b.

(** What a call can do besides returning: raise. *)
Inductive Outcome (A : Type) :=
| Ret (a : A)
| Raise (msg : string).
Arguments Ret {A}.
Arguments Raise {A}.

(* ===================================================================== *)
(** * trading.py *)
(* ===================================================================== *)

Module Trading.
Section Defs.
Context {F : Type} `{Arith F}.
Local Open Scope py_scope.

(** One level of an order book: [(price, size)]. *)
Definition Level : Type := F * F.

(** The dict returned by [compute_buy_fill]. *)
Record Fill := {
  filled : F;
  vwap   : option F;
  worst  : option F;
  best   : F;
  cost   : F
}.

(** [sorted(asks, key=lambda x: x[0])]: a stable sort on the price. *)
Fixpoint insert_by_price (a : Level) (l : list Level) : list Level :=
  match l with
  | [] => [a]
  | b :: l' => if fst b <? fst a then b :: insert_by_price a l' else a :: l
  end.

Definition sorted_by_price (asks : list Level) : list Level :=
  foldr insert_by_price [] asks.

(** The three variables the loop of [compute_buy_fill] updates. *)
Record Walk := { w_filled : F; w_cost : F; w_worst : option F }.

(** [for price, size in sorted_asks: ...] *)
Fixpoint walk (target_size : F) (levels : list Level) (st : Walk) : Walk :=
  match levels with
  | [] => st
  | (price, size) :: rest =>
      if w_filled st >=? target_size then st
      else
        let take := pymin size (target_size - w_filled st) in
        walk target_size rest
             {| w_filled := w_filled st + take;
                w_cost := w_cost st + take * price;
                w_worst := Some price |}
  end.

Definition compute_buy_fill (asks : list Level) (target_size : F) : option Fill :=
  if (target_size <=? lit 0) || bool_decide (asks = []) then None
  else
    let sorted_asks := sorted_by_price asks in
    match sorted_asks with
    | [] => None                    (* not reached: [asks] is not empty *)
    | (best_price, _) :: _ =>
        let st := walk target_size sorted_asks
                       {| w_filled := lit 0; w_cost := lit 0; w_worst := None |} in
        if w_filled st + lit 0.000000001 <? target_size then None
        else
          Some {| filled := w_filled st;
                  vwap := if w_filled st >? lit 0
                          then Some (w_cost st / w_filled st) else None;
                  worst := w_worst st;
                  best := best_price;
                  cost := w_cost st |}
    end.

(** *** get_order_book *)

(** The normalized dict of [get_order_book]; the empty dict that it
    returns on an error is [None] in [Book]. *)
Record BookData := {
  best_bid : option F;
  best_ask : option F;
  spread   : option F;
  bid_size : F;
  ask_size : F;
  bids     : list Level;
  asks     : list Level
}.
Definition Book : Type := option BookData.

(** [book.get("asks", [])], [book.get("best_ask")], [book.get("best_bid")]. *)
Definition book_asks (b : Book) : list Level :=
  match b with Some d => asks d | None => [] end.
Definition book_best_ask (b : Book) : option F := b ≫= best_ask.
Definition book_best_bid (b : Book) : option F := b ≫= best_bid.

(** [to_tuples]: levels whose price or size does not convert are skipped,
    and so are those whose size is not positive. *)
Fixpoint to_tuples (levels : list (PyVal F * PyVal F)) : list Level :=
  match levels with
  | [] => []
  | (price, size) :: rest =>
      match py_float price, py_float size with
      | Some p, Some sz =>
          if sz >? lit 0 then (p, sz) :: to_tuples rest else to_tuples rest
      | _, _ => to_tuples rest
      end
  end.

(** [max(gen, default=None)] and [min(gen, default=None)]. *)
Definition py_max_opt (l : list F) : option F :=
  match l with [] => None | x :: l' => Some (fold_left pymax l' x) end.
Definition py_min_opt (l : list F) : option F :=
  match l with [] => None | x :: l' => Some (fold_left pymin l' x) end.

(** [next((s for p, s in levels if p == best), 0.0) if best else 0.0] *)
Definition size_at (levels : list Level) (best : option F) : F :=
  match best with
  | Some b =>
      if truthy b
      then match filter (fun l => Is_true (fst l =? b)) levels with
           | l :: _ => snd l
           | [] => lit 0
           end
      else lit 0
  | None => lit 0
  end.

(** The body of [get_order_book] once the client has answered with the
    raw bids and asks. *)
Definition normalize_book (bids_raw asks_raw : list (PyVal F * PyVal F)) : Book :=
  let bid_levels := to_tuples bids_raw in
  let ask_levels := to_tuples asks_raw in
  let best_bid := py_max_opt (map fst bid_levels) in
  let best_ask := py_min_opt (map fst ask_levels) in
  Some {| best_bid := best_bid;
          best_ask := best_ask;
          spread := match best_bid, best_ask with
                    | Some b, Some a =>
                        if truthy b && truthy a then Some (a - b) else None
                    | _, _ => None
                    end;
          bid_size := size_at bid_levels best_bid;
          ask_size := size_at ask_levels best_ask;
          bids := bid_levels;
          asks := ask_levels |}.

(** *** wait_for_terminal_order *)

(** The answer to one [client.get_order(order_id)], with everything that
    can raise inside the [try] block. *)
Inductive PollResult :=
| GetOrderOk (od : gmap string (PyVal F))
| GetOrderRaises (msg : string).

(** The dict [last_summary]; a key that can be missing is an option. *)
Record Summary := {
  s_status         : option string;
  s_error          : option string;                  (* key "error" *)
  s_filled_size    : option F;
  s_requested_size : option F;
  s_raw            : option (gmap string (PyVal F)); (* key "raw" *)
  s_filled         : option bool                     (* key "filled" *)
}.

Definition set_filled (s : Summary) (b : bool) : Summary :=
  {| s_status := s_status s; s_error := s_error s;
     s_filled_size := s_filled_size s; s_requested_size := s_requested_size s;
     s_raw := s_raw s; s_filled := Some b |}.

(** [last_summary.setdefault("filled", False)] *)
Definition setdefault_filled (s : Summary) : Summary :=
  match s_filled s with Some _ => s | None => set_filled s false end.

(** [state.get("filled")] as a condition. *)
Definition leg_filled (s : Summary) : bool := default false (s_filled s).

Definition terminal_statuses : list string :=
  ["filled"; "canceled"; "cancelled"; "rejected"; "expired"].

Definition filled_size_keys : list string :=
  ["filled_size"; "filledSize"; "size_filled"; "matched_size"].

(** The first of the keys that is in the dict decides ([break]). *)
Fixpoint first_present (keys : list string) (od : gmap string (PyVal F))
  : option (PyVal F) :=
  match keys with
  | [] => None
  | k :: keys' =>
      match od !! k with Some v => Some v | None => first_present keys' od end
  end.

Definition od_get (od : gmap string (PyVal F)) (k : string) : PyVal F :=
  default py_empty (od !! k).

(** [str(od.get("status", "") or od.get("state", "")).lower()] *)
Definition od_status (od : gmap string (PyVal F)) : string :=
  lower (py_str (py_or (od_get od "status") (od_get od "state"))).

Definition od_filled_size (od : gmap string (PyVal F)) : option F :=
  first_present filled_size_keys od ≫= py_float.

(** [requested_size and filled_size and filled_size + 1e-9 >= requested_size] *)
Definition size_filled (requested_size filled_size : option F) : bool :=
  match requested_size, filled_size with
  | Some r, Some f => truthy r && truthy f && (f + lit 0.000000001 >=? r)
  | _, _ => false
  end.

(** One round of the loop on an answer: the new [last_summary], and
    whether the function returns it. *)
Definition poll_step (requested_size : option F) (r : PollResult) : Summary * bool :=
  match r with
  | GetOrderOk od =>
      let status := od_status od in
      let filled_size := od_filled_size od in
      let last_summary :=
        {| s_status := Some status; s_error := None;
           s_filled_size := filled_size; s_requested_size := requested_size;
           s_raw := Some od; s_filled := None |} in
      if size_filled requested_size filled_size
      then (set_filled last_summary true, true)
      else if bool_decide (status ∈ terminal_statuses)
      then (set_filled last_summary (String.eqb status "filled"), true)
      else (last_summary, false)
  | GetOrderRaises msg =>
      ({| s_status := Some "error"; s_error := Some msg;
          s_filled_size := None; s_requested_size := requested_size;
          s_raw := None; s_filled := None |}, false)
  end.

(** What is returned once the time is up. *)
Definition timed_out (requested_size : option F) (last_summary : option Summary)
  : Summary :=
  setdefault_filled
    (default {| s_status := None; s_error := None; s_filled_size := None;
                s_requested_size := requested_size; s_raw := None;
                s_filled := None |}
             last_summary).

(** The loop [while (time.monotonic() - start) < timeout_seconds].  Each
    element of [ticks] is the reading of the clock at one test of the
    loop condition, with the answer the poll of that round gets.  [None]
    means that [ticks] ends before the loop does. *)
Fixpoint poll_loop (requested_size : option F) (timeout_seconds start : F)
         (last_summary : option Summary) (ticks : list (F * PollResult))
  : option Summary :=
  match ticks with
  | [] => None
  | (t, r) :: ticks' =>
      if t - start <? timeout_seconds then
        let '(summary, returns) := poll_step requested_size r in
        if returns then Some summary
        else poll_loop requested_size timeout_seconds start (Some summary) ticks'
      else Some (timed_out requested_size last_summary)
  end.

(** [start] is the reading of [time.monotonic()] on entry. *)
Definition wait_for_terminal_order (requested_size : option F)
           (timeout_seconds : F) (start : F) (ticks : list (F * PollResult))
  : option Summary :=
  poll_loop requested_size timeout_seconds start None ticks.

(** The default of the parameter [timeout_seconds]. *)
Definition default_timeout : F := lit 3.
End Defs.
Arguments Level F : clear implicits.
Arguments Fill F : clear implicits.
Arguments Walk F : clear implicits.
Arguments BookData F : clear implicits.
Arguments Book F : clear implicits.
Arguments PollResult F : clear implicits.
Arguments Summary F : clear implicits.

(** The words of the specification about fill estimation, in exact
    arithmetic: the cumulative depth of a book side, and the cost of
    walking its levels while a need remains, taking from each level the
    minimum of its size and of the remaining need. *)
Definition depth (levels : list (Level Q)) : Q :=
  foldr (fun l acc => snd l + acc) 0 levels.

Fixpoint taken (need : Q) (levels : list (Level Q)) : list Q :=
  match levels with
  | [] => []
  | (_, size) :: rest =>
      let t := Qmin size need in t :: taken (need - t) rest
  end.

Definition taken_cost (need : Q) (levels : list (Level Q)) : Q :=
  foldr Qplus 0 (zip_with (fun l t => fst l * t) levels (taken need levels)).

Definition price_le (a b : Level Q) : Prop := fst a <= fst b.

(** A round of the polling loop after which the loop goes on: the clock
    is within the budget and the answer is not final. *)
Definition keeps_polling (requested_size : option Q) (timeout_seconds start : Q)
           (tick : Q * PollResult Q) : Prop :=
  fst tick - start < timeout_seconds
  /\ snd (poll_step requested_size (snd tick)) = false.

(** [last_summary] after some rounds that all go on. *)
Definition summary_after (requested_size : option Q)
           (last_summary : option (Summary Q)) (ticks : list (Q * PollResult Q))
  : option (Summary Q) :=
  fold_left (fun _ tick => Some (fst (poll_step requested_size (snd tick))))
            ticks last_summary.
End Trading.

(* ===================================================================== *)
(** * risk_manager.py *)
(* ===================================================================== *)

Module RiskManager.
Section Defs.
Context {F : Type} `{Arith F}.
Local Open Scope py_scope.

(** A [TradeRecord] object.  [obj] stands for the identity of the
    object: the list [_trades] holds the object itself, so that a
    settlement shows in it. *)
Record TradeRecord := {
  obj             : nat;
  timestamp       : F;
  strategy        : string;      (* "pure_arb" or "temporal_arb" *)
  direction       : string;      (* "BOTH", "UP" or "DOWN" *)
  size            : F;
  cost            : F;
  expected_payout : F;
  expected_profit : F;
  market_slug     : string;
  status          : string;      (* "open", "won", "lost" *)
  actual_pnl      : F
}.

Record DailyStats := {
  date_str           : string;
  trades_count       : Z;
  pure_arb_count     : Z;
  temporal_arb_count : Z;
  total_invested     : F;
  total_pnl          : F;
  wins               : Z;
  losses             : Z;
  max_drawdown       : F;
  peak_balance       : F
}.

(** [DailyStats(date_str=today)] *)
Definition new_stats (today : string) : DailyStats :=
  {| date_str := today; trades_count := 0; pure_arb_count := 0;
     temporal_arb_count := 0; total_invested := lit 0; total_pnl := lit 0;
     wins := 0; losses := 0; max_drawdown := lit 0; peak_balance := lit 0 |}.

(** The attributes of a [RiskManager]. *)
Record State := {
  max_daily_loss    : F;
  max_position_size : F;
  max_single_bet    : F;
  stop_loss_pct     : F;
  _trades           : list TradeRecord;
  _daily_stats      : gmap string DailyStats;
  _current_exposure : F;
  _daily_pnl        : F;
  _daily_pnl_date   : string;
  _halted           : bool;
  _halt_reason      : string
}.

(** [RiskManager.__init__] *)
Definition init (max_daily_loss max_position_size max_single_bet stop_loss_pct : F)
  : State :=
  {| max_daily_loss := max_daily_loss; max_position_size := max_position_size;
     max_single_bet := max_single_bet; stop_loss_pct := stop_loss_pct;
     _trades := []; _daily_stats := ∅; _current_exposure := lit 0;
     _daily_pnl := lit 0; _daily_pnl_date := ""; _halted := false;
     _halt_reason := "" |}.

(** Assignments to attributes. *)
Definition set_daily (rm : State) (pnl : F) (date : string) : State :=
  {| max_daily_loss := max_daily_loss rm; max_position_size := max_position_size rm;
     max_single_bet := max_single_bet rm; stop_loss_pct := stop_loss_pct rm;
     _trades := _trades rm; _daily_stats := _daily_stats rm;
     _current_exposure := _current_exposure rm;
     _daily_pnl := pnl; _daily_pnl_date := date;
     _halted := _halted rm; _halt_reason := _halt_reason rm |}.

Definition set_halt (rm : State) (halted : bool) (reason : string) : State :=
  {| max_daily_loss := max_daily_loss rm; max_position_size := max_position_size rm;
     max_single_bet := max_single_bet rm; stop_loss_pct := stop_loss_pct rm;
     _trades := _trades rm; _daily_stats := _daily_stats rm;
     _current_exposure := _current_exposure rm;
     _daily_pnl := _daily_pnl rm; _daily_pnl_date := _daily_pnl_date rm;
     _halted := halted; _halt_reason := reason |}.

Definition set_book (rm : State) (trades : list TradeRecord)
           (stats : gmap string DailyStats) (exposure : F) : State :=
  {| max_daily_loss := max_daily_loss rm; max_position_size := max_position_size rm;
     max_single_bet := max_single_bet rm; stop_loss_pct := stop_loss_pct rm;
     _trades := trades; _daily_stats := stats;
     _current_exposure := exposure;
     _daily_pnl := _daily_pnl rm; _daily_pnl_date := _daily_pnl_date rm;
     _halted := _halted rm; _halt_reason := _halt_reason rm |}.

(** The lazy reset of the daily figure, which the source repeats in
    [daily_pnl], [check_can_trade] and [record_settlement]:
    [if self._daily_pnl_date != today: self._daily_pnl = 0.0; ...]. *)
Definition rollover (rm : State) (today : string) : State :=
  if String.eqb (_daily_pnl_date rm) today then rm
  else set_daily rm (lit 0) today.

(** The property [daily_pnl]. *)
Definition daily_pnl (rm : State) (today : string) : F * State :=
  let rm := rollover rm today in (_daily_pnl rm, rm).

(** [check_can_trade]; [today] is [date.today().isoformat()]. *)
Definition check_can_trade (rm : State) (trade_cost : F) (today : string)
  : (bool * string) * State :=
  if _halted rm then
    ((false, "Trading halted: " +:+ _halt_reason rm), rm)
  else
    let rm := rollover rm today in
    if _daily_pnl rm <? - max_daily_loss rm then
      let reason := "Daily loss limit reached: $" +:+ fmt2f (_daily_pnl rm) in
      ((false, reason), set_halt rm true reason)
    else if trade_cost >? max_single_bet rm then
      ((false, "Trade cost $" +:+ fmt2f trade_cost +:+
               " exceeds max single bet $" +:+ fmt2f (max_single_bet rm)), rm)
    else if _current_exposure rm + trade_cost >? max_position_size rm then
      ((false, "Would exceed max position: current $" +:+
               fmt2f (_current_exposure rm) +:+ " + new $" +:+ fmt2f trade_cost +:+
               " > limit $" +:+ fmt2f (max_position_size rm)), rm)
    else ((true, "OK"), rm).

(** [record_trade] *)
Definition record_trade (rm : State) (trade : TradeRecord) (today : string) : State :=
  let stats := default (new_stats today) (_daily_stats rm !! today) in
  let stats :=
    {| date_str := date_str stats;
       trades_count := trades_count stats + 1;
       pure_arb_count :=
         if String.eqb (strategy trade) "pure_arb"
         then pure_arb_count stats + 1 else pure_arb_count stats;
       temporal_arb_count :=
         if String.eqb (strategy trade) "pure_arb"
         then temporal_arb_count stats else temporal_arb_count stats + 1;
       total_invested := total_invested stats + cost trade;
       total_pnl := total_pnl stats;
       wins := wins stats; losses := losses stats;
       max_drawdown := max_drawdown stats; peak_balance := peak_balance stats |} in
  set_book rm (_trades rm ++ [trade]) (<[today := stats]> (_daily_stats rm))
           (_current_exposure rm + cost trade).

(** [trade.status = ...; trade.actual_pnl = pnl] *)
Definition settle_trade (trade : TradeRecord) (won : bool) (pnl : F) : TradeRecord :=
  {| obj := obj trade; timestamp := timestamp trade; strategy := strategy trade;
     direction := direction trade; size := size trade; cost := cost trade;
     expected_payout := expected_payout trade;
     expected_profit := expected_profit trade;
     market_slug := market_slug trade;
     status := if won then "won" else "lost";
     actual_pnl := pnl |}.

Definition settle_stats (won : bool) (pnl : F) (stats : DailyStats) : DailyStats :=
  {| date_str := date_str stats; trades_count := trades_count stats;
     pure_arb_count := pure_arb_count stats;
     temporal_arb_count := temporal_arb_count stats;
     total_invested := total_invested stats;
     total_pnl := total_pnl stats + pnl;
     wins := if won then wins stats + 1 else wins stats;
     losses := if won then losses stats else losses stats + 1;
     max_drawdown := max_drawdown stats; peak_balance := peak_balance stats |}.

(** [record_settlement]: the new state and the trade as mutated. *)
Definition record_settlement (rm : State) (trade : TradeRecord) (won : bool)
           (pnl : F) (today : string) : State * TradeRecord :=
  let trade' := settle_trade trade won pnl in
  let trades :=
    map (fun t => if Nat.eqb (obj t) (obj trade) then trade' else t) (_trades rm) in
  let rm := set_book rm trades (_daily_stats rm)
                     (pymax (lit 0) (_current_exposure rm - cost trade)) in
  let rm := rollover rm today in
  let rm := set_daily rm (_daily_pnl rm + pnl) (_daily_pnl_date rm) in
  let rm := set_book rm (_trades rm)
                     (alter (settle_stats won pnl) today (_daily_stats rm))
                     (_current_exposure rm) in
  (rm, trade').

(** The dict of [get_summary]. *)
Record SummaryDict := {
  sm_halted               : bool;
  sm_halt_reason          : string;
  sm_current_exposure     : F;
  sm_daily_pnl            : F;
  sm_daily_trades         : Z;
  sm_daily_wins           : Z;
  sm_daily_losses         : Z;
  sm_win_rate             : F;
  sm_total_invested_today : F;
  sm_pure_arb_count       : Z;
  sm_temporal_arb_count   : Z
}.

Definition get_summary (rm : State) (today : string) : SummaryDict * State :=
  let stats := default (new_stats today) (_daily_stats rm !! today) in
  let win_rate :=
    if (0 <? wins stats + losses stats)%Z
    then lit (inject_Z (wins stats)) / lit (inject_Z (wins stats + losses stats)) * lit 100
    else lit 0 in
  let '(pnl, rm') := daily_pnl rm today in
  ({| sm_halted := _halted rm; sm_halt_reason := _halt_reason rm;
      sm_current_exposure := _current_exposure rm;
      sm_daily_pnl := pnl;
      sm_daily_trades := trades_count stats;
      sm_daily_wins := wins stats; sm_daily_losses := losses stats;
      sm_win_rate := win_rate;
      sm_total_invested_today := total_invested stats;
      sm_pure_arb_count := pure_arb_count stats;
      sm_temporal_arb_count := temporal_arb_count stats |}, rm').

(** What [save_state] writes: the last 100 trades and three figures. *)
Definition save_state (rm : State) : list TradeRecord * F * string * F :=
  (drop (length (_trades rm) - 100) (_trades rm),
   _daily_pnl rm, _daily_pnl_date rm, _current_exposure rm).

(** [reset_daily] *)
Definition reset_daily (rm : State) (today : string) : State :=
  set_halt (set_daily rm (lit 0) today) false "".

(** The operations of the risk gate, and a run of them; each operation
    comes with the date it reads. *)
Inductive Op :=
| OpCheck (trade_cost : F)
| OpRecordTrade (trade : TradeRecord)
| OpRecordSettlement (trade : TradeRecord) (won : bool) (pnl : F)
| OpDailyPnl
| OpGetSummary
| OpSaveState
| OpResetDaily.

Definition step (rm : State) (o : string * Op) : State :=
  let '(today, op) := o in
  match op with
  | OpCheck c => snd (check_can_trade rm c today)
  | OpRecordTrade t => record_trade rm t today
  | OpRecordSettlement t won pnl => fst (record_settlement rm t won pnl today)
  | OpDailyPnl => snd (daily_pnl rm today)
  | OpGetSummary => snd (get_summary rm today)
  | OpSaveState => rm
  | OpResetDaily => reset_daily rm today
  end.

Definition run (rm : State) (ops : list (string * Op)) : State :=
  fold_left step ops rm.

Definition is_reset (o : string * Op) : bool :=
  match snd o with OpResetDaily => true | _ => false end.

(** The cost an operation carries, if any. *)
Definition op_cost (o : string * Op) : option F :=
  match snd o with
  | OpCheck c => Some c
  | OpRecordTrade t => Some (cost t)
  | OpRecordSettlement t _ _ => Some (cost t)
  | _ => None
  end.
End Defs.
Arguments TradeRecord F : clear implicits.
Arguments DailyStats F : clear implicits.
Arguments State F : clear implicits.
Arguments SummaryDict F : clear implicits.
Arguments Op F : clear implicits.

(** A day of trading that ends with a loss of 600 against a limit of 500. *)
Definition losing_day : State Q :=
  let t := {| obj := 0; timestamp := 0; strategy := "temporal_arb"; direction := "UP";
              size := 100; cost := 50; expected_payout := 100; expected_profit := 50;
              market_slug := "btc"; status := "open"; actual_pnl := 0 |} in
  run (init 500 5000 500 5)
      [("2026-01-05", OpRecordTrade t);
       ("2026-01-05", OpRecordSettlement t false (-600));
       ("2026-01-05", OpCheck 10)].

End RiskManager.

(* ===================================================================== *)
(** * cex_price_feed.py *)
(* ===================================================================== *)

Module CexPriceFeed.

(** The two values the feed gives to [MomentumSignal.direction]. *)
Inductive Direction := UP | DOWN.

#[export] Instance Direction_eq_dec : EqDecision Direction.
Proof. solve_decision. Defined.

Section Defs.
Context {F : Type} `{Arith F}.
Local Open Scope py_scope.

Record PriceSnapshot := {
  price     : F;
  timestamp : F;
  source    : string
}.

Record MomentumSignal := {
  direction        : Direction;
  confidence       : F;
  price_change_pct : F;
  current_price    : F;
  reference_price  : F;
  window_seconds   : Z;
  sig_timestamp    : F          (* the field [timestamp] *)
}.

(** The attributes of a [BinancePriceFeed] that the signals read. *)
Record Feed := {
  _prices             : list PriceSnapshot;
  _current_price      : option F;
  _last_update        : F;
  _history_seconds    : F;
  _window_start_price : option F;
  _window_start_time  : F
}.

(** Equality of two signals, as the dataclass defines it: field by field. *)
Definition sig_eqb (a b : MomentumSignal) : bool :=
  bool_decide (direction a = direction b)
  && (confidence a =? confidence b)
  && (price_change_pct a =? price_change_pct b)
  && (current_price a =? current_price b)
  && (reference_price a =? reference_price b)
  && (window_seconds a =? window_seconds b)%Z
  && (sig_timestamp a =? sig_timestamp b).

(** ** Reading the clock

    A computation that calls [time.time()] is a function of the number
    of calls made so far; [clk n] is what call number [n] returns. *)
Section Clocked.
Variable clk : nat -> F.

Definition Timed (A : Type) : Type := nat -> A * nat.
Definition ret {A} (a : A) : Timed A := fun n => (a, n).
Definition bind {A B} (m : Timed A) (k : A -> Timed B) : Timed B :=
  fun n => let '(a, n') := m n in k a n'.
Definition time_time : Timed F := fun n => (clk n, S n).

Notation "'ask' x ':=' m 'in' k" := (bind m (fun x => k))
  (at level 10, x name, m at level 100, k at level 200).

(** The first snapshot of the window that is not older than [cutoff]. *)
Fixpoint reference_at (cutoff : F) (prices : list PriceSnapshot) : option F :=
  match prices with
  | [] => None
  | snap :: rest =>
      if timestamp snap >=? cutoff then Some (price snap)
      else reference_at cutoff rest
  end.

Definition lookback_confidence (abs_change : F) : F :=
  if abs_change >=? lit 0.50 then lit 0.95
  else if abs_change >=? lit 0.30 then lit 0.85
  else if abs_change >=? lit 0.15 then lit 0.75
  else if abs_change >=? lit 0.08 then lit 0.65
  else if abs_change >=? lit 0.05 then lit 0.55
  else lit 0.45.

Definition window_confidence (abs_change : F) : F :=
  if abs_change >=? lit 0.40 then lit 0.95
  else if abs_change >=? lit 0.25 then lit 0.90
  else if abs_change >=? lit 0.15 then lit 0.80
  else if abs_change >=? lit 0.10 then lit 0.70
  else if abs_change >=? lit 0.05 then lit 0.60
  else lit 0.50.

(** [get_momentum] *)
Definition get_momentum (feed : Feed) (lookback_seconds : Z)
  : Timed (option MomentumSignal) :=
  match _prices feed, _current_price feed with
  | [], _ | _, None => ret None
  | _ :: _, Some current =>
      ask now := time_time in
      let cutoff := now - lit (inject_Z lookback_seconds) in
      match reference_at cutoff (_prices feed) with
      | None => ret None
      | Some reference =>
          if reference =? lit 0 then ret None
          else
            let change_pct := (current - reference) / reference * lit 100 in
            let abs_change := fabs change_pct in
            if abs_change <? lit 0.01 then ret None
            else
              ret (Some {| direction := if change_pct >? lit 0 then UP else DOWN;
                           confidence := lookback_confidence abs_change;
                           price_change_pct := change_pct;
                           current_price := current;
                           reference_price := reference;
                           window_seconds := lookback_seconds;
                           sig_timestamp := now |})
      end
  end.

(** [get_window_momentum]; it raises when [int(elapsed)] does. *)
Definition get_window_momentum (feed : Feed)
  : Timed (Outcome (option MomentumSignal)) :=
  match _window_start_price feed, _current_price feed with
  | None, _ | _, None => ret (Ret None)
  | Some start_price, Some current =>
      if start_price =? lit 0 then ret (Ret None)
      else
        let change_pct := (current - start_price) / start_price * lit 100 in
        let abs_change := fabs change_pct in
        if abs_change <? lit 0.005 then ret (Ret None)
        else
          ask t := time_time in
          let elapsed := t - _window_start_time feed in
          match to_int elapsed with
          | None => ret (Raise "cannot convert float to integer")
          | Some seconds =>
              ask t' := time_time in
              ret (Ret (Some
                {| direction := if change_pct >? lit 0 then UP else DOWN;
                   confidence := window_confidence abs_change;
                   price_change_pct := change_pct;
                   current_price := current;
                   reference_price := start_price;
                   window_seconds := seconds;
                   sig_timestamp := t' |}))
          end
  end.

(** [sig == window_sig] *)
Definition is_window_sig (window_sig : option MomentumSignal)
           (sig : MomentumSignal) : bool :=
  match window_sig with Some w => sig_eqb sig w | None => false end.

(** What the fusion reads of a signal: its confidence, and whether it
    equals the window signal. *)
Definition reading (window_sig : option MomentumSignal) (sig : MomentumSignal)
  : F * bool :=
  (confidence sig, is_window_sig window_sig sig).

(** The weight of the signal at position [i]. *)
Definition weight_of (window_sig : option MomentumSignal) (i : nat)
           (sig : MomentumSignal) : F :=
  if is_window_sig window_sig sig then lit 3
  else lit 1 + lit (inject_Z (Z.of_nat i)) * lit 0.5.

(** [for i, sig in enumerate(signals): ...], from position [i] on;
    the accumulator is [(weighted_conf, total_weight)]. *)
Fixpoint weigh (window_sig : option MomentumSignal) (i : nat)
         (signals : list MomentumSignal) (acc : F * F) : F * F :=
  match signals with
  | [] => acc
  | sig :: rest =>
      let weight := weight_of window_sig i sig in
      weigh window_sig (S i) rest
            (fst acc + confidence sig * weight, snd acc + weight)
  end.

(** The same loop on what it reads of each signal: its confidence,
    and whether it equals the window signal. *)
Fixpoint weigh_flags (i : nat) (signals : list (F * bool)) (acc : F * F) : F * F :=
  match signals with
  | [] => acc
  | (conf, is_window) :: rest =>
      let weight :=
        if is_window then lit 3
        else lit 1 + lit (inject_Z (Z.of_nat i)) * lit 0.5 in
      weigh_flags (S i) rest (fst acc + conf * weight, snd acc + weight)
  end.

Definition combined_confidence (signals : list (F * bool)) : F :=
  let '(weighted_conf, total_weight) := weigh_flags 0 signals (lit 0, lit 0) in
  if total_weight >? lit 0 then weighted_conf / total_weight else lit 0.

(** [[sig] if sig else []] *)
Definition present (sig : option MomentumSignal) : list MomentumSignal :=
  match sig with Some s => [s] | None => [] end.

(** The part of [get_multi_timeframe_signal] that follows the
    collection of the signals, up to the reading of the clock for the
    timestamp of the result. *)
Definition fuse (signals : list MomentumSignal)
           (window_sig : option MomentumSignal) : Timed (option MomentumSignal) :=
  match last signals with
  | None => ret None                                   (* if not signals *)
  | Some latest =>
      match remove_dups (map direction signals) with
      | [dir] =>                                       (* directions.pop() *)
          let '(weighted_conf, total_weight) :=
            weigh window_sig 0 signals (lit 0, lit 0) in
          let combined_confidence :=
            if total_weight >? lit 0 then weighted_conf / total_weight
            else lit 0 in
          let best := default latest window_sig in
          ask t := time_time in
          ret (Some {| direction := dir;
                       confidence := combined_confidence;
                       price_change_pct := price_change_pct best;
                       current_price := current_price best;
                       reference_price := reference_price best;
                       window_seconds := window_seconds best;
                       sig_timestamp := t |})
      | _ => ret None                                  (* conflicting signals *)
      end
  end.

(** The signals [get_multi_timeframe_signal] collects: those of the
    lookbacks 15, 30 and 60, then the window signal. *)
Definition collect (feed : Feed)
  : Timed (Outcome (list MomentumSignal * option MomentumSignal)) :=
  ask s15 := get_momentum feed 15 in
  ask s30 := get_momentum feed 30 in
  ask s60 := get_momentum feed 60 in
  ask w := get_window_momentum feed in
  match w with
  | Raise e => ret (Raise e)
  | Ret window_sig =>
      ret (Ret (present s15 ++ present s30 ++ present s60 ++ present window_sig,
                window_sig))
  end.

(** [get_multi_timeframe_signal] *)
Definition get_multi_timeframe_signal (feed : Feed)
  : Timed (Outcome (option MomentumSignal)) :=
  ask c := collect feed in
  match c with
  | Raise e => ret (Raise e)
  | Ret (signals, window_sig) =>
      ask r := fuse signals window_sig in
      ret (Ret r)
  end.

(** ** Writing to the feed *)

(** [deque(maxlen=10000)]: appending to a full deque drops its oldest
    element. *)
Definition maxlen : Z := 10000.

Definition deque_append (prices : list PriceSnapshot) (snap : PriceSnapshot)
  : list PriceSnapshot :=
  if (Z.of_nat (length prices) <? maxlen)%Z then prices ++ [snap]
  else drop 1 prices ++ [snap].

(** [while self._prices and self._prices[0].timestamp < cutoff: popleft()] *)
Fixpoint trim_older (cutoff : F) (prices : list PriceSnapshot) : list PriceSnapshot :=
  match prices with
  | [] => []
  | snap :: rest =>
      if timestamp snap <? cutoff then trim_older cutoff rest else prices
  end.

(** [_record_price] *)
Definition _record_price (feed : Feed) (new_price : F) : Timed Feed :=
  ask now := time_time in
  let prices :=
    deque_append (_prices feed)
                 {| price := new_price; timestamp := now; source := "binance" |} in
  let cutoff := now - _history_seconds feed in
  ret {| _prices := trim_older cutoff prices;
         _current_price := Some new_price;
         _last_update := now;
         _history_seconds := _history_seconds feed;
         _window_start_price := _window_start_price feed;
         _window_start_time := _window_start_time feed |}.

(** [set_window_start]: [price or self._current_price] is pinned with the
    time of the call; the message that is then formatted for the log
    raises a [TypeError] when no price was there to pin. *)
Definition set_window_start (feed : Feed) (start_price : option F)
  : Timed (Outcome unit * Feed) :=
  let pinned :=
    match start_price with
    | Some p => if truthy p then Some p else _current_price feed
    | None => _current_price feed
    end in
  ask t := time_time in
  let feed' :=
    {| _prices := _prices feed;
       _current_price := _current_price feed;
       _last_update := _last_update feed;
       _history_seconds := _history_seconds feed;
       _window_start_price := pinned;
       _window_start_time := t |} in
  ret (match pinned with
       | Some _ => Ret tt
       | None => Raise "unsupported format string passed to NoneType.__format__"
       end, feed').
End Clocked.

(** ** The finitely many ways to fuse

    The confidences of the signals come from two tables, so that the
    lists of (confidence, equals-the-window-signal) the fusion can meet
    are finitely many: one slot for each of the three lookbacks and one
    for the window, each empty or holding one entry. *)
Definition lookback_table : list F :=
  [lit 0.95; lit 0.85; lit 0.75; lit 0.65; lit 0.55; lit 0.45].

Definition window_table : list F :=
  [lit 0.95; lit 0.90; lit 0.80; lit 0.70; lit 0.60; lit 0.50].

Definition slot (table : list F) : list (list (F * bool)) :=
  [] :: flat_map (fun c => [[(c, true)]; [(c, false)]]) table.

(** The combined confidence of a non-empty fusion lies in [[lo, hi]]. *)
Definition fuses_within (lo hi : F) (signals : list (F * bool)) : bool :=
  match signals with
  | [] => true
  | _ => (lo <=? combined_confidence signals) && (combined_confidence signals <=? hi)
  end.

(** ... and so it does for every fusion there is. *)
Definition all_fuse_within (lo hi : F) : bool :=
  forallb (fun a =>
    forallb (fun b =>
      forallb (fun c =>
        forallb (fun d => fuses_within lo hi (a ++ b ++ c ++ d))
                (slot window_table))
        (slot lookback_table))
      (slot lookback_table))
    (slot lookback_table).
End Defs.
Arguments PriceSnapshot F : clear implicits.
Arguments MomentumSignal F : clear implicits.
Arguments Feed F : clear implicits.

(** The words of the specification about the fusion, in exact arithmetic:
    the weighted average of confidences [cs] under weights [ws]. *)
Definition sum (l : list Q) : Q := foldr Qplus 0 l.

Definition weighted_average (cs ws : list Q) : Q :=
  sum (zip_with Qmult cs ws) / sum ws.

(** The weights the source gives to the signals, from position [i] on. *)
Fixpoint weights_from (window_sig : option (MomentumSignal Q)) (i : nat)
         (signals : list (MomentumSignal Q)) : list Q :=
  match signals with
  | [] => []
  | sig :: rest => weight_of window_sig i sig :: weights_from window_sig (S i) rest
  end.

(** A clock that advances by a millisecond at each reading. *)
Definition ticking_clock (n : nat) : Q := 1000 + inject_Z (Z.of_nat n) * 0.001.

(** A feed on which the lookbacks of 15, 30 and 60 seconds see rises of
    about 0.06%, 0.10% and 0.20%, and no window start is pinned. *)
Definition rising_feed : Feed Q :=
  {| _prices := [ {| price := 9980; timestamp := 941; source := "binance" |};
                  {| price := 9990; timestamp := 971; source := "binance" |};
                  {| price := 9994; timestamp := 986; source := "binance" |};
                  {| price := 10000; timestamp := 1000; source := "binance" |} ];
     _current_price := Some 10000;
     _last_update := 1000;
     _history_seconds := 1200;
     _window_start_price := None;
     _window_start_time := 0 |}.

(** A clock that stands still, and a feed whose window started 60 seconds
    before, at the price the 60-second lookback refers to. *)
Definition frozen_clock (n : nat) : Q := 1000.

Definition jump_feed : Feed Q :=
  {| _prices := [ {| price := 9900; timestamp := 940; source := "binance" |};
                  {| price := 9996; timestamp := 990; source := "binance" |} ];
     _current_price := Some 10000;
     _last_update := 1000;
     _history_seconds := 1200;
     _window_start_price := Some 9900;
     _window_start_time := 940 |}.

(** In binary64: a feed whose only snapshot in the window is [change] per
    cent below the current price of 100, with no window start pinned, and
    a clock that advances by one second at each reading. *)
Definition moved_feed (reference : Q) : Feed PrimFloat.float :=
  let lit := Binary64.of_Q in
  {| _prices := [ {| price := lit reference; timestamp := lit 995;
                     source := "binance" |} ];
     _current_price := Some (lit 100);
     _last_update := lit 995;
     _history_seconds := lit 1200;
     _window_start_price := None;
     _window_start_time := lit 0 |}.

Definition second_clock (n : nat) : PrimFloat.float :=
  Binary64.of_Q (1000 + inject_Z (Z.of_nat n)).

(** Positional weights [1.0 + 0.5 * i], counted from position [i]. *)
Fixpoint positional_weights (i : nat) (n : nat) : list Q :=
  match n with
  | O => []
  | S n' => (1 + inject_Z (Z.of_nat i) * 0.5) :: positional_weights (S i) n'
  end.
End CexPriceFeed.

(* ===================================================================== *)
(** * main.py *)
(* ===================================================================== *)

Module Main.
Import Trading.
Section Defs.
Context {F : Type} `{Arith F}.
Local Open Scope py_scope.

(** The fields of [Settings] that the core reads. *)
Record Settings := {
  target_pair_cost                  : F;
  pure_arb_order_size               : F;
  temporal_arb_enabled              : bool;
  temporal_arb_order_size           : F;
  temporal_arb_confidence_threshold : F;
  temporal_arb_price_threshold      : F;
  order_type                        : string;
  dry_run                           : bool;
  cooldown_seconds                  : F
}.

(** The dict of a pure-arbitrage opportunity. *)
Record PureOpp := {
  price_up         : F;
  price_down       : F;
  total_cost       : F;
  profit_per_share : F;
  profit_pct       : F;
  order_size       : F;
  total_investment : F;
  expected_payout  : F;
  expected_profit  : F;
  vwap_up          : option F;
  vwap_down        : option F
}.

(** The dict of a temporal-arbitrage opportunity. *)
Record TemporalOpp := {
  t_direction        : CexPriceFeed.Direction;
  t_token_id         : option string;
  t_price            : option F;
  t_vwap             : option F;
  t_order_size       : F;
  t_total_investment : F;
  t_expected_payout  : F;
  t_expected_profit  : F;
  t_confidence       : F;
  t_btc_change_pct   : F;
  t_btc_price        : F
}.

(** [check_pure_arbitrage] *)
Definition check_pure_arbitrage (settings : Settings) (up_book down_book : Book F)
  : option PureOpp :=
  let asks_up := book_asks up_book in
  let asks_down := book_asks down_book in
  match compute_buy_fill asks_up (pure_arb_order_size settings),
        compute_buy_fill asks_down (pure_arb_order_size settings) with
  | Some fill_up, Some fill_down =>
      match worst fill_up, worst fill_down with
      | Some limit_price_up, Some limit_price_down =>
          let total_cost := limit_price_up + limit_price_down in
          if total_cost <=? target_pair_cost settings then
            let profit := lit 1 - total_cost in
            let profit_pct :=
              if total_cost >? lit 0 then profit / total_cost * lit 100 else lit 0 in
            let size := pure_arb_order_size settings in
            let investment := total_cost * size in
            let expected_payout := lit 1 * size in
            let expected_profit := expected_payout - investment in
            Some {| price_up := limit_price_up;
                    price_down := limit_price_down;
                    total_cost := total_cost;
                    profit_per_share := profit;
                    profit_pct := profit_pct;
                    order_size := size;
                    total_investment := investment;
                    expected_payout := expected_payout;
                    expected_profit := expected_profit;
                    vwap_up := vwap fill_up;
                    vwap_down := vwap fill_down |}
          else None
      | _, _ => None
      end
  | _, _ => None
  end.

(** [check_temporal_arbitrage]; the two token ids are attributes of the bot. *)
Definition check_temporal_arbitrage (settings : Settings)
           (yes_token_id no_token_id : option string)
           (up_book down_book : Book F)
           (momentum : option (CexPriceFeed.MomentumSignal F))
  : option TemporalOpp :=
  if negb (temporal_arb_enabled settings) then None
  else
    match momentum with
    | None => None
    | Some momentum =>
        if CexPriceFeed.confidence momentum
           <? temporal_arb_confidence_threshold settings
        then None
        else
          let '(target_token, target_book) :=
            match CexPriceFeed.direction momentum with
            | CexPriceFeed.UP => (yes_token_id, up_book)
            | CexPriceFeed.DOWN => (no_token_id, down_book)
            end in
          match book_best_ask target_book with
          | None => None
          | Some best_ask =>
              if best_ask >? temporal_arb_price_threshold settings then None
              else
                match compute_buy_fill (book_asks target_book)
                                       (temporal_arb_order_size settings) with
                | None => None
                | Some fill =>
                    let size := temporal_arb_order_size settings in
                    let expected_payout := size * lit 1 in
                    Some {| t_direction := CexPriceFeed.direction momentum;
                            t_token_id := target_token;
                            t_price := worst fill;
                            t_vwap := vwap fill;
                            t_order_size := size;
                            t_total_investment := cost fill;
                            t_expected_payout := expected_payout;
                            t_expected_profit := expected_payout - cost fill;
                            t_confidence := CexPriceFeed.confidence momentum;
                            t_btc_change_pct := CexPriceFeed.price_change_pct momentum;
                            t_btc_price := CexPriceFeed.current_price momentum |}
                end
          end
    end.

(** ** Execution *)

(** The attributes of the bot that execution reads or writes; [next_obj]
    is the identity the next [TradeRecord] object gets. *)
Record Bot := {
  settings                   : Settings;
  risk_manager               : RiskManager.State F;
  market_slug                : option string;
  yes_token_id               : option string;
  no_token_id                : option string;
  trades_executed            : Z;
  pure_arb_opportunities     : Z;
  temporal_arb_opportunities : Z;
  sim_balance                : F;
  sim_trades                 : list (PureOpp + TemporalOpp);
  _last_trade_ts             : F;
  next_obj                   : nat
}.

Definition set_last_trade_ts (bot : Bot) (ts : F) : Bot :=
  {| settings := settings bot; risk_manager := risk_manager bot;
     market_slug := market_slug bot; yes_token_id := yes_token_id bot;
     no_token_id := no_token_id bot; trades_executed := trades_executed bot;
     pure_arb_opportunities := pure_arb_opportunities bot;
     temporal_arb_opportunities := temporal_arb_opportunities bot;
     sim_balance := sim_balance bot; sim_trades := sim_trades bot;
     _last_trade_ts := ts; next_obj := next_obj bot |}.

Definition set_risk_manager (bot : Bot) (rm : RiskManager.State F) : Bot :=
  {| settings := settings bot; risk_manager := rm;
     market_slug := market_slug bot; yes_token_id := yes_token_id bot;
     no_token_id := no_token_id bot; trades_executed := trades_executed bot;
     pure_arb_opportunities := pure_arb_opportunities bot;
     temporal_arb_opportunities := temporal_arb_opportunities bot;
     sim_balance := sim_balance bot; sim_trades := sim_trades bot;
     _last_trade_ts := _last_trade_ts bot; next_obj := next_obj bot |}.

Definition set_next_obj (bot : Bot) (n : nat) : Bot :=
  {| settings := settings bot; risk_manager := risk_manager bot;
     market_slug := market_slug bot; yes_token_id := yes_token_id bot;
     no_token_id := no_token_id bot; trades_executed := trades_executed bot;
     pure_arb_opportunities := pure_arb_opportunities bot;
     temporal_arb_opportunities := temporal_arb_opportunities bot;
     sim_balance := sim_balance bot; sim_trades := sim_trades bot;
     _last_trade_ts := _last_trade_ts bot; next_obj := n |}.

(** [self.trades_executed += 1] and the counter of the strategy. *)
Definition count_trade (bot : Bot) (pure : bool) : Bot :=
  {| settings := settings bot; risk_manager := risk_manager bot;
     market_slug := market_slug bot; yes_token_id := yes_token_id bot;
     no_token_id := no_token_id bot; trades_executed := trades_executed bot + 1;
     pure_arb_opportunities :=
       if pure then pure_arb_opportunities bot + 1 else pure_arb_opportunities bot;
     temporal_arb_opportunities :=
       if pure then temporal_arb_opportunities bot
       else temporal_arb_opportunities bot + 1;
     sim_balance := sim_balance bot; sim_trades := sim_trades bot;
     _last_trade_ts := _last_trade_ts bot; next_obj := next_obj bot |}.

Definition set_sim (bot : Bot) (balance : F) (trades : list (PureOpp + TemporalOpp))
  : Bot :=
  {| settings := settings bot; risk_manager := risk_manager bot;
     market_slug := market_slug bot; yes_token_id := yes_token_id bot;
     no_token_id := no_token_id bot; trades_executed := trades_executed bot;
     pure_arb_opportunities := pure_arb_opportunities bot;
     temporal_arb_opportunities := temporal_arb_opportunities bot;
     sim_balance := balance; sim_trades := trades;
     _last_trade_ts := _last_trade_ts bot; next_obj := next_obj bot |}.

(** The arguments of one order. *)
Record OrderArgs := {
  side     : string;
  token_id : option string;
  o_price  : option F;
  o_size   : F
}.

(** The calls the execution makes to its collaborators. *)
Inductive Event :=
| EvRiskCheck (trade_cost : F) (allowed : bool) (reason : string)
| EvPlaceOrdersFast (orders : list OrderArgs) (order_type : string)
| EvWaitOrder (order_id : string) (requested_size : F)
| EvCancelOrders (order_ids : list string)
| EvGetOrderBook (token_id : option string)
| EvPlaceOrder (order : OrderArgs) (tif : string)
| EvObsTrack (amount : F) (task_id : string)
| EvObsSettle (revenue : F)
| EvNotifyTrade (trade : RiskManager.TradeRecord F).

(** What the world answers during one execution: the readings of the
    clocks, and the answers of the exchange.  An answer to the placing of
    orders is the order id that [extract_order_id] finds in each result. *)
Record Env := {
  now               : F;
  today_check       : string;
  today_trade       : string;
  today_settle      : string;
  place_orders_fast : list OrderArgs -> string -> Outcome (list (option string));
  place_order       : OrderArgs -> string -> Outcome (option string);
  order_polls       : string -> F * list (F * PollResult F);
  get_order_book    : option string -> Book F
}.

(** [f"{self.market_slug}"] *)
Definition slug_str (bot : Bot) : string := default "None" (market_slug bot).

(** Truth value of an order id. *)
Definition truthy_id (oid : option string) : option string :=
  match oid with
  | Some s => if String.eqb s "" then None else Some s
  | None => None
  end.

(** [trading.cancel_orders]: no call for an empty list.  The caller
    drops whatever the call raises, so that its answer is not an input. *)
Definition cancel_events (order_ids : list string) : list Event :=
  match order_ids with [] => [] | _ => [EvCancelOrders order_ids] end.

(** The loop that unwinds the filled legs; a [place_order] that raises
    ends it. *)
Fixpoint unwind (env : Env) (size : F) (legs : list (Summary F * option string))
  : list Event :=
  match legs with
  | [] => []
  | (state, token) :: rest =>
      if leg_filled state then
        let book := get_order_book env token in
        match book_best_bid book with
        | Some best_bid =>
            if truthy best_bid then
              let order := {| side := "SELL"; token_id := token;
                              o_price := Some best_bid; o_size := size |} in
              match place_order env order "FAK" with
              | Ret _ =>
                  EvGetOrderBook token :: EvPlaceOrder order "FAK"
                    :: unwind env size rest
              | Raise _ => [EvGetOrderBook token; EvPlaceOrder order "FAK"]
              end
            else EvGetOrderBook token :: unwind env size rest
        | None => EvGetOrderBook token :: unwind env size rest
        end
      else unwind env size rest
  end.

(** The [else] branch of the check that both legs are filled. *)
Definition cleanup_partial_fill (bot : Bot) (env : Env) (size : F)
           (order_ids : list (option string)) (up_state down_state : Summary F)
  : list Event :=
  cancel_events (omap truthy_id order_ids)
  ++ unwind env size [(up_state, yes_token_id bot); (down_state, no_token_id bot)].

Definition new_trade (bot : Bot) (ts : F) (strategy direction : string)
           (size cost payout profit : F) : RiskManager.TradeRecord F :=
  {| RiskManager.obj := next_obj bot;
     RiskManager.timestamp := ts;
     RiskManager.strategy := strategy;
     RiskManager.direction := direction;
     RiskManager.size := size;
     RiskManager.cost := cost;
     RiskManager.expected_payout := payout;
     RiskManager.expected_profit := profit;
     RiskManager.market_slug := default "" (market_slug bot);
     RiskManager.status := "open";
     RiskManager.actual_pnl := lit 0 |}.

(** The two orders of a pure arbitrage. *)
Definition pure_orders (bot : Bot) (opp : PureOpp) : list OrderArgs :=
  [ {| side := "BUY"; token_id := yes_token_id bot;
       o_price := Some (price_up opp); o_size := order_size opp |};
    {| side := "BUY"; token_id := no_token_id bot;
       o_price := Some (price_down opp); o_size := order_size opp |} ].

(** The live branch of [execute_pure_arbitrage], from the placing of the
    two orders on. *)
Definition pure_live (bot : Bot) (opp : PureOpp) (env : Env)
           (trade : RiskManager.TradeRecord F) : option (Bot * list Event) :=
  let orders := pure_orders bot opp in
  let placed := EvPlaceOrdersFast orders (order_type (settings bot)) in
  match place_orders_fast env orders (order_type (settings bot)) with
  | Raise _ => Some (bot, [placed])
  | Ret order_ids =>
      match order_ids !! 0%nat ≫= truthy_id, order_ids !! 1%nat ≫= truthy_id with
      | Some id_up, Some id_down =>
          let '(start_up, ticks_up) := order_polls env id_up in
          let '(start_down, ticks_down) := order_polls env id_down in
          match wait_for_terminal_order (Some (order_size opp)) default_timeout
                                        start_up ticks_up with
          | None => None
          | Some up_state =>
              match wait_for_terminal_order (Some (order_size opp)) default_timeout
                                            start_down ticks_down with
              | None => None
              | Some down_state =>
                  let waited := [placed; EvWaitOrder id_up (order_size opp);
                                 EvWaitOrder id_down (order_size opp)] in
                  if leg_filled up_state && leg_filled down_state then
                    let rm := RiskManager.record_trade (risk_manager bot) trade
                                                       (today_trade env) in
                    Some (count_trade (set_risk_manager bot rm) true,
                          waited ++ [EvNotifyTrade trade])
                  else
                    Some (bot, waited ++ cleanup_partial_fill bot env (order_size opp)
                                                              order_ids up_state down_state)
              end
          end
      | _, _ => Some (bot, [placed])     (* an exception, caught and logged *)
      end
  end.

(** [execute_pure_arbitrage]; [None] when the polling of an order cannot
    be followed to its end in [env]. *)
Definition execute_pure_arbitrage (bot : Bot) (opp : PureOpp) (env : Env)
  : option (Bot * list Event) :=
  if now env - _last_trade_ts bot <? cooldown_seconds (settings bot) then
    Some (bot, [])
  else
    let bot := set_last_trade_ts bot (now env) in
    let '((can_trade, reason), rm) :=
      RiskManager.check_can_trade (risk_manager bot) (total_investment opp)
                                  (today_check env) in
    let bot := set_risk_manager bot rm in
    let checked := EvRiskCheck (total_investment opp) can_trade reason in
    if negb can_trade then Some (bot, [checked])
    else
      let trade := new_trade bot (now env) "pure_arb" "BOTH" (order_size opp)
                             (total_investment opp) (expected_payout opp)
                             (expected_profit opp) in
      let bot := set_next_obj bot (S (next_obj bot)) in
      if dry_run (settings bot) then
        if sim_balance bot <? total_investment opp then Some (bot, [checked])
        else
          let bot := set_sim bot (sim_balance bot - total_investment opp
                                  + expected_payout opp)
                             (sim_trades bot ++ [inl opp]) in
          let rm := RiskManager.record_trade (risk_manager bot) trade
                                             (today_trade env) in
          let '(rm, trade') :=
            RiskManager.record_settlement rm trade true (expected_profit opp)
                                          (today_settle env) in
          let bot := count_trade (set_risk_manager bot rm) true in
          Some (bot, [checked;
                      EvObsTrack (total_investment opp)
                                 ("pure_arb:" +:+ slug_str bot);
                      EvObsSettle (expected_payout opp);
                      EvNotifyTrade trade'])
      else
        match pure_live bot opp env trade with
        | Some (bot, evs) => Some (bot, checked :: evs)
        | None => None
        end.

(** The live branch of [execute_temporal_arbitrage]. *)
Definition temporal_live (bot : Bot) (opp : TemporalOpp) (env : Env)
           (trade : RiskManager.TradeRecord F) : option (Bot * list Event) :=
  let order := {| side := "BUY"; token_id := t_token_id opp;
                  o_price := t_price opp; o_size := t_order_size opp |} in
  let placed := EvPlaceOrder order (order_type (settings bot)) in
  match place_order env order (order_type (settings bot)) with
  | Raise _ => Some (bot, [placed])
  | Ret oid =>
      match truthy_id oid with
      | None => Some (bot, [placed])
      | Some order_id =>
          let '(start, ticks) := order_polls env order_id in
          match wait_for_terminal_order (Some (t_order_size opp)) default_timeout
                                        start ticks with
          | None => None
          | Some state =>
              let waited := [placed; EvWaitOrder order_id (t_order_size opp)] in
              if leg_filled state then
                let rm := RiskManager.record_trade (risk_manager bot) trade
                                                   (today_trade env) in
                Some (count_trade (set_risk_manager bot rm) false,
                      waited ++ [EvNotifyTrade trade])
              else Some (bot, waited)
          end
      end
  end.

Definition direction_name (d : CexPriceFeed.Direction) : string :=
  match d with CexPriceFeed.UP => "UP" | CexPriceFeed.DOWN => "DOWN" end.

(** [execute_temporal_arbitrage] *)
Definition execute_temporal_arbitrage (bot : Bot) (opp : TemporalOpp) (env : Env)
  : option (Bot * list Event) :=
  if now env - _last_trade_ts bot <? cooldown_seconds (settings bot) then
    Some (bot, [])
  else
    let bot := set_last_trade_ts bot (now env) in
    let '((can_trade, reason), rm) :=
      RiskManager.check_can_trade (risk_manager bot) (t_total_investment opp)
                                  (today_check env) in
    let bot := set_risk_manager bot rm in
    let checked := EvRiskCheck (t_total_investment opp) can_trade reason in
    if negb can_trade then Some (bot, [checked])
    else
      let trade := new_trade bot (now env) "temporal_arb"
                             (direction_name (t_direction opp)) (t_order_size opp)
                             (t_total_investment opp) (t_expected_payout opp)
                             (t_expected_profit opp) in
      let bot := set_next_obj bot (S (next_obj bot)) in
      if dry_run (settings bot) then
        if sim_balance bot <? t_total_investment opp then Some (bot, [checked])
        else
          let bot := set_sim bot (sim_balance bot - t_total_investment opp)
                             (sim_trades bot ++ [inr opp]) in
          let rm := RiskManager.record_trade (risk_manager bot) trade
                                             (today_trade env) in
          let bot := count_trade (set_risk_manager bot rm) false in
          Some (bot, [checked;
                      EvObsTrack (t_total_investment opp)
                                 ("temporal_arb:" +:+ slug_str bot);
                      EvNotifyTrade trade])
      else
        match temporal_live bot opp env trade with
        | Some (bot, evs) => Some (bot, checked :: evs)
        | None => None
        end.

(** ** A run of the bot: a sequence of executions *)

Inductive Call :=
| CallPure (opp : PureOpp) (env : Env)
| CallTemporal (opp : TemporalOpp) (env : Env).

Definition call_env (c : Call) : Env :=
  match c with CallPure _ env => env | CallTemporal _ env => env end.

Definition execute (bot : Bot) (c : Call) : option (Bot * list Event) :=
  match c with
  | CallPure opp env => execute_pure_arbitrage bot opp env
  | CallTemporal opp env => execute_temporal_arbitrage bot opp env
  end.

(** The run gives, for each call in turn, the time the call read and the
    events it made. *)
Fixpoint run (bot : Bot) (calls : list Call) : option (Bot * list (F * list Event)) :=
  match calls with
  | [] => Some (bot, [])
  | c :: calls' =>
      match execute bot c with
      | None => None
      | Some (bot', evs) =>
          match run bot' calls' with
          | None => None
          | Some (bot'', log) => Some (bot'', (now (call_env c), evs) :: log)
          end
      end
  end.

(** The cost for which the call asks the risk gate. *)
Definition call_cost (c : Call) : F :=
  match c with
  | CallPure opp _ => total_investment opp
  | CallTemporal opp _ => t_total_investment opp
  end.

(** The states the risk gate can be left in by an execution that got
    past the cooldown: that of the check, or that state with the trade
    recorded, or with the trade recorded and settled. *)
Definition gate_after (rm1 : RiskManager.State F) (env : Env) (cost : F)
           (rm' : RiskManager.State F) : Prop :=
  rm' = rm1
  \/ exists trade,
       RiskManager.cost trade = cost
       /\ (rm' = RiskManager.record_trade rm1 trade (today_trade env)
           \/ exists won pnl,
                rm' = fst (RiskManager.record_settlement
                             (RiskManager.record_trade rm1 trade (today_trade env))
                             trade won pnl (today_settle env))).

(** The call went past the cooldown check. *)
Definition passed_cooldown (evs : list Event) : bool :=
  match evs with [] => false | _ => true end.

Definition is_risk_check (e : Event) : bool :=
  match e with EvRiskCheck _ _ _ => true | _ => false end.

(** An order is sent to the exchange, or a trade is recorded. *)
Definition is_submission (e : Event) : bool :=
  match e with
  | EvPlaceOrdersFast _ _ | EvPlaceOrder _ _ | EvNotifyTrade _ => true
  | _ => false
  end.
End Defs.
Arguments Settings F : clear implicits.
Arguments PureOpp F : clear implicits.
Arguments TemporalOpp F : clear implicits.
Arguments Bot F : clear implicits.
Arguments OrderArgs F : clear implicits.
Arguments Event F : clear implicits.
Arguments Env F : clear implicits.
Arguments Call F : clear implicits.

(** Two entries of the log of a run are a cooldown apart when both went
    past the cooldown check. *)
Definition apart (cooldown : Q) (a b : Q * list (Event Q)) : Prop :=
  snd a <> [] -> snd b <> [] -> cooldown <= fst b - fst a.

(** ** A bot and a world to run it in *)

Definition demo_settings (dry : bool) : Settings Q :=
  {| target_pair_cost := 0.993; pure_arb_order_size := 50;
     temporal_arb_enabled := true; temporal_arb_order_size := 100;
     temporal_arb_confidence_threshold := 0.70;
     temporal_arb_price_threshold := 0.55;
     order_type := "FOK"; dry_run := dry; cooldown_seconds := 5 |}.

Definition demo_bot (dry : bool) : Bot Q :=
  {| settings := demo_settings dry;
     risk_manager := RiskManager.init 500 5000 500 5;
     market_slug := Some "btc-updown-15m";
     yes_token_id := Some "YES"; no_token_id := Some "NO";
     trades_executed := 0; pure_arb_opportunities := 0;
     temporal_arb_opportunities := 0;
     sim_balance := 1000; sim_trades := [];
     _last_trade_ts := 0; next_obj := 0 |}.

Definition demo_pure_opp : PureOpp Q :=
  {| price_up := 0.495; price_down := 0.494; total_cost := 0.989;
     profit_per_share := 0.011; profit_pct := 0.011 / 0.989 * 100;
     order_size := 50; total_investment := 49.45; expected_payout := 50;
     expected_profit := 0.55; vwap_up := Some 0.495; vwap_down := Some 0.494 |}.

Definition demo_temporal_opp : TemporalOpp Q :=
  {| t_direction := CexPriceFeed.UP; t_token_id := Some "YES";
     t_price := Some 0.40; t_vwap := Some 0.40; t_order_size := 100;
     t_total_investment := 40; t_expected_payout := 100; t_expected_profit := 60;
     t_confidence := 0.80; t_btc_change_pct := 0.2; t_btc_price := 100000 |}.

Definition od_of (status : string) (matched : Q) : gmap string (PyVal Q) :=
  {[ "status" := {| py_bool := true; py_str := status; py_float := None |};
     "matched_size" := {| py_bool := negb (Qeq_bool matched 0);
                          py_str := ""; py_float := Some matched |} ]}.

(** At time [t]: the exchange takes the two orders as "A" and "B"; "A" is
    matched in full at the first poll, "B" stays live until the polling
    gives up; the best bid of every book is 0.48. *)
Definition demo_env (t : Q) : Env Q :=
  {| now := t;
     today_check := "2026-01-05"; today_trade := "2026-01-05";
     today_settle := "2026-01-05";
     place_orders_fast := fun _ _ => Ret [Some "A"; Some "B"];
     place_order := fun _ _ => Ret (Some "C");
     order_polls := fun order_id =>
       if String.eqb order_id "A"
       then (t, [(t + 0.1, GetOrderOk (od_of "MATCHED" 50))])
       else (t, [(t + 0.1, GetOrderOk (od_of "LIVE" 0));
                 (t + 3.2, GetOrderOk (od_of "LIVE" 0))]);
     get_order_book := fun _ =>
       Some {| best_bid := Some 0.48; best_ask := Some 0.50; spread := Some 0.02;
               bid_size := 100; ask_size := 100;
               bids := [(0.48, 100)]; asks := [(0.50, 100)] |} |}.
End Main.

(* ===================================================================== *)
(** * trading.py: order ids and the placing of orders *)
(* ===================================================================== *)

Module Orders.

(** A decoded answer of the exchange.  A dict is the list of its items
    (the keys are distinct); of any other value the program uses the
    truth value and [str(v)] only. *)
#[warnings="-register-all"]
Inductive Json :=
| JAtom (truth : bool) (str : string)
| JDict (items : list (string * Json)).

(** [s.upper()], on ASCII letters. *)
Definition ascii_upper (c : ascii) : ascii :=
  let n := N_of_ascii c in
  if ((97 <=? n) && (n <=? 122))%N then ascii_of_N (n - 32) else c.

Fixpoint upper (s : string) : string :=
  match s with
  | EmptyString => EmptyString
  | String c s' => String (ascii_upper c) (upper s')
  end.

Section Extract.
(** [str(d)] for a dict [d]. *)
Variable dict_str : list (string * Json) -> string.

Definition json_truth (v : Json) : bool :=
  match v with
  | JAtom truth _ => truth
  | JDict [] => false
  | JDict (_ :: _) => true
  end.

Definition json_str (v : Json) : string :=
  match v with
  | JAtom _ s => s
  | JDict items => dict_str items
  end.

(** [d.get(key)] *)
Fixpoint dict_get (items : list (string * Json)) (key : string) : option Json :=
  match items with
  | [] => None
  | (k, v) :: rest => if String.eqb k key then Some v else dict_get rest key
  end.

Definition id_keys : list string := ["orderID"; "orderId"; "order_id"; "id"].
Definition nested_keys : list string := ["order"; "data"; "result"].

(** [for key in keys: val = result.get(key); if val: return str(val)]:
    the value that is returned, before [str]. *)
Fixpoint first_truthy (items : list (string * Json)) (keys : list string)
  : option Json :=
  match keys with
  | [] => None
  | key :: keys' =>
      match dict_get items key with
      | Some val => if json_truth val then Some val else first_truthy items keys'
      | None => first_truthy items keys'
      end
  end.

(** The first of the ids found that is a non-empty string ([if oid:]). *)
Fixpoint first_nonempty (found : list (option string)) : option string :=
  match found with
  | [] => None
  | Some oid :: rest => if String.eqb oid "" then first_nonempty rest else Some oid
  | None :: rest => first_nonempty rest
  end.

(** [extract_order_id] *)
Fixpoint extract_order_id (result : Json) : option string :=
  match result with
  | JAtom _ _ => None                        (* not isinstance(result, dict) *)
  | JDict items =>
      match first_truthy items id_keys with
      | Some val => Some (json_str val)
      | None =>
          (* [nested = result.get(key)], and the id found in it when
             it is a dict *)
          let nested_id :=
            fix nested_id (its : list (string * Json)) (key : string)
              : option string :=
              match its with
              | [] => None
              | (k, v) :: rest =>
                  if String.eqb k key then
                    match v with
                    | JDict _ => extract_order_id v
                    | JAtom _ _ => None
                    end
                  else nested_id rest key
              end in
          first_nonempty (map (nested_id items) nested_keys)
      end
  end.

(** The id found under [key], in a dict nested there. *)
Definition nested_at (items : list (string * Json)) (key : string) : option string :=
  match dict_get items key with
  | Some (JDict sub) => extract_order_id (JDict sub)
  | _ => None
  end.

(** The ids a payload holds: under one of the id keys of the dict
    itself, or in a dict nested under "order", "data" or "result". *)
Inductive holds_id : Json -> string -> Prop :=
| holds_here items val :
    first_truthy items id_keys = Some val ->
    holds_id (JDict items) (json_str val)
| holds_nested items key sub oid :
    key ∈ nested_keys ->
    dict_get items key = Some (JDict sub) ->
    holds_id (JDict sub) oid ->
    holds_id (JDict items) oid.

(** For every value in the payload that is true, [str] is not empty. *)
#[warnings="-register-all"]
Inductive strs_nonempty : Json -> Prop :=
| strs_atom truth s :
    (truth = true -> s <> "") -> strs_nonempty (JAtom truth s)
| strs_dict items :
    (items <> [] -> dict_str items <> "") ->
    Forall (fun kv => strs_nonempty (snd kv)) items ->
    strs_nonempty (JDict items).
End Extract.

(** ** place_orders_fast *)

Section Placing.
Context {F : Type}.

(** A signed order, as [client.create_order] returns it. *)
Variable Signed : Type.

(** The names of the members of [OrderType] in the client library. *)
Variable order_types : list string.

(** The three calls made to the client, each of which can raise; the
    client is the one [get_client] has returned. *)
Record Client := {
  create_order : Main.OrderArgs F -> Outcome Signed;
  post_orders  : list (Signed * string) -> Outcome (Json + list Json);
  post_order   : Signed -> string -> Outcome Json
}.

(** [BUY if side.upper() == "BUY" else SELL] *)
Definition side_of (side : string) : string :=
  if String.eqb (upper side) "BUY" then "BUY" else "SELL".

(** [getattr(OrderType, (tif or "GTC").upper(), OrderType.GTC)] *)
Definition order_type_of (tif : string) : string :=
  let tif_up := upper (if String.eqb tif "" then "GTC" else tif) in
  if bool_decide (tif_up ∈ order_types) then tif_up else "GTC".

(** The loop that signs the orders; what it raises is not caught. *)
Fixpoint sign_all (client : Client) (orders : list (Main.OrderArgs F))
  : Outcome (list Signed) :=
  match orders with
  | [] => Ret []
  | o :: rest =>
      match create_order client
              {| Main.side := side_of (Main.side o);
                 Main.token_id := Main.token_id o;
                 Main.o_price := Main.o_price o;
                 Main.o_size := Main.o_size o |} with
      | Raise e => Raise e
      | Ret s =>
          match sign_all client rest with
          | Raise e => Raise e
          | Ret ss => Ret (s :: ss)
          end
      end
  end.

(** [{"error": str(exc)}] *)
Definition error_result (msg : string) : Json :=
  JDict [("error", JAtom (negb (String.eqb msg "")) msg)].

(** The sequential fallback. *)
Definition post_each (client : Client) (ot : string) (signed : list Signed)
  : list Json :=
  map (fun s => match post_order client s ot with
                | Ret r => r
                | Raise e => error_result e
                end) signed.

Definition place_orders_fast (client : Client) (orders : list (Main.OrderArgs F))
           (order_type : string) : Outcome (list Json) :=
  let ot := order_type_of order_type in
  match sign_all client orders with
  | Raise e => Raise e
  | Ret signed_orders =>
      match post_orders client (map (fun o => (o, ot)) signed_orders) with
      | Ret (inr results) => Ret results
      | Ret (inl result) => Ret [result]
      | Raise _ => Ret (post_each client ot signed_orders)
      end
  end.
End Placing.
Arguments Client F Signed : clear implicits.
End Orders.

(* ===================================================================== *)
(** * market_finder.py, and the market clock of main.py *)
(* ===================================================================== *)

Module MarketFinder.
Local Open Scope Z_scope.

Definition BTC_15M_WINDOW : Z := 900.

(** ** The two patterns

    Slugs are read as ASCII text: [\d] is a digit [0] to [9]. *)
Definition is_digit (c : ascii) : bool :=
  let n := N_of_ascii c in ((48 <=? n) && (n <=? 57))%N.

(** The longest run of digits that [s] starts with, and what follows. *)
Fixpoint digits_of (s : string) : string :=
  match s with
  | String c s' => if is_digit c then String c (digits_of s') else EmptyString
  | EmptyString => EmptyString
  end.

Fixpoint after_digits (s : string) : string :=
  match s with
  | String c s' => if is_digit c then after_digits s' else s
  | EmptyString => EmptyString
  end.

(** [int(digits)], most significant digit first. *)
Fixpoint int_of_digits (acc : Z) (s : string) : Z :=
  match s with
  | EmptyString => acc
  | String c s' => int_of_digits (10 * acc + Z.of_N (N_of_ascii c - 48)) s'
  end.

Fixpoint strip_prefix (p s : string) : option string :=
  match p with
  | EmptyString => Some s
  | String a p' =>
      match s with
      | String b s' => if Ascii.eqb a b then strip_prefix p' s' else None
      | EmptyString => None
      end
  end.

Definition slug_prefix : string := "btc-updown-15m-".

(** A match of [btc-updown-15m-(\d+)] at the start of [s]: the group. *)
Definition match_here (s : string) : option string :=
  match strip_prefix slug_prefix s with
  | Some rest =>
      match digits_of rest with
      | EmptyString => None
      | digits => Some digits
      end
  | None => None
  end.

(** [re.search(r"btc-updown-15m-(\d+)", slug)]: the leftmost match. *)
Fixpoint search (s : string) : option string :=
  match match_here s with
  | Some digits => Some digits
  | None =>
      match s with
      | EmptyString => None
      | String _ s' => search s'
      end
  end.

(** [re.compile(r"^btc-updown-15m-(\d+)$").match(slug)]; [$] also
    matches before a newline that ends the string. *)
Definition full_match (s : string) : option string :=
  match strip_prefix slug_prefix s with
  | Some rest =>
      match digits_of rest with
      | EmptyString => None
      | digits =>
          let tail := after_digits rest in
          if String.eqb tail "" || String.eqb tail (String "010"%char "")
          then Some digits else None
      end
  | None => None
  end.

(** [f"btc-updown-15m-{ts}"] *)
Definition slug_of (ts : Z) : string := slug_prefix +:+ pretty ts.

(** ** get_market_timestamps, get_time_remaining *)

Definition get_market_timestamps (slug : string) : option Z * option Z :=
  match search slug with
  | None => (None, None)
  | Some digits =>
      let start_ts := int_of_digits 0 digits in
      (Some start_ts, Some (start_ts + BTC_15M_WINDOW))
  end.

(** [now_ts] is [int(time.time())]. *)
Definition get_time_remaining (slug : string) (now_ts : Z) : string :=
  match snd (get_market_timestamps slug) with
  | None => "Unknown"
  | Some end_ts =>
      let remaining := end_ts - now_ts in
      if remaining <=? 0 then "CLOSED"
      else pretty (remaining / 60) +:+ "m " +:+ pretty (remaining mod 60) +:+ "s"
  end.

(** [PolymarketArbBot._is_market_closed] of main.py, on the attribute
    [market_end_ts] that [_load_market] takes from the slug. *)
Definition _is_market_closed (market_end_ts : option Z) (now_ts : Z) : bool :=
  match market_end_ts with
  | None => false
  | Some end_ts => end_ts <=? now_ts
  end.

(** [PolymarketArbBot._get_time_remaining_str] *)
Definition _get_time_remaining_str (market_slug : option string) (now_ts : Z)
  : string :=
  match market_slug with
  | Some slug =>
      if String.eqb slug "" then "Unknown" else get_time_remaining slug now_ts
  | None => "Unknown"
  end.

(** ** Finding the active market *)

(** The start of the window that [ts] falls in. *)
Definition window_start (ts : Z) : Z := ts / BTC_15M_WINDOW * BTC_15M_WINDOW.

(** [_find_via_computed_slugs]; [fetches slug] tells whether
    [fetch_market_from_slug(slug)] returns (it raises otherwise). *)
Fixpoint try_windows (fetches : string -> bool) (now_ts : Z) (offsets : list Z)
  : option string :=
  match offsets with
  | [] => None
  | i :: rest =>
      let ts := now_ts + i * BTC_15M_WINDOW in
      let ts_rounded := window_start ts in
      let slug := slug_of ts_rounded in
      if fetches slug then
        if now_ts <? ts_rounded + BTC_15M_WINDOW then Some slug
        else try_windows fetches now_ts rest
      else try_windows fetches now_ts rest
  end.

Definition _find_via_computed_slugs (fetches : string -> bool) (now_ts : Z)
  : option string :=
  try_windows fetches now_ts [0; 1; 2; 3; 4].

(** [candidates.sort(key=lambda x: x[0])]: a stable sort on the time. *)
Fixpoint insert_by_ts (a : Z * string) (l : list (Z * string)) : list (Z * string) :=
  match l with
  | [] => [a]
  | b :: l' => if fst b <? fst a then b :: insert_by_ts a l' else a :: l
  end.

Definition sorted_by_ts (l : list (Z * string)) : list (Z * string) :=
  foldr insert_by_ts [] l.

(** The loop of [_find_via_gamma_api] over the events.  An event is what
    [(event.get("slug") or "").strip()] gives for it, or [None] when that
    raises, which ends the search with nothing. *)
Fixpoint candidates (now_ts : Z) (events : list (option string))
  : option (list (Z * string)) :=
  match events with
  | [] => Some []
  | None :: _ => None
  | Some slug :: rest =>
      match candidates now_ts rest with
      | None => None
      | Some found =>
          match full_match slug with
          | None => Some found
          | Some digits =>
              let ts := int_of_digits 0 digits in
              if now_ts <? ts + BTC_15M_WINDOW then Some ((ts, slug) :: found)
              else Some found
          end
      end
  end.

(** An event that is a market of the kind sought and has not ended. *)
Definition open_market (now_ts : Z) (slug : string) (ts : Z) : Prop :=
  exists digits,
    full_match slug = Some digits
    /\ ts = int_of_digits 0 digits
    /\ now_ts < ts + BTC_15M_WINDOW.

(** [_find_via_gamma_api]; [data] is the answer of [_gamma_get], [None]
    when it is not a list. *)
Definition _find_via_gamma_api (data : option (list (option string))) (now_ts : Z)
  : option string :=
  match data with
  | None | Some [] => None
  | Some events =>
      match candidates now_ts events with
      | None => None
      | Some found =>
          match sorted_by_ts found with
          | [] => None
          | (_, slug) :: _ => Some slug
          end
      end
  end.

(** [if slug:] *)
Definition found_slug (slug : option string) : option string :=
  match slug with
  | Some s => if String.eqb s "" then None else Some s
  | None => None
  end.

(** [get_active_btc_15m_slug]; each method reads the clock for itself,
    the second one only when the first finds nothing. *)
Definition get_active_btc_15m_slug (fetches : string -> bool)
           (data : option (list (option string))) (now1 now2 : Z)
  : Outcome string :=
  match found_slug (_find_via_computed_slugs fetches now1) with
  | Some slug => Ret slug
  | None =>
      match found_slug (_find_via_gamma_api data now2) with
      | Some slug => Ret slug
      | None => Raise "No active BTC 15min market found."
      end
  end.
End MarketFinder.

(* ===================================================================== *)
(** * agentfinobs: the spend tracker, budgets and metrics *)
(* ===================================================================== *)

Module Agentfinobs.

Inductive TxStatus := PENDING | CONFIRMED | FAILED | REFUNDED.

Inductive PaymentRail :=
| X402_USDC | STRIPE_ACP | VISA_TAP | MC_AGENT_PAY | CIRCLE_NANO
| POLYMARKET_CLOB | INTERNAL | UNKNOWN.

(** [rail.value] *)
Definition rail_value (r : PaymentRail) : string :=
  match r with
  | X402_USDC => "x402_usdc" | STRIPE_ACP => "stripe_acp"
  | VISA_TAP => "visa_tap" | MC_AGENT_PAY => "mc_agent_pay"
  | CIRCLE_NANO => "circle_nano" | POLYMARKET_CLOB => "polymarket_clob"
  | INTERNAL => "internal" | UNKNOWN => "unknown"
  end.

Inductive AlertSeverity := INFO | WARNING | CRITICAL.

Section Defs.
Context {F : Type} `{Arith F}.
Local Open Scope py_scope.

(** ** types.py *)

Record AgentTx := {
  tx_id        : string;
  agent_id     : string;
  task_id      : string;
  amount       : F;
  currency     : string;
  rail         : PaymentRail;
  counterparty : string;
  description  : string;
  tags         : gmap string string;
  revenue      : F;
  status       : TxStatus;
  created_at   : F;
  settled_at   : option F
}.

Definition pnl (tx : AgentTx) : F := revenue tx - amount tx.

Definition roi (tx : AgentTx) : option F :=
  if amount tx =? lit 0 then None else Some (pnl tx / amount tx).

(** [AgentTx.settle]; [now] is the reading of [time.time()]. *)
Definition tx_settle (tx : AgentTx) (new_revenue : F) (new_status : TxStatus)
           (now : F) : AgentTx :=
  {| tx_id := tx_id tx; agent_id := agent_id tx; task_id := task_id tx;
     amount := amount tx; currency := currency tx; rail := rail tx;
     counterparty := counterparty tx; description := description tx;
     tags := tags tx;
     revenue := new_revenue; status := new_status;
     created_at := created_at tx; settled_at := Some now |}.

Record BudgetRule := {
  name           : string;
  max_amount     : F;
  window_seconds : F;
  severity       : AlertSeverity;
  halt_on_breach : bool
}.

(** An [Alert], without its random [alert_id] and the time of its creation. *)
Record Alert := {
  a_severity       : AlertSeverity;
  a_rule_name      : string;
  a_message        : string;
  a_agent_id       : string;
  a_spent          : F;           (* context["spent"] *)
  a_limit          : F;           (* context["limit"] *)
  a_trigger_tx_id  : string;      (* context["trigger_tx_id"] *)
  a_trigger_amount : F            (* context["trigger_amount"] *)
}.

(** ** tracker.py *)

(** The attributes of a [SpendTracker] that recording reads and writes.
    The store holds the transaction objects, so that a settlement shows
    in every later query. *)
Record SpendTracker := {
  t_agent_id    : string;
  _txs          : gmap string AgentTx;
  _ordered_ids  : list string;
  _max_history  : Z
}.

(** [SpendTracker.__init__] *)
Definition new_tracker (agent : string) (max_history : Z) : SpendTracker :=
  {| t_agent_id := agent; _txs := ∅; _ordered_ids := []; _max_history := max_history |}.

(** [_trim]: [while len(ids) > max_history: old = ids.pop(0); txs.pop(old, None)].
    With a negative bound the loop goes on to pop from the empty list,
    which raises. *)
Fixpoint _trim (max_history : Z) (ids : list string) (txs : gmap string AgentTx)
  : Outcome (list string * gmap string AgentTx) :=
  match ids with
  | [] => if (max_history <? 0)%Z then Raise "pop from empty list"
          else Ret ([], txs)
  | old_id :: rest =>
      if (max_history <? Z.of_nat (length ids))%Z
      then _trim max_history rest (delete old_id txs)
      else Ret (ids, txs)
  end.

(** The store after the ids [evicted] are popped from it. *)
Definition evict (evicted : list string) (txs : gmap string AgentTx)
  : gmap string AgentTx :=
  fold_left (fun acc id => delete id acc) evicted txs.

(** [record], for the transaction [tx] that [AgentTx] builds of the
    keyword arguments
    (with its fresh [tx_id] and the time of its creation); the listeners
    are then called with the transaction returned. *)
Definition record (t : SpendTracker) (tx : AgentTx) : Outcome (AgentTx * SpendTracker) :=
  match _trim (_max_history t) (_ordered_ids t ++ [tx_id tx])
              (<[tx_id tx := tx]> (_txs t)) with
  | Raise e => Raise e
  | Ret (ids, txs) =>
      Ret (tx, {| t_agent_id := t_agent_id t; _txs := txs;
                  _ordered_ids := ids; _max_history := _max_history t |})
  end.

(** [settle] *)
Definition settle (t : SpendTracker) (id : string) (new_revenue : F)
           (new_status : TxStatus) (now : F) : option AgentTx * SpendTracker :=
  match _txs t !! id with
  | None => (None, t)
  | Some tx =>
      let tx' := tx_settle tx new_revenue new_status now in
      (Some tx', {| t_agent_id := t_agent_id t; _txs := <[id := tx']> (_txs t);
                    _ordered_ids := _ordered_ids t;
                    _max_history := _max_history t |})
  end.

(** [get] *)
Definition get (t : SpendTracker) (id : string) : option AgentTx := _txs t !! id.

(** [ids[-n:]]: the last [n] for a positive [n], everything for [0],
    and all but the first [-n] for a negative [n]. *)
Definition last_ids (n : Z) (ids : list string) : list string :=
  if (0 <? n)%Z then drop (length ids - Z.to_nat n) ids
  else drop (Z.to_nat (- n)) ids.

(** [recent] *)
Definition recent (t : SpendTracker) (n : Z) : list AgentTx :=
  omap (fun tid => _txs t !! tid) (last_ids n (_ordered_ids t)).

(** [count] *)
Definition count (t : SpendTracker) : nat := size (_txs t).

(** What recording keeps true of a tracker: the ids in order are
    distinct and are the keys of the store, each transaction is stored
    under its own id, and the history is within its bound. *)
Definition tracker_ok (t : SpendTracker) : Prop :=
  NoDup (_ordered_ids t)
  /\ (forall id, is_Some (_txs t !! id) <-> id ∈ _ordered_ids t)
  /\ (forall id tx, _txs t !! id = Some tx -> tx_id tx = id)
  /\ (Z.of_nat (length (_ordered_ids t)) <= _max_history t)%Z.

(** ** budget.py *)

Record BudgetManager := {
  _rules      : list BudgetRule;
  _tx_history : list AgentTx;
  _halted     : bool;
  _halt_reason : string;
  _alerts     : list Alert
}.

Definition new_budget : BudgetManager :=
  {| _rules := []; _tx_history := []; _halted := false; _halt_reason := "";
     _alerts := [] |}.

Definition add_rule (b : BudgetManager) (rule : BudgetRule) : BudgetManager :=
  {| _rules := _rules b ++ [rule]; _tx_history := _tx_history b;
     _halted := _halted b; _halt_reason := _halt_reason b; _alerts := _alerts b |}.

(** [sum(...)] of floats: from 0, left to right. *)
Definition py_sum (l : list F) : F := fold_left fadd l (lit 0).

(** [_window_spend] *)
Definition _window_spend (history : list AgentTx) (window : F) (now : F) : F :=
  if window <=? lit 0 then py_sum (map amount history)
  else
    let cutoff := now - window in
    py_sum (map amount (filter (fun tx => Is_true (created_at tx >=? cutoff)) history)).

(** [_fire_alert]; the alert callbacks, of which the stack registers
    none, are left out. *)
Definition _fire_alert (b : BudgetManager) (rule : BudgetRule) (spent : F)
           (trigger_tx : AgentTx) : BudgetManager :=
  let message :=
    "Budget rule '" +:+ name rule +:+ "' breached: $" +:+ fmt2f spent
    +:+ " > $" +:+ fmt2f (max_amount rule) in
  let alert :=
    {| a_severity := severity rule; a_rule_name := name rule;
       a_message := message; a_agent_id := agent_id trigger_tx;
       a_spent := spent; a_limit := max_amount rule;
       a_trigger_tx_id := tx_id trigger_tx;
       a_trigger_amount := amount trigger_tx |} in
  {| _rules := _rules b; _tx_history := _tx_history b;
     _halted := if halt_on_breach rule then true else _halted b;
     _halt_reason := if halt_on_breach rule then message else _halt_reason b;
     _alerts := _alerts b ++ [alert] |}.

(** [spent > rule.max_amount], on a given history. *)
Definition breached (history : list AgentTx) (now : F) (rule : BudgetRule) : bool :=
  _window_spend history (window_seconds rule) now >? max_amount rule.

(** The alert that [_fire_alert] makes of a breached rule. *)
Definition alert_of (history : list AgentTx) (now : F) (trigger_tx : AgentTx)
           (rule : BudgetRule) : Alert :=
  let spent := _window_spend history (window_seconds rule) now in
  {| a_severity := severity rule; a_rule_name := name rule;
     a_message := "Budget rule '" +:+ name rule +:+ "' breached: $" +:+ fmt2f spent
                  +:+ " > $" +:+ fmt2f (max_amount rule);
     a_agent_id := agent_id trigger_tx;
     a_spent := spent; a_limit := max_amount rule;
     a_trigger_tx_id := tx_id trigger_tx;
     a_trigger_amount := amount trigger_tx |}.

(** The loop of [on_tx] over the rules. *)
Fixpoint check_rules (b : BudgetManager) (rules : list BudgetRule) (tx : AgentTx)
         (now : F) : BudgetManager :=
  match rules with
  | [] => b
  | rule :: rest =>
      let spent := _window_spend (_tx_history b) (window_seconds rule) now in
      if spent >? max_amount rule
      then check_rules (_fire_alert b rule spent tx) rest tx now
      else check_rules b rest tx now
  end.

(** [on_tx] *)
Definition on_tx (b : BudgetManager) (tx : AgentTx) (now : F) : BudgetManager :=
  let b := {| _rules := _rules b; _tx_history := _tx_history b ++ [tx];
              _halted := _halted b; _halt_reason := _halt_reason b;
              _alerts := _alerts b |} in
  check_rules b (_rules b) tx now.

(** [on_tx] for one transaction after the other, each with the reading
    of the clock in its call. *)
Definition on_txs (b : BudgetManager) (events : list (AgentTx * F)) : BudgetManager :=
  fold_left (fun b event => on_tx b (fst event) (snd event)) events b.

(** The loop of [check_can_spend] over the rules. *)
Fixpoint first_breach (history : list AgentTx) (rules : list BudgetRule)
         (spend : F) (now : F) : option string :=
  match rules with
  | [] => None
  | rule :: rest =>
      let current := _window_spend history (window_seconds rule) now in
      if current + spend >? max_amount rule then
        let headroom := pymax (lit 0) (max_amount rule - current) in
        Some ("Would breach '" +:+ name rule +:+ "': current $" +:+ fmt2f current
              +:+ " + $" +:+ fmt2f spend +:+ " > limit $" +:+ fmt2f (max_amount rule)
              +:+ " (headroom: $" +:+ fmt2f headroom +:+ ")")
      else first_breach history rest spend now
  end.

(** [check_can_spend] *)
Definition check_can_spend (b : BudgetManager) (spend : F) (now : F) : bool * string :=
  if _halted b then (false, "Agent halted: " +:+ _halt_reason b)
  else
    match first_breach (_tx_history b) (_rules b) spend now with
    | Some reason => (false, reason)
    | None => (true, "OK")
    end.

(** [headroom] *)
Definition headroom (b : BudgetManager) (now : F) : gmap string F :=
  fold_left (fun result rule =>
               let spent := _window_spend (_tx_history b) (window_seconds rule) now in
               <[name rule := pymax (lit 0) (max_amount rule - spent)]> result)
            (_rules b) ∅.

(** [reset_halt] *)
Definition reset_halt (b : BudgetManager) : BudgetManager :=
  {| _rules := _rules b; _tx_history := _tx_history b;
     _halted := false; _halt_reason := ""; _alerts := _alerts b |}.

(** ** metrics.py *)

Record Snapshot := {
  sn_timestamp              : F;
  tx_count                  : Z;
  total_spent               : F;
  total_revenue             : F;
  total_pnl                 : F;
  avg_cost_per_tx           : F;
  avg_cost_per_task         : F;
  roi_pct                   : option F;
  win_rate_pct              : option F;
  burn_rate_per_hour        : F;
  estimated_runway_hours    : option F;
  spend_by_task             : gmap string F;
  spend_by_rail             : gmap string F;
  spend_by_counterparty     : gmap string F
}.

(** [Snapshot()] *)
Definition empty_snapshot (now : F) : Snapshot :=
  {| sn_timestamp := now; tx_count := 0; total_spent := lit 0;
     total_revenue := lit 0; total_pnl := lit 0; avg_cost_per_tx := lit 0;
     avg_cost_per_task := lit 0; roi_pct := None; win_rate_pct := None;
     burn_rate_per_hour := lit 0; estimated_runway_hours := None;
     spend_by_task := ∅; spend_by_rail := ∅; spend_by_counterparty := ∅ |}.

(** [sorted(txs, key=lambda t: t.created_at)]: a stable sort. *)
Fixpoint insert_by_time (a : AgentTx) (l : list AgentTx) : list AgentTx :=
  match l with
  | [] => [a]
  | b :: l' => if created_at b <? created_at a then b :: insert_by_time a l' else a :: l
  end.

Definition sorted_by_time (txs : list AgentTx) : list AgentTx :=
  foldr insert_by_time [] txs.

(** [d[key] = d.get(key, 0) + x] *)
Definition add_to (d : gmap string F) (key : string) (x : F) : gmap string F :=
  <[key := default (lit 0) (d !! key) + x]> d.

Definition is_settled (tx : AgentTx) : bool :=
  match status tx with CONFIRMED | FAILED => true | _ => false end.

(** The integer [n] where a float is expected. *)
Definition of_int (n : Z) : F := lit (inject_Z n).

(** [sorted_txs[-1].created_at - sorted_txs[0].created_at] *)
Definition time_span_of (txs : list AgentTx) : F :=
  let sorted_txs := sorted_by_time txs in
  match sorted_txs, last sorted_txs with
  | first_tx :: _, Some last_tx => created_at last_tx - created_at first_tx
  | _, _ => lit 0                       (* not reached: [txs] is not empty *)
  end.

(** [MetricsEngine.compute]; [now] is the time the snapshot is made. *)
Definition compute (budget_total : option F) (txs : list AgentTx) (now : F)
  : Snapshot :=
  match txs with
  | [] => empty_snapshot now
  | _ :: _ =>
      let n := Z.of_nat (length txs) in
      let spent := py_sum (map amount txs) in
      let earned := py_sum (map revenue txs) in
      let task_ids := remove_dups (filter (fun s => s <> "") (map task_id txs)) in
      let settled := filter (fun tx => Is_true (is_settled tx)) txs in
      let wins := filter (fun tx => Is_true (pnl tx >? lit 0)) settled in
      let time_span := time_span_of txs in
      let burn :=
        if time_span >? lit 0 then spent / (time_span / lit 3600) else lit 0 in
      {| sn_timestamp := now;
         tx_count := n;
         total_spent := spent;
         total_revenue := earned;
         total_pnl := earned - spent;
         avg_cost_per_tx := spent / of_int n;
         avg_cost_per_task :=
           match task_ids with
           | [] => lit 0
           | _ => spent / of_int (Z.of_nat (length task_ids))
           end;
         roi_pct :=
           if spent >? lit 0 then Some ((earned - spent) / spent * lit 100) else None;
         win_rate_pct :=
           match settled with
           | [] => None
           | _ => Some (of_int (Z.of_nat (length wins))
                        / of_int (Z.of_nat (length settled)) * lit 100)
           end;
         burn_rate_per_hour := burn;
         estimated_runway_hours :=
           match budget_total with
           | Some total =>
               if burn >? lit 0
               then Some (pymax (lit 0) (total - spent) / burn) else None
           | None => None
           end;
         spend_by_task :=
           fold_left (fun d tx =>
                        add_to d (if String.eqb (task_id tx) "" then "_no_task"
                                  else task_id tx) (amount tx)) txs ∅;
         spend_by_rail :=
           fold_left (fun d tx => add_to d (rail_value (rail tx)) (amount tx)) txs ∅;
         spend_by_counterparty :=
           fold_left (fun d tx =>
                        if String.eqb (counterparty tx) "" then d
                        else add_to d (counterparty tx) (amount tx)) txs ∅ |}
  end.

(** [ObservabilityStack.snapshot], of a stack with this tracker. *)
Definition snapshot (budget_total : option F) (t : SpendTracker) (now : F) : Snapshot :=
  compute budget_total (recent t 10000) now.

(** [compute_window]: the snapshot is made after the cutoff is read. *)
Definition compute_window (budget_total : option F) (txs : list AgentTx)
           (window : F) (now snapshot_time : F) : Snapshot :=
  let cutoff := now - window in
  compute budget_total
          (filter (fun tx => Is_true (created_at tx >=? cutoff)) txs) snapshot_time.

(** ** anomaly.py: the running statistics *)

Record Welford := { _n : Z; _mean : F; _m2 : F }.

Definition init_stats : Welford := {| _n := 0; _mean := lit 0; _m2 := lit 0 |}.

(** [_update_stats] *)
Definition _update_stats (w : Welford) (x : F) : Welford :=
  let n := (_n w + 1)%Z in
  let delta := x - _mean w in
  let mean := _mean w + delta / of_int n in
  let delta2 := x - mean in
  {| _n := n; _mean := mean; _m2 := _m2 w + delta * delta2 |}.

(** The statistics after [on_tx] has seen the amounts [xs], one by one. *)
Definition stats_after (xs : list F) : Welford := fold_left _update_stats xs init_stats.
End Defs.
Arguments AgentTx F : clear implicits.
Arguments BudgetRule F : clear implicits.
Arguments Alert F : clear implicits.
Arguments SpendTracker F : clear implicits.
Arguments BudgetManager F : clear implicits.
Arguments Snapshot F : clear implicits.
Arguments Welford F : clear implicits.

(** Whether [_window_spend] counts a transaction: always for a window
    that is not positive, and otherwise from the cutoff on. *)
Definition in_window (window now : Q) (tx : AgentTx Q) : bool :=
  Qle_bool window 0 || Qle_bool (now - window) (created_at tx).

(** The total of the values of a distribution, in exact arithmetic. *)
Definition total_of (d : gmap string Q) : Q :=
  map_fold (fun _ v acc => v + acc) 0 d.

(** The sum of a list of rationals. *)
Definition Qsum (l : list Q) : Q := foldr Qplus 0 l.
End Agentfinobs.

(* ===================================================================== *)
(** * What a sequence of operations on the risk gate amounts to *)
(* ===================================================================== *)

Module Accounts.
Import RiskManager.

Section Defs.
Context {F : Type} `{Arith F}.

(** The trades recorded on [day], in order. *)
Definition recorded_on (day : string) (ops : list (string * Op F))
  : list (TradeRecord F) :=
  omap (fun o => match o with
                 | (d, OpRecordTrade t) => if String.eqb d day then Some t else None
                 | _ => None
                 end) ops.

Definition is_pure (t : TradeRecord F) : bool := String.eqb (strategy t) "pure_arb".

(** What the statistics of [day] say, against the trades recorded on
    that day. *)
Definition stats_match (st : option (DailyStats F)) (day : string)
           (trades : list (TradeRecord F)) : Prop :=
  match st with
  | None => trades = []
  | Some st =>
      date_str st = day
      /\ trades <> []
      /\ trades_count st = Z.of_nat (length trades)
      /\ pure_arb_count st = Z.of_nat (length (List.filter is_pure trades))
      /\ temporal_arb_count st
         = Z.of_nat (length (List.filter (fun t => negb (is_pure t)) trades))
      /\ (0 <= wins st)%Z /\ (0 <= losses st)%Z
  end.
End Defs.

(** The running daily P&L within one day: a settlement adds its P&L, the
    reset clears the figure. *)
Definition book_pnl (acc : Q) (o : string * Op Q) : Q :=
  match snd o with
  | OpRecordSettlement _ _ pnl => acc + pnl
  | OpResetDaily => 0
  | _ => acc
  end.
End Accounts.

(* ===================================================================== *)
(** * States of the walk, and steps of the bot on the risk gate *)
(* ===================================================================== *)

Module Invariants.
Import Trading Main.

(** What the state of the walk satisfies when every price met so far is
    at least [lo]. *)
Definition walk_inv (lo : Q) (st : Walk Q) : Prop :=
  0 <= w_filled st
  /\ lo * w_filled st <= w_cost st
  /\ match w_worst st with
     | Some w => lo <= w /\ w_cost st <= w * w_filled st
     | None => w_filled st == 0 /\ w_cost st == 0
     end.

Definition above_worst (st : Walk Q) (levels : list (Level Q)) : Prop :=
  match w_worst st with
  | Some w => Forall (fun l => w <= fst l) levels
  | None => True
  end.

Section Defs.
Context {F : Type} `{Arith F}.

(** What one execution can have done to the risk gate, where [checked]
    is the evaluation of the gate that the execution makes once past the
    cooldown. *)
Definition gate_step (bot : Bot F) (c : Call F) (rm' : RiskManager.State F) : Prop :=
  let env := call_env c in
  let checked :=
    RiskManager.check_can_trade (risk_manager bot) (call_cost c) (today_check env) in
  rm' = risk_manager bot
  \/ rm' = snd checked
  \/ (fst (fst checked) = true
      /\ exists trade,
           RiskManager.cost trade = call_cost c
           /\ (rm' = RiskManager.record_trade (snd checked) trade (today_trade env)
               \/ (dry_run (settings bot) = true
                   /\ exists opp,
                        c = CallPure opp env
                        /\ rm' = fst (RiskManager.record_settlement
                                        (RiskManager.record_trade (snd checked) trade
                                                                  (today_trade env))
                                        trade true (expected_profit opp)
                                        (today_settle env))))).
End Defs.

(** The limits that the positions of the bot are held to. *)
Definition within_limits (position_limit bet_limit : Q) (rm : RiskManager.State Q)
  : Prop :=
  RiskManager.max_position_size rm = position_limit
  /\ RiskManager.max_single_bet rm = bet_limit
  /\ RiskManager._current_exposure rm <= position_limit
  /\ Forall (fun t => RiskManager.cost t <= bet_limit) (RiskManager._trades rm).

(** The gate stays open: it is not halted and its daily P&L is not below
    minus the daily-loss limit. *)
Definition stays_open (loss_limit : Q) (rm : RiskManager.State Q) : Prop :=
  RiskManager.max_daily_loss rm = loss_limit
  /\ RiskManager._halted rm = false
  /\ - loss_limit <= RiskManager._daily_pnl rm.

(** A history of prices in the order of their times. *)
Definition by_time (a b : CexPriceFeed.PriceSnapshot Q) : Prop :=
  CexPriceFeed.timestamp a <= CexPriceFeed.timestamp b.

(** The profit that a simulated execution books as settled. *)
Definition booked_profit (c : Call Q) : Q :=
  match c with
  | CallPure opp _ => expected_profit opp
  | CallTemporal _ _ => 0
  end.
End Invariants.

(* ===================================================================== *)
(** * Sample data *)
(* ===================================================================== *)

Module Samples.

(** A level as the client gives it, with price and size as decimal text. *)
Definition raw_level (ptext stext : string) (p s : Q) : PyVal Q * PyVal Q :=
  ({| py_bool := true; py_str := ptext; py_float := Some p |},
   {| py_bool := true; py_str := stext; py_float := Some s |}).

(** The settings of the demo with a threshold of choice, and a book with
    one ask, both in binary64: each number is the float that Python reads
    of the decimal text. *)
Definition settings64 (threshold : Q) : Main.Settings PrimFloat.float :=
  {| Main.target_pair_cost := Binary64.of_Q threshold;
     Main.pure_arb_order_size := Binary64.of_Q 50;
     Main.temporal_arb_enabled := true;
     Main.temporal_arb_order_size := Binary64.of_Q 100;
     Main.temporal_arb_confidence_threshold := Binary64.of_Q 0.70;
     Main.temporal_arb_price_threshold := Binary64.of_Q 0.55;
     Main.order_type := "FOK"; Main.dry_run := true;
     Main.cooldown_seconds := Binary64.of_Q 5 |}.

Definition book64 (ptext stext : string) (p s : Q) : Trading.Book PrimFloat.float :=
  Trading.normalize_book (H := Binary64.float_arith) []
    [({| py_bool := true; py_str := ptext; py_float := Some (Binary64.of_Q p) |},
      {| py_bool := true; py_str := stext; py_float := Some (Binary64.of_Q s) |})].

(** A confident signal that the price went up, in binary64. *)
Definition signal64 : CexPriceFeed.MomentumSignal PrimFloat.float :=
  {| CexPriceFeed.direction := CexPriceFeed.UP;
     CexPriceFeed.confidence := Binary64.of_Q 0.80;
     CexPriceFeed.price_change_pct := Binary64.of_Q 0.2;
     CexPriceFeed.current_price := Binary64.of_Q 100000;
     CexPriceFeed.reference_price := Binary64.of_Q 99800;
     CexPriceFeed.window_seconds := 60;
     CexPriceFeed.sig_timestamp := Binary64.of_Q 1000 |}.

(** The same book in exact arithmetic. *)
Definition book_exact (ptext stext : string) (p s : Q) : Trading.Book Q :=
  Trading.normalize_book [] [raw_level ptext stext p s].

(** An UP book with two asks and a bid, and a level of size zero that
    normalization drops. *)
Definition raw_asks : list (PyVal Q * PyVal Q) :=
  [raw_level "0.42" "50" 0.42 50; raw_level "0.40" "100" 0.40 100;
   raw_level "0.39" "0" 0.39 0].

Definition raw_bids : list (PyVal Q * PyVal Q) :=
  [raw_level "0.38" "70" 0.38 70; raw_level "0.37" "10" 0.37 10].

(** An answer of the exchange that carries the id of the order in a
    nested dict, next to an empty id at the top. *)
Definition sample_dict_str (items : list (string * Orders.Json)) : string := "{...}".

Definition sample_answer : Orders.Json :=
  Orders.JDict [("success", Orders.JAtom true "True");
                ("orderID", Orders.JAtom false "");
                ("data", Orders.JDict [("id", Orders.JAtom true "0xabc")])].

(** A client that signs every order with its token, refuses the batch,
    and posts the order of "YES" while that of "NO" fails. *)
Definition sample_client : Orders.Client Q string :=
  {| Orders.create_order := fun o => Ret (default "" (Main.token_id o));
     Orders.post_orders := fun _ => Raise "batch refused";
     Orders.post_order := fun s _ =>
       if String.eqb s "YES" then Ret sample_answer else Raise "not enough balance" |}.

Definition sample_orders : list (Main.OrderArgs Q) :=
  [ {| Main.side := "buy"; Main.token_id := Some "YES";
       Main.o_price := Some 0.495; Main.o_size := 50 |};
    {| Main.side := "buy"; Main.token_id := Some "NO";
       Main.o_price := Some 0.494; Main.o_size := 50 |} ].

(** An exchange that lists the window that starts at 1767226500 only. *)
Definition sample_fetches (slug : string) : bool :=
  String.eqb slug "btc-updown-15m-1767226500".

(** Events of the Gamma API: one that is not a market of this kind, one
    that has ended, and two that are open. *)
Definition sample_events : list (option string) :=
  [Some "eth-updown-15m-1767225600"; Some "btc-updown-15m-1767224700";
   Some "btc-updown-15m-1767226500"; Some "btc-updown-15m-1767225600"].

(** A purchase of the bot, as [obs.track] records it. *)
Definition sample_tx (id : string) (spent at_time : Q) : Agentfinobs.AgentTx Q :=
  {| Agentfinobs.tx_id := id; Agentfinobs.agent_id := "arb-bot";
     Agentfinobs.task_id := "trade-1"; Agentfinobs.amount := spent;
     Agentfinobs.currency := "USDC"; Agentfinobs.rail := Agentfinobs.POLYMARKET_CLOB;
     Agentfinobs.counterparty := "polymarket"; Agentfinobs.description := "";
     Agentfinobs.tags := ∅; Agentfinobs.revenue := 0;
     Agentfinobs.status := Agentfinobs.PENDING;
     Agentfinobs.created_at := at_time; Agentfinobs.settled_at := None |}.

(** A tracker that keeps one transaction, and holds one. *)
Definition sample_tracker : Agentfinobs.SpendTracker Q :=
  {| Agentfinobs.t_agent_id := "arb-bot";
     Agentfinobs._txs := {[ "tx-1" := sample_tx "tx-1" 10 100 ]};
     Agentfinobs._ordered_ids := ["tx-1"];
     Agentfinobs._max_history := 1 |}.

(** A budget with a cap per hour that alerts and a cap per day that
    halts, after a purchase of 90 at time 100. *)
Definition sample_budget : Agentfinobs.BudgetManager Q :=
  {| Agentfinobs._rules :=
       [ {| Agentfinobs.name := "hourly_cap"; Agentfinobs.max_amount := 100;
            Agentfinobs.window_seconds := 3600;
            Agentfinobs.severity := Agentfinobs.WARNING;
            Agentfinobs.halt_on_breach := false |};
         {| Agentfinobs.name := "daily_hard_limit"; Agentfinobs.max_amount := 500;
            Agentfinobs.window_seconds := 86400;
            Agentfinobs.severity := Agentfinobs.CRITICAL;
            Agentfinobs.halt_on_breach := true |} ];
     Agentfinobs._tx_history := [sample_tx "tx-1" 90 100];
     Agentfinobs._halted := false; Agentfinobs._halt_reason := "";
     Agentfinobs._alerts := [] |}.
End Samples.

(* ===================================================================== *)
(** * Properties *)
(* ===================================================================== *)

(** ** Exact arithmetic: comparisons *)

Lemma Qltb_lt (x y : Q) : Qltb x y = true <-> x < y.
Proof. unfold Qltb. rewrite Qlt_alt. destruct (x ?= y); intuition discriminate. Qed.

Lemma Qltb_ge (x y : Q) : Qltb x y = false <-> y <= x.
Proof.
  rewrite <- not_true_iff_false, Qltb_lt. split; [apply Qnot_lt_le | apply Qle_not_lt].
Qed.

Lemma Qle_bool_gt (x y : Q) : Qle_bool x y = false <-> y < x.
Proof.
  rewrite <- not_true_iff_false, Qle_bool_iff. split; [apply Qnot_le_lt | apply Qlt_not_le].
Qed.

Lemma Qeq_bool_ne (x y : Q) : Qeq_bool x y = false <-> ~ x == y.
Proof. rewrite <- not_true_iff_false, Qeq_bool_iff. reflexivity. Qed.

(** Expose the rational operations behind the methods of [Arith]. *)
Ltac exact_arith :=
  cbn [lit fadd fsub fmul fdiv fneg fabs flt fle feq to_int fmt2f Q_arith] in *.

(** Turn the boolean comparisons in the context into propositions. *)
Ltac cmp_hyps :=
  repeat match goal with
  | H : Qltb _ _ = true |- _ => apply Qltb_lt in H
  | H : Qltb _ _ = false |- _ => apply Qltb_ge in H
  | H : Qle_bool _ _ = true |- _ => apply Qle_bool_iff in H
  | H : Qle_bool _ _ = false |- _ => apply Qle_bool_gt in H
  | H : Qeq_bool _ _ = true |- _ => apply Qeq_bool_iff in H
  | H : Qeq_bool _ _ = false |- _ => apply Qeq_bool_ne in H
  end.

(** Split on the first comparison in the goal. *)
Ltac case_cmp :=
  match goal with
  | |- context [Qltb ?a ?b] => destruct (Qltb a b) eqn:?
  | |- context [Qle_bool ?a ?b] => destruct (Qle_bool a b) eqn:?
  | |- context [Qeq_bool ?a ?b] => destruct (Qeq_bool a b) eqn:?
  end; cmp_hyps.

Lemma pymin_Qmin (a b : Q) : pymin a b = Qmin a b.
Proof.
  unfold pymin, Qmin, GenericMinMax.gmin; exact_arith. unfold Qltb.
  rewrite <- (Qcompare_antisym a b). destruct (a ?= b); reflexivity.
Qed.

Lemma pymax_Qmax (a b : Q) : pymax a b = Qmax a b.
Proof.
  unfold pymax, Qmax, GenericMinMax.gmax; exact_arith. unfold Qltb.
  destruct (a ?= b); reflexivity.
Qed.

Lemma Qmin_cases (a b : Q) : (a <= b /\ Qmin a b == a) \/ (b <= a /\ Qmin a b == b).
Proof.
  destruct (Q.min_spec a b) as [[Hl He]|[Hl He]]; [left | right]; split; auto.
  apply Qlt_le_weak; exact Hl.
Qed.

Lemma Qmax_cases (a b : Q) : (a <= b /\ Qmax a b == b) \/ (b <= a /\ Qmax a b == a).
Proof.
  destruct (Q.max_spec a b) as [[Hl He]|[Hl He]]; [left | right]; split; auto.
  apply Qlt_le_weak; exact Hl.
Qed.

(** ** trading.py: fill estimation *)

Module TradingFacts.
Import Trading.

Definition sizes_nonneg (levels : list (Level Q)) : Prop :=
  Forall (fun l => 0 <= snd l) levels.

Lemma depth_nonneg levels : sizes_nonneg levels -> 0 <= depth levels.
Proof.
  induction 1 as [|l ls Hl _ IH]; simpl; [apply Qle_refl | lra].
Qed.

(** *** The sort *)

Lemma insert_by_price_perm (a : Level Q) l : Permutation (insert_by_price a l) (a :: l).
Proof.
  induction l as [|b l IH]; simpl; [reflexivity |].
  exact_arith. destruct (Qltb (fst b) (fst a)); [| reflexivity].
  rewrite IH. apply perm_swap.
Qed.

Lemma sorted_by_price_perm (asks : list (Level Q)) : Permutation (sorted_by_price asks) asks.
Proof.
  induction asks as [|a asks IH]; simpl; [reflexivity |].
  rewrite insert_by_price_perm. constructor. exact IH.
Qed.

Lemma insert_by_price_sorted (a : Level Q) l :
  StronglySorted price_le l -> StronglySorted price_le (insert_by_price a l).
Proof.
  induction 1 as [|b l Hs IH Hb]; simpl.
  - repeat constructor.
  - exact_arith. case_cmp.
    + constructor; [exact IH |].
      rewrite insert_by_price_perm. constructor; [| exact Hb].
      unfold price_le. apply Qlt_le_weak. assumption.
    + constructor; [constructor; assumption |].
      constructor; [assumption |].
      eapply Forall_impl; [exact Hb |].
      unfold price_le. intros c Hc. eapply Qle_trans; eassumption.
Qed.

Lemma sorted_by_price_sorted (asks : list (Level Q)) :
  StronglySorted price_le (sorted_by_price asks).
Proof.
  induction asks as [|a asks IH]; simpl; [constructor |].
  apply insert_by_price_sorted, IH.
Qed.

Lemma depth_perm l l' : Permutation l l' -> depth l == depth l'.
Proof.
  induction 1; simpl; try lra.
Qed.

Lemma sizes_nonneg_perm l l' : Permutation l l' -> sizes_nonneg l -> sizes_nonneg l'.
Proof. intros Hp. unfold sizes_nonneg. rewrite Hp. auto. Qed.

(** *** The walk *)

Lemma taken_cost_cons need p s rest :
  taken_cost need ((p, s) :: rest)
  = p * Qmin s need + taken_cost (need - Qmin s need) rest.
Proof. reflexivity. Qed.

Lemma taken_cost_proper n1 n2 levels :
  n1 == n2 -> taken_cost n1 levels == taken_cost n2 levels.
Proof.
  revert n1 n2. induction levels as [|[p s] rest IH]; intros n1 n2 E; [reflexivity |].
  rewrite !taken_cost_cons.
  assert (Em : Qmin s n1 == Qmin s n2) by (rewrite E; reflexivity).
  apply Qplus_comp; [rewrite Em; reflexivity |].
  apply IH. lra.
Qed.

Lemma taken_cost_done need levels :
  sizes_nonneg levels -> need == 0 -> taken_cost need levels == 0.
Proof.
  intros Hs. revert need. induction Hs as [|[p s] rest Hl _ IH]; intros need E; [reflexivity |].
  rewrite taken_cost_cons. simpl in Hl.
  assert (Em : Qmin s need == 0)
    by (destruct (Qmin_cases s need) as [[Hle Em]|[Hle Em]]; lra).
  rewrite (IH (need - Qmin s need)), Em by lra. lra.
Qed.

Lemma walk_filled S levels :
  sizes_nonneg levels -> forall st, w_filled st <= S ->
  w_filled (walk S levels st) == Qmin S (w_filled st + depth levels).
Proof.
  induction 1 as [|[p s] rest Hl Hs IH]; intros st Hst; simpl.
  - destruct (Qmin_cases S (w_filled st + 0)) as [[? E]|[? E]]; rewrite E; lra.
  - simpl in Hl. pose proof (depth_nonneg _ Hs) as Hd.
    exact_arith. case_cmp.
    + destruct (Qmin_cases S (w_filled st + (s + depth rest))) as [[? E]|[? E]];
        rewrite E; lra.
    + rewrite pymin_Qmin. exact_arith.
      destruct (Qmin_cases s (S - w_filled st)) as [[Hle Em]|[Hle Em]].
      * rewrite IH by (simpl; lra). simpl.
        apply Q.min_compat; [reflexivity | rewrite Em; lra].
      * rewrite IH by (simpl; lra). simpl.
        destruct (Qmin_cases S (w_filled st + Qmin s (S - w_filled st) + depth rest))
          as [[? E]|[? E]]; rewrite E;
        destruct (Qmin_cases S (w_filled st + (s + depth rest)))
          as [[? E']|[? E']]; rewrite E'; lra.
Qed.

Lemma walk_cost S levels :
  sizes_nonneg levels -> forall st, w_filled st <= S ->
  w_cost (walk S levels st) == w_cost st + taken_cost (S - w_filled st) levels.
Proof.
  induction 1 as [|[p s] rest Hl Hs IH]; intros st Hst.
  - simpl. unfold taken_cost. simpl. lra.
  - simpl in Hl. simpl walk. exact_arith. case_cmp.
    + rewrite taken_cost_done; [lra | constructor; assumption | lra].
    + rewrite pymin_Qmin. exact_arith. rewrite taken_cost_cons.
      destruct (Qmin_cases s (S - w_filled st)) as [[Hle Em]|[Hle Em]];
        rewrite IH by (simpl; lra); simpl;
        rewrite (taken_cost_proper
                   (S - (w_filled st + Qmin s (S - w_filled st)))
                   (S - w_filled st - Qmin s (S - w_filled st))) by lra; lra.
Qed.

Lemma walk_worst S p s rest st :
  w_filled st < S -> exists w, w_worst (walk S ((p, s) :: rest) st) = Some w.
Proof.
  intros Hlt. simpl. exact_arith. case_cmp; [lra |].
  generalize (w_filled st + pymin s (S - w_filled st)) (w_cost st + pymin s (S - w_filled st) * p).
  generalize p. clear. induction rest as [|[p' s'] rest IH]; intros p f c; simpl.
  - eauto.
  - exact_arith. destruct (Qle_bool S f); simpl; [eauto | apply IH].
Qed.

Lemma sorted_by_price_nonempty (asks : list (Level Q)) :
  asks <> [] -> exists p s rest, sorted_by_price asks = (p, s) :: rest.
Proof.
  intros Hne. destruct (sorted_by_price asks) as [|[p s] rest] eqn:E; [| eauto].
  pose proof (sorted_by_price_perm asks) as Hp. rewrite E in Hp.
  apply Permutation_nil in Hp. contradiction.
Qed.

(** What [compute_buy_fill] returns on a non-empty book and a positive
    target, in terms of the final state of the walk. *)
Lemma compute_buy_fill_unfold (asks : list (Level Q)) (S : Q) p s rest :
  0 < S -> sorted_by_price asks = (p, s) :: rest ->
  let st := walk S ((p, s) :: rest) {| w_filled := 0; w_cost := 0; w_worst := None |} in
  compute_buy_fill asks S =
    if Qltb (w_filled st + 0.000000001) S then None
    else Some {| filled := w_filled st;
                 vwap := if Qltb 0 (w_filled st)
                         then Some (w_cost st / w_filled st) else None;
                 worst := w_worst st;
                 best := p;
                 cost := w_cost st |}.
Proof.
  intros HS Hsort st. unfold compute_buy_fill. exact_arith.
  destruct (Qle_bool S 0) eqn:E0; cmp_hyps; [lra |].
  rewrite bool_decide_eq_false_2 by (intros ->; discriminate Hsort).
  simpl orb. cbv iota. rewrite Hsort. reflexivity.
Qed.

(** C1 (as amended). For a book side whose sizes are not negative,
    [compute_buy_fill] walks the levels in ascending price order (a sorted
    permutation of the asks).  It returns nothing when the target is not
    positive, when there are no asks, or when the cumulative depth is short
    of the target by more than 1e-9.  Otherwise it returns a fill whose
    size is the smaller of the target and the depth (the target itself
    when the depth reaches it) and whose cost is the sum of price times
    quantity taken.  On asks (0.40, 100), (0.42, 50) and target 120 the
    fill is 120 shares for 48.4, at a worst price of 0.42 and a VWAP of
    48.4 / 120. *)
Theorem compute_buy_fill_estimate (asks : list (Level Q)) (S : Q) :
  sizes_nonneg asks ->
  let levels := sorted_by_price asks in
  (Permutation levels asks /\ StronglySorted price_le levels) /\
  (S <= 0 \/ asks = [] \/ depth asks + 0.000000001 < S -> compute_buy_fill asks S = None) /\
  (0 < S -> asks <> [] -> S <= depth asks + 0.000000001 ->
     exists f, compute_buy_fill asks S = Some f /\
       filled f == Qmin S (depth asks) /\
       cost f == taken_cost S levels /\
       (exists w, worst f = Some w) /\
       (S <= depth asks -> filled f == S)) /\
  (exists f v, compute_buy_fill [(0.40, 100); (0.42, 50)] 120 = Some f /\
       filled f == 120 /\ cost f == 48.4 /\
       vwap f = Some v /\ v == 48.4 / 120 /\ worst f = Some 0.42).
Proof.
  intros Hnn levels.
  pose proof (sorted_by_price_perm asks) as Hperm.
  assert (Hnn' : sizes_nonneg levels)
    by (eapply sizes_nonneg_perm; [symmetry; exact Hperm | exact Hnn]).
  assert (Hdepth : depth levels == depth asks) by (apply depth_perm, Hperm).
  split; [split; [exact Hperm | apply sorted_by_price_sorted] |].
  split; [| split].
  - intros [HS | [-> | Hshort]].
    + unfold compute_buy_fill. exact_arith.
      apply Qle_bool_iff in HS. rewrite HS. reflexivity.
    + unfold compute_buy_fill. rewrite orb_true_r. reflexivity.
    + destruct (Qlt_le_dec 0 S) as [HS | HS].
      2:{ unfold compute_buy_fill. exact_arith.
          apply Qle_bool_iff in HS. rewrite HS. reflexivity. }
      destruct asks as [|a asks']; [unfold compute_buy_fill; rewrite orb_true_r; reflexivity |].
      destruct (sorted_by_price_nonempty (a :: asks')) as (p & s & rest & Hsort);
        [discriminate |].
      rewrite (compute_buy_fill_unfold _ _ _ _ _ HS Hsort). cbv zeta.
      fold levels in Hsort. rewrite <- Hsort.
      pose proof (walk_filled S levels Hnn'
                    {| w_filled := 0; w_cost := 0; w_worst := None |}) as Hf.
      simpl in Hf. specialize (Hf ltac:(lra)).
      destruct (Qmin_cases S (0 + depth levels)) as [[? E]|[? E]];
        case_cmp; try reflexivity; lra.
  - intros HS Hne Hdeep.
    destruct (sorted_by_price_nonempty asks Hne) as (p & s & rest & Hsort).
    rewrite (compute_buy_fill_unfold _ _ _ _ _ HS Hsort). cbv zeta.
    destruct (walk_worst S p s rest {| w_filled := 0; w_cost := 0; w_worst := None |})
      as [w Hw]; [exact HS |].
    fold levels in Hsort. rewrite <- Hsort in *.
    pose proof (walk_filled S levels Hnn'
                  {| w_filled := 0; w_cost := 0; w_worst := None |}) as Hf.
    pose proof (walk_cost S levels Hnn'
                  {| w_filled := 0; w_cost := 0; w_worst := None |}) as Hc.
    simpl in Hf, Hc. specialize (Hf ltac:(lra)). specialize (Hc ltac:(lra)).
    assert (Hmin : Qmin S (0 + depth levels) == Qmin S (depth asks))
      by (apply Q.min_compat; [reflexivity | lra]).
    case_cmp.
    + exfalso. destruct (Qmin_cases S (depth asks)) as [[? E]|[? E]]; lra.
    + eexists. split; [reflexivity |]. simpl.
      split; [lra |]. split.
      * rewrite Hc. rewrite (taken_cost_proper (S - 0) S) by lra. lra.
      * split; [eauto |]. intros Hge.
        destruct (Qmin_cases S (depth asks)) as [[? E]|[? E]]; lra.
  - eexists. eexists. split; [vm_compute; reflexivity |]. simpl.
    repeat split; reflexivity.
Qed.

Lemma compute_buy_fill_estimate_witness :
  sizes_nonneg [(0.40, 100); (0.42, 50)] /\
  exists f, compute_buy_fill [(0.40, 100); (0.42, 50)] 120 = Some f /\ filled f == 120.
Proof.
  assert (Hnn : sizes_nonneg [(0.40, 100); (0.42, 50)])
    by (repeat constructor; simpl; discriminate).
  split; [exact Hnn |].
  destruct (compute_buy_fill_estimate [(0.40, 100); (0.42, 50)] 120 Hnn)
    as (_ & _ & Hfill & _).
  destruct Hfill as (f & Hf & _ & _ & _ & Hexact).
  - reflexivity.
  - discriminate.
  - vm_compute. discriminate.
  - exists f. split; [exact Hf |]. apply Hexact. vm_compute. discriminate.
Defined.

(** C1, as stated, fails: a book whose depth (100) is short of the target
    (100.0000000005) still yields a fill, of 100 shares and not of the
    target; and a book deeper than a target of 0 yields nothing. *)
Lemma compute_buy_fill_tolerance_counterexample :
  (depth [(0.5, 100)] < 100.0000000005 /\
   exists f, compute_buy_fill [(0.5, 100)] 100.0000000005 = Some f /\
             filled f == 100 /\ ~ filled f == 100.0000000005) /\
  (0 <= depth [(0.40, 100)] /\ compute_buy_fill [(0.40, 100)] 0 = None).
Proof.
  split; [split |].
  - reflexivity.
  - eexists. split; [vm_compute; reflexivity |]. simpl.
    split; [reflexivity | discriminate].
  - split; [discriminate | reflexivity].
Qed.

(** In binary64 the filled size can miss the target although the book is
    deep enough: with 1.1 shares at 0.40 and 100 at 0.42, a target of 5.7
    is filled with 1.1 + (5.7 - 1.1), which is the float just below 5.7. *)
Example compute_buy_fill_binary64_rounding :
  let lit := Binary64.of_Q in
  exists f, compute_buy_fill (H := Binary64.float_arith)
              [(lit 0.40, lit 1.1); (lit 0.42, lit 100)] (lit 5.7) = Some f /\
            PrimFloat.ltb (filled f) (lit 5.7) = true.
Proof.
  eexists. split; [vm_compute; reflexivity |]. vm_compute. reflexivity.
Qed.
End TradingFacts.

(** ** main.py: the pure-arbitrage detector *)

Module DetectorFacts.
Import Trading Main TradingFacts.

Lemma compute_buy_fill_worst (asks : list (Level Q)) (S : Q) f :
  compute_buy_fill asks S = Some f -> exists w, worst f = Some w.
Proof.
  intros Hf.
  destruct (Qlt_le_dec 0 S) as [HS | HS].
  2:{ unfold compute_buy_fill in Hf. exact_arith.
      apply Qle_bool_iff in HS. rewrite HS in Hf. discriminate. }
  destruct asks as [|a asks'].
  { unfold compute_buy_fill in Hf. rewrite orb_true_r in Hf. discriminate. }
  destruct (sorted_by_price_nonempty (a :: asks')) as (p & s & rest & Hsort);
    [discriminate |].
  rewrite (compute_buy_fill_unfold _ _ _ _ _ HS Hsort) in Hf. cbv zeta in Hf.
  destruct (Qltb _ S); [discriminate |].
  injection Hf as <-.
  exact (walk_worst S p s rest {| w_filled := 0; w_cost := 0; w_worst := None |} HS).
Qed.

Section AnyArithmetic.
Context {F : Type} `{Arith F}.
Local Open Scope py_scope.

(** Once a level was taken the walk has a worst price. *)
Lemma walk_keeps_worst (target : F) (levels : list (Level F)) :
  forall st : Walk F,
    is_Some (w_worst st) -> is_Some (w_worst (walk target levels st)).
Proof.
  induction levels as [|[price size] rest IH]; intros st Hst; [exact Hst |].
  cbn [walk]. destruct (w_filled st >=? target); [exact Hst |].
  apply IH. cbn [w_worst]. eauto.
Qed.

(** A fill has a worst price, in any arithmetic: the test that ends the
    walk before the first level is the test [target_size <= 0] that was
    false at the start. *)
Lemma compute_buy_fill_has_worst (asks : list (Level F)) (target : F) (f : Fill F) :
  compute_buy_fill asks target = Some f -> exists w, worst f = Some w.
Proof.
  unfold compute_buy_fill.
  destruct (target <=? lit 0) eqn:Hpos; [discriminate |]. cbn [orb].
  destruct (bool_decide (asks = [])); [discriminate |].
  destruct (sorted_by_price asks) as [|[p s] rest]; [discriminate |].
  cbv zeta. cbn [walk w_filled]. rewrite Hpos.
  match goal with
  | |- context [walk target rest ?st1] =>
      pose proof (walk_keeps_worst target rest st1) as Hw
  end.
  cbn [w_worst] in Hw. specialize (Hw ltac:(eauto)).
  destruct (_ <? target); [discriminate |].
  intros E. injection E as <-. cbn [worst]. exact Hw.
Qed.

(** The test and the figures of [check_pure_arbitrage], in the arithmetic
    of the program. *)
Lemma check_pure_arbitrage_spec (st : Settings F) (up_book down_book : Book F)
      (fill_up fill_down : Fill F) :
  compute_buy_fill (book_asks up_book) (pure_arb_order_size st) = Some fill_up ->
  compute_buy_fill (book_asks down_book) (pure_arb_order_size st) = Some fill_down ->
  exists worst_up worst_down,
    worst fill_up = Some worst_up /\ worst fill_down = Some worst_down
    /\ (is_Some (check_pure_arbitrage st up_book down_book)
        <-> (worst_up + worst_down <=? target_pair_cost st) = true)
    /\ (forall opp, check_pure_arbitrage st up_book down_book = Some opp ->
          price_up opp = worst_up /\ price_down opp = worst_down
          /\ total_cost opp = worst_up + worst_down
          /\ profit_per_share opp = lit 1 - (worst_up + worst_down)).
Proof.
  intros Hup Hdown.
  destruct (compute_buy_fill_has_worst _ _ _ Hup) as [worst_up Hwu].
  destruct (compute_buy_fill_has_worst _ _ _ Hdown) as [worst_down Hwd].
  exists worst_up, worst_down. split; [exact Hwu |]. split; [exact Hwd |].
  unfold check_pure_arbitrage. rewrite Hup, Hdown, Hwu, Hwd. cbv zeta.
  destruct (worst_up + worst_down <=? target_pair_cost st) eqn:Hle.
  - split; [split; [reflexivity | intros _; eexists; reflexivity] |].
    intros opp Ho. injection Ho as <-. repeat split.
  - split; [split; [intros [? Hx]; discriminate Hx | discriminate] |].
    discriminate.
Qed.
End AnyArithmetic.

(** C2 (as amended). In the arithmetic of the program, whichever it is:
    when both fill estimates succeed, each has a worst ask, an opportunity
    is emitted exactly when the sum of the two worst asks, as computed,
    passes the test against the threshold, and then its profit per share
    is 1 minus that sum, as computed.  In exact arithmetic the test is
    that the sum is at most the threshold, and worst asks 0.495 and 0.494
    with a threshold of 0.993 give an opportunity with a profit per share
    of 0.011.  In binary64 the same book gives an opportunity as well,
    with a profit per share of 0.01100000000000001. *)
Theorem check_pure_arbitrage_fires :
  (forall (F : Type) (arith : Arith F) (st : Settings F) (up_book down_book : Book F)
          (fill_up fill_down : Fill F),
     compute_buy_fill (book_asks up_book) (pure_arb_order_size st) = Some fill_up ->
     compute_buy_fill (book_asks down_book) (pure_arb_order_size st) = Some fill_down ->
     exists worst_up worst_down,
       worst fill_up = Some worst_up /\ worst fill_down = Some worst_down
       /\ (is_Some (check_pure_arbitrage st up_book down_book)
           <-> (worst_up + worst_down <=? target_pair_cost st)%py = true)
       /\ (forall opp, check_pure_arbitrage st up_book down_book = Some opp ->
             price_up opp = worst_up /\ price_down opp = worst_down
             /\ total_cost opp = (worst_up + worst_down)%py
             /\ profit_per_share opp = (lit 1 - (worst_up + worst_down))%py)) /\
  (forall (st : Settings Q) (up_book down_book : Book Q) (fill_up fill_down : Fill Q),
     compute_buy_fill (book_asks up_book) (pure_arb_order_size st) = Some fill_up ->
     compute_buy_fill (book_asks down_book) (pure_arb_order_size st) = Some fill_down ->
     exists worst_up worst_down,
       worst fill_up = Some worst_up /\ worst fill_down = Some worst_down /\
       (is_Some (check_pure_arbitrage st up_book down_book)
          <-> worst_up + worst_down <= target_pair_cost st) /\
       (forall opp, check_pure_arbitrage st up_book down_book = Some opp ->
          profit_per_share opp = 1 - (worst_up + worst_down)) /\
       (worst_up == 0.495 -> worst_down == 0.494 -> target_pair_cost st == 0.993 ->
          exists opp, check_pure_arbitrage st up_book down_book = Some opp /\
                      profit_per_share opp == 0.011)) /\
  (exists opp,
     check_pure_arbitrage (H := Binary64.float_arith) (Samples.settings64 0.993)
                          (Samples.book64 "0.495" "50" 0.495 50)
                          (Samples.book64 "0.494" "80" 0.494 80) = Some opp
     /\ price_up opp = Binary64.of_Q 0.495
     /\ price_down opp = Binary64.of_Q 0.494
     /\ total_cost opp = PrimFloat.add (Binary64.of_Q 0.495) (Binary64.of_Q 0.494)
     /\ profit_per_share opp = Binary64.of_Q 0.01100000000000001).
Proof.
  split; [| split].
  - intros F arith st up_book down_book fill_up fill_down.
    apply check_pure_arbitrage_spec.
  - intros st up_book down_book fill_up fill_down Hup Hdown.
    destruct (compute_buy_fill_worst _ _ _ Hup) as [wu Hwu].
    destruct (compute_buy_fill_worst _ _ _ Hdown) as [wd Hwd].
    exists wu, wd. split; [exact Hwu |]. split; [exact Hwd |].
    unfold check_pure_arbitrage. rewrite Hup, Hdown, Hwu, Hwd. exact_arith.
    destruct (Qle_bool (wu + wd) (target_pair_cost st)) eqn:Hle; cmp_hyps.
    + split; [split; [intros _; assumption | intros _; eexists; reflexivity] |].
      split.
      * intros opp Ho. injection Ho as <-. reflexivity.
      * intros Eu Ed Et. eexists. split; [reflexivity |]. simpl. lra.
    + split; [split; [intros [? Hx]; discriminate Hx | intros Hx; lra] |].
      split; [discriminate | intros Eu Ed Et; lra].
  - eexists. split; [vm_compute; reflexivity |].
    repeat split; vm_compute; reflexivity.
Qed.

Lemma check_pure_arbitrage_fires_witness :
  let st := {| target_pair_cost := 0.993; pure_arb_order_size := 50;
               temporal_arb_enabled := true; temporal_arb_order_size := 100;
               temporal_arb_confidence_threshold := 0.70;
               temporal_arb_price_threshold := 0.55;
               order_type := "FOK"; dry_run := true; cooldown_seconds := 5 |} in
  let up := normalize_book [] [({| py_bool := true; py_str := "0.495"; py_float := Some 0.495 |},
                                {| py_bool := true; py_str := "50"; py_float := Some 50 |})] in
  let down := normalize_book [] [({| py_bool := true; py_str := "0.494"; py_float := Some 0.494 |},
                                  {| py_bool := true; py_str := "80"; py_float := Some 80 |})] in
  exists opp, check_pure_arbitrage st up down = Some opp /\ profit_per_share opp == 0.011.
Proof.
  intros st up down.
  destruct check_pure_arbitrage_fires as (_ & Hexact & _).
  destruct (Hexact st up down
              {| filled := 50; vwap := Some (0.495 * 50 / 50)%Q; worst := Some 0.495;
                 best := 0.495; cost := (0.495 * 50)%Q |}
              {| filled := 50; vwap := Some (0.494 * 50 / 50)%Q; worst := Some 0.494;
                 best := 0.494; cost := (0.494 * 50)%Q |})
    as (wu & wd & Hwu & Hwd & _ & _ & Hscen).
  - vm_compute. reflexivity.
  - vm_compute. reflexivity.
  - injection Hwu as <-. injection Hwd as <-.
    apply Hscen; reflexivity.
Defined.

(** C2, as stated, fails in the arithmetic of the program.  With worst
    asks 0.495 and 0.494 and a threshold of 0.993 the profit per share
    that binary64 gives is 0.01100000000000001, above 0.011.  And worst
    asks 0.463 and 0.53, whose sum is the threshold 0.993, give no
    opportunity in binary64, where the sum computed is the float next
    above 0.993, while they give one in exact arithmetic. *)
Lemma check_pure_arbitrage_rounding_counterexample :
  (exists opp,
     check_pure_arbitrage (H := Binary64.float_arith) (Samples.settings64 0.993)
                          (Samples.book64 "0.495" "50" 0.495 50)
                          (Samples.book64 "0.494" "80" 0.494 80) = Some opp
     /\ price_up opp = Binary64.of_Q 0.495
     /\ price_down opp = Binary64.of_Q 0.494
     /\ profit_per_share opp = Binary64.of_Q 0.01100000000000001
     /\ PrimFloat.eqb (profit_per_share opp) (Binary64.of_Q 0.011) = false
     /\ PrimFloat.ltb (Binary64.of_Q 0.011) (profit_per_share opp) = true) /\
  (0.463 + 0.53 <= 0.993
   /\ check_pure_arbitrage (H := Binary64.float_arith) (Samples.settings64 0.993)
                           (Samples.book64 "0.463" "50" 0.463 50)
                           (Samples.book64 "0.53" "80" 0.53 80) = None
   /\ PrimFloat.add (Binary64.of_Q 0.463) (Binary64.of_Q 0.53)
      = PrimFloat.next_up (Binary64.of_Q 0.993)
   /\ PrimFloat.ltb (Binary64.of_Q 0.993)
                     (PrimFloat.add (Binary64.of_Q 0.463) (Binary64.of_Q 0.53)) = true
   /\ is_Some (check_pure_arbitrage (demo_settings true)
                                    (Samples.book_exact "0.463" "50" 0.463 50)
                                    (Samples.book_exact "0.53" "80" 0.53 80))).
Proof.
  split.
  - eexists. split; [vm_compute; reflexivity |].
    repeat split; vm_compute; reflexivity.
  - split; [vm_compute; discriminate |]. split; [vm_compute; reflexivity |].
    split; [vm_compute; reflexivity |]. split; [vm_compute; reflexivity |].
    vm_compute. eexists. reflexivity.
Qed.
End DetectorFacts.

(** ** risk_manager.py: the halt state and the exposure *)

Module RiskFacts.
Import RiskManager.

Section AnyArithmetic.
Context {F : Type} `{Arith F}.
Local Open Scope py_scope.

Lemma rollover_halted (rm : State F) today :
  _halted (rollover rm today) = _halted rm
  /\ _halt_reason (rollover rm today) = _halt_reason rm
  /\ _current_exposure (rollover rm today) = _current_exposure rm
  /\ max_daily_loss (rollover rm today) = max_daily_loss rm
  /\ max_single_bet (rollover rm today) = max_single_bet rm
  /\ max_position_size (rollover rm today) = max_position_size rm.
Proof. unfold rollover. destruct (String.eqb _ _); repeat split. Qed.

Lemma rollover_today (rm : State F) today :
  _daily_pnl_date (rollover rm today) = today.
Proof.
  unfold rollover. destruct (String.eqb _ _) eqn:E; [| reflexivity].
  apply String.eqb_eq in E. exact E.
Qed.

Lemma rollover_idem (rm : State F) today :
  rollover (rollover rm today) today = rollover rm today.
Proof.
  unfold rollover at 1. rewrite rollover_today, String.eqb_refl. reflexivity.
Qed.

(** The gate rejects while halted, with the stored reason, and changes
    nothing. *)
Lemma check_halted (rm : State F) c today :
  _halted rm = true ->
  check_can_trade rm c today
  = ((false, "Trading halted: " +:+ _halt_reason rm), rm).
Proof. intros Hh. unfold check_can_trade. rewrite Hh. reflexivity. Qed.

(** What the gate does when it is not halted. *)
Lemma check_active (rm : State F) c today :
  _halted rm = false ->
  let rm1 := rollover rm today in
  if _daily_pnl rm1 <? - max_daily_loss rm1 then
    exists reason,
      check_can_trade rm c today = ((false, reason), set_halt rm1 true reason)
  else
    snd (check_can_trade rm c today) = rm1
    /\ fst (fst (check_can_trade rm c today))
       = negb (c >? max_single_bet rm1)
         && negb (_current_exposure rm1 + c >? max_position_size rm1).
Proof.
  intros Hh rm1. unfold check_can_trade. rewrite Hh. fold rm1.
  destruct (_daily_pnl rm1 <? - max_daily_loss rm1); [eauto |].
  destruct (c >? max_single_bet rm1); [split; reflexivity |].
  destruct (_current_exposure rm1 + c >? max_position_size rm1); split; reflexivity.
Qed.

Lemma check_exposure (rm : State F) c today :
  _current_exposure (snd (check_can_trade rm c today)) = _current_exposure rm.
Proof.
  destruct (_halted rm) eqn:Hh; [rewrite check_halted by exact Hh; reflexivity |].
  pose proof (check_active rm c today Hh) as Ha. cbv zeta in Ha.
  destruct (_ <? _).
  - destruct Ha as [r ->]. simpl. apply rollover_halted.
  - destruct Ha as [-> _]. apply rollover_halted.
Qed.

(** Every operation but the reset keeps a halted gate halted. *)
Lemma step_keeps_halted (rm : State F) (o : string * Op F) :
  is_reset o = false -> _halted rm = true -> _halted (step rm o) = true.
Proof.
  destruct o as [today op]. intros Hr Hh.
  destruct op; simpl in *; try discriminate; try assumption.
  - rewrite check_halted by exact Hh. exact Hh.
  - unfold rollover. simpl. destruct (String.eqb _ _); exact Hh.
  - unfold rollover. destruct (String.eqb _ _); exact Hh.
  - unfold rollover. destruct (String.eqb _ _); exact Hh.
Qed.

Lemma run_keeps_halted (ops : list (string * Op F)) :
  forall rm : State F,
    forallb (fun o => negb (is_reset o)) ops = true ->
    _halted rm = true -> _halted (run rm ops) = true.
Proof.
  induction ops as [|o ops IH]; intros rm Hops Hh; [exact Hh |].
  simpl in Hops. apply andb_true_iff in Hops as [Ho Hops].
  apply negb_true_iff in Ho.
  apply (IH (step rm o) Hops). apply step_keeps_halted; assumption.
Qed.

(** Only an evaluation of the gate can halt it. *)
Lemma step_halts_only_in_check (rm : State F) (o : string * Op F) :
  _halted rm = false -> _halted (step rm o) = true ->
  exists c, snd o = OpCheck c
    /\ (_daily_pnl (rollover rm (fst o)) <? - max_daily_loss rm) = true.
Proof.
  destruct o as [today op]. intros Hh Hh'.
  destruct op; simpl in *.
  - exists trade_cost. split; [reflexivity |].
    pose proof (check_active rm trade_cost today Hh) as Ha. cbv zeta in Ha.
    destruct (rollover_halted rm today) as (E1 & _ & _ & E2 & _).
    rewrite E2 in Ha.
    destruct (_ <? _); [reflexivity |].
    destruct Ha as [Ha _]. rewrite Ha, E1, Hh in Hh'. discriminate.
  - congruence.
  - unfold rollover in Hh'. simpl in Hh'.
    destruct (String.eqb _ _); simpl in Hh'; congruence.
  - unfold rollover in Hh'. destruct (String.eqb _ _); simpl in Hh'; congruence.
  - unfold rollover in Hh'. destruct (String.eqb _ _); simpl in Hh'; congruence.
  - congruence.
  - discriminate.
Qed.

(** An approval says "OK", and is given by a gate that is not halted. *)
Lemma check_approved (rm : State F) c today :
  fst (fst (check_can_trade rm c today)) = true ->
  snd (fst (check_can_trade rm c today)) = "OK" /\ _halted rm = false.
Proof.
  unfold check_can_trade.
  destruct (_halted rm); [discriminate |].
  destruct (_daily_pnl (rollover rm today) <? _); [discriminate |].
  destruct (c >? _); [discriminate |].
  destruct (_ + c >? _); [discriminate |]. auto.
Qed.

(** Two evaluations in a row on the same day decide alike. *)
Lemma check_twice_same_day (rm : State F) c today :
  fst (fst (check_can_trade (snd (check_can_trade rm c today)) c today))
  = fst (fst (check_can_trade rm c today)).
Proof.
  destruct (_halted rm) eqn:Hh.
  - rewrite (check_halted rm) by exact Hh. cbn [fst snd].
    rewrite check_halted by exact Hh. reflexivity.
  - pose proof (check_active rm c today Hh) as Ha. cbv zeta in Ha.
    destruct (_daily_pnl (rollover rm today) <? _) eqn:Hloss.
    + destruct Ha as [r ->]. cbn [fst snd]. rewrite check_halted by reflexivity.
      reflexivity.
    + destruct Ha as [E1 E2]. rewrite E1, E2.
      assert (Hh1 : _halted (rollover rm today) = false)
        by (destruct (rollover_halted rm today) as (-> & _); exact Hh).
      pose proof (check_active (rollover rm today) c today Hh1) as Hb.
      cbv zeta in Hb. rewrite rollover_idem, Hloss in Hb.
      destruct Hb as [_ ->]. reflexivity.
Qed.
End AnyArithmetic.

(** *** In exact arithmetic *)

Lemma check_twice_any_day (rm : State Q) (c : Q) (day1 day2 : string) :
  0 <= max_daily_loss rm ->
  fst (fst (check_can_trade (snd (check_can_trade rm c day1)) c day2))
  = fst (fst (check_can_trade rm c day1)).
Proof.
  intros Hmax. destruct (_halted rm) eqn:Hh.
  - rewrite (check_halted rm c day1) by exact Hh. cbn [fst snd].
    rewrite check_halted by exact Hh. reflexivity.
  - pose proof (check_active rm c day1 Hh) as Ha. cbv zeta in Ha.
    destruct (rollover_halted rm day1) as (Eh & _ & Ee & Ed & Es & Ep).
    destruct (flt (_daily_pnl (rollover rm day1)) _) eqn:Hloss.
    + destruct Ha as [r ->]. cbn [fst snd]. rewrite check_halted by reflexivity.
      reflexivity.
    + destruct Ha as [E1 E2]. rewrite E1, E2.
      set (rm1 := rollover rm day1) in *.
      assert (Hh1 : _halted rm1 = false) by congruence.
      pose proof (check_active rm1 c day2 Hh1) as Hb. cbv zeta in Hb.
      destruct (rollover_halted rm1 day2) as (_ & _ & Ee' & Ed' & Es' & Ep').
      assert (Hno : flt (_daily_pnl (rollover rm1 day2))
                        (- max_daily_loss (rollover rm1 day2))%py = false).
      { rewrite Ed'. unfold rollover at 1.
        destruct (String.eqb _ _); [exact Hloss |].
        simpl. exact_arith. apply Qltb_ge. rewrite Ed. lra. }
      rewrite Hno in Hb. destruct Hb as [_ ->].
      rewrite Ee', Es', Ep'. reflexivity.
Qed.

Lemma settlement_exposure (rm : State Q) t won pnl today :
  _current_exposure (fst (record_settlement rm t won pnl today))
  = Qmax 0 (_current_exposure rm - cost t).
Proof.
  unfold record_settlement, rollover. cbn [fst]. cbn [set_book _daily_pnl_date].
  rewrite <- pymax_Qmax.
  destruct (String.eqb _ _); reflexivity.
Qed.

(** One operation on the gate: the exposure stays non-negative, and only
    the recording of a trade can raise it. *)
Lemma step_exposure (rm : State Q) (o : string * Op Q) :
  (forall c, op_cost o = Some c -> 0 <= c) ->
  0 <= _current_exposure rm ->
  0 <= _current_exposure (step rm o)
  /\ (_current_exposure rm < _current_exposure (step rm o) ->
      exists t, snd o = OpRecordTrade t).
Proof.
  destruct o as [today op]. intros Hc He.
  destruct op; cbn [step snd fst].
  - rewrite check_exposure. split; [exact He | intros Hlt; lra].
  - specialize (Hc _ eq_refl). cbn [record_trade set_book _current_exposure].
    exact_arith. split; [lra | eauto].
  - specialize (Hc _ eq_refl). rewrite settlement_exposure.
    destruct (Qmax_cases 0 (_current_exposure rm - cost trade)) as [[? E]|[? E]];
      split; try lra.
  - unfold daily_pnl. cbn [snd].
    destruct (rollover_halted rm today) as (_ & _ & -> & _).
    split; [exact He | intros Hlt; lra].
  - unfold get_summary, daily_pnl. cbn [snd].
    destruct (rollover_halted rm today) as (_ & _ & -> & _).
    split; [exact He | intros Hlt; lra].
  - split; [exact He | intros Hlt; lra].
  - cbn [reset_daily set_halt set_daily _current_exposure].
    split; [exact He | intros Hlt; lra].
Qed.

Lemma run_exposure (ops : list (string * Op Q)) :
  forall rm : State Q,
    Forall (fun o => forall c, op_cost o = Some c -> 0 <= c) ops ->
    0 <= _current_exposure rm -> 0 <= _current_exposure (run rm ops).
Proof.
  induction ops as [|o ops IH]; intros rm Hops He; [exact He |].
  inversion Hops as [|? ? Ho Hops']; subst.
  apply (IH (step rm o) Hops'). apply step_exposure; assumption.
Qed.

(** C4 (as amended). While halted, the gate rejects every trade with the
    stored reason and changes nothing.  While active, an evaluation halts
    the gate exactly when the daily P&L, after the lazy rollover, is
    strictly below minus the daily-loss limit; the rejection then carries
    the recorded reason, whatever the cost.  No other operation halts the
    gate, and a halted gate stays halted through every sequence of
    operations (settlements of any P&L and day rollovers included) that
    does not contain the reset, which clears it.  This holds in any
    arithmetic. *)
Theorem halt_state_machine {F : Type} `{Arith F}
        (rm : State F) (c : F) (today : string) :
  (_halted rm = true ->
     check_can_trade rm c today
     = ((false, "Trading halted: " +:+ _halt_reason rm), rm)) /\
  (_halted rm = false ->
     let rm' := snd (check_can_trade rm c today) in
     (_halted rm' = true
        <-> (_daily_pnl (rollover rm today) <? - max_daily_loss rm)%py = true) /\
     (_halted rm' = true ->
        fst (check_can_trade rm c today) = (false, _halt_reason rm'))) /\
  (forall o, _halted rm = false -> _halted (step rm o) = true ->
     exists c', snd o = OpCheck c') /\
  (forall ops, forallb (fun o => negb (is_reset o)) ops = true ->
     _halted rm = true -> _halted (run rm ops) = true) /\
  _halted (reset_daily rm today) = false.
Proof.
  split; [apply check_halted |].
  split.
  { intros Hh rm'.
    pose proof (check_active rm c today Hh) as Ha. cbv zeta in Ha.
    destruct (rollover_halted rm today) as (Eh & _ & _ & Ed & _).
    rewrite Ed in Ha. subst rm'.
    destruct (flt _ _) eqn:Hloss.
    - destruct Ha as [r ->]. cbn [fst snd]. repeat split; reflexivity.
    - destruct Ha as [-> _]. rewrite Eh, Hh.
      repeat split; intros; discriminate. }
  split.
  { intros o Hh Hh'.
    destruct (step_halts_only_in_check rm o Hh Hh') as (c' & Ho & _). eauto. }
  split; [intros ops; apply run_keeps_halted | reflexivity].
Qed.

Lemma halt_state_machine_witness :
  _halted losing_day = true /\
  _halt_reason losing_day = "Daily loss limit reached: $-600.00" /\
  fst (check_can_trade losing_day 10 "2026-01-06")
  = (false, "Trading halted: Daily loss limit reached: $-600.00") /\
  _halted (run losing_day
             [("2026-01-06", OpDailyPnl);
              ("2026-01-06", OpRecordSettlement
                 {| obj := 1; timestamp := 0; strategy := "pure_arb"; direction := "BOTH";
                    size := 50; cost := 49; expected_payout := 50; expected_profit := 1;
                    market_slug := "btc"; status := "open"; actual_pnl := 0 |}
                 true 900);
              ("2026-01-06", OpCheck 10)]) = true.
Proof.
  assert (Hh : _halted losing_day = true) by reflexivity.
  split; [exact Hh |]. split; [reflexivity |].
  destruct (halt_state_machine losing_day 10 "2026-01-06") as (Ha & _ & _ & Hd & _).
  split.
  - rewrite (Ha Hh). reflexivity.
  - apply Hd; [reflexivity | exact Hh].
Defined.

(** C4, as stated, fails at the boundary: a daily P&L exactly at minus the
    limit (-500 against a limit of 500) does not halt the gate, which
    approves the trade. *)
Lemma halt_boundary_counterexample :
  let t := {| obj := 0; timestamp := 0; strategy := "temporal_arb"; direction := "UP";
              size := 100; cost := 50; expected_payout := 100; expected_profit := 50;
              market_slug := "btc"; status := "open"; actual_pnl := 0 |} in
  let rm := run (init 500 5000 500 5)
                [("2026-01-05", OpRecordTrade t);
                 ("2026-01-05", OpRecordSettlement t false (-500))] in
  _daily_pnl rm <= - max_daily_loss rm /\
  fst (check_can_trade rm 10 "2026-01-05") = (true, "OK") /\
  _halted (snd (check_can_trade rm 10 "2026-01-05")) = false.
Proof.
  cbv zeta. split; [vm_compute; discriminate |]. split; reflexivity.
Qed.

(** C9. Two evaluations of the gate in a row, on the same state and cost
    and with nothing recorded in between, give the same decision, in any
    arithmetic; this includes the case in which the first evaluation
    halts the gate.  In exact arithmetic, and with a limit that is not
    negative, it also holds when the day changes between the two. *)
Theorem check_can_trade_idempotent :
  (forall (F : Type) (A : Arith F) (rm : State F) (c : F) (today : string),
     fst (fst (check_can_trade (snd (check_can_trade rm c today)) c today))
     = fst (fst (check_can_trade rm c today))) /\
  (forall (rm : State Q) (c : Q) (day1 day2 : string),
     0 <= max_daily_loss rm ->
     fst (fst (check_can_trade (snd (check_can_trade rm c day1)) c day2))
     = fst (fst (check_can_trade rm c day1))).
Proof.
  split.
  - intros F A rm c today. apply check_twice_same_day.
  - apply check_twice_any_day.
Qed.

Lemma check_can_trade_idempotent_witness :
  let rm := set_daily (init 500 5000 500 5) (-600) "2026-01-05" in
  fst (fst (check_can_trade rm 10 "2026-01-05")) = false /\
  fst (fst (check_can_trade (snd (check_can_trade rm 10 "2026-01-05")) 10 "2026-01-06"))
  = fst (fst (check_can_trade rm 10 "2026-01-05")).
Proof.
  cbv zeta. split; [reflexivity |].
  apply (proj2 check_can_trade_idempotent). vm_compute. discriminate.
Defined.
End RiskFacts.

(** ** trading.py: polling an order *)

Module PollingFacts.
Import Trading.

Lemma poll_step_pending (req : option Q) r :
  snd (poll_step req r) = false -> s_filled (fst (poll_step req r)) = None.
Proof.
  destruct r as [od | msg]; simpl; [| reflexivity].
  destruct (size_filled _ _); [discriminate |].
  destruct (bool_decide _); [discriminate | reflexivity].
Qed.

Lemma poll_loop_within (req : option Q) (timeout start t : Q) last r rest :
  t - start < timeout ->
  poll_loop req timeout start last ((t, r) :: rest)
  = if snd (poll_step req r) then Some (fst (poll_step req r))
    else poll_loop req timeout start (Some (fst (poll_step req r))) rest.
Proof.
  intros Ht. cbn [poll_loop]. exact_arith. apply Qltb_lt in Ht. rewrite Ht.
  destruct (poll_step req r) as [summary returns]. reflexivity.
Qed.

Lemma poll_loop_over (req : option Q) (timeout start t : Q) last r rest :
  timeout <= t - start ->
  poll_loop req timeout start last ((t, r) :: rest) = Some (timed_out req last).
Proof.
  intros Ht. cbn [poll_loop]. exact_arith. apply Qltb_ge in Ht. rewrite Ht.
  reflexivity.
Qed.

Lemma poll_step_size_filled (req : option Q) od :
  size_filled req (od_filled_size od) = true ->
  snd (poll_step req (GetOrderOk od)) = true
  /\ s_filled (fst (poll_step req (GetOrderOk od))) = Some true
  /\ s_status (fst (poll_step req (GetOrderOk od))) = Some (od_status od).
Proof.
  intros Hs. cbn [poll_step]. rewrite Hs. repeat split.
Qed.

Lemma poll_loop_app (req : option Q) (timeout start : Q) pre :
  Forall (keeps_polling req timeout start) pre ->
  forall last rest,
    poll_loop req timeout start last (pre ++ rest)
    = poll_loop req timeout start (summary_after req last pre) rest.
Proof.
  induction 1 as [|[t r] pre [Ht Hr] _ IH]; intros last rest; [reflexivity |].
  cbn [fst snd] in Ht, Hr. cbn [app].
  rewrite (poll_loop_within _ _ _ _ _ _ _ Ht), Hr. apply IH.
Qed.

Lemma summary_after_pending (req : option Q) (timeout start : Q) pre :
  Forall (keeps_polling req timeout start) pre ->
  forall last,
    (forall s, last = Some s -> s_filled s = None) ->
    forall s, summary_after req last pre = Some s -> s_filled s = None.
Proof.
  induction 1 as [|[t r] pre [Ht Hr] _ IH]; intros last Hlast; [exact Hlast |].
  simpl. apply IH. intros s Hs. injection Hs as <-.
  apply poll_step_pending. exact Hr.
Qed.

Lemma timed_out_not_filled (req : option Q) last :
  (forall s, last = Some s -> s_filled s = None) ->
  s_filled (timed_out req last) = Some false.
Proof.
  intros Hlast. unfold timed_out, setdefault_filled.
  destruct last as [s|]; simpl; [| reflexivity].
  rewrite (Hlast s eq_refl). reflexivity.
Qed.

Lemma size_filled_ok (requested f : Q) :
  0 < requested -> requested <= f -> size_filled (Some requested) (Some f) = true.
Proof.
  intros Hr Hf. unfold size_filled, truthy. exact_arith.
  rewrite !andb_true_iff, !negb_true_iff. repeat split.
  - apply Qeq_bool_ne. lra.
  - apply Qeq_bool_ne. lra.
  - apply Qle_bool_iff. lra.
Qed.

(** C6. Polling goes on while the clock is within the budget and no answer
    is final ([pre]).  Then (a) an answer that reports a filled size of at
    least the requested size ends the polling with the leg filled,
    whatever status it carries; (b) a reading of the clock at or past the
    budget ends it with the leg not filled; (c) a poll that raises is not
    final and raises nothing: the loop records the error and goes on with
    the next round. *)
Theorem wait_for_terminal_order_outcomes
        (req : option Q) (timeout start t : Q) (pre post : list (Q * PollResult Q)) :
  Forall (keeps_polling req timeout start) pre ->
  (forall requested od f,
     req = Some requested -> 0 < requested -> t - start < timeout ->
     od_filled_size od = Some f -> requested <= f ->
     exists s,
       wait_for_terminal_order req timeout start (pre ++ (t, GetOrderOk od) :: post)
       = Some s
       /\ s_filled s = Some true /\ s_status s = Some (od_status od)) /\
  (forall r,
     timeout <= t - start ->
     exists s,
       wait_for_terminal_order req timeout start (pre ++ (t, r) :: post) = Some s
       /\ s_filled s = Some false /\ leg_filled s = false) /\
  (forall msg,
     t - start < timeout ->
     keeps_polling req timeout start (t, GetOrderRaises msg)
     /\ wait_for_terminal_order req timeout start (pre ++ (t, GetOrderRaises msg) :: post)
        = poll_loop req timeout start
            (Some {| s_status := Some "error"; s_error := Some msg;
                     s_filled_size := None; s_requested_size := req;
                     s_raw := None; s_filled := None |})
            post).
Proof.
  intros Hpre. unfold wait_for_terminal_order.
  split; [| split].
  - intros requested od f -> Hreq Ht Hf Hle.
    rewrite (poll_loop_app _ _ _ _ Hpre), (poll_loop_within _ _ _ _ _ _ _ Ht).
    destruct (poll_step_size_filled (Some requested) od) as (-> & Hfilled & Hstatus).
    { rewrite Hf. apply size_filled_ok; assumption. }
    eexists. split; [reflexivity |]. split; assumption.
  - intros r Ht.
    rewrite (poll_loop_app _ _ _ _ Hpre), (poll_loop_over _ _ _ _ _ _ _ Ht).
    eexists. split; [reflexivity |].
    assert (Hf : s_filled (timed_out req (summary_after req None pre)) = Some false).
    { apply timed_out_not_filled.
      apply (summary_after_pending req timeout start pre Hpre None). discriminate. }
    split; [exact Hf |]. unfold leg_filled. rewrite Hf. reflexivity.
  - intros msg Ht. split; [split; [exact Ht | reflexivity] |].
    rewrite (poll_loop_app _ _ _ _ Hpre), (poll_loop_within _ _ _ _ _ _ _ Ht).
    reflexivity.
Qed.

Lemma wait_for_terminal_order_outcomes_witness :
  let live : gmap string (PyVal Q) :=
    {[ "status" := {| py_bool := true; py_str := "LIVE"; py_float := None |};
       "size_matched" := {| py_bool := true; py_str := "10"; py_float := Some 10 |} ]} in
  let odd : gmap string (PyVal Q) :=
    {[ "status" := {| py_bool := true; py_str := "MATCHED"; py_float := None |};
       "matched_size" := {| py_bool := true; py_str := "50"; py_float := Some 50 |} ]} in
  let pre := [(100.0, GetOrderOk live); (100.25, GetOrderRaises "timeout")] in
  (exists s, wait_for_terminal_order (Some 50) 3 100 (pre ++ [(100.5, GetOrderOk odd)]) = Some s
             /\ s_filled s = Some true /\ s_status s = Some "matched") /\
  (exists s, wait_for_terminal_order (Some 50) 3 100 (pre ++ [(103, GetOrderOk odd)]) = Some s
             /\ s_filled s = Some false /\ leg_filled s = false).
Proof.
  intros live odd pre.
  assert (Hpre : Forall (keeps_polling (Some 50) 3 100) pre).
  { repeat constructor; simpl; vm_compute; reflexivity. }
  destruct (wait_for_terminal_order_outcomes (Some 50) 3 100 100.5 pre [] Hpre)
    as (Ha & _ & _).
  destruct (wait_for_terminal_order_outcomes (Some 50) 3 100 103 pre [] Hpre)
    as (_ & Hb & _).
  split.
  - destruct (Ha 50 odd 50) as (s & Hs & Hf & Hst);
      [reflexivity | reflexivity | reflexivity | reflexivity | discriminate |].
    exists s. split; [exact Hs |]. split; [exact Hf |]. rewrite Hst. reflexivity.
  - apply Hb. discriminate.
Defined.
End PollingFacts.

(** ** cex_price_feed.py: momentum signals and their fusion *)

Module FeedFacts.
Import CexPriceFeed.

Section AnyArithmetic.
Context {F : Type} `{Arith F}.
Variable clk : nat -> F.
Local Open Scope py_scope.

(** What a signal of [get_momentum] is made of, and the one reading of
    the clock it costs. *)
Lemma get_momentum_sig (feed : Feed F) lb n s n' :
  get_momentum clk feed lb n = (Some s, n') ->
  n' = S n /\ sig_timestamp s = clk n /\ window_seconds s = lb
  /\ confidence s = lookback_confidence (fabs (price_change_pct s))
  /\ direction s = (if price_change_pct s >? lit 0 then UP else DOWN)
  /\ (fabs (price_change_pct s) <? lit 0.01) = false.
Proof.
  unfold get_momentum, bind, ret, time_time.
  destruct (_prices feed) as [|p ps]; [discriminate |].
  destruct (_current_price feed) as [cur|]; [| discriminate].
  destruct (reference_at _ _) as [ref|]; [| discriminate].
  destruct (ref =? lit 0); [discriminate |].
  destruct (fabs _ <? lit 0.01) eqn:Hnoise; [discriminate |].
  intros Hs. injection Hs as <- <-. cbn.
  repeat split; try reflexivity; exact Hnoise.
Qed.

Lemma get_momentum_clock (feed : Feed F) lb n :
  (n <= snd (get_momentum clk feed lb n) <= S n)%nat.
Proof.
  unfold get_momentum, bind, ret, time_time.
  destruct (_prices feed) as [|p ps]; [simpl; lia |].
  destruct (_current_price feed) as [cur|]; [| simpl; lia].
  destruct (reference_at _ _) as [ref|]; [| simpl; lia].
  destruct (ref =? lit 0); [simpl; lia |].
  destruct (fabs _ <? lit 0.01); simpl; lia.
Qed.

(** The same for [get_window_momentum], which reads the clock twice. *)
Lemma get_window_momentum_sig (feed : Feed F) n s n' :
  get_window_momentum clk feed n = (Ret (Some s), n') ->
  n' = S (S n) /\ sig_timestamp s = clk (S n)
  /\ confidence s = window_confidence (fabs (price_change_pct s))
  /\ direction s = (if price_change_pct s >? lit 0 then UP else DOWN)
  /\ (fabs (price_change_pct s) <? lit 0.005) = false.
Proof.
  unfold get_window_momentum, bind, ret, time_time.
  destruct (_window_start_price feed) as [start|]; [| discriminate].
  destruct (_current_price feed) as [cur|]; [| discriminate].
  destruct (start =? lit 0); [discriminate |].
  destruct (fabs _ <? lit 0.005) eqn:Hnoise; [discriminate |].
  destruct (to_int _); [| discriminate].
  intros Hs. injection Hs as <- <-. cbn.
  repeat split; try reflexivity; exact Hnoise.
Qed.

(** The confidences come from two tables. *)
Lemma lookback_confidence_table (x : F) :
  In (lookback_confidence x)
     [lit 0.95; lit 0.85; lit 0.75; lit 0.65; lit 0.55; lit 0.45].
Proof.
  unfold lookback_confidence.
  repeat match goal with |- context [if ?b then _ else _] => destruct b end;
    simpl; auto 10.
Qed.

Lemma window_confidence_table (x : F) :
  In (window_confidence x)
     [lit 0.95; lit 0.90; lit 0.80; lit 0.70; lit 0.60; lit 0.50].
Proof.
  unfold window_confidence.
  repeat match goal with |- context [if ?b then _ else _] => destruct b end;
    simpl; auto 10.
Qed.

(** *** The set of directions *)

Lemma remove_dups_one (d : Direction) (l : list Direction) :
  l <> [] -> (forall x, x ∈ l -> x = d) -> remove_dups l = [d].
Proof.
  induction l as [|x l IH]; intros Hne Hall; [contradiction |].
  assert (Hx : x = d) by (apply Hall; left).
  simpl. destruct (decide_rel elem_of x l) as [Hin | Hnin].
  - apply IH.
    + intros ->. inversion Hin.
    + intros y Hy. apply Hall. right. exact Hy.
  - destruct l as [|y l'].
    + rewrite Hx. reflexivity.
    + exfalso. apply Hnin.
      assert (Hy : y = d) by (apply Hall; right; left).
      rewrite Hx, <- Hy. left.
Qed.

Lemma remove_dups_two (d1 d2 : Direction) (l : list Direction) :
  d1 ∈ l -> d2 ∈ l -> d1 <> d2 -> forall d, remove_dups l <> [d].
Proof.
  intros H1 H2 Hne d Hd.
  apply elem_of_remove_dups in H1, H2. rewrite Hd in H1, H2.
  apply list_elem_of_singleton in H1, H2. congruence.
Qed.

(** *** The fusion *)

(** Signals that disagree fuse to nothing. *)
Lemma fuse_disagree signals w n s1 s2 :
  s1 ∈ signals -> s2 ∈ signals -> direction s1 <> direction s2 ->
  fst (fuse clk signals w n) = None.
Proof.
  intros H1 H2 Hne. unfold fuse, bind, ret, time_time.
  destruct (last signals) as [latest|]; [| reflexivity].
  pose proof (remove_dups_two (direction s1) (direction s2) (map direction signals))
    as Hd.
  destruct (remove_dups (map direction signals)) as [|d [|d' ds]]; try reflexivity.
  exfalso. apply (Hd ltac:(apply list_elem_of_fmap_2; exact H1)
                     ltac:(apply list_elem_of_fmap_2; exact H2) Hne d).
  reflexivity.
Qed.

(** Signals that agree fuse to a signal of their direction, whose
    confidence is the quotient the loop computes. *)
Lemma fuse_agree signals w n d :
  signals <> [] -> (forall s, s ∈ signals -> direction s = d) ->
  exists s,
    fst (fuse clk signals w n) = Some s
    /\ direction s = d
    /\ confidence s
       = (let '(weighted_conf, total_weight) := weigh w 0 signals (lit 0, lit 0) in
          if total_weight >? lit 0 then weighted_conf / total_weight else lit 0).
Proof.
  intros Hne Hall. unfold fuse, bind, ret, time_time.
  destruct (last signals) as [latest|] eqn:Hlast.
  2:{ apply last_None in Hlast. contradiction. }
  rewrite (remove_dups_one d).
  - destruct (weigh w 0 signals (lit 0, lit 0)) as [wc tw].
    eexists. split; [reflexivity |]. split; reflexivity.
  - destruct signals; [contradiction | discriminate].
  - intros x Hx. apply list_elem_of_fmap in Hx as (s & -> & Hs). apply Hall, Hs.
Qed.

Lemma fuse_none signals w n : signals = [] -> fst (fuse clk signals w n) = None.
Proof. intros ->. reflexivity. Qed.

(** What a fused signal tells about the signals it comes from. *)
Lemma fuse_some signals w n s :
  fst (fuse clk signals w n) = Some s ->
  signals <> []
  /\ (forall a, a ∈ signals -> direction a = direction s)
  /\ confidence s
     = (let '(weighted_conf, total_weight) := weigh w 0 signals (lit 0, lit 0) in
        if total_weight >? lit 0 then weighted_conf / total_weight else lit 0).
Proof.
  unfold fuse, bind, ret, time_time.
  destruct (last signals) as [latest|] eqn:Hlast; [| discriminate].
  destruct (remove_dups (map direction signals)) as [|d [|d' ds]] eqn:Hd;
    try discriminate.
  destruct (weigh w 0 signals (lit 0, lit 0)) as [wc tw].
  cbn [fst]. intros Hs. injection Hs as <-. cbn.
  split; [intros ->; discriminate Hlast |].
  split; [| reflexivity].
  intros a Ha.
  assert (Hin : direction a ∈ remove_dups (map direction signals))
    by (apply elem_of_remove_dups, list_elem_of_fmap_2, Ha).
  rewrite Hd in Hin. apply list_elem_of_singleton in Hin. exact Hin.
Qed.

Lemma get_multi_unfold (feed : Feed F) n n1 n2 n3 n4 s15 s30 s60 w :
  get_momentum clk feed 15 n = (s15, n1) ->
  get_momentum clk feed 30 n1 = (s30, n2) ->
  get_momentum clk feed 60 n2 = (s60, n3) ->
  get_window_momentum clk feed n3 = (Ret w, n4) ->
  fst (get_multi_timeframe_signal clk feed n)
  = Ret (fst (fuse clk (present s15 ++ present s30 ++ present s60 ++ present w)
                   w n4)).
Proof.
  intros H15 H30 H60 Hw.
  unfold get_multi_timeframe_signal, collect, bind, ret.
  rewrite H15, H30, H60, Hw.
  destruct (fuse clk _ w n4) as [r n5]. reflexivity.
Qed.

Lemma weigh_readings w signals : forall i acc,
  weigh w i signals acc = weigh_flags i (map (reading w) signals) acc.
Proof.
  induction signals as [|s signals IH]; intros i acc; [reflexivity |].
  simpl. rewrite IH. unfold weight_of. reflexivity.
Qed.

Lemma fuse_some_combined signals w n s :
  fst (fuse clk signals w n) = Some s ->
  signals <> []
  /\ confidence s = combined_confidence (map (reading w) signals).
Proof.
  intros Hs. destruct (fuse_some signals w n s Hs) as (Hne & _ & Hc).
  split; [exact Hne |]. rewrite Hc. unfold combined_confidence.
  rewrite weigh_readings. reflexivity.
Qed.

(** Each signal collected falls in the slot of its table. *)
Lemma slot_intro (table : list F) (c : F) (b : bool) :
  In c table -> In [(c, b)] (slot table).
Proof.
  intros Hc. right. apply in_flat_map. exists c. split; [exact Hc |].
  destruct b; simpl; auto.
Qed.

Lemma lookback_slot (feed : Feed F) lb n r n' w :
  get_momentum clk feed lb n = (r, n') ->
  In (map (reading w) (present r)) (slot lookback_table).
Proof.
  intros Hr. destruct r as [s|]; [| left; reflexivity].
  destruct (get_momentum_sig feed lb n s n' Hr) as (_ & _ & _ & Hc & _).
  cbn [present map]. unfold reading. rewrite Hc.
  apply slot_intro, lookback_confidence_table.
Qed.

Lemma window_slot (feed : Feed F) n w n' :
  get_window_momentum clk feed n = (Ret w, n') ->
  In (map (reading w) (present w)) (slot window_table).
Proof.
  intros Hr. destruct w as [s|]; [| left; reflexivity].
  destruct (get_window_momentum_sig feed n s n' Hr) as (_ & _ & Hc & _).
  cbn [present map]. unfold reading. rewrite Hc.
  apply slot_intro, window_confidence_table.
Qed.

(** A bound checked on every fusion holds of the signal returned. *)
Lemma fused_within (lo hi : F) (feed : Feed F) n s :
  all_fuse_within lo hi = true ->
  fst (get_multi_timeframe_signal clk feed n) = Ret (Some s) ->
  (lo <=? confidence s) = true /\ (confidence s <=? hi) = true.
Proof.
  intros Hall Hs.
  destruct (get_momentum clk feed 15 n) as [s15 n1] eqn:H15.
  destruct (get_momentum clk feed 30 n1) as [s30 n2] eqn:H30.
  destruct (get_momentum clk feed 60 n2) as [s60 n3] eqn:H60.
  destruct (get_window_momentum clk feed n3) as [[w | e] n4] eqn:Hw.
  2:{ unfold get_multi_timeframe_signal, collect, bind, ret in Hs.
      rewrite H15, H30, H60, Hw in Hs. discriminate Hs. }
  rewrite (get_multi_unfold feed n n1 n2 n3 n4 s15 s30 s60 w H15 H30 H60 Hw) in Hs.
  injection Hs as Hs.
  destruct (fuse_some_combined _ _ _ _ Hs) as (Hne & Hc).
  unfold all_fuse_within in Hall.
  rewrite forallb_forall in Hall.
  specialize (Hall _ (lookback_slot feed 15 n s15 n1 w H15)).
  rewrite forallb_forall in Hall.
  specialize (Hall _ (lookback_slot feed 30 n1 s30 n2 w H30)).
  rewrite forallb_forall in Hall.
  specialize (Hall _ (lookback_slot feed 60 n2 s60 n3 w H60)).
  rewrite forallb_forall in Hall.
  specialize (Hall _ (window_slot feed n3 w n4 Hw)).
  rewrite <- !map_app in Hall.
  assert (Hnn : map (reading w)
                    (present s15 ++ present s30 ++ present s60 ++ present w) <> [])
    by (intros E; apply map_eq_nil in E; contradiction).
  revert Hc Hall Hnn. unfold fuses_within.
  destruct (map (reading w) _); intros Hc Hall Hnn; [contradiction |].
  rewrite Hc. apply andb_true_iff in Hall. exact Hall.
Qed.

Lemma get_momentum_clock' (feed : Feed F) lb n r n' :
  get_momentum clk feed lb n = (r, n') -> (n <= n' <= S n)%nat.
Proof.
  intros E. pose proof (get_momentum_clock feed lb n) as Hc.
  rewrite E in Hc. exact Hc.
Qed.
End AnyArithmetic.

(** *** In exact arithmetic *)

Section Exact.
Variable clk : nat -> Q.

Lemma collect_unfold (feed : Feed Q) n :
  collect clk feed n =
  let '(s15, n1) := get_momentum clk feed 15 n in
  let '(s30, n2) := get_momentum clk feed 30 n1 in
  let '(s60, n3) := get_momentum clk feed 60 n2 in
  let '(w, n4) := get_window_momentum clk feed n3 in
  match w with
  | Raise e => (Raise e, n4)
  | Ret window_sig =>
      (Ret (present s15 ++ present s30 ++ present s60 ++ present window_sig,
            window_sig), n4)
  end.
Proof.
  unfold collect, bind, ret.
  destruct (get_momentum clk feed 15 n) as [s15 n1].
  destruct (get_momentum clk feed 30 n1) as [s30 n2].
  destruct (get_momentum clk feed 60 n2) as [s60 n3].
  destruct (get_window_momentum clk feed n3) as [[w | e] n4]; reflexivity.
Qed.

(** On rationals [int(elapsed)] is defined: the window signal never raises. *)
Lemma get_window_momentum_returns (feed : Feed Q) n :
  exists w, fst (get_window_momentum clk feed n) = Ret w.
Proof.
  unfold get_window_momentum, bind, ret, time_time.
  destruct (_window_start_price feed) as [start|]; [| eauto].
  destruct (_current_price feed) as [cur|]; [| eauto].
  destruct (feq start _); [eauto |].
  destruct (flt _ _); eauto.
Qed.

Lemma sig_eqb_refl (s : MomentumSignal Q) : sig_eqb s s = true.
Proof.
  unfold sig_eqb. exact_arith.
  rewrite bool_decide_eq_true_2 by reflexivity.
  rewrite !Qeq_bool_refl, Z.eqb_refl. reflexivity.
Qed.

Lemma sig_eqb_timestamp (a b : MomentumSignal Q) :
  sig_eqb a b = true -> sig_timestamp a == sig_timestamp b.
Proof.
  unfold sig_eqb. rewrite !andb_true_iff. intros (_ & Ht).
  exact_arith. apply Qeq_bool_iff. exact Ht.
Qed.

(** *** Weights *)

Lemma index_nonneg (i : nat) : 0 <= inject_Z (Z.of_nat i).
Proof. unfold Qle. simpl. lia. Qed.

Lemma weight_of_ge_1 w i (s : MomentumSignal Q) : 1 <= weight_of w i s.
Proof.
  unfold weight_of. exact_arith. pose proof (index_nonneg i).
  destruct (is_window_sig w s); lra.
Qed.

Lemma weights_from_app w l1 : forall i l2,
  weights_from w i (l1 ++ l2)
  = weights_from w i l1 ++ weights_from w (i + length l1) l2.
Proof.
  induction l1 as [|s l1 IH]; intros i l2; simpl.
  - rewrite Nat.add_0_r. reflexivity.
  - rewrite IH. replace (S i + length l1)%nat with (i + S (length l1))%nat by lia.
    reflexivity.
Qed.

Lemma weights_from_positional w l : forall i,
  Forall (fun s => is_window_sig w s = false) l ->
  weights_from w i l = positional_weights i (length l).
Proof.
  induction l as [|s l IH]; intros i Hl; [reflexivity |].
  inversion Hl as [|? ? Hs Hl']; subst. simpl.
  rewrite IH by exact Hl'. unfold weight_of. rewrite Hs. reflexivity.
Qed.

Lemma weights_from_window w i :
  weights_from w i (present w) = map (fun _ => 3) (present w).
Proof.
  destruct w as [ws|]; [| reflexivity]. simpl.
  unfold weight_of, is_window_sig. rewrite sig_eqb_refl. reflexivity.
Qed.

Lemma weigh_sums w l : forall i acc,
  fst (weigh w i l acc)
    == fst acc + sum (zip_with Qmult (map confidence l) (weights_from w i l))
  /\ snd (weigh w i l acc) == snd acc + sum (weights_from w i l).
Proof.
  induction l as [|s l IH]; intros i acc.
  - simpl. unfold sum. simpl. split; lra.
  - simpl weigh. destruct (IH (S i) ((fst acc + confidence s * weight_of w i s)%py,
                                     (snd acc + weight_of w i s)%py)) as [E1 E2].
    rewrite E1, E2. cbn [fst snd]. exact_arith. unfold sum. simpl. split; lra.
Qed.

Lemma sum_weights_pos w l i : l <> [] -> 0 < sum (weights_from w i l).
Proof.
  destruct l as [|s l]; [contradiction |]. intros _. unfold sum. simpl.
  pose proof (weight_of_ge_1 w i s).
  assert (0 <= foldr Qplus 0 (weights_from w (S i) l)).
  { generalize (S i). induction l as [|s' l IH]; intros k; simpl; [lra |].
    pose proof (weight_of_ge_1 w k s'). specialize (IH (S k)). lra. }
  lra.
Qed.

(** The confidence of the fused signal is the weighted average. *)
Lemma fused_confidence w (signals : list (MomentumSignal Q)) :
  signals <> [] ->
  (let '(weighted_conf, total_weight) := weigh w 0 signals (lit 0, lit 0) in
   if (total_weight >? lit 0)%py then (weighted_conf / total_weight)%py else lit 0)
  == weighted_average (map confidence signals) (weights_from w 0 signals).
Proof.
  intros Hne. destruct (weigh_sums w signals 0 (lit 0, lit 0)) as [E1 E2].
  pose proof (sum_weights_pos w signals 0 Hne) as Hpos.
  destruct (weigh w 0 signals (lit 0, lit 0)) as [wc tw].
  cbn [fst snd] in E1, E2. exact_arith. unfold weighted_average.
  case_cmp; [| lra].
  rewrite E1, E2. rewrite !Qplus_0_l. reflexivity.
Qed.

(** A weighted average stays between the bounds of what it averages. *)
Lemma weighted_average_bounds lo hi w (signals : list (MomentumSignal Q)) :
  signals <> [] ->
  Forall (fun s => lo <= confidence s <= hi) signals ->
  lo <= weighted_average (map confidence signals) (weights_from w 0 signals) <= hi.
Proof.
  intros Hne Hall. pose proof (sum_weights_pos w signals 0 Hne) as Hpos.
  unfold weighted_average.
  assert (Hb : lo * sum (weights_from w 0 signals)
               <= sum (zip_with Qmult (map confidence signals) (weights_from w 0 signals))
               <= hi * sum (weights_from w 0 signals)).
  { clear Hne Hpos. generalize 0%nat.
    induction Hall as [|s l [Hlo Hhi] _ IH]; intros i.
    - unfold sum. simpl. lra.
    - specialize (IH (S i)). pose proof (weight_of_ge_1 w i s) as Hw.
      unfold sum in *. simpl. nra. }
  split.
  - apply Qle_shift_div_l; [exact Hpos | apply Hb].
  - apply Qle_shift_div_r; [exact Hpos | apply Hb].
Qed.

(** When the readings of the clock increase, no lookback signal equals
    the window signal: their timestamps differ. *)
Lemma lookbacks_not_window (feed : Feed Q) n n1 n2 n3 n4 s15 s30 s60 w :
  (forall i j, (i < j)%nat -> clk i < clk j) ->
  get_momentum clk feed 15 n = (s15, n1) ->
  get_momentum clk feed 30 n1 = (s30, n2) ->
  get_momentum clk feed 60 n2 = (s60, n3) ->
  get_window_momentum clk feed n3 = (Ret w, n4) ->
  Forall (fun s => is_window_sig w s = false)
         (present s15 ++ present s30 ++ present s60).
Proof.
  intros Hclk H15 H30 H60 Hw.
  destruct w as [ws|]; [| apply Forall_forall; reflexivity].
  destruct (get_window_momentum_sig clk feed n3 ws n4 Hw) as (_ & Hts & _).
  pose proof (get_momentum_clock' clk feed _ _ _ _ H15) as C15.
  pose proof (get_momentum_clock' clk feed _ _ _ _ H30) as C30.
  pose proof (get_momentum_clock' clk feed _ _ _ _ H60) as C60.
  assert (Hone : forall lb k s k',
             get_momentum clk feed lb k = (Some s, k') -> (k <= n3)%nat ->
             is_window_sig (Some ws) s = false).
  { intros lb k s k' Hs Hk.
    destruct (get_momentum_sig clk feed lb k s k' Hs) as (_ & Hts' & _).
    unfold is_window_sig. destruct (sig_eqb s ws) eqn:E; [| reflexivity].
    apply sig_eqb_timestamp in E. rewrite Hts, Hts' in E.
    pose proof (Hclk k (S n3) ltac:(lia)). lra. }
  repeat apply Forall_app_2;
    match goal with
    | |- Forall _ (present ?x) => destruct x as [s|]; simpl; constructor
    end; try constructor.
  - eapply Hone; [exact H15 | lia].
  - eapply Hone; [exact H30 | lia].
  - eapply Hone; [exact H60 | lia].
Qed.

Lemma lookback_confidence_bounds (x : Q) :
  0.45 <= lookback_confidence x <= 0.95.
Proof.
  pose proof (lookback_confidence_table x) as Hin. simpl in Hin.
  repeat destruct Hin as [<- | Hin]; try contradiction; split; discriminate.
Qed.

Lemma window_confidence_bounds (x : Q) :
  0.50 <= window_confidence x <= 0.95.
Proof.
  pose proof (window_confidence_table x) as Hin. simpl in Hin.
  repeat destruct Hin as [<- | Hin]; try contradiction; split; discriminate.
Qed.

(** A change that passes the noise threshold has a sign, and the
    direction is that sign. *)
Lemma direction_sign (eps pct : Q) (d : Direction) :
  0 < eps -> Qltb (Qabs pct) eps = false ->
  d = (if Qltb 0 pct then UP else DOWN) ->
  (d = UP /\ 0 < pct) \/ (d = DOWN /\ pct < 0).
Proof.
  intros Heps Hnoise ->. apply Qltb_ge in Hnoise.
  destruct (Qltb 0 pct) eqn:E; cmp_hyps; [left; auto |].
  right. split; [reflexivity |].
  revert Hnoise. apply Qabs_case; intros; lra.
Qed.
End Exact.

(** C3 (as amended). Let the four signals be those the fusion evaluates, in
    order, and keep the ones that are present.  If two of them disagree in
    direction the fusion returns nothing, and so it does when none of the
    four is present.  If there is at least one and
    all agree, it returns a signal of their direction whose confidence is
    the weighted average of their confidences, where a signal that is
    equal to the window signal, field by field, weighs 3.0 and any other
    signal at position i weighs 1.0 + 0.5 * i.  When the readings of the
    clock increase, the lookback signals thus weigh 1.0, 1.5, 2.0 by
    position and the window signal weighs 3.0.  For three lookback signals
    UP of confidences 0.55, 0.65 and 0.75 and no window signal the fused
    confidence is 3.025 / 4.5 = 121/180, about 0.6722. *)
Theorem fusion_agreement_and_weights
        (clk : nat -> Q) (feed : Feed Q) (n n1 n2 n3 n4 : nat)
        (s15 s30 s60 w : option (MomentumSignal Q)) :
  get_momentum clk feed 15 n = (s15, n1) ->
  get_momentum clk feed 30 n1 = (s30, n2) ->
  get_momentum clk feed 60 n2 = (s60, n3) ->
  get_window_momentum clk feed n3 = (Ret w, n4) ->
  let lookbacks := present s15 ++ present s30 ++ present s60 in
  let signals := present s15 ++ present s30 ++ present s60 ++ present w in
  let result := fst (get_multi_timeframe_signal clk feed n) in
  (forall a b, a ∈ signals -> b ∈ signals -> direction a <> direction b ->
     result = Ret None) /\
  (signals = [] -> result = Ret None) /\
  (signals <> [] ->
   (forall a b, a ∈ signals -> b ∈ signals -> direction a = direction b) ->
     exists s, result = Ret (Some s)
       /\ (forall a, a ∈ signals -> direction a = direction s)
       /\ confidence s
          == weighted_average (map confidence signals) (weights_from w 0 signals)) /\
  (forall i s, weight_of w i s
               = if is_window_sig w s then 3 else 1 + inject_Z (Z.of_nat i) * 0.5) /\
  ((forall i j, (i < j)%nat -> clk i < clk j) ->
     weights_from w 0 signals
     = positional_weights 0 (length lookbacks) ++ map (fun _ => 3) (present w)) /\
  (exists s, fst (get_multi_timeframe_signal ticking_clock rising_feed 0%nat) = Ret (Some s)
             /\ confidence s == 121 # 180).
Proof.
  intros H15 H30 H60 Hw lookbacks signals result.
  assert (Hres : result = Ret (fst (fuse clk signals w n4)))
    by (apply (get_multi_unfold clk feed n n1 n2 n3 n4); assumption).
  split; [| split; [| split; [| split; [| split]]]].
  - intros a b Ha Hb Hne. rewrite Hres. f_equal.
    apply (fuse_disagree clk signals w n4 a b Ha Hb Hne).
  - intros Hnone. rewrite Hres. f_equal.
    apply (fuse_none clk signals w n4 Hnone).
  - intros Hne Hagree.
    destruct signals as [|x rest] eqn:Hsig; [contradiction |].
    destruct (fuse_agree clk (x :: rest) w n4 (direction x))
      as (s & Hs & Hd & Hc); [discriminate | |].
    { intros a Ha. apply Hagree; [exact Ha | left]. }
    exists s. split; [rewrite Hres, Hs; reflexivity |].
    split.
    + intros a Ha. rewrite Hd. apply Hagree; [exact Ha | left].
    + rewrite Hc. apply fused_confidence. discriminate.
  - intros i s. reflexivity.
  - intros Hclk. subst signals.
    rewrite !app_assoc, weights_from_app, weights_from_window, <- !app_assoc.
    fold lookbacks. f_equal.
    apply weights_from_positional.
    apply (lookbacks_not_window clk feed n n1 n2 n3 n4); assumption.
  - eexists. split; [vm_compute; reflexivity |]. reflexivity.
Qed.

Lemma fusion_agreement_and_weights_witness :
  exists s15 s30 s60 s,
    fst (get_multi_timeframe_signal ticking_clock rising_feed 0%nat) = Ret (Some s)
    /\ confidence s
       == weighted_average (map confidence [s15; s30; s60])
                           (positional_weights 0 3).
Proof.
  pose (s15 := {| direction := UP; confidence := 0.55; price_change_pct := 600 # 9994;
                  current_price := 10000; reference_price := 9994;
                  window_seconds := 15; sig_timestamp := ticking_clock 0%nat |}).
  pose (s30 := {| direction := UP; confidence := 0.65; price_change_pct := 1000 # 9990;
                  current_price := 10000; reference_price := 9990;
                  window_seconds := 30; sig_timestamp := ticking_clock 1%nat |}).
  pose (s60 := {| direction := UP; confidence := 0.75; price_change_pct := 2000 # 9980;
                  current_price := 10000; reference_price := 9980;
                  window_seconds := 60; sig_timestamp := ticking_clock 2%nat |}).
  exists s15, s30, s60.
  destruct (fusion_agreement_and_weights ticking_clock rising_feed 0%nat 1%nat 2%nat 3%nat 3%nat
              (Some s15) (Some s30) (Some s60) None)
    as (_ & _ & Hagree & _ & Hweights & _); try (vm_compute; reflexivity).
  destruct Hagree as (s & Hs & _ & Hc).
  - discriminate.
  - intros a b Ha Hb.
    assert (Hup : forall x, x ∈ [s15; s30; s60] -> direction x = UP).
    { intros x Hx. repeat (apply elem_of_cons in Hx as [-> | Hx]; [reflexivity |]).
      inversion Hx. }
    simpl in Ha, Hb. rewrite (Hup a Ha), (Hup b Hb). reflexivity.
  - exists s. split; [exact Hs |]. rewrite Hc, Hweights.
    + reflexivity.
    + intros i j Hij. unfold ticking_clock.
      assert (inject_Z (Z.of_nat i) < inject_Z (Z.of_nat j))
        by (rewrite <- Zlt_Qlt; lia).
      lra.
Defined.

(** C3, as stated, fails on its example: three lookback signals UP of
    confidences 0.55, 0.65 and 0.75, with no window signal, fuse to
    121/180 (about 0.6722), which is not 0.6556. *)
Lemma fusion_scenario_counterexample :
  exists s15 s30 s60 s,
    get_momentum ticking_clock rising_feed 15 0%nat = (Some s15, 1%nat)
    /\ get_momentum ticking_clock rising_feed 30 1%nat = (Some s30, 2%nat)
    /\ get_momentum ticking_clock rising_feed 60 2%nat = (Some s60, 3%nat)
    /\ fst (get_window_momentum ticking_clock rising_feed 3%nat) = Ret None
    /\ map direction [s15; s30; s60] = [UP; UP; UP]
    /\ map confidence [s15; s30; s60] = [0.55; 0.65; 0.75]
    /\ fst (get_multi_timeframe_signal ticking_clock rising_feed 0%nat) = Ret (Some s)
    /\ confidence s == 121 # 180
    /\ 0.6722 < confidence s
    /\ ~ confidence s == 0.6556.
Proof.
  do 4 eexists.
  split; [vm_compute; reflexivity |].
  split; [vm_compute; reflexivity |].
  split; [vm_compute; reflexivity |].
  split; [vm_compute; reflexivity |].
  split; [reflexivity |].
  split; [reflexivity |].
  split; [vm_compute; reflexivity |].
  split; [reflexivity |].
  split; [reflexivity | discriminate].
Qed.

(** When the clock does not advance between the readings, a lookback
    signal can equal the window signal in every field, and it then weighs
    3.0 whatever its position: here the weights are 1.0, 1.5, 3.0, 3.0. *)
Example fusion_value_equal_lookback :
  exists s15 s30 s60 w s,
    get_momentum frozen_clock jump_feed 15 0%nat = (Some s15, 1%nat)
    /\ get_momentum frozen_clock jump_feed 30 1%nat = (Some s30, 2%nat)
    /\ get_momentum frozen_clock jump_feed 60 2%nat = (Some s60, 3%nat)
    /\ get_window_momentum frozen_clock jump_feed 3%nat = (Ret (Some w), 5%nat)
    /\ weights_from (Some w) 0 [s15; s30; s60; w] = [1 + 0 * 0.5; 1 + 1 * 0.5; 3; 3]
    /\ fst (get_multi_timeframe_signal frozen_clock jump_feed 0%nat) = Ret (Some s)
    /\ confidence s == 273 # 340
    /\ ~ confidence s
         == weighted_average (map confidence [s15; s30; s60; w])
                             (positional_weights 0 3 ++ [3]).
Proof.
  do 5 eexists.
  split; [vm_compute; reflexivity |].
  split; [vm_compute; reflexivity |].
  split; [vm_compute; reflexivity |].
  split; [vm_compute; reflexivity |].
  split; [reflexivity |].
  split; [vm_compute; reflexivity |].
  split; [reflexivity | discriminate].
Qed.
End FeedFacts.

(** ** cex_price_feed.py: the bounds of the confidence *)

Module ConfidenceFacts.
Import CexPriceFeed FeedFacts.

Lemma present_bounds (lo hi : Q) (r : option (MomentumSignal Q)) :
  (forall s, r = Some s -> lo <= confidence s <= hi) ->
  Forall (fun s => lo <= confidence s <= hi) (present r).
Proof.
  intros Hr. destruct r as [s|]; simpl; constructor; [apply Hr; reflexivity | constructor].
Qed.

Lemma lookback_signal_bounds (clk : nat -> Q) (feed : Feed Q) lb n s n' :
  get_momentum clk feed lb n = (Some s, n') ->
  0.45 <= confidence s <= 0.95
  /\ ((direction s = UP /\ 0 < price_change_pct s)
      \/ (direction s = DOWN /\ price_change_pct s < 0)).
Proof.
  intros Hs.
  destruct (get_momentum_sig clk feed lb n s n' Hs) as (_ & _ & _ & Hc & Hd & Hn).
  split; [rewrite Hc; apply lookback_confidence_bounds |].
  apply (direction_sign 0.01); [reflexivity | exact Hn | exact Hd].
Qed.

Lemma window_signal_bounds (clk : nat -> Q) (feed : Feed Q) n s n' :
  get_window_momentum clk feed n = (Ret (Some s), n') ->
  0.50 <= confidence s <= 0.95
  /\ ((direction s = UP /\ 0 < price_change_pct s)
      \/ (direction s = DOWN /\ price_change_pct s < 0)).
Proof.
  intros Hs.
  destruct (get_window_momentum_sig clk feed n s n' Hs) as (_ & _ & Hc & Hd & Hn).
  split; [rewrite Hc; apply window_confidence_bounds |].
  apply (direction_sign 0.005); [reflexivity | exact Hn | exact Hd].
Qed.

Lemma weights_from_ge_1 w (l : list (MomentumSignal Q)) i :
  Forall (fun x => 1 <= x) (weights_from w i l).
Proof.
  revert i. induction l as [|x l IH]; intros i; simpl;
    constructor; [apply weight_of_ge_1 | apply IH].
Qed.

(** In binary64 every fusion there is stays within one unit in the last
    place of the interval [0.45, 0.95]. *)
Lemma binary64_fusions_within :
  all_fuse_within (H := Binary64.float_arith)
                  (PrimFloat.next_down (Binary64.of_Q 0.45))
                  (PrimFloat.next_up (Binary64.of_Q 0.95)) = true.
Proof. vm_compute. reflexivity. Qed.

(** C10 (as amended). In exact arithmetic, a signal of [get_momentum] or of
    [get_window_momentum] has a confidence within [0.45, 0.95] and a
    direction that is the sign of its price change, and the confidence of
    the fused signal is the weighted average, with weights of at least 1,
    of the confidences of its components: it lies between any bounds that
    hold of them, hence within [0.45, 0.95].  As computed in binary64 the
    fused confidence lies between the float next below 0.45 and the float
    next above 0.95 (0.44999999999999996 and 0.9500000000000001). *)
Theorem signal_confidence_bounds :
  (forall (clk : nat -> Q) (feed : Feed Q) lb n s n',
     get_momentum clk feed lb n = (Some s, n') ->
     0.45 <= confidence s <= 0.95
     /\ ((direction s = UP /\ 0 < price_change_pct s)
         \/ (direction s = DOWN /\ price_change_pct s < 0))) /\
  (forall (clk : nat -> Q) (feed : Feed Q) n s n',
     get_window_momentum clk feed n = (Ret (Some s), n') ->
     0.45 <= confidence s <= 0.95
     /\ ((direction s = UP /\ 0 < price_change_pct s)
         \/ (direction s = DOWN /\ price_change_pct s < 0))) /\
  (forall (clk : nat -> Q) (feed : Feed Q) n n1 n2 n3 n4 s15 s30 s60 w s,
     get_momentum clk feed 15 n = (s15, n1) ->
     get_momentum clk feed 30 n1 = (s30, n2) ->
     get_momentum clk feed 60 n2 = (s60, n3) ->
     get_window_momentum clk feed n3 = (Ret w, n4) ->
     fst (get_multi_timeframe_signal clk feed n) = Ret (Some s) ->
     let signals := present s15 ++ present s30 ++ present s60 ++ present w in
     confidence s
       == weighted_average (map confidence signals) (weights_from w 0 signals)
     /\ Forall (fun x => 1 <= x) (weights_from w 0 signals)
     /\ (forall lo hi, Forall (fun x => lo <= confidence x <= hi) signals ->
                       lo <= confidence s <= hi)
     /\ 0.45 <= confidence s <= 0.95) /\
  (forall (clk : nat -> PrimFloat.float) (feed : Feed PrimFloat.float) n s,
     fst (get_multi_timeframe_signal (H := Binary64.float_arith) clk feed n)
     = Ret (Some s) ->
     PrimFloat.leb (PrimFloat.next_down (Binary64.of_Q 0.45)) (confidence s) = true
     /\ PrimFloat.leb (confidence s) (PrimFloat.next_up (Binary64.of_Q 0.95)) = true).
Proof.
  split; [exact lookback_signal_bounds |].
  split.
  { intros clk feed n s n' Hs.
    destruct (window_signal_bounds clk feed n s n' Hs) as [Hb Hd].
    split; [lra | exact Hd]. }
  split.
  - intros clk feed n n1 n2 n3 n4 s15 s30 s60 w s H15 H30 H60 Hw Hs signals.
    rewrite (get_multi_unfold clk feed n n1 n2 n3 n4 s15 s30 s60 w H15 H30 H60 Hw) in Hs.
    injection Hs as Hs. fold signals in Hs.
    destruct (fuse_some clk signals w n4 s Hs) as (Hne & _ & Hc).
    assert (Havg : confidence s
                   == weighted_average (map confidence signals)
                                       (weights_from w 0 signals))
      by (rewrite Hc; apply fused_confidence; exact Hne).
    assert (Hbetween : forall lo hi,
               Forall (fun x => lo <= confidence x <= hi) signals ->
               lo <= confidence s <= hi).
    { intros lo hi Hall. rewrite Havg.
      apply weighted_average_bounds; assumption. }
    split; [exact Havg |]. split; [| split; [exact Hbetween |]].
    + apply weights_from_ge_1.
    + apply Hbetween. subst signals.
      repeat apply Forall_app_2; apply present_bounds; intros x ->.
      * eapply lookback_signal_bounds; exact H15.
      * eapply lookback_signal_bounds; exact H30.
      * eapply lookback_signal_bounds; exact H60.
      * destruct (window_signal_bounds clk feed n3 x n4 Hw) as [Hb _]. lra.
  - intros clk feed n s Hs.
    apply (fused_within (H := Binary64.float_arith) clk _ _ feed n s
                        binary64_fusions_within Hs).
Qed.

Lemma signal_confidence_bounds_witness :
  exists s, get_momentum ticking_clock rising_feed 60 2%nat = (Some s, 3%nat)
            /\ 0.45 <= confidence s <= 0.95 /\ direction s = UP.
Proof.
  eexists. split; [vm_compute; reflexivity |].
  destruct signal_confidence_bounds as (Hlb & _).
  destruct (Hlb ticking_clock rising_feed 60%Z 2%nat _ 3%nat
                ltac:(vm_compute; reflexivity)) as [Hb _].
  split; [exact Hb | reflexivity].
Defined.

(** C10, as stated, fails in the arithmetic of the program: three lookback
    signals of confidence 0.95 with no window signal fuse to
    0.9500000000000001, above 0.95 and above each of them; three of
    confidence 0.45 fuse to 0.44999999999999996, below 0.45. *)
Lemma fused_confidence_rounding_counterexample :
  (exists s15 s,
     get_momentum (H := Binary64.float_arith) second_clock (moved_feed 99) 15 0%nat
     = (Some s15, 1%nat)
     /\ confidence s15 = Binary64.of_Q 0.95
     /\ fst (get_multi_timeframe_signal (H := Binary64.float_arith)
                second_clock (moved_feed 99) 0%nat) = Ret (Some s)
     /\ PrimFloat.ltb (Binary64.of_Q 0.95) (confidence s) = true) /\
  (exists s15 s,
     get_momentum (H := Binary64.float_arith) second_clock (moved_feed 99.97) 15 0%nat
     = (Some s15, 1%nat)
     /\ confidence s15 = Binary64.of_Q 0.45
     /\ fst (get_multi_timeframe_signal (H := Binary64.float_arith)
                second_clock (moved_feed 99.97) 0%nat) = Ret (Some s)
     /\ PrimFloat.ltb (confidence s) (Binary64.of_Q 0.45) = true).
Proof.
  split; do 2 eexists;
    (split; [vm_compute; reflexivity |]);
    (split; [vm_compute; reflexivity |]);
    (split; [vm_compute; reflexivity |]);
    vm_compute; reflexivity.
Qed.
End ConfidenceFacts.

(** ** main.py: execution *)

Module ExecutionFacts.
Import Trading Main.

(** Read the attributes of a bot through the assignments made to it. *)
Ltac bot_fields :=
  cbn [settings risk_manager market_slug yes_token_id no_token_id sim_balance
       sim_trades next_obj _last_trade_ts trades_executed
       set_next_obj set_risk_manager set_last_trade_ts set_sim count_trade] in *.

Section AnyArithmetic.
Context {F : Type} `{Arith F}.
Local Open Scope py_scope.

Lemma pure_live_shape bot opp env trade bot' evs :
  RiskManager.cost trade = total_investment opp ->
  pure_live bot opp env trade = Some (bot', evs) ->
  settings bot' = settings bot
  /\ _last_trade_ts bot' = _last_trade_ts bot
  /\ gate_after (risk_manager bot) env (total_investment opp) (risk_manager bot').
Proof.
  intros Hcost. unfold pure_live.
  destruct (place_orders_fast env _ _) as [order_ids | msg].
  2:{ intros E. injection E as <- <-. repeat split. left. reflexivity. }
  destruct (order_ids !! 0%nat ≫= truthy_id) as [id_up|].
  2:{ intros E. injection E as <- <-. repeat split. left. reflexivity. }
  destruct (order_ids !! 1%nat ≫= truthy_id) as [id_down|].
  2:{ intros E. injection E as <- <-. repeat split. left. reflexivity. }
  destruct (order_polls env id_up) as [start_up ticks_up].
  destruct (order_polls env id_down) as [start_down ticks_down].
  destruct (wait_for_terminal_order _ _ start_up ticks_up) as [up_state|];
    [| discriminate].
  destruct (wait_for_terminal_order _ _ start_down ticks_down) as [down_state|];
    [| discriminate].
  destruct (leg_filled up_state && leg_filled down_state);
    intros E; injection E as <- <-; repeat split.
  - right. exists trade. split; [exact Hcost | left; reflexivity].
  - left. reflexivity.
Qed.

Lemma temporal_live_shape bot opp env trade bot' evs :
  RiskManager.cost trade = t_total_investment opp ->
  temporal_live bot opp env trade = Some (bot', evs) ->
  settings bot' = settings bot
  /\ _last_trade_ts bot' = _last_trade_ts bot
  /\ gate_after (risk_manager bot) env (t_total_investment opp) (risk_manager bot').
Proof.
  intros Hcost. unfold temporal_live.
  destruct (place_order env _ _) as [oid | msg].
  2:{ intros E. injection E as <- <-. repeat split. left. reflexivity. }
  destruct (truthy_id oid) as [order_id|].
  2:{ intros E. injection E as <- <-. repeat split. left. reflexivity. }
  destruct (order_polls env order_id) as [start ticks].
  destruct (wait_for_terminal_order _ _ start ticks) as [state|]; [| discriminate].
  destruct (leg_filled state); intros E; injection E as <- <-; repeat split.
  - right. exists trade. split; [exact Hcost | left; reflexivity].
  - left. reflexivity.
Qed.

(** An execution within the cooldown does nothing. *)
Lemma execute_skip (bot : Bot F) (c : Call F) :
  (now (call_env c) - _last_trade_ts bot <? cooldown_seconds (settings bot)) = true ->
  execute bot c = Some (bot, []).
Proof.
  intros Hcd. destruct c as [opp env | opp env]; cbn [execute call_env] in *.
  - unfold execute_pure_arbitrage. rewrite Hcd. reflexivity.
  - unfold execute_temporal_arbitrage. rewrite Hcd. reflexivity.
Qed.

(** An execution past the cooldown stamps the time of the call, asks the
    risk gate before anything else, and stops there when refused. *)
Lemma execute_pass (bot : Bot F) (c : Call F) bot' evs :
  (now (call_env c) - _last_trade_ts bot <? cooldown_seconds (settings bot)) = false ->
  execute bot c = Some (bot', evs) ->
  let env := call_env c in
  let checked :=
    RiskManager.check_can_trade (risk_manager bot) (call_cost c) (today_check env) in
  exists rest,
    evs = EvRiskCheck (call_cost c) (fst (fst checked)) (snd (fst checked)) :: rest
    /\ settings bot' = settings bot
    /\ _last_trade_ts bot' = now env
    /\ (fst (fst checked) = false -> rest = [] /\ risk_manager bot' = snd checked)
    /\ gate_after (snd checked) env (call_cost c) (risk_manager bot').
Proof.
  intros Hcd. destruct c as [opp env | opp env]; cbn [execute call_env call_cost] in *.
  - unfold execute_pure_arbitrage. rewrite Hcd. clear Hcd.
    cbn [risk_manager set_last_trade_ts].
    destruct (RiskManager.check_can_trade _ _ _) as [[can_trade reason] rm1].
    cbn [fst snd]. destruct can_trade; cbn [negb].
    2:{ intros E. injection E as <- <-. eexists. split; [reflexivity |].
        repeat split. left. reflexivity. }
    bot_fields.
    destruct (dry_run (settings bot)).
    + destruct (sim_balance bot <? total_investment opp).
      * intros E. injection E as <- <-. eexists. split; [reflexivity |].
        repeat split; try discriminate. left. reflexivity.
      * destruct (RiskManager.record_settlement _ _ _ _ _) as [rm2 trade'] eqn:Hset.
        intros E. injection E as <- <-. eexists. split; [reflexivity |].
        repeat split; try discriminate.
        right. eexists. split; [| right; exists true, (expected_profit opp);
                                  rewrite Hset; reflexivity].
        reflexivity.
    + destruct (pure_live _ opp env _) as [[bot1 evs1]|] eqn:Hlive; [| discriminate].
      intros E. injection E as <- <-.
      apply pure_live_shape in Hlive as (Hs & Ht & Hg); [| reflexivity].
      eexists. split; [reflexivity |].
      repeat split; try discriminate; assumption.
  - unfold execute_temporal_arbitrage. rewrite Hcd. clear Hcd.
    cbn [risk_manager set_last_trade_ts].
    destruct (RiskManager.check_can_trade _ _ _) as [[can_trade reason] rm1].
    cbn [fst snd]. destruct can_trade; cbn [negb].
    2:{ intros E. injection E as <- <-. eexists. split; [reflexivity |].
        repeat split. left. reflexivity. }
    bot_fields.
    destruct (dry_run (settings bot)).
    + destruct (sim_balance bot <? t_total_investment opp).
      * intros E. injection E as <- <-. eexists. split; [reflexivity |].
        repeat split; try discriminate. left. reflexivity.
      * intros E. injection E as <- <-. eexists. split; [reflexivity |].
        repeat split; try discriminate.
        right. eexists. split; [| left; reflexivity]. reflexivity.
    + destruct (temporal_live _ opp env _) as [[bot1 evs1]|] eqn:Hlive; [| discriminate].
      intros E. injection E as <- <-.
      apply temporal_live_shape in Hlive as (Hs & Ht & Hg); [| reflexivity].
      eexists. split; [reflexivity |].
      repeat split; try discriminate; assumption.
Qed.
End AnyArithmetic.

(** *** The cooldown, in exact arithmetic *)

Lemma execute_cases (bot : Bot Q) (c : Call Q) bot' evs :
  execute bot c = Some (bot', evs) ->
  settings bot' = settings bot
  /\ ((evs = [] /\ bot' = bot
       /\ now (call_env c) - _last_trade_ts bot < cooldown_seconds (settings bot))
      \/ (_last_trade_ts bot' = now (call_env c)
          /\ cooldown_seconds (settings bot) <= now (call_env c) - _last_trade_ts bot
          /\ exists cost ok reason rest, evs = EvRiskCheck cost ok reason :: rest)).
Proof.
  intros He.
  destruct (flt (now (call_env c) - _last_trade_ts bot)%py (cooldown_seconds (settings bot)))
    eqn:Hcd.
  - rewrite (execute_skip bot c Hcd) in He. injection He as <- <-.
    split; [reflexivity |]. left. repeat split. exact_arith. cmp_hyps. exact Hcd.
  - destruct (execute_pass bot c bot' evs Hcd He) as (rest & -> & Hs & Ht & _).
    split; [exact Hs |]. right. split; [exact Ht |].
    split; [exact_arith; cmp_hyps; exact Hcd | eauto].
Qed.

(** Every call of a run that gets past the cooldown check comes at least a
    cooldown after the last stamped time of the bot the run starts from. *)
Lemma run_after_last (calls : list (Call Q)) :
  forall (bot bot' : Bot Q) log,
    0 <= cooldown_seconds (settings bot) ->
    run bot calls = Some (bot', log) ->
    Forall (fun e => snd e <> [] ->
                     cooldown_seconds (settings bot) <= fst e - _last_trade_ts bot) log
    /\ settings bot' = settings bot.
Proof.
  induction calls as [|c calls IH]; intros bot bot' log Hcd Hrun.
  - injection Hrun as <- <-. split; [constructor | reflexivity].
  - cbn [run] in Hrun.
    destruct (execute bot c) as [[bot1 evs]|] eqn:He; [| discriminate].
    destruct (run bot1 calls) as [[bot2 log']|] eqn:Hr; [| discriminate].
    injection Hrun as <- <-.
    destruct (execute_cases bot c bot1 evs He) as (Hs & Hcase).
    destruct (IH bot1 bot2 log' ltac:(rewrite Hs; exact Hcd) Hr) as (Hlog & Hs').
    rewrite Hs in Hlog, Hs'. split; [| exact Hs'].
    destruct Hcase as [(-> & -> & Hlt) | (Hlast & Hge & _)].
    + constructor; [intros Hne; contradiction | exact Hlog].
    + constructor; [intros _; exact Hge |].
      eapply Forall_impl; [exact Hlog |].
      intros e Hle Hne. specialize (Hle Hne). rewrite Hlast in Hle.
      cbn [fst snd] in *. lra.
Qed.

Lemma run_apart (calls : list (Call Q)) :
  forall (bot bot' : Bot Q) log,
    0 <= cooldown_seconds (settings bot) ->
    run bot calls = Some (bot', log) ->
    ForallOrdPairs (apart (cooldown_seconds (settings bot))) log.
Proof.
  induction calls as [|c calls IH]; intros bot bot' log Hcd Hrun.
  - injection Hrun as <- <-. constructor.
  - cbn [run] in Hrun.
    destruct (execute bot c) as [[bot1 evs]|] eqn:He; [| discriminate].
    destruct (run bot1 calls) as [[bot2 log']|] eqn:Hr; [| discriminate].
    injection Hrun as <- <-.
    destruct (execute_cases bot c bot1 evs He) as (Hs & Hcase).
    assert (Hcd1 : 0 <= cooldown_seconds (settings bot1)) by (rewrite Hs; exact Hcd).
    pose proof (IH bot1 bot2 log' Hcd1 Hr) as Hpairs.
    destruct (run_after_last calls bot1 bot2 log' Hcd1 Hr) as (Hlog & _).
    rewrite Hs in Hpairs, Hlog.
    constructor; [| exact Hpairs].
    destruct Hcase as [(-> & -> & Hlt) | (Hlast & Hge & _)].
    + apply Forall_forall. intros e _ Hne. contradiction.
    + eapply Forall_impl; [exact Hlog |].
      intros e Hle _ Hne. specialize (Hle Hne). rewrite Hlast in Hle. exact Hle.
Qed.

(** C8. With a cooldown that is not negative, in every run of executions:
    any two executions that got past the cooldown check, hence any two
    trades, are at least a cooldown apart; an execution either does
    nothing at all or starts by asking the risk gate; one that arrives
    less than a cooldown after the stamped time of the last one that got
    past the check changes nothing and calls nothing, the risk gate
    included; and one that gets past it stamps its own time before it
    asks the risk gate. *)
Theorem cooldown_separates_trades (bot bot' : Bot Q) (calls : list (Call Q))
        (log : list (Q * list (Event Q))) :
  0 <= cooldown_seconds (settings bot) ->
  run bot calls = Some (bot', log) ->
  ForallOrdPairs (apart (cooldown_seconds (settings bot))) log
  /\ Forall (fun e => snd e = []
                      \/ exists cost ok reason rest,
                           snd e = EvRiskCheck cost ok reason :: rest) log
  /\ (forall (b : Bot Q) (c : Call Q),
        now (call_env c) - _last_trade_ts b < cooldown_seconds (settings b) ->
        execute b c = Some (b, []))
  /\ (forall (b b1 : Bot Q) (c : Call Q) evs,
        execute b c = Some (b1, evs) -> evs <> [] ->
        _last_trade_ts b1 = now (call_env c)
        /\ cooldown_seconds (settings b) <= now (call_env c) - _last_trade_ts b).
Proof.
  intros Hcd Hrun. split; [apply (run_apart calls bot bot' log Hcd Hrun) |].
  split; [| split].
  - clear Hcd. revert bot bot' log Hrun.
    induction calls as [|c calls IH]; intros bot bot' log Hrun.
    + injection Hrun as <- <-. constructor.
    + cbn [run] in Hrun.
      destruct (execute bot c) as [[bot1 evs]|] eqn:He; [| discriminate].
      destruct (run bot1 calls) as [[bot2 log']|] eqn:Hr; [| discriminate].
      injection Hrun as <- <-.
      constructor; [| apply (IH bot1 bot2 log' Hr)].
      destruct (execute_cases bot c bot1 evs He) as (_ & [(-> & _) | (_ & _ & Hev)]);
        [left; reflexivity | right; exact Hev].
  - intros b c Hlt. apply execute_skip. exact_arith. apply Qltb_lt. exact Hlt.
  - intros b b1 c evs He Hne.
    destruct (execute_cases b c b1 evs He) as (_ & [(-> & _) | (Hlast & Hge & _)]);
      [contradiction | split; assumption].
Qed.

Lemma cooldown_separates_trades_witness :
  exists bot' log,
    run (demo_bot true)
        [CallPure demo_pure_opp (demo_env 100);
         CallTemporal demo_temporal_opp (demo_env 102);
         CallTemporal demo_temporal_opp (demo_env 106)] = Some (bot', log)
    /\ map fst log = [100; 102; 106]
    /\ log !! 1%nat = Some (102, [])
    /\ ForallOrdPairs (apart 5) log.
Proof.
  do 2 eexists. split; [vm_compute; reflexivity |].
  split; [reflexivity |]. split; [reflexivity |].
  refine (proj1 (cooldown_separates_trades
                   (demo_bot true) _
                   [CallPure demo_pure_opp (demo_env 100);
                    CallTemporal demo_temporal_opp (demo_env 102);
                    CallTemporal demo_temporal_opp (demo_env 106)] _ _ _)).
  - vm_compute. discriminate.
  - vm_compute. reflexivity.
Defined.

(** *** The exposure, in exact arithmetic *)

Lemma gate_after_exposure (rm1 rm' : RiskManager.State Q) (env : Env Q) (cost : Q) :
  0 <= cost -> 0 <= RiskManager._current_exposure rm1 ->
  gate_after rm1 env cost rm' ->
  0 <= RiskManager._current_exposure rm'.
Proof.
  intros Hc He [-> | (trade & Ht & [-> | (won & pnl & ->)])].
  - exact He.
  - cbn. exact_arith. rewrite Ht. lra.
  - rewrite RiskFacts.settlement_exposure.
    destruct (Qmax_cases 0 (RiskManager._current_exposure
                              (RiskManager.record_trade rm1 trade (today_trade env))
                            - RiskManager.cost trade)) as [[? E]|[? E]]; lra.
Qed.

(** C5. The gate never approves while halted.  Over every sequence of
    operations with costs that are not negative the exposure is never
    negative, and the only operation that raises it is the recording of a
    trade, which adds the cost of the trade; a settlement takes the cost
    of the trade off, with a floor at 0.  In the bot, an execution that
    raises the exposure is one whose evaluation of the gate, on a gate
    that was not halted, approved the trade. *)
Theorem exposure_accounting :
  (forall (rm : RiskManager.State Q) c today,
     RiskManager._halted rm = true ->
     fst (fst (RiskManager.check_can_trade rm c today)) = false) /\
  (forall (rm : RiskManager.State Q) (o : string * RiskManager.Op Q),
     (forall c, RiskManager.op_cost o = Some c -> 0 <= c) ->
     0 <= RiskManager._current_exposure rm ->
     0 <= RiskManager._current_exposure (RiskManager.step rm o)
     /\ (RiskManager._current_exposure rm
           < RiskManager._current_exposure (RiskManager.step rm o) ->
         exists t, snd o = RiskManager.OpRecordTrade t)) /\
  (forall (rm : RiskManager.State Q) t today,
     RiskManager._current_exposure (RiskManager.record_trade rm t today)
     = RiskManager._current_exposure rm + RiskManager.cost t) /\
  (forall (rm : RiskManager.State Q) t won pnl today,
     RiskManager._current_exposure (fst (RiskManager.record_settlement rm t won pnl today))
     = Qmax 0 (RiskManager._current_exposure rm - RiskManager.cost t)) /\
  (forall (loss position bet stop : Q) (ops : list (string * RiskManager.Op Q)),
     Forall (fun o => forall c, RiskManager.op_cost o = Some c -> 0 <= c) ops ->
     0 <= RiskManager._current_exposure
            (RiskManager.run (RiskManager.init loss position bet stop) ops)) /\
  (forall (bot bot' : Bot Q) (c : Call Q) evs,
     execute bot c = Some (bot', evs) ->
     0 <= call_cost c ->
     0 <= RiskManager._current_exposure (risk_manager bot) ->
     0 <= RiskManager._current_exposure (risk_manager bot')
     /\ (RiskManager._current_exposure (risk_manager bot)
           < RiskManager._current_exposure (risk_manager bot') ->
         RiskManager._halted (risk_manager bot) = false
         /\ exists rest, evs = EvRiskCheck (call_cost c) true "OK" :: rest)).
Proof.
  split.
  { intros rm c today Hh. rewrite RiskFacts.check_halted by exact Hh. reflexivity. }
  split; [exact RiskFacts.step_exposure |].
  split; [reflexivity |].
  split; [exact RiskFacts.settlement_exposure |].
  split.
  { intros loss position bet stop ops Hops.
    apply RiskFacts.run_exposure; [exact Hops | apply Qle_refl]. }
  intros bot bot' c evs He Hcost Hexp.
  destruct (flt (now (call_env c) - _last_trade_ts bot)%py (cooldown_seconds (settings bot)))
    eqn:Hcd.
  - rewrite (execute_skip bot c Hcd) in He. injection He as <- <-.
    split; [exact Hexp | intros Hlt; lra].
  - destruct (execute_pass bot c bot' evs Hcd He) as (rest & -> & _ & _ & Hno & Hg).
    cbv zeta in Hno, Hg.
    pose proof (RiskFacts.check_exposure (risk_manager bot) (call_cost c)
                  (today_check (call_env c))) as Hsame.
    split.
    + eapply gate_after_exposure; [exact Hcost | | exact Hg]. rewrite Hsame. exact Hexp.
    + intros Hlt.
      destruct (fst (fst (RiskManager.check_can_trade (risk_manager bot) (call_cost c)
                            (today_check (call_env c))))) eqn:Hok.
      * destruct (RiskFacts.check_approved _ _ _ Hok) as [-> Hh].
        split; [exact Hh | eauto].
      * destruct (Hno eq_refl) as [_ Hrm]. rewrite Hrm, Hsame in Hlt. lra.
Qed.

Lemma exposure_accounting_witness :
  exists bot' evs,
    execute (demo_bot true) (CallTemporal demo_temporal_opp (demo_env 100))
    = Some (bot', evs)
    /\ RiskManager._current_exposure (risk_manager bot') == 40
    /\ RiskManager._halted (risk_manager (demo_bot true)) = false
    /\ exists rest, evs = EvRiskCheck 40 true "OK" :: rest.
Proof.
  do 2 eexists. split; [vm_compute; reflexivity |]. split; [reflexivity |].
  destruct exposure_accounting as (_ & _ & _ & _ & _ & Hbot).
  refine (proj2 (Hbot (demo_bot true) _ (CallTemporal demo_temporal_opp (demo_env 100)) _
                      ltac:(vm_compute; reflexivity) _ _) _);
    vm_compute; try discriminate; reflexivity.
Defined.

(** *** The recovery of a partial fill *)

(** C7 (as amended). When the two orders were taken and, after polling,
    the legs are not both filled, the engine makes one request to cancel
    the orders of both legs, that of a filled leg included, whatever the
    request raises being dropped; then, for a leg that is filled, it
    fetches the book of the token and, if the book has a best bid that is
    not zero, places a SELL order of the order size at that bid with the
    time-in-force FAK; it fetches nothing for a leg that is not filled,
    and records no trade.  This holds in any arithmetic. *)
Theorem partial_fill_recovery {F : Type} `{Arith F}
        (bot : Bot F) (opp : PureOpp F) (env : Env F)
        (trade : RiskManager.TradeRecord F) (id_up id_down : string)
        (up_state down_state : Summary F) :
  place_orders_fast env (pure_orders bot opp) (order_type (settings bot))
  = Ret [Some id_up; Some id_down] ->
  id_up <> "" -> id_down <> "" ->
  wait_for_terminal_order (Some (order_size opp)) default_timeout
                          (fst (order_polls env id_up)) (snd (order_polls env id_up))
  = Some up_state ->
  wait_for_terminal_order (Some (order_size opp)) default_timeout
                          (fst (order_polls env id_down)) (snd (order_polls env id_down))
  = Some down_state ->
  leg_filled up_state && leg_filled down_state = false ->
  let sell token bid :=
    EvPlaceOrder {| side := "SELL"; token_id := token;
                    o_price := Some bid; o_size := order_size opp |} "FAK" in
  let unwind_of token :=
    match book_best_bid (get_order_book env token) with
    | Some bid =>
        if truthy bid then [EvGetOrderBook token; sell token bid]
        else [EvGetOrderBook token]
    | None => [EvGetOrderBook token]
    end in
  pure_live bot opp env trade
  = Some (bot,
          [EvPlaceOrdersFast (pure_orders bot opp) (order_type (settings bot));
           EvWaitOrder id_up (order_size opp); EvWaitOrder id_down (order_size opp)]
          ++ EvCancelOrders [id_up; id_down]
          :: (if leg_filled up_state then unwind_of (yes_token_id bot) else [])
          ++ (if leg_filled down_state then unwind_of (no_token_id bot) else [])).
Proof.
  intros Hplace Hup Hdown Hwu Hwd Hpartial sell unwind_of.
  assert (Hid : forall id, id <> "" -> truthy_id (Some id) = Some id).
  { intros id Hne. unfold truthy_id. destruct (String.eqb id "") eqn:E; [| reflexivity].
    apply String.eqb_eq in E. contradiction. }
  unfold pure_live. rewrite Hplace.
  change ([Some id_up; Some id_down] !! 0%nat ≫= truthy_id)
    with (truthy_id (Some id_up)).
  change ([Some id_up; Some id_down] !! 1%nat ≫= truthy_id)
    with (truthy_id (Some id_down)).
  rewrite (Hid _ Hup), (Hid _ Hdown).
  destruct (order_polls env id_up) as [start_up ticks_up].
  destruct (order_polls env id_down) as [start_down ticks_down].
  cbn [fst snd] in Hwu, Hwd. rewrite Hwu, Hwd, Hpartial.
  do 2 f_equal. f_equal.
  unfold cleanup_partial_fill.
  change (omap truthy_id [Some id_up; Some id_down])
    with (match truthy_id (Some id_up) with
          | Some x => x :: match truthy_id (Some id_down) with
                           | Some y => [y] | None => [] end
          | None => match truthy_id (Some id_down) with
                    | Some y => [y] | None => [] end
          end).
  rewrite (Hid _ Hup), (Hid _ Hdown).
  cbn [cancel_events app]. f_equal.
  subst unwind_of sell. cbn [unwind].
  destruct (leg_filled up_state), (leg_filled down_state);
    try discriminate Hpartial; cbn [app];
    repeat match goal with
    | |- context [book_best_bid ?b] => destruct (book_best_bid b) as [bid|]
    | |- context [truthy ?b] => destruct (truthy b)
    | |- context [place_order ?e ?o ?t] => destruct (place_order e o t)
    end; reflexivity.
Qed.

Lemma partial_fill_recovery_witness :
  exists (up_state down_state : Summary Q) trade,
    leg_filled up_state = true /\ leg_filled down_state = false
    /\ pure_live (demo_bot false) demo_pure_opp (demo_env 100) trade
       = Some (demo_bot false,
               [EvPlaceOrdersFast (pure_orders (demo_bot false) demo_pure_opp) "FOK";
                EvWaitOrder "A" 50; EvWaitOrder "B" 50;
                EvCancelOrders ["A"; "B"];
                EvGetOrderBook (Some "YES");
                EvPlaceOrder {| side := "SELL"; token_id := Some "YES";
                                o_price := Some 0.48; o_size := 50 |} "FAK"]).
Proof.
  pose (trade := new_trade (demo_bot false) 100 "pure_arb" "BOTH" 50 49.45 50 0.55).
  pose (polled := fun order_id =>
          wait_for_terminal_order (Some (order_size demo_pure_opp)) default_timeout
                                  (fst (order_polls (demo_env 100) order_id))
                                  (snd (order_polls (demo_env 100) order_id))).
  let v := eval vm_compute in (polled "A") in
  match v with Some ?x => pose (up_state := x) end.
  let v := eval vm_compute in (polled "B") in
  match v with Some ?x => pose (down_state := x) end.
  exists up_state, down_state, trade.
  split; [reflexivity |]. split; [reflexivity |].
  rewrite (partial_fill_recovery (demo_bot false) demo_pure_opp (demo_env 100)
             trade "A" "B" up_state down_state
             eq_refl ltac:(discriminate) ltac:(discriminate)
             ltac:(vm_compute; reflexivity) ltac:(vm_compute; reflexivity)
             ltac:(reflexivity)).
  reflexivity.
Defined.

(** C7, as stated, fails in its last clause: with the UP leg filled and
    the DOWN leg not, the request to cancel names the order of the filled
    leg too. *)
Lemma cancel_names_filled_leg_counterexample :
  exists up_state bot' evs,
    wait_for_terminal_order (Some 50) default_timeout
                            (fst (order_polls (demo_env 100) "A"))
                            (snd (order_polls (demo_env 100) "A")) = Some up_state
    /\ leg_filled up_state = true
    /\ execute_pure_arbitrage (demo_bot false) demo_pure_opp (demo_env 100)
       = Some (bot', evs)
    /\ In (EvWaitOrder "A" 50) evs
    /\ In (EvCancelOrders ["A"; "B"]) evs.
Proof.
  do 3 eexists.
  split; [vm_compute; reflexivity |].
  split; [reflexivity |].
  split; [vm_compute; reflexivity |].
  split; simpl; auto 10.
Qed.
End ExecutionFacts.

(** ** trading.py: prices of a fill, and the normalized book *)

Module BookFacts.
Import Trading TradingFacts Invariants.

(** *** The walk keeps the cost between the best and the worst price *)

Lemma walk_keeps_inv (S lo : Q) (levels : list (Level Q)) :
  StronglySorted price_le levels ->
  sizes_nonneg levels ->
  Forall (fun l => lo <= fst l) levels ->
  forall st, walk_inv lo st -> above_worst st levels ->
  walk_inv lo (walk S levels st)
  /\ (w_worst (walk S levels st) = w_worst st
      \/ exists w s, w_worst (walk S levels st) = Some w /\ In (w, s) levels).
Proof.
  induction 1 as [|[p s] rest Hsorted IH Hp]; intros Hnn Hlo st Hinv Habove.
  - simpl. auto.
  - inversion Hnn as [|? ? Hs Hnn']; subst. inversion Hlo as [|? ? Hlp Hlo']; subst.
    simpl in Hs, Hlp. cbn [walk]. exact_arith. case_cmp; [auto |].
    rewrite pymin_Qmin. exact_arith.
    set (take := Qmin s (S - w_filled st)).
    assert (Htake : 0 <= take)
      by (unfold take; destruct (Qmin_cases s (S - w_filled st)) as [[? E]|[? E]];
          rewrite E; lra).
    destruct Hinv as (Hf & Hc & Hw).
    destruct (IH Hnn' Hlo'
                 {| w_filled := w_filled st + take; w_cost := w_cost st + take * p;
                    w_worst := Some p |}) as (Hinv' & Hworst).
    + unfold walk_inv. cbn [w_filled w_cost w_worst].
      split; [lra |]. split; [nra |]. split; [exact Hlp |].
      unfold above_worst in Habove.
      destruct (w_worst st) as [w|].
      * inversion Habove as [|? ? Hwp _]; subst. simpl in Hwp.
        destruct Hw as (_ & Hcw). nra.
      * destruct Hw as (Hf0 & Hc0). nra.
    + unfold above_worst. cbn [w_worst].
      eapply Forall_impl; [exact Hp |]. intros l Hl. exact Hl.
    + split; [exact Hinv' |]. right.
      destruct Hworst as [E | (w & s' & E & Hin)].
      * cbn [w_worst] in E. exists p, s. split; [exact E | left; reflexivity].
      * exists w, s'. split; [exact E | right; exact Hin].
Qed.

Lemma sorted_head_least (p s : Q) (rest : list (Level Q)) :
  StronglySorted price_le ((p, s) :: rest) ->
  Forall (fun l => p <= fst l) ((p, s) :: rest).
Proof.
  intros Hs. inversion Hs as [|? ? _ Hall]; subst.
  constructor; [simpl; lra | exact Hall].
Qed.

(** The fill that [compute_buy_fill] returns, on a book side with sizes
    that are not negative. *)
Lemma fill_bounds (asks : list (Level Q)) (S : Q) (f : Fill Q) :
  sizes_nonneg asks ->
  compute_buy_fill asks S = Some f ->
  (exists s, In (best f, s) asks)
  /\ Forall (fun l => best f <= fst l) asks
  /\ (exists w s, worst f = Some w /\ In (w, s) asks)
  /\ 0 <= filled f
  /\ best f * filled f <= cost f
  /\ (forall w, worst f = Some w -> best f <= w /\ cost f <= w * filled f)
  /\ vwap f = (if Qltb 0 (filled f) then Some (cost f / filled f) else None).
Proof.
  intros Hnn Hfill.
  assert (HS : 0 < S).
  { unfold compute_buy_fill in Hfill. exact_arith.
    destruct (Qle_bool S 0) eqn:E; [discriminate | cmp_hyps; exact E]. }
  assert (Hne : asks <> []).
  { intros ->. unfold compute_buy_fill in Hfill. rewrite orb_true_r in Hfill.
    discriminate. }
  destruct (sorted_by_price_nonempty asks Hne) as (p & s & rest & Hsort).
  rewrite (compute_buy_fill_unfold asks S p s rest HS Hsort) in Hfill.
  cbv zeta in Hfill.
  pose proof (sorted_by_price_perm asks) as Hperm.
  pose proof (sorted_by_price_sorted asks) as Hsorted.
  rewrite Hsort in Hperm, Hsorted.
  assert (Hnn' : sizes_nonneg ((p, s) :: rest))
    by (eapply sizes_nonneg_perm; [symmetry; exact Hperm | exact Hnn]).
  pose proof (sorted_head_least p s rest Hsorted) as Hleast.
  destruct (walk_keeps_inv S p ((p, s) :: rest) Hsorted Hnn' Hleast
              {| w_filled := 0; w_cost := 0; w_worst := None |})
    as ((Hf & Hc & Hw) & Hworst).
  { unfold walk_inv. cbn. repeat split; lra. }
  { exact I. }
  destruct (walk_worst S p s rest {| w_filled := 0; w_cost := 0; w_worst := None |})
    as [w Ew]; [exact HS |].
  set (st := walk S ((p, s) :: rest) _) in *.
  destruct (Qltb (w_filled st + 0.000000001) S); [discriminate |].
  injection Hfill as <-. cbn [best worst filled cost vwap].
  split.
  { exists s. apply (Permutation_in _ Hperm). left. reflexivity. }
  split.
  { apply List.Forall_forall. intros l Hl.
    apply (Permutation_in _ (Permutation_sym Hperm)) in Hl.
    rewrite List.Forall_forall in Hleast. apply (Hleast l). exact Hl. }
  split.
  { destruct Hworst as [E | (w' & s' & E & Hin)].
    - rewrite Ew in E. discriminate.
    - exists w', s'. split; [exact E |]. apply (Permutation_in _ Hperm). exact Hin. }
  split; [exact Hf |]. split; [exact Hc |]. split; [| reflexivity].
  intros w' E. rewrite E in Hw. exact Hw.
Qed.

(** A fill never exceeds the target. *)
Lemma fill_within_target (asks : list (Level Q)) (S : Q) (f : Fill Q) :
  sizes_nonneg asks ->
  compute_buy_fill asks S = Some f ->
  0 < S /\ filled f <= S.
Proof.
  intros Hnn Hfill.
  assert (HS : 0 < S).
  { unfold compute_buy_fill in Hfill. exact_arith.
    destruct (Qle_bool S 0) eqn:E; [discriminate | cmp_hyps; exact E]. }
  assert (Hne : asks <> []).
  { intros ->. unfold compute_buy_fill in Hfill. rewrite orb_true_r in Hfill.
    discriminate. }
  destruct (sorted_by_price_nonempty asks Hne) as (p & s & rest & Hsort).
  rewrite (compute_buy_fill_unfold asks S p s rest HS Hsort) in Hfill.
  cbv zeta in Hfill.
  pose proof (sorted_by_price_perm asks) as Hperm. rewrite Hsort in Hperm.
  assert (Hnn' : sizes_nonneg ((p, s) :: rest))
    by (eapply sizes_nonneg_perm; [symmetry; exact Hperm | exact Hnn]).
  pose proof (walk_filled S ((p, s) :: rest) Hnn'
                {| w_filled := 0; w_cost := 0; w_worst := None |}) as Hw.
  cbn [w_filled] in Hw. specialize (Hw ltac:(lra)).
  destruct (Qltb _ S); [discriminate |].
  injection Hfill as <-. cbn [filled]. split; [exact HS |].
  rewrite Hw. apply Q.le_min_l.
Qed.

(** *** The best prices of a normalized book *)

Lemma to_tuples_positive (levels : list (PyVal Q * PyVal Q)) :
  Forall (fun l => 0 < snd l) (to_tuples levels).
Proof.
  induction levels as [|[p s] rest IH]; cbn [to_tuples]; [constructor |].
  destruct (py_float p) as [pv|]; [| exact IH].
  destruct (py_float s) as [sv|]; [| exact IH].
  exact_arith. case_cmp; [| exact IH].
  constructor; [exact Heqb | exact IH].
Qed.

Lemma fold_pymin_least (l : list Q) (x : Q) :
  In (fold_left pymin l x) (x :: l)
  /\ Forall (fun y => fold_left pymin l x <= y) (x :: l).
Proof.
  revert x. induction l as [|y l IH]; intros x; cbn [fold_left].
  - split; [left; reflexivity | constructor; [lra | constructor]].
  - destruct (IH (pymin x y)) as (Hin & Hall).
    inversion Hall as [|? ? Hm Hrest]; subst.
    assert (Hxy : pymin x y <= x /\ pymin x y <= y /\ (pymin x y = x \/ pymin x y = y)).
    { unfold pymin. exact_arith. case_cmp; repeat split; auto; lra. }
    destruct Hxy as (Hx & Hy & Hor).
    split.
    + destruct Hin as [E | Hin]; [| right; right; exact Hin].
      destruct Hor as [E' | E']; rewrite <- E, E'; [left | right; left]; reflexivity.
    + constructor; [lra |]. constructor; [lra | exact Hrest].
Qed.

Lemma fold_pymax_greatest (l : list Q) (x : Q) :
  In (fold_left pymax l x) (x :: l)
  /\ Forall (fun y => y <= fold_left pymax l x) (x :: l).
Proof.
  revert x. induction l as [|y l IH]; intros x; cbn [fold_left].
  - split; [left; reflexivity | constructor; [lra | constructor]].
  - destruct (IH (pymax x y)) as (Hin & Hall).
    inversion Hall as [|? ? Hm Hrest]; subst.
    assert (Hxy : x <= pymax x y /\ y <= pymax x y /\ (pymax x y = x \/ pymax x y = y)).
    { unfold pymax. exact_arith. case_cmp; repeat split; auto; lra. }
    destruct Hxy as (Hx & Hy & Hor).
    split.
    + destruct Hin as [E | Hin]; [| right; right; exact Hin].
      destruct Hor as [E' | E']; rewrite <- E, E'; [left | right; left]; reflexivity.
    + constructor; [lra |]. constructor; [lra | exact Hrest].
Qed.

Lemma in_map_fst (levels : list (Level Q)) (a : Q) :
  In a (map fst levels) -> exists s, In (a, s) levels.
Proof.
  intros Hin. apply in_map_iff in Hin as ([p s] & E & Hin). simpl in E. subst.
  eauto.
Qed.

Lemma py_min_opt_spec (levels : list (Level Q)) :
  match py_min_opt (map fst levels) with
  | None => levels = []
  | Some a => (exists s, In (a, s) levels) /\ Forall (fun l => a <= fst l) levels
  end.
Proof.
  destruct levels as [|[p s] rest]; [reflexivity |].
  cbn [map fst py_min_opt].
  destruct (fold_pymin_least (map fst rest) p) as (Hin & Hall).
  split.
  - apply (in_map_fst ((p, s) :: rest)). exact Hin.
  - change (p :: map fst rest) with (map fst ((p, s) :: rest)) in Hall.
    rewrite Forall_map in Hall. exact Hall.
Qed.

Lemma py_max_opt_spec (levels : list (Level Q)) :
  match py_max_opt (map fst levels) with
  | None => levels = []
  | Some b => (exists s, In (b, s) levels) /\ Forall (fun l => fst l <= b) levels
  end.
Proof.
  destruct levels as [|[p s] rest]; [reflexivity |].
  cbn [map fst py_max_opt].
  destruct (fold_pymax_greatest (map fst rest) p) as (Hin & Hall).
  split.
  - apply (in_map_fst ((p, s) :: rest)). exact Hin.
  - change (p :: map fst rest) with (map fst ((p, s) :: rest)) in Hall.
    rewrite Forall_map in Hall. exact Hall.
Qed.

(** The size quoted at the best price is that of the first level at
    that price, when the price is not zero. *)
Lemma size_at_spec (levels : list (Level Q)) (b : Q) :
  (exists s, In (b, s) levels) ->
  if Qeq_bool b 0 then size_at levels (Some b) = 0
  else exists l, In l levels /\ fst l == b /\ size_at levels (Some b) = snd l.
Proof.
  intros (s & Hin). unfold size_at, truthy. exact_arith.
  destruct (Qeq_bool b 0); cbn [negb]; [reflexivity |].
  match goal with |- context [filter ?P levels] => set (fl := filter P levels) end.
  assert (Hfl : forall l, l ∈ fl <-> Is_true (Qeq_bool (fst l) b) /\ l ∈ levels)
    by (intros l; unfold fl; rewrite list_elem_of_filter; reflexivity).
  destruct fl as [|l ls].
  - exfalso. apply (not_elem_of_nil (b, s)), Hfl. split.
    + simpl. apply Is_true_true, Qeq_bool_iff. reflexivity.
    + apply list_elem_of_In. exact Hin.
  - destruct (Hfl l) as [Hl _]. destruct Hl as (Hb & Hl); [left |].
    exists l. split; [apply list_elem_of_In; exact Hl |].
    split; [| reflexivity].
    apply Is_true_true, Qeq_bool_iff in Hb. exact Hb.
Qed.

Lemma filter_first {A : Type} (P : A -> Prop) `{forall x, Decision (P x)}
      (xs : list A) (x : A) (rest : list A) :
  filter P xs = x :: rest ->
  exists before after,
    xs = before ++ x :: after /\ List.Forall (fun y => ~ P y) before /\ P x.
Proof.
  induction xs as [|y xs IH]; [discriminate |].
  rewrite filter_cons. destruct (decide (P y)) as [Hy | Hy].
  - intros E. injection E as -> _. exists [], xs. split; [reflexivity |].
    split; [constructor | exact Hy].
  - intros E. destruct (IH E) as (before & after & -> & Hb & Hx).
    exists (y :: before), after. split; [reflexivity |].
    split; [constructor; assumption | exact Hx].
Qed.

(** The size quoted at a best price that is not zero is that of the
    first level at that price: no level before it has the price. *)
Lemma size_at_first (levels : list (Level Q)) (b : Q) :
  (exists s, In (b, s) levels) ->
  Qeq_bool b 0 = false ->
  exists before l after,
    levels = before ++ l :: after
    /\ List.Forall (fun l' => ~ fst l' == b) before
    /\ fst l == b /\ size_at levels (Some b) = snd l.
Proof.
  intros (s & Hin) Hb. unfold size_at, truthy. exact_arith. rewrite Hb. cbn [negb].
  destruct (filter (fun l => Is_true (Qeq_bool (fst l) b)) levels) as [|l ls] eqn:Efl.
  - exfalso.
    match type of Efl with
    | ?fl = _ => assert (Hmem : (b, s) ∈ fl)
    end.
    { apply list_elem_of_filter. split.
      + simpl. apply Is_true_true, Qeq_bool_iff. reflexivity.
      + apply list_elem_of_In. exact Hin. }
    rewrite Efl in Hmem. inversion Hmem.
  - destruct (filter_first _ levels l ls Efl) as (before & after & E & Hbefore & Hl).
    exists before, l, after. split; [exact E |]. split; [| split; [| reflexivity]].
    + eapply List.Forall_impl; [| exact Hbefore]. intros l' Hl' Heq. apply Hl'.
      apply Is_true_true, Qeq_bool_iff. exact Heq.
    + apply Is_true_true, Qeq_bool_iff in Hl. exact Hl.
Qed.

(** X1. For a book side whose sizes are not negative, a fill that
    [compute_buy_fill] returns has as its best price the lowest ask and as
    its worst price the price of a level of the book; its cost lies
    between best price times filled size and worst price times filled
    size, and so does its VWAP between the two prices, which is present
    as soon as something was filled. *)
Theorem compute_buy_fill_price_bounds (asks : list (Level Q)) (S : Q) (f : Fill Q) :
  sizes_nonneg asks ->
  compute_buy_fill asks S = Some f ->
  (exists s, In (best f, s) asks)
  /\ Forall (fun l => best f <= fst l) asks
  /\ exists w s,
       worst f = Some w /\ In (w, s) asks /\ best f <= w
       /\ best f * filled f <= cost f <= w * filled f
       /\ (0 < filled f ->
           exists v, vwap f = Some v /\ v == cost f / filled f /\ best f <= v <= w).
Proof.
  intros Hnn Hfill.
  destruct (fill_bounds asks S f Hnn Hfill)
    as (Hbest & Hleast & (w & s & Ew & Hin) & Hf & Hlo & Hhi & Hv).
  destruct (Hhi w Ew) as (Hbw & Hcw).
  split; [exact Hbest |]. split; [exact Hleast |].
  exists w, s. repeat split; try assumption.
  intros Hpos. rewrite Hv.
  destruct (Qltb 0 (filled f)) eqn:E; cmp_hyps; [| lra].
  eexists. split; [reflexivity |]. split; [reflexivity |]. split.
  - apply Qle_shift_div_l; [exact Hpos | exact Hlo].
  - apply Qle_shift_div_r; [exact Hpos | exact Hcw].
Qed.

Lemma compute_buy_fill_price_bounds_witness :
  exists f, compute_buy_fill [(0.42, 50); (0.40, 100)] 120 = Some f
            /\ Forall (fun l => best f <= fst l) [(0.42, 50); (0.40, 100)].
Proof.
  eexists. split; [vm_compute; reflexivity |].
  eapply (compute_buy_fill_price_bounds [(0.42, 50); (0.40, 100)] 120).
  - repeat constructor; discriminate.
  - vm_compute. reflexivity.
Defined.

(** X2. The book that [get_order_book] makes of the raw levels keeps levels
    of positive size only; its best ask is absent exactly when no ask is
    kept and is otherwise the lowest price of the asks kept, and its best
    bid is likewise the highest price of the bids kept.  The size quoted
    with a best price is that of the first level at that price, the one
    that no level at that price precedes, hence positive, unless the
    price is zero, in which case the size quoted is zero; the spread is
    best ask minus best bid when neither is zero. *)
Theorem normalize_book_best_prices (bids_raw asks_raw : list (PyVal Q * PyVal Q)) :
  exists d,
    normalize_book bids_raw asks_raw = Some d
    /\ Forall (fun l => 0 < snd l) (asks d)
    /\ Forall (fun l => 0 < snd l) (bids d)
    /\ match best_ask d with
       | None => asks d = []
       | Some a =>
           (exists s, In (a, s) (asks d))
           /\ Forall (fun l => a <= fst l) (asks d)
           /\ if Qeq_bool a 0 then ask_size d = 0
              else 0 < ask_size d
                   /\ exists before l after,
                        asks d = before ++ l :: after
                        /\ Forall (fun l' => ~ fst l' == a) before
                        /\ fst l == a /\ ask_size d = snd l
       end
    /\ match best_bid d with
       | None => bids d = []
       | Some b =>
           (exists s, In (b, s) (bids d))
           /\ Forall (fun l => fst l <= b) (bids d)
           /\ if Qeq_bool b 0 then bid_size d = 0
              else 0 < bid_size d
                   /\ exists before l after,
                        bids d = before ++ l :: after
                        /\ Forall (fun l' => ~ fst l' == b) before
                        /\ fst l == b /\ bid_size d = snd l
       end
    /\ (forall a b, best_ask d = Some a -> best_bid d = Some b ->
          ~ a == 0 -> ~ b == 0 -> spread d = Some (a - b)).
Proof.
  eexists. split; [reflexivity |].
  cbn [asks bids best_ask best_bid ask_size bid_size spread].
  pose proof (to_tuples_positive asks_raw) as Hpa.
  pose proof (to_tuples_positive bids_raw) as Hpb.
  split; [exact Hpa |]. split; [exact Hpb |].
  split; [| split].
  - pose proof (py_min_opt_spec (to_tuples asks_raw)) as Hmin.
    destruct (py_min_opt _) as [a|]; [| exact Hmin].
    destruct Hmin as (Hin & Hall). split; [exact Hin |]. split; [exact Hall |].
    pose proof (size_at_spec (to_tuples asks_raw) a Hin) as Hsz.
    destruct (Qeq_bool a 0) eqn:Ea; [exact Hsz |].
    destruct (size_at_first (to_tuples asks_raw) a Hin Ea)
      as (before & l & after & E & Hbefore & Hfl & Hs).
    split; [| exists before, l, after; auto].
    rewrite Hs. rewrite List.Forall_forall in Hpa. apply Hpa.
    rewrite E. apply in_or_app. right. left. reflexivity.
  - pose proof (py_max_opt_spec (to_tuples bids_raw)) as Hmax.
    destruct (py_max_opt _) as [b|]; [| exact Hmax].
    destruct Hmax as (Hin & Hall). split; [exact Hin |]. split; [exact Hall |].
    pose proof (size_at_spec (to_tuples bids_raw) b Hin) as Hsz.
    destruct (Qeq_bool b 0) eqn:Eb; [exact Hsz |].
    destruct (size_at_first (to_tuples bids_raw) b Hin Eb)
      as (before & l & after & E & Hbefore & Hfl & Hs).
    split; [| exists before, l, after; auto].
    rewrite Hs. rewrite List.Forall_forall in Hpb. apply Hpb.
    rewrite E. apply in_or_app. right. left. reflexivity.
  - intros a b -> -> Ha Hb. unfold truthy. exact_arith.
    apply Qeq_bool_ne in Ha, Hb. rewrite Ha, Hb. reflexivity.
Qed.

(** X3. In exact arithmetic, a fill estimated on the asks of a normalized
    book starts at the best ask of that book: the best price of the fill
    equals the best ask, its cost is at least the best ask times the size
    filled, and neither the worst price nor the VWAP of the fill is below
    the best ask.  (In binary64 the VWAP can round to just below the best
    ask, see [fill_vwap_binary64_rounding].) *)
Theorem fill_starts_at_best_ask (bids_raw asks_raw : list (PyVal Q * PyVal Q))
        (S : Q) (f : Fill Q) :
  compute_buy_fill (book_asks (normalize_book bids_raw asks_raw)) S = Some f ->
  exists a,
    book_best_ask (normalize_book bids_raw asks_raw) = Some a
    /\ best f == a
    /\ a * filled f <= cost f
    /\ (forall w, worst f = Some w -> a <= w)
    /\ (forall v, vwap f = Some v -> a <= v).
Proof.
  intros Hfill. cbn [book_asks normalize_book asks] in Hfill.
  cbn [book_best_ask normalize_book mbind option_bind best_ask].
  assert (Hnn : sizes_nonneg (to_tuples asks_raw)).
  { eapply Forall_impl; [apply to_tuples_positive |]. intros l Hl. simpl in Hl. lra. }
  destruct (fill_bounds _ S f Hnn Hfill)
    as ((s & Hbest) & Hleast & _ & Hf & Hlo & Hhi & Hv).
  pose proof (py_min_opt_spec (to_tuples asks_raw)) as Hmin.
  destruct (py_min_opt _) as [a|].
  2:{ rewrite Hmin in Hbest. destruct Hbest. }
  destruct Hmin as ((sa & Hina) & Halla).
  assert (Eba : best f == a).
  { rewrite List.Forall_forall in Hleast, Halla.
    specialize (Hleast _ Hina). specialize (Halla _ Hbest). simpl in *. lra. }
  exists a. split; [reflexivity |]. split; [exact Eba |].
  split; [rewrite <- Eba; exact Hlo |]. split.
  - intros w Ew. destruct (Hhi w Ew) as (Hbw & _). lra.
  - intros v Ev. rewrite Hv in Ev.
    destruct (Qltb 0 (filled f)) eqn:E; [| discriminate]. cmp_hyps.
    injection Ev as <-. rewrite <- Eba.
    apply Qle_shift_div_l; [exact E | exact Hlo].
Qed.

Lemma fill_starts_at_best_ask_witness :
  exists f a,
    compute_buy_fill (book_asks (normalize_book Samples.raw_bids Samples.raw_asks)) 120
    = Some f
    /\ book_best_ask (normalize_book Samples.raw_bids Samples.raw_asks) = Some a
    /\ best f == a.
Proof.
  destruct (compute_buy_fill
              (book_asks (normalize_book Samples.raw_bids Samples.raw_asks)) 120)
    as [f|] eqn:Hf; [| vm_compute in Hf; discriminate].
  destruct (fill_starts_at_best_ask Samples.raw_bids Samples.raw_asks 120 f Hf)
    as (a & Ha & Eba & _).
  exists f, a. split; [reflexivity |]. split; [exact Ha | exact Eba].
Defined.

(** In binary64 the bound on the VWAP can fail by rounding: with
    1000 shares asked at 0.119 and a target of 50, the best price and the
    worst price of the fill are the best ask 0.119, and its VWAP, the
    rounded cost divided by 50, is 0.11899999999999998, below the best
    ask. *)
Example fill_vwap_binary64_rounding :
  exists f v,
    compute_buy_fill (H := Binary64.float_arith)
                     (book_asks (Samples.book64 "0.119" "1000" 0.119 1000))
                     (Binary64.of_Q 50) = Some f
    /\ book_best_ask (Samples.book64 "0.119" "1000" 0.119 1000)
       = Some (Binary64.of_Q 0.119)
    /\ best f = Binary64.of_Q 0.119
    /\ worst f = Some (Binary64.of_Q 0.119)
    /\ vwap f = Some v
    /\ v = Binary64.of_Q 0.11899999999999998
    /\ PrimFloat.ltb v (Binary64.of_Q 0.119) = true.
Proof.
  do 2 eexists. split; [vm_compute; reflexivity |].
  repeat split; vm_compute; reflexivity.
Qed.
End BookFacts.

(** ** trading.py: order ids and the placing of orders *)

Module OrderFacts.
Import Orders.

Lemma Json_nested_ind (P : Json -> Prop) :
  (forall truth s, P (JAtom truth s)) ->
  (forall items, Forall (fun kv => P (snd kv)) items -> P (JDict items)) ->
  forall v, P v.
Proof.
  intros Hatom Hdict. fix IH 1. intros [truth s | items]; [apply Hatom |].
  apply Hdict. induction items as [|[k v] rest IHrest]; constructor.
  - apply IH.
  - exact IHrest.
Qed.

Section Extract.
Variable dict_str : list (string * Json) -> string.

Lemma extract_unfold (items : list (string * Json)) :
  extract_order_id dict_str (JDict items)
  = match first_truthy items id_keys with
    | Some val => Some (json_str dict_str val)
    | None => first_nonempty (map (nested_at dict_str items) nested_keys)
    end.
Proof.
  cbn [extract_order_id]. destruct (first_truthy items id_keys); [reflexivity |].
  f_equal. apply map_ext. intros key. unfold nested_at.
  induction items as [|[k v] rest IH]; [reflexivity |].
  cbn [dict_get]. destruct (String.eqb k key); [| exact IH].
  destruct v; reflexivity.
Qed.

Lemma dict_get_in items key v :
  dict_get items key = Some v -> In (key, v) items.
Proof.
  induction items as [|[k w] rest IH]; [discriminate |].
  cbn [dict_get]. destruct (String.eqb k key) eqn:E.
  - intros H. injection H as <-. apply String.eqb_eq in E. subst. left. reflexivity.
  - intros H. right. apply IH. exact H.
Qed.

Lemma first_truthy_spec items keys val :
  first_truthy items keys = Some val ->
  json_truth val = true /\ exists key, In key keys /\ dict_get items key = Some val.
Proof.
  induction keys as [|key keys IH]; [discriminate |].
  cbn [first_truthy]. destruct (dict_get items key) as [v|] eqn:Eg.
  - destruct (json_truth v) eqn:Et.
    + intros H. injection H as <-. split; [exact Et |].
      exists key. split; [left; reflexivity | exact Eg].
    + intros H. destruct (IH H) as (Ht & key' & Hin & Hg).
      split; [exact Ht |]. exists key'. split; [right; exact Hin | exact Hg].
  - intros H. destruct (IH H) as (Ht & key' & Hin & Hg).
    split; [exact Ht |]. exists key'. split; [right; exact Hin | exact Hg].
Qed.

Lemma first_nonempty_spec found oid :
  first_nonempty found = Some oid -> oid <> "" /\ In (Some oid) found.
Proof.
  induction found as [|[o|] rest IH]; [discriminate | |].
  - cbn [first_nonempty]. destruct (String.eqb o "") eqn:E.
    + intros H. destruct (IH H). split; [assumption | right; assumption].
    + intros H. injection H as <-. apply String.eqb_neq in E.
      split; [exact E | left; reflexivity].
  - cbn [first_nonempty]. intros H. destruct (IH H).
    split; [assumption | right; assumption].
Qed.

Lemma first_nonempty_some found oid :
  In (Some oid) found -> oid <> "" -> exists oid', first_nonempty found = Some oid'.
Proof.
  intros Hin Hne. induction found as [|[o|] rest IH]; [destruct Hin | |].
  - cbn [first_nonempty]. destruct (String.eqb o "") eqn:E; [| eauto].
    destruct Hin as [Ho | Hin]; [| exact (IH Hin)].
    injection Ho as ->. apply String.eqb_eq in E. contradiction.
  - cbn [first_nonempty]. destruct Hin as [Ho | Hin]; [discriminate | exact (IH Hin)].
Qed.

Lemma strs_nonempty_value items key v :
  strs_nonempty dict_str (JDict items) -> In (key, v) items ->
  strs_nonempty dict_str v.
Proof.
  intros Hs Hin. inversion Hs as [| ? _ Hall]; subst.
  rewrite List.Forall_forall in Hall. exact (Hall _ Hin).
Qed.

Lemma truthy_str_nonempty v :
  strs_nonempty dict_str v -> json_truth v = true -> json_str dict_str v <> "".
Proof.
  intros Hs Ht. inversion Hs as [truth s Hne | items Hne _]; subst.
  - apply Hne. exact Ht.
  - apply Hne. intros ->. discriminate Ht.
Qed.

(** Soundness: an id returned is held by the payload. *)
Lemma extract_sound (result : Json) :
  forall oid, extract_order_id dict_str result = Some oid ->
              holds_id dict_str result oid.
Proof.
  induction result as [truth s | items IH] using Json_nested_ind; [discriminate |].
  intros oid. rewrite extract_unfold.
  destruct (first_truthy items id_keys) as [val|] eqn:Ef.
  - intros H. injection H as <-. apply holds_here. exact Ef.
  - intros H. apply first_nonempty_spec in H as (_ & Hin).
    apply in_map_iff in Hin as (key & Hkey & Hin).
    unfold nested_at in Hkey.
    destruct (dict_get items key) as [[|sub]|] eqn:Eg; try discriminate.
    apply (holds_nested dict_str items key sub oid).
    + apply list_elem_of_In. exact Hin.
    + exact Eg.
    + rewrite List.Forall_forall in IH.
      apply (IH (key, JDict sub) (dict_get_in _ _ _ Eg)). exact Hkey.
Qed.

(** An id returned is not the empty string. *)
Lemma extract_nonempty (result : Json) :
  strs_nonempty dict_str result ->
  forall oid, extract_order_id dict_str result = Some oid -> oid <> "".
Proof.
  destruct result as [truth s | items]; [discriminate |].
  intros Hs oid. rewrite extract_unfold.
  destruct (first_truthy items id_keys) as [val|] eqn:Ef.
  - intros H. injection H as <-.
    apply first_truthy_spec in Ef as (Ht & key & _ & Hg).
    apply truthy_str_nonempty; [| exact Ht].
    apply (strs_nonempty_value items key); [exact Hs | apply dict_get_in; exact Hg].
  - intros H. apply first_nonempty_spec in H as (Hne & _). exact Hne.
Qed.

(** Completeness: when the payload holds an id, one is returned. *)
Lemma extract_complete (result : Json) (oid : string) :
  holds_id dict_str result oid ->
  strs_nonempty dict_str result ->
  exists oid', extract_order_id dict_str result = Some oid'.
Proof.
  induction 1 as [items val Ef | items key sub oid Hkey Hg Hsub IH]; intros Hs.
  - rewrite extract_unfold, Ef. eauto.
  - rewrite extract_unfold.
    destruct (first_truthy items id_keys) as [val|]; [eauto |].
    assert (Hs' : strs_nonempty dict_str (JDict sub))
      by (apply (strs_nonempty_value items key); [exact Hs | apply dict_get_in; exact Hg]).
    destruct (IH Hs') as (oid' & E).
    apply (first_nonempty_some _ oid').
    + apply in_map_iff. exists key. split.
      * unfold nested_at. rewrite Hg. exact E.
      * apply list_elem_of_In. exact Hkey.
    + apply (extract_nonempty (JDict sub) Hs'). exact E.
Qed.
End Extract.

(** X4. [extract_order_id] returns nothing for a value that is not a dict.
    On a payload in which [str] of a true value is never empty: the id it
    returns is held by the payload, under one of the keys "orderID",
    "orderId", "order_id" and "id" of the dict itself or of a dict nested
    under "order", "data" or "result", and is not the empty string; a true
    value under an id key of the dict itself wins over the nested ones;
    and an id is returned whenever the payload holds one. *)
Theorem extract_order_id_finds_ids (dict_str : list (string * Json) -> string)
        (result : Json) :
  strs_nonempty dict_str result ->
  (forall truth s, result = JAtom truth s -> extract_order_id dict_str result = None)
  /\ (forall oid, extract_order_id dict_str result = Some oid ->
        holds_id dict_str result oid /\ oid <> "")
  /\ (forall items val, result = JDict items ->
        first_truthy items id_keys = Some val ->
        extract_order_id dict_str result = Some (json_str dict_str val))
  /\ ((exists oid, holds_id dict_str result oid) <->
      (exists oid, extract_order_id dict_str result = Some oid)).
Proof.
  intros Hs. split; [intros truth s ->; reflexivity |].
  split.
  { intros oid E. split; [apply extract_sound; exact E |].
    apply (extract_nonempty dict_str result Hs oid E). }
  split.
  { intros items val -> Ef. rewrite extract_unfold, Ef. reflexivity. }
  split.
  - intros (oid & Hh). apply (extract_complete dict_str result oid Hh Hs).
  - intros (oid & E). exists oid. apply extract_sound. exact E.
Qed.

Lemma extract_order_id_finds_ids_witness :
  extract_order_id Samples.sample_dict_str Samples.sample_answer = Some "0xabc"
  /\ holds_id Samples.sample_dict_str Samples.sample_answer "0xabc".
Proof.
  assert (Hs : strs_nonempty Samples.sample_dict_str Samples.sample_answer).
  { unfold Samples.sample_answer.
    repeat first [ apply strs_dict; [intros _; discriminate |]
                 | apply strs_atom; intros; discriminate
                 | constructor ]. }
  destruct (extract_order_id_finds_ids Samples.sample_dict_str Samples.sample_answer Hs)
    as (_ & Hsound & _).
  split; [reflexivity |]. apply (Hsound "0xabc"). reflexivity.
Defined.

(** *** place_orders_fast *)

Section Placing.
Context {F : Type}.
Variable Signed : Type.
Variable order_types : list string.

Lemma sign_all_length (client : Client F Signed) orders signed :
  sign_all Signed client orders = Ret signed -> length signed = length orders.
Proof.
  revert signed. induction orders as [|o rest IH]; intros signed; cbn [sign_all].
  - intros E. injection E as <-. reflexivity.
  - destruct (create_order Signed client _) as [s|e]; [| discriminate].
    destruct (sign_all Signed client rest) as [ss|e]; [| discriminate].
    intros E. injection E as <-. cbn [length]. f_equal. apply IH. reflexivity.
Qed.
End Placing.

Lemma lookup_map {A B : Type} (f : A -> B) (l : list A) (i : nat) :
  map f l !! i = option_map f (l !! i).
Proof.
  revert i. induction l as [|x l IH]; intros [|i]; try reflexivity. apply IH.
Qed.

(** X5. When every order is signed and the batch submission raises,
    [place_orders_fast] raises nothing: it returns one result for each
    order, in order, which is the answer to the posting of that order
    alone or, when that posting raises, a dict with the key "error", in
    which [extract_order_id] finds no id. *)
Theorem place_orders_fast_fallback {F : Type} (Signed : Type)
        (order_types : list string) (client : Client F Signed)
        (orders : list (Main.OrderArgs F)) (order_type : string)
        (signed : list Signed) (e : string) :
  sign_all Signed client orders = Ret signed ->
  post_orders Signed client
              (map (fun o => (o, order_type_of order_types order_type)) signed)
  = Raise e ->
  exists results,
    place_orders_fast Signed order_types client orders order_type = Ret results
    /\ length results = length orders
    /\ forall i s, signed !! i = Some s ->
         exists r, results !! i = Some r
           /\ match post_order Signed client s (order_type_of order_types order_type) with
              | Ret answer => r = answer
              | Raise msg =>
                  r = error_result msg
                  /\ forall dict_str, extract_order_id dict_str r = None
              end.
Proof.
  intros Hsign Hpost. unfold place_orders_fast. rewrite Hsign, Hpost.
  eexists. split; [reflexivity |]. split.
  - unfold post_each. rewrite length_map. apply (sign_all_length Signed client). exact Hsign.
  - intros i s Hs. unfold post_each. rewrite lookup_map, Hs. cbn [option_map].
    eexists. split; [reflexivity |].
    destruct (post_order Signed client s _); [reflexivity |].
    split; reflexivity.
Qed.

Lemma place_orders_fast_fallback_witness :
  exists results,
    place_orders_fast string ["GTC"; "FOK"; "GTD"; "FAK"] Samples.sample_client
                      Samples.sample_orders "fok" = Ret results
    /\ length results = 2%nat.
Proof.
  destruct (place_orders_fast_fallback string ["GTC"; "FOK"; "GTD"; "FAK"]
              Samples.sample_client Samples.sample_orders "fok"
              ["YES"; "NO"] "batch refused" eq_refl eq_refl)
    as (results & E & Hlen & _).
  exists results. split; [exact E | exact Hlen].
Defined.
End OrderFacts.

(** ** risk_manager.py: the daily statistics and the daily P&L *)

Module LedgerFacts.
Import RiskManager Accounts.

Section AnyArithmetic.
Context {F : Type} `{Arith F}.

Lemma rollover_stats (rm : State F) today :
  _daily_stats (rollover rm today) = _daily_stats rm.
Proof. unfold rollover. destruct (String.eqb _ _); reflexivity. Qed.

Lemma check_stats (rm : State F) c today :
  _daily_stats (snd (check_can_trade rm c today)) = _daily_stats rm.
Proof.
  unfold check_can_trade. destruct (_halted rm); [reflexivity |].
  destruct (flt _ _); [cbn; apply rollover_stats |].
  destruct (flt _ _); [cbn; apply rollover_stats |].
  destruct (flt _ _); cbn; apply rollover_stats.
Qed.

Lemma record_trade_stats (rm : State F) (t : TradeRecord F) (today day : string) :
  forall trades,
    stats_match (_daily_stats rm !! day) day trades ->
    stats_match (_daily_stats (record_trade rm t today) !! day) day
                (trades ++ (if String.eqb today day then [t] else [])).
Proof.
  intros trades Hm. unfold record_trade. cbn [_daily_stats set_book].
  destruct (String.eqb today day) eqn:E.
  - apply String.eqb_eq in E. subst day. rewrite lookup_insert_eq.
    unfold stats_match in *. cbn [date_str trades_count pure_arb_count
                                  temporal_arb_count wins losses].
    rewrite !List.filter_app, !length_app. cbn [List.filter]. unfold is_pure at 2 4.
    destruct (_daily_stats rm !! today) as [st|]; cbn [default from_option id]; unfold id.
    + destruct Hm as (Hd & Hne & Hc & Hp & Ht & Hw & Hl).
      split; [exact Hd |]. split; [intros E; apply app_eq_nil in E as [_ E]; discriminate |].
      destruct (String.eqb (strategy t) "pure_arb"); cbn [negb length]; lia.
    + subst trades. cbn [new_stats date_str trades_count pure_arb_count
                        temporal_arb_count wins losses List.filter length app].
      split; [reflexivity |]. split; [discriminate |].
      destruct (String.eqb (strategy t) "pure_arb"); cbn [negb length]; lia.
  - apply String.eqb_neq in E. rewrite lookup_insert_ne by exact E.
    rewrite app_nil_r. exact Hm.
Qed.

Lemma settlement_stats (rm : State F) (t : TradeRecord F) won pnl (today day : string)
      trades :
  stats_match (_daily_stats rm !! day) day trades ->
  stats_match (_daily_stats (fst (record_settlement rm t won pnl today)) !! day) day trades.
Proof.
  intros Hm. unfold record_settlement. cbn [fst _daily_stats set_book set_daily].
  rewrite rollover_stats. cbn [_daily_stats set_book].
  destruct (decide (today = day)) as [-> | Hne].
  - rewrite lookup_alter_eq. destruct (_daily_stats rm !! day) as [st|]; [| exact Hm].
    cbn [fmap option_fmap option_map]. unfold stats_match in *.
    cbn [settle_stats date_str trades_count pure_arb_count temporal_arb_count wins losses].
    destruct Hm as (Hd & Hne & Hc & Hp & Ht & Hw & Hl).
    repeat split; try assumption; destruct won; lia.
  - rewrite lookup_alter_ne by exact Hne. exact Hm.
Qed.

Lemma recorded_on_single (day today : string) (op : Op F) :
  recorded_on day [(today, op)]
  = match op with
    | OpRecordTrade t => if String.eqb today day then [t] else []
    | _ => []
    end.
Proof.
  destruct op; try reflexivity. cbn. destruct (String.eqb today day); reflexivity.
Qed.

Lemma step_stats (rm : State F) (o : string * Op F) (day : string) trades :
  stats_match (_daily_stats rm !! day) day trades ->
  stats_match (_daily_stats (step rm o) !! day) day (trades ++ recorded_on day [o]).
Proof.
  intros Hm. destruct o as [today op]. rewrite recorded_on_single.
  destruct op; cbn [step]; rewrite ?app_nil_r.
  - rewrite check_stats. exact Hm.
  - apply record_trade_stats. exact Hm.
  - apply settlement_stats. exact Hm.
  - unfold daily_pnl. cbn [snd]. rewrite rollover_stats. exact Hm.
  - unfold get_summary, daily_pnl. cbn [snd]. rewrite rollover_stats. exact Hm.
  - exact Hm.
  - exact Hm.
Qed.

Lemma run_stats (ops : list (string * Op F)) (rm : State F) (day : string) trades :
  stats_match (_daily_stats rm !! day) day trades ->
  stats_match (_daily_stats (run rm ops) !! day) day (trades ++ recorded_on day ops).
Proof.
  revert rm trades. induction ops as [|o ops IH]; intros rm trades Hm.
  - cbn. rewrite app_nil_r. exact Hm.
  - cbn [run fold_left].
    change (o :: ops) with ([o] ++ ops). unfold recorded_on at 1.
    rewrite omap_app, app_assoc. apply (IH (step rm o)).
    apply step_stats. exact Hm.
Qed.
End AnyArithmetic.

(** X6. In every state the risk gate reaches from its initial state, and for
    every day: there are statistics for the day exactly when a trade was
    recorded on it, and then they carry the date of the day, their count
    of trades is the number of trades recorded on that day, their counts
    of pure and of temporal arbitrages are the numbers of those recorded
    with and without the strategy "pure_arb", which add up to the count of
    trades, and their counts of wins and losses are not negative.  A
    settlement on a day without a recorded trade leaves no statistics. *)
Theorem daily_stats_count_trades {F : Type} `{Arith F} (a b c d : F)
        (ops : list (string * Op F)) (day : string) :
  let rm := run (init a b c d) ops in
  let trades := recorded_on day ops in
  match _daily_stats rm !! day with
  | None => trades = []
  | Some st =>
      trades <> []
      /\ date_str st = day
      /\ trades_count st = Z.of_nat (length trades)
      /\ pure_arb_count st = Z.of_nat (length (List.filter is_pure trades))
      /\ temporal_arb_count st
         = Z.of_nat (length (List.filter (fun t => negb (is_pure t)) trades))
      /\ trades_count st = (pure_arb_count st + temporal_arb_count st)%Z
      /\ (0 <= wins st)%Z /\ (0 <= losses st)%Z
  end.
Proof.
  intros rm trades.
  pose proof (run_stats ops (init a b c d) day []) as Hm.
  cbn [app] in Hm. fold rm trades in Hm.
  specialize (Hm ltac:(cbn [init _daily_stats]; rewrite lookup_empty; reflexivity)).
  unfold stats_match in Hm. destruct (_daily_stats rm !! day) as [st|]; [| exact Hm].
  destruct Hm as (Hd & Hne & Hc & Hp & Ht & Hw & Hl).
  repeat split; try assumption.
  rewrite Hc, Hp, Ht. clear. induction trades as [|t ts IH]; [reflexivity |].
  cbn [List.filter length]. destruct (is_pure t); cbn [negb length]; lia.
Qed.

(** *** In exact arithmetic *)

Lemma win_rate_bounds (w l : Z) :
  (0 <= w)%Z -> (0 <= l)%Z -> (0 < w + l)%Z ->
  0 <= inject_Z w / inject_Z (w + l) * 100 <= 100.
Proof.
  intros Hw Hl Hpos.
  assert (Hq : 0 < inject_Z (w + l)) by (change 0 with (inject_Z 0); rewrite <- Zlt_Qlt; exact Hpos).
  assert (Hw' : 0 <= inject_Z w) by (change 0 with (inject_Z 0); rewrite <- Zle_Qle; exact Hw).
  assert (Hle : inject_Z w <= inject_Z (w + l)) by (rewrite <- Zle_Qle; lia).
  assert (H0 : 0 <= inject_Z w / inject_Z (w + l))
    by (apply Qle_shift_div_l; [exact Hq | lra]).
  assert (H1 : inject_Z w / inject_Z (w + l) <= 1)
    by (apply Qle_shift_div_r; [exact Hq | lra]).
  split; lra.
Qed.

(** X7. The summary of a risk gate reached from its initial state: the
    count of the day's trades is the number of trades recorded today and
    the sum of the two counts by strategy; the win rate lies between 0
    and 100, and is 0 when nothing was settled; reading the summary makes
    the lazy reset of the daily P&L and nothing else. *)
Theorem get_summary_figures (a b c d : Q) (ops : list (string * Op Q))
        (today : string) :
  let rm := run (init a b c d) ops in
  let s := fst (get_summary rm today) in
  sm_daily_trades s = Z.of_nat (length (recorded_on today ops))
  /\ sm_daily_trades s = (sm_pure_arb_count s + sm_temporal_arb_count s)%Z
  /\ 0 <= sm_win_rate s <= 100
  /\ ((sm_daily_wins s + sm_daily_losses s = 0)%Z -> sm_win_rate s == 0)
  /\ sm_daily_pnl s = fst (daily_pnl rm today)
  /\ snd (get_summary rm today) = rollover rm today.
Proof.
  intros rm s.
  pose proof (run_stats ops (init a b c d) today []) as Hm.
  cbn [app] in Hm. fold rm in Hm.
  specialize (Hm ltac:(cbn [init _daily_stats]; rewrite lookup_empty; reflexivity)).
  subst s. unfold get_summary, daily_pnl.
  cbn [fst snd sm_daily_trades sm_pure_arb_count sm_temporal_arb_count sm_win_rate
       sm_daily_wins sm_daily_losses sm_daily_pnl].
  unfold stats_match in Hm.
  destruct (_daily_stats rm !! today) as [st|]; cbn [default from_option id]; unfold id.
  - destruct Hm as (Hd & Hne & Hc & Hp & Ht & Hw & Hl).
    split; [exact Hc |]. split.
    { rewrite Hc, Hp, Ht. clear.
      induction (recorded_on today ops) as [|t ts IH]; [reflexivity |].
      cbn [List.filter length]. destruct (is_pure t); cbn [negb length]; lia. }
    split; [| split; [| split; reflexivity]].
    + exact_arith. destruct (0 <? wins st + losses st)%Z eqn:E.
      * apply Z.ltb_lt in E. apply win_rate_bounds; assumption.
      * split; lra.
    + intros E. rewrite E. cbn [Z.ltb Z.compare]. exact_arith. reflexivity.
  - rewrite Hm. cbn [new_stats trades_count pure_arb_count temporal_arb_count wins losses
                     length Z.of_nat Z.add Z.ltb Z.compare].
    exact_arith. change (0 <? 0 + 0)%Z with false. cbv iota.
    repeat split; try reflexivity; lra.
Qed.

Lemma rollover_pnl (rm : State Q) (day : string) :
  _daily_pnl_date rm = day -> rollover rm day = rm.
Proof. intros E. unfold rollover. rewrite E, String.eqb_refl. reflexivity. Qed.

(** One operation of the day, on the daily P&L as [daily_pnl] reads it. *)
Lemma step_daily_pnl (rm : State Q) (day : string) (op : Op Q) :
  fst (daily_pnl (step rm (day, op)) day)
  == book_pnl (fst (daily_pnl rm day)) (day, op).
Proof.
  unfold daily_pnl, book_pnl. cbn [fst snd].
  destruct op; cbn [step].
  - unfold check_can_trade. destruct (_halted rm); [reflexivity |].
    destruct (flt _ _).
    + cbn [snd]. rewrite rollover_pnl; [reflexivity |].
      cbn [set_halt _daily_pnl_date]. apply RiskFacts.rollover_today.
    + destruct (flt _ _); [cbn [snd]; rewrite RiskFacts.rollover_idem; reflexivity |].
      destruct (flt _ _); cbn [snd]; rewrite RiskFacts.rollover_idem; reflexivity.
  - unfold record_trade, rollover. cbn [set_book _daily_pnl_date _daily_pnl].
    destruct (String.eqb _ _); reflexivity.
  - unfold record_settlement. cbn [fst].
    rewrite rollover_pnl.
    + cbn [set_book set_daily _daily_pnl]. unfold rollover.
      cbn [set_book _daily_pnl_date _daily_pnl].
      destruct (String.eqb _ _); reflexivity.
    + cbn [set_book set_daily _daily_pnl_date]. apply RiskFacts.rollover_today.
  - unfold daily_pnl. cbn [snd]. rewrite RiskFacts.rollover_idem. reflexivity.
  - unfold get_summary, daily_pnl. cbn [snd]. rewrite RiskFacts.rollover_idem. reflexivity.
  - reflexivity.
  - unfold reset_daily, rollover. cbn [set_halt set_daily _daily_pnl_date _daily_pnl].
    rewrite String.eqb_refl. reflexivity.
Qed.

Lemma fold_book_pnl_proper (ops : list (string * Op Q)) (x y : Q) :
  x == y -> fold_left book_pnl ops x == fold_left book_pnl ops y.
Proof.
  revert x y. induction ops as [|[d op] ops IH]; intros x y E; [exact E |].
  cbn [fold_left]. apply IH. unfold book_pnl. cbn [snd].
  destruct op; try exact E; [rewrite E |]; reflexivity.
Qed.

(** X8. Over operations that all read the same date, the daily P&L that
    [daily_pnl] reports at the end is the one it would have reported at
    the start (the stored figure, or 0 when the stored date is another
    day), plus the P&L of every settlement made since, counted from zero
    again after each reset. *)
Theorem daily_pnl_sums_settlements (rm : State Q) (day : string)
        (ops : list (string * Op Q)) :
  Forall (fun o => fst o = day) ops ->
  fst (daily_pnl (run rm ops) day)
  == fold_left book_pnl ops (fst (daily_pnl rm day)).
Proof.
  revert rm. induction ops as [|[d op] ops IH]; intros rm Hday; [reflexivity |].
  inversion Hday as [|? ? Hd Hrest]; subst. cbn [fst] in *.
  cbn [run fold_left]. change (fold_left step ops ?r) with (run r ops).
  rewrite (IH _ Hrest). apply fold_book_pnl_proper. apply step_daily_pnl.
Qed.

Lemma daily_pnl_sums_settlements_witness :
  let t := {| obj := 0; timestamp := 0; strategy := "temporal_arb"; direction := "UP";
              size := 100; cost := 50; expected_payout := 100; expected_profit := 50;
              market_slug := "btc"; status := "open"; actual_pnl := 0 |} in
  let ops := [("2026-01-05", OpRecordTrade t);
              ("2026-01-05", OpRecordSettlement t false (-50));
              ("2026-01-05", OpCheck 10);
              ("2026-01-05", OpRecordSettlement t true 20)] in
  fst (daily_pnl (run (init 500 5000 500 5) ops) "2026-01-05") == -30.
Proof.
  intros t ops.
  rewrite (daily_pnl_sums_settlements (init 500 5000 500 5) "2026-01-05" ops).
  - reflexivity.
  - repeat constructor.
Defined.
End LedgerFacts.

(** ** main.py: the two detectors *)

Module OpportunityFacts.
Import Trading Main TradingFacts.

(** X9. In exact arithmetic, an opportunity that
    [check_temporal_arbitrage] emits: the strategy is enabled; the momentum is at least as confident as the threshold;
    the side bought is the one the momentum points to, with the token and
    the book of that side; the best ask of this book is not above the
    price threshold; the order is for the configured size, at the worst
    price of the fill estimated on this book, and its investment is the
    cost of that fill; the expected profit is the size minus the
    investment.  When the sizes of the book are not negative and the
    price of the order is not negative, the investment is at most price
    times size, so that the expected profit is at least (1 - price) times
    size.  (In binary64 rounding can leave the expected profit below
    that bound, see [temporal_profit_binary64_rounding].) *)
Theorem check_temporal_arbitrage_sound (st : Settings Q)
        (yes no : option string) (up_book down_book : Book Q)
        (momentum : option (CexPriceFeed.MomentumSignal Q)) (opp : TemporalOpp Q) :
  check_temporal_arbitrage st yes no up_book down_book momentum = Some opp ->
  exists m fill a,
    temporal_arb_enabled st = true
    /\ momentum = Some m
    /\ temporal_arb_confidence_threshold st <= CexPriceFeed.confidence m
    /\ t_confidence opp = CexPriceFeed.confidence m
    /\ t_direction opp = CexPriceFeed.direction m
    /\ t_token_id opp
       = match CexPriceFeed.direction m with
         | CexPriceFeed.UP => yes | CexPriceFeed.DOWN => no
         end
    /\ let book := match CexPriceFeed.direction m with
                   | CexPriceFeed.UP => up_book | CexPriceFeed.DOWN => down_book
                   end in
       book_best_ask book = Some a
       /\ a <= temporal_arb_price_threshold st
       /\ compute_buy_fill (book_asks book) (temporal_arb_order_size st) = Some fill
       /\ t_order_size opp = temporal_arb_order_size st
       /\ t_price opp = worst fill
       /\ t_total_investment opp = cost fill
       /\ t_expected_payout opp == t_order_size opp
       /\ t_expected_profit opp == t_order_size opp - t_total_investment opp
       /\ (sizes_nonneg (book_asks book) ->
           forall w, t_price opp = Some w -> 0 <= w ->
             t_total_investment opp <= w * t_order_size opp
             /\ (1 - w) * t_order_size opp <= t_expected_profit opp).
Proof.
  unfold check_temporal_arbitrage.
  destruct (temporal_arb_enabled st) eqn:Hen; cbn [negb]; [| discriminate].
  destruct momentum as [m|]; [| discriminate].
  exact_arith.
  destruct (Qltb (CexPriceFeed.confidence m) _) eqn:Hconf; [discriminate |].
  cmp_hyps.
  set (book := match CexPriceFeed.direction m with
               | CexPriceFeed.UP => up_book | CexPriceFeed.DOWN => down_book
               end).
  set (token := match CexPriceFeed.direction m with
                | CexPriceFeed.UP => yes | CexPriceFeed.DOWN => no
                end).
  replace (match CexPriceFeed.direction m with
           | CexPriceFeed.UP => (yes, up_book)
           | CexPriceFeed.DOWN => (no, down_book)
           end) with (token, book)
    by (unfold token, book; destruct (CexPriceFeed.direction m); reflexivity).
  destruct (book_best_ask book) as [a|] eqn:Ha; [| discriminate].
  destruct (Qltb (temporal_arb_price_threshold st) a) eqn:Hask; [discriminate |].
  cmp_hyps.
  destruct (compute_buy_fill (book_asks book) _) as [fill|] eqn:Hfill; [| discriminate].
  intros E. injection E as <-.
  exists m, fill, a.
  cbn [t_direction t_token_id t_price t_vwap t_order_size t_total_investment
       t_expected_payout t_expected_profit t_confidence].
  repeat (split; [first [reflexivity | assumption | lra] |]).
  intros Hnn w Ew Hw.
  destruct (BookFacts.fill_bounds _ _ _ Hnn Hfill) as (_ & _ & _ & Hf & _ & Hhi & _).
  destruct (Hhi w Ew) as (_ & Hcost).
  destruct (BookFacts.fill_within_target _ _ _ Hnn Hfill) as (HS & Hle).
  split; nra.
Qed.

Lemma check_temporal_arbitrage_sound_witness :
  exists opp,
    check_temporal_arbitrage (demo_settings true) (Some "YES") (Some "NO")
      (normalize_book Samples.raw_bids Samples.raw_asks) None
      (Some {| CexPriceFeed.direction := CexPriceFeed.UP;
               CexPriceFeed.confidence := 0.80;
               CexPriceFeed.price_change_pct := 0.2;
               CexPriceFeed.current_price := 100000;
               CexPriceFeed.reference_price := 99800;
               CexPriceFeed.window_seconds := 60;
               CexPriceFeed.sig_timestamp := 1000 |}) = Some opp
    /\ t_token_id opp = Some "YES".
Proof.
  match goal with
  | |- exists opp, ?call = Some opp /\ _ =>
      destruct call as [opp|] eqn:E; [| vm_compute in E; discriminate]
  end.
  destruct (check_temporal_arbitrage_sound _ _ _ _ _ _ _ E)
    as (m & fill & a & _ & Em & _ & _ & _ & Htok & _).
  exists opp. split; [reflexivity |].
  injection Em as <-. exact Htok.
Defined.

(** X10. In exact arithmetic, an opportunity that [check_pure_arbitrage]
    emits is for the configured size, which is positive; its pair cost is the sum of the
    two prices and is at most the target pair cost; its investment is
    pair cost times size, its expected payout the size, and its expected
    profit the profit per share times the size, hence positive when the
    target pair cost is below 1.  When the sizes of the two books are not
    negative and neither price is negative, buying the size on each book
    costs at most the investment of the opportunity.  (In binary64 the
    products are rounded, see [pure_profit_binary64_rounding].) *)
Theorem check_pure_arbitrage_economics (st : Settings Q) (up_book down_book : Book Q)
        (opp : PureOpp Q) :
  check_pure_arbitrage st up_book down_book = Some opp ->
  order_size opp = pure_arb_order_size st
  /\ 0 < order_size opp
  /\ total_cost opp == price_up opp + price_down opp
  /\ total_cost opp <= target_pair_cost st
  /\ total_investment opp == total_cost opp * order_size opp
  /\ expected_payout opp == order_size opp
  /\ expected_profit opp == profit_per_share opp * order_size opp
  /\ (target_pair_cost st < 1 -> 0 < expected_profit opp)
  /\ (sizes_nonneg (book_asks up_book) -> sizes_nonneg (book_asks down_book) ->
      0 <= price_up opp -> 0 <= price_down opp ->
      exists fill_up fill_down,
        compute_buy_fill (book_asks up_book) (order_size opp) = Some fill_up
        /\ compute_buy_fill (book_asks down_book) (order_size opp) = Some fill_down
        /\ cost fill_up + cost fill_down <= total_investment opp).
Proof.
  unfold check_pure_arbitrage.
  destruct (compute_buy_fill (book_asks up_book) _) as [fu|] eqn:Hu; [| discriminate].
  destruct (compute_buy_fill (book_asks down_book) _) as [fd|] eqn:Hd; [| discriminate].
  destruct (worst fu) as [wu|] eqn:Ewu; [| discriminate].
  destruct (worst fd) as [wd|] eqn:Ewd; [| discriminate].
  exact_arith.
  destruct (Qle_bool (wu + wd) (target_pair_cost st)) eqn:Hle; [| discriminate].
  cmp_hyps. intros E. injection E as <-.
  cbn [order_size total_cost price_up price_down total_investment expected_payout
       expected_profit profit_per_share].
  assert (HS : 0 < pure_arb_order_size st).
  { unfold compute_buy_fill in Hu. exact_arith.
    destruct (Qle_bool (pure_arb_order_size st) 0) eqn:E; [discriminate |].
    cmp_hyps. exact E. }
  split; [reflexivity |]. split; [exact HS |]. split; [reflexivity |].
  split; [exact Hle |]. split; [reflexivity |]. split; [lra |]. split; [lra |].
  split; [intros Ht; nra |].
  intros Hnu Hnd Hpu Hpd. exists fu, fd. split; [exact Hu |]. split; [exact Hd |].
  destruct (BookFacts.fill_bounds _ _ _ Hnu Hu) as (_ & _ & _ & Hfu & _ & Hhu & _).
  destruct (BookFacts.fill_bounds _ _ _ Hnd Hd) as (_ & _ & _ & Hfd & _ & Hhd & _).
  destruct (Hhu wu Ewu) as (_ & Hcu). destruct (Hhd wd Ewd) as (_ & Hcd).
  destruct (BookFacts.fill_within_target _ _ _ Hnu Hu) as (_ & Hlu).
  destruct (BookFacts.fill_within_target _ _ _ Hnd Hd) as (_ & Hld).
  nra.
Qed.

Lemma check_pure_arbitrage_economics_witness :
  exists opp,
    check_pure_arbitrage (demo_settings true)
      (Some {| best_bid := Some 0.48; best_ask := Some 0.495; spread := Some 0.015;
               bid_size := 100; ask_size := 80;
               bids := [(0.48, 100)]; asks := [(0.495, 80)] |})
      (Some {| best_bid := Some 0.48; best_ask := Some 0.49; spread := Some 0.01;
               bid_size := 100; ask_size := 30;
               bids := [(0.48, 100)]; asks := [(0.49, 30); (0.494, 40)] |})
    = Some opp
    /\ 0 < expected_profit opp.
Proof.
  match goal with
  | |- exists opp, ?call = Some opp /\ _ =>
      destruct call as [opp|] eqn:E; [| vm_compute in E; discriminate]
  end.
  destruct (check_pure_arbitrage_economics _ _ _ _ E)
    as (_ & _ & _ & _ & _ & _ & _ & Hpos & _).
  exists opp. split; [reflexivity |]. apply Hpos. reflexivity.
Defined.

(** In binary64 the bound on the expected profit can fail by
    rounding: with 1000 shares asked at 0.41, a size of 100 and a signal UP,
    the order is priced at 0.41, the investment is 41.0 and the expected
    profit 59.0, below (1 - 0.41) * 100 as computed, which is
    59.00000000000001. *)
Example temporal_profit_binary64_rounding :
  exists opp,
    check_temporal_arbitrage (H := Binary64.float_arith) (Samples.settings64 0.993)
      (Some "YES") (Some "NO") (Samples.book64 "0.41" "1000" 0.41 1000) None
      (Some Samples.signal64) = Some opp
    /\ t_price opp = Some (Binary64.of_Q 0.41)
    /\ t_order_size opp = Binary64.of_Q 100
    /\ t_total_investment opp = Binary64.of_Q 41
    /\ t_expected_profit opp = Binary64.of_Q 59
    /\ PrimFloat.ltb (t_expected_profit opp)
                     (PrimFloat.mul (PrimFloat.sub (Binary64.of_Q 1) (Binary64.of_Q 0.41))
                                    (t_order_size opp)) = true.
Proof.
  eexists. split; [vm_compute; reflexivity |].
  repeat split; vm_compute; reflexivity.
Qed.

(** In binary64 the expected profit is the rounded payout minus the
    rounded investment, and not the profit per share times the size: with
    worst asks 0.495 and 0.494 and a size of 50 the first is
    0.5499999999999972 and the second 0.5500000000000005. *)
Example pure_profit_binary64_rounding :
  exists opp,
    check_pure_arbitrage (H := Binary64.float_arith) (Samples.settings64 0.993)
                         (Samples.book64 "0.495" "50" 0.495 50)
                         (Samples.book64 "0.494" "80" 0.494 80) = Some opp
    /\ order_size opp = Binary64.of_Q 50
    /\ expected_profit opp = Binary64.of_Q 0.5499999999999972
    /\ PrimFloat.mul (profit_per_share opp) (order_size opp)
       = Binary64.of_Q 0.5500000000000005
    /\ PrimFloat.ltb (expected_profit opp)
                     (PrimFloat.mul (profit_per_share opp) (order_size opp)) = true.
Proof.
  eexists. split; [vm_compute; reflexivity |].
  repeat split; vm_compute; reflexivity.
Qed.
End OpportunityFacts.

(** ** main.py: what a run of the bot does to the risk gate *)

Module BotFacts.
Import Trading Main Invariants.

Section AnyArithmetic.
Context {F : Type} `{Arith F}.
Local Open Scope py_scope.

Lemma pure_live_gate bot opp env trade bot' evs :
  pure_live bot opp env trade = Some (bot', evs) ->
  settings bot' = settings bot
  /\ (risk_manager bot' = risk_manager bot
      \/ risk_manager bot'
         = RiskManager.record_trade (risk_manager bot) trade (today_trade env)).
Proof.
  unfold pure_live.
  destruct (place_orders_fast env _ _) as [order_ids | msg].
  2:{ intros E. injection E as <- <-. split; [reflexivity | left; reflexivity]. }
  destruct (order_ids !! 0%nat ≫= truthy_id) as [id_up|].
  2:{ intros E. injection E as <- <-. split; [reflexivity | left; reflexivity]. }
  destruct (order_ids !! 1%nat ≫= truthy_id) as [id_down|].
  2:{ intros E. injection E as <- <-. split; [reflexivity | left; reflexivity]. }
  destruct (order_polls env id_up) as [start_up ticks_up].
  destruct (order_polls env id_down) as [start_down ticks_down].
  destruct (wait_for_terminal_order _ _ start_up ticks_up) as [up_state|];
    [| discriminate].
  destruct (wait_for_terminal_order _ _ start_down ticks_down) as [down_state|];
    [| discriminate].
  destruct (leg_filled up_state && leg_filled down_state);
    intros E; injection E as <- <-; split; try reflexivity.
  - right. reflexivity.
  - left. reflexivity.
Qed.

Lemma temporal_live_gate bot opp env trade bot' evs :
  temporal_live bot opp env trade = Some (bot', evs) ->
  settings bot' = settings bot
  /\ (risk_manager bot' = risk_manager bot
      \/ risk_manager bot'
         = RiskManager.record_trade (risk_manager bot) trade (today_trade env)).
Proof.
  unfold temporal_live.
  destruct (place_order env _ _) as [oid | msg].
  2:{ intros E. injection E as <- <-. split; [reflexivity | left; reflexivity]. }
  destruct (truthy_id oid) as [order_id|].
  2:{ intros E. injection E as <- <-. split; [reflexivity | left; reflexivity]. }
  destruct (order_polls env order_id) as [start ticks].
  destruct (wait_for_terminal_order _ _ start ticks) as [state|]; [| discriminate].
  destruct (leg_filled state); intros E; injection E as <- <-; split;
    try reflexivity.
  - right. reflexivity.
  - left. reflexivity.
Qed.

Lemma execute_gate (bot : Bot F) (c : Call F) bot' evs :
  execute bot c = Some (bot', evs) ->
  settings bot' = settings bot /\ gate_step bot c (risk_manager bot').
Proof.
  intros He. unfold gate_step.
  destruct (now (call_env c) - _last_trade_ts bot <? cooldown_seconds (settings bot))
    eqn:Hcd.
  { rewrite (ExecutionFacts.execute_skip bot c Hcd) in He. injection He as <- <-.
    split; [reflexivity | left; reflexivity]. }
  revert He.
  destruct c as [opp env | opp env]; cbn [execute call_env call_cost] in *.
  - unfold execute_pure_arbitrage. rewrite Hcd. clear Hcd.
    cbn [risk_manager set_last_trade_ts].
    destruct (RiskManager.check_can_trade _ _ _) as [[can_trade reason] rm1].
    cbn [fst snd]. destruct can_trade; cbn [negb].
    2:{ intros E. injection E as <- <-. split; [reflexivity | right; left; reflexivity]. }
    ExecutionFacts.bot_fields.
    destruct (dry_run (settings bot)) eqn:Hdry.
    + destruct (sim_balance bot <? total_investment opp).
      * intros E. injection E as <- <-. split; [reflexivity | right; left; reflexivity].
      * destruct (RiskManager.record_settlement _ _ _ _ _) as [rm2 trade'] eqn:Hset.
        intros E. injection E as <- <-. split; [reflexivity |].
        right; right. split; [reflexivity |].
        eexists. split; [| right; split; [reflexivity |]; exists opp; split;
                           [reflexivity | rewrite Hset; reflexivity]].
        reflexivity.
    + destruct (pure_live _ opp env _) as [[bot1 evs1]|] eqn:Hlive; [| discriminate].
      intros E. injection E as <- <-.
      apply pure_live_gate in Hlive as (Hs & Hg). ExecutionFacts.bot_fields.
      split; [exact Hs |].
      destruct Hg as [-> | ->]; [right; left; reflexivity |].
      right; right. split; [reflexivity |].
      eexists. split; [| left; reflexivity]. reflexivity.
  - unfold execute_temporal_arbitrage. rewrite Hcd. clear Hcd.
    cbn [risk_manager set_last_trade_ts].
    destruct (RiskManager.check_can_trade _ _ _) as [[can_trade reason] rm1].
    cbn [fst snd]. destruct can_trade; cbn [negb].
    2:{ intros E. injection E as <- <-. split; [reflexivity | right; left; reflexivity]. }
    ExecutionFacts.bot_fields.
    destruct (dry_run (settings bot)) eqn:Hdry.
    + destruct (sim_balance bot <? t_total_investment opp).
      * intros E. injection E as <- <-. split; [reflexivity | right; left; reflexivity].
      * intros E. injection E as <- <-. split; [reflexivity |].
        right; right. split; [reflexivity |].
        eexists. split; [| left; reflexivity]. reflexivity.
    + destruct (temporal_live _ opp env _) as [[bot1 evs1]|] eqn:Hlive; [| discriminate].
      intros E. injection E as <- <-.
      apply temporal_live_gate in Hlive as (Hs & Hg). ExecutionFacts.bot_fields.
      split; [exact Hs |].
      destruct Hg as [-> | ->]; [right; left; reflexivity |].
      right; right. split; [reflexivity |].
      eexists. split; [| left; reflexivity]. reflexivity.
Qed.
End AnyArithmetic.

(** *** In exact arithmetic *)

(** An approval: the gate was not halted, the day was rolled over, and
    the cost fits the two limits. *)
Lemma approval (rm : RiskManager.State Q) (c : Q) (today : string) :
  fst (fst (RiskManager.check_can_trade rm c today)) = true ->
  snd (RiskManager.check_can_trade rm c today) = RiskManager.rollover rm today
  /\ c <= RiskManager.max_single_bet rm
  /\ RiskManager._current_exposure rm + c <= RiskManager.max_position_size rm.
Proof.
  intros Hok. destruct (RiskFacts.check_approved rm c today Hok) as (_ & Hh).
  pose proof (RiskFacts.check_active rm c today Hh) as Ha. cbv zeta in Ha.
  destruct (RiskFacts.rollover_halted rm today) as (_ & _ & Ee & _ & Es & Ep).
  destruct (flt _ _).
  - destruct Ha as [r E]. rewrite E in Hok. discriminate.
  - destruct Ha as (E1 & E2). split; [exact E1 |].
    rewrite Hok in E2. symmetry in E2. apply andb_true_iff in E2 as (Hb & Hp).
    apply negb_true_iff in Hb, Hp. rewrite Ee, Ep in Hp. rewrite Es in Hb.
    exact_arith. cmp_hyps. split; assumption.
Qed.

Lemma rollover_book (rm : RiskManager.State Q) (today : string) :
  RiskManager._trades (RiskManager.rollover rm today) = RiskManager._trades rm.
Proof. unfold RiskManager.rollover. destruct (String.eqb _ _); reflexivity. Qed.

Lemma check_book (rm : RiskManager.State Q) (c : Q) (today : string) :
  let rm' := snd (RiskManager.check_can_trade rm c today) in
  RiskManager._trades rm' = RiskManager._trades rm
  /\ RiskManager._current_exposure rm' = RiskManager._current_exposure rm
  /\ RiskManager.max_position_size rm' = RiskManager.max_position_size rm
  /\ RiskManager.max_single_bet rm' = RiskManager.max_single_bet rm
  /\ RiskManager.max_daily_loss rm' = RiskManager.max_daily_loss rm.
Proof.
  unfold RiskManager.check_can_trade.
  destruct (RiskManager._halted rm); [repeat split |].
  destruct (RiskFacts.rollover_halted rm today) as (_ & _ & Ee & Ed & Es & Ep).
  pose proof (rollover_book rm today) as Et.
  destruct (flt _ _); [cbn; repeat split; assumption |].
  destruct (flt _ _); [cbn; repeat split; assumption |].
  destruct (flt _ _); cbn; repeat split; assumption.
Qed.

Lemma gate_step_within_limits (bot : Bot Q) (c : Call Q) (rm' : RiskManager.State Q)
      (position_limit bet_limit : Q) :
  0 <= position_limit ->
  within_limits position_limit bet_limit (risk_manager bot) ->
  gate_step bot c rm' ->
  within_limits position_limit bet_limit rm'.
Proof.
  intros Hpos (Hp & Hb & He & Ht) Hstep. unfold gate_step in Hstep. cbv zeta in Hstep.
  destruct (check_book (risk_manager bot) (call_cost c) (today_check (call_env c)))
    as (Ct & Ce & Cp & Cb & _).
  destruct Hstep as [-> | [-> | (Hok & trade & Hcost & Hrec)]].
  - repeat split; assumption.
  - unfold within_limits. rewrite Ct, Ce, Cp, Cb. repeat split; assumption.
  - destruct (approval _ _ _ Hok) as (_ & Hbet & Hexp).
    rewrite Hp in Hexp. rewrite Hb in Hbet.
    set (rm1 := snd (RiskManager.check_can_trade _ _ _)) in *.
    assert (Hrecorded :
              within_limits position_limit bet_limit
                (RiskManager.record_trade rm1 trade (today_trade (call_env c)))).
    { unfold within_limits, RiskManager.record_trade.
      cbn [RiskManager.set_book RiskManager.max_position_size
           RiskManager.max_single_bet RiskManager._current_exposure
           RiskManager._trades].
      rewrite Cp, Cb, Ce, Ct. exact_arith.
      split; [exact Hp |]. split; [exact Hb |]. split; [rewrite Hcost; lra |].
      apply Forall_app. split; [exact Ht |]. constructor; [| constructor].
      rewrite Hcost. lra. }
    destruct Hrec as [-> | (_ & opp & _ & ->)]; [exact Hrecorded |].
    destruct Hrecorded as (Hp' & Hb' & He' & Ht').
    set (rm2 := RiskManager.record_trade rm1 trade _) in *.
    unfold within_limits. rewrite RiskFacts.settlement_exposure.
    unfold RiskManager.record_settlement, RiskManager.rollover. cbn [fst].
    cbn [RiskManager.set_book RiskManager.set_daily RiskManager._daily_pnl_date].
    destruct (String.eqb _ _);
      cbn [RiskManager.set_book RiskManager.set_daily RiskManager.max_position_size
           RiskManager.max_single_bet RiskManager._trades].
    all: split; [exact Hp' |]; split; [exact Hb' |]; split.
    all: try (assert (Hc0 : RiskManager._current_exposure rm2 - RiskManager.cost trade
                            <= position_limit)
               by (unfold rm2, RiskManager.record_trade;
                   cbn [RiskManager.set_book RiskManager._current_exposure];
                   exact_arith; rewrite Ce; lra);
              destruct (Qmax_cases 0 (RiskManager._current_exposure rm2
                                      - RiskManager.cost trade)) as [[? E]|[? E]];
              rewrite E; lra).
    all: apply Forall_map; eapply Forall_impl; [exact Ht' |];
      intros t Hle; cbn beta; destruct (Nat.eqb _ _); [| exact Hle];
      cbn [RiskManager.settle_trade RiskManager.cost];
      rewrite Hcost; lra.
Qed.

Lemma run_within_limits (calls : list (Call Q)) (position_limit bet_limit : Q) :
  0 <= position_limit ->
  forall (bot bot' : Bot Q) log,
    within_limits position_limit bet_limit (risk_manager bot) ->
    run bot calls = Some (bot', log) ->
    within_limits position_limit bet_limit (risk_manager bot').
Proof.
  intros Hpos. induction calls as [|c calls IH]; intros bot bot' log Hin Hrun.
  - injection Hrun as <- <-. exact Hin.
  - cbn [run] in Hrun.
    destruct (execute bot c) as [[bot1 evs]|] eqn:He; [| discriminate].
    destruct (run bot1 calls) as [[bot2 log']|] eqn:Hr; [| discriminate].
    injection Hrun as <- <-.
    destruct (execute_gate bot c bot1 evs He) as (_ & Hstep).
    apply (IH bot1 bot2 log'); [| exact Hr].
    apply (gate_step_within_limits bot c); assumption.
Qed.

(** X11. In every run of the bot, from a risk gate whose position limit is not
    negative, whose exposure is within that limit and whose recorded
    trades each cost at most the single-bet limit: the two limits do not
    change, the exposure stays within the position limit, and every trade
    the gate has recorded costs at most the single-bet limit. *)
Theorem run_keeps_exposure_within_limits (bot bot' : Bot Q) (calls : list (Call Q))
        (log : list (Q * list (Event Q))) :
  let rm := risk_manager bot in
  let rm' := risk_manager bot' in
  0 <= RiskManager.max_position_size rm ->
  RiskManager._current_exposure rm <= RiskManager.max_position_size rm ->
  Forall (fun t => RiskManager.cost t <= RiskManager.max_single_bet rm)
         (RiskManager._trades rm) ->
  run bot calls = Some (bot', log) ->
  RiskManager.max_position_size rm' = RiskManager.max_position_size rm
  /\ RiskManager.max_single_bet rm' = RiskManager.max_single_bet rm
  /\ RiskManager._current_exposure rm' <= RiskManager.max_position_size rm
  /\ Forall (fun t => RiskManager.cost t <= RiskManager.max_single_bet rm)
            (RiskManager._trades rm').
Proof.
  intros rm rm' Hpos He Ht Hrun.
  apply (run_within_limits calls _ _ Hpos bot bot' log); [| exact Hrun].
  repeat split; assumption.
Qed.

Lemma run_keeps_exposure_within_limits_witness :
  exists bot' log,
    run (demo_bot true)
        [CallTemporal demo_temporal_opp (demo_env 100);
         CallPure demo_pure_opp (demo_env 110);
         CallTemporal demo_temporal_opp (demo_env 112)] = Some (bot', log)
    /\ RiskManager._current_exposure (risk_manager bot') <= 5000.
Proof.
  match goal with
  | |- exists bot' log, ?r = Some (bot', log) /\ _ =>
      destruct r as [[bot' log]|] eqn:E; [| vm_compute in E; discriminate]
  end.
  exists bot', log. split; [reflexivity |].
  refine (proj1 (proj2 (proj2
    (run_keeps_exposure_within_limits (demo_bot true) bot' _ log _ _ _ E)))).
  - discriminate.
  - discriminate.
  - constructor.
Defined.

Lemma rollover_stays_open (loss_limit : Q) (rm : RiskManager.State Q) today :
  0 <= loss_limit -> stays_open loss_limit rm ->
  stays_open loss_limit (RiskManager.rollover rm today).
Proof.
  intros Hl (Hm & Hh & Hp). unfold RiskManager.rollover.
  destruct (String.eqb _ _); [repeat split; assumption |].
  repeat split; try assumption. cbn. lra.
Qed.

Lemma check_stays_open (loss_limit : Q) (rm : RiskManager.State Q) c today :
  0 <= loss_limit -> stays_open loss_limit rm ->
  snd (RiskManager.check_can_trade rm c today) = RiskManager.rollover rm today.
Proof.
  intros Hl Hopen. pose proof (rollover_stays_open loss_limit rm today Hl Hopen) as Hr.
  destruct Hopen as (Hm & Hh & Hp). destruct Hr as (Hm' & Hh' & Hp').
  pose proof (RiskFacts.check_active rm c today Hh) as Ha. cbv zeta in Ha.
  destruct (flt _ _) eqn:Hloss.
  - exfalso. exact_arith. cmp_hyps. rewrite Hm' in Hloss. lra.
  - destruct Ha as (E & _). exact E.
Qed.

Lemma gate_step_stays_open (bot : Bot Q) (c : Call Q) (rm' : RiskManager.State Q)
      (loss_limit : Q) :
  0 <= loss_limit ->
  (dry_run (settings bot) = true -> 0 <= booked_profit c) ->
  stays_open loss_limit (risk_manager bot) ->
  gate_step bot c rm' ->
  stays_open loss_limit rm'
  /\ (dry_run (settings bot) = false ->
      RiskManager._daily_pnl rm' = RiskManager._daily_pnl (risk_manager bot)
      \/ RiskManager._daily_pnl rm' = 0).
Proof.
  intros Hl Hprofit Hopen Hstep. unfold gate_step in Hstep. cbv zeta in Hstep.
  rewrite (check_stays_open loss_limit _ (call_cost c) _ Hl Hopen) in Hstep.
  pose proof (rollover_stays_open loss_limit _ (today_check (call_env c)) Hl Hopen)
    as Hrolled.
  set (rm1 := RiskManager.rollover (risk_manager bot) (today_check (call_env c))) in *.
  assert (Hpnl1 : RiskManager._daily_pnl rm1 = RiskManager._daily_pnl (risk_manager bot)
                  \/ RiskManager._daily_pnl rm1 = 0).
  { unfold rm1, RiskManager.rollover. destruct (String.eqb _ _); [left | right]; reflexivity. }
  destruct Hstep as [-> | [-> | (Hok & trade & Hcost & Hrec)]].
  - split; [exact Hopen | intros _; left; reflexivity].
  - split; [exact Hrolled | intros _; exact Hpnl1].
  - destruct Hrec as [-> | (Hdry & opp & Ec & ->)].
    + split; [exact Hrolled | intros _; exact Hpnl1].
    + split; [| intros Hlive; rewrite Hlive in Hdry; discriminate].
      specialize (Hprofit Hdry). rewrite Ec in Hprofit. cbn [booked_profit] in Hprofit.
      destruct Hrolled as (Hm & Hh & Hp).
      unfold stays_open, RiskManager.record_settlement, RiskManager.rollover,
        RiskManager.record_trade. cbn [fst].
      cbn [RiskManager.set_book RiskManager.set_daily RiskManager._daily_pnl_date].
      destruct (String.eqb _ _);
        cbn [RiskManager.set_book RiskManager.set_daily RiskManager.max_daily_loss
             RiskManager._halted RiskManager._daily_pnl];
        exact_arith; repeat split; try assumption; lra.
Qed.

Lemma run_stays_open (calls : list (Call Q)) (loss_limit : Q) :
  0 <= loss_limit ->
  forall (bot bot' : Bot Q) log,
    (dry_run (settings bot) = true -> Forall (fun c => 0 <= booked_profit c) calls) ->
    stays_open loss_limit (risk_manager bot) ->
    run bot calls = Some (bot', log) ->
    stays_open loss_limit (risk_manager bot')
    /\ (dry_run (settings bot) = false ->
        RiskManager._daily_pnl (risk_manager bot')
        = RiskManager._daily_pnl (risk_manager bot)
        \/ RiskManager._daily_pnl (risk_manager bot') = 0).
Proof.
  intros Hl. induction calls as [|c calls IH]; intros bot bot' log Hprofit Hopen Hrun.
  - injection Hrun as <- <-. split; [exact Hopen | intros _; left; reflexivity].
  - cbn [run] in Hrun.
    destruct (execute bot c) as [[bot1 evs]|] eqn:He; [| discriminate].
    destruct (run bot1 calls) as [[bot2 log']|] eqn:Hr; [| discriminate].
    injection Hrun as <- <-.
    destruct (execute_gate bot c bot1 evs He) as (Hs & Hstep).
    assert (Hc : dry_run (settings bot) = true -> 0 <= booked_profit c)
      by (intros Hdry; specialize (Hprofit Hdry); inversion Hprofit; assumption).
    destruct (gate_step_stays_open bot c (risk_manager bot1) loss_limit Hl Hc Hopen Hstep)
      as (Hopen1 & Hlive1).
    destruct (IH bot1 bot2 log') as (Hopen2 & Hlive2); [| exact Hopen1 | exact Hr |].
    { rewrite Hs. intros Hdry. specialize (Hprofit Hdry).
      inversion Hprofit; assumption. }
    split; [exact Hopen2 |]. intros Hlive.
    rewrite Hs in Hlive2.
    destruct (Hlive2 Hlive) as [E2 | E2]; [| right; exact E2].
    rewrite E2. exact (Hlive1 Hlive).
Qed.

(** X12. The bot books a P&L in one place only: the expected profit of a
    simulated pure arbitrage, as a win.  So in every run of the bot in
    live mode, and in every simulated run whose pure-arbitrage
    opportunities have an expected profit that is not negative, a risk
    gate that starts not halted, with a daily-loss limit that is not
    negative and a daily P&L not below minus that limit, is never halted
    and keeps such a P&L; in live mode the daily P&L at the end is the
    one at the start or, after a change of day, zero. *)
Theorem run_never_halts_gate (bot bot' : Bot Q) (calls : list (Call Q))
        (log : list (Q * list (Event Q))) :
  let rm := risk_manager bot in
  let rm' := risk_manager bot' in
  RiskManager._halted rm = false ->
  0 <= RiskManager.max_daily_loss rm ->
  - RiskManager.max_daily_loss rm <= RiskManager._daily_pnl rm ->
  (dry_run (settings bot) = true -> Forall (fun c => 0 <= booked_profit c) calls) ->
  run bot calls = Some (bot', log) ->
  RiskManager._halted rm' = false
  /\ - RiskManager.max_daily_loss rm' <= RiskManager._daily_pnl rm'
  /\ (dry_run (settings bot) = false ->
      RiskManager._daily_pnl rm' = RiskManager._daily_pnl rm
      \/ RiskManager._daily_pnl rm' = 0).
Proof.
  intros rm rm' Hh Hl Hp Hprofit Hrun.
  destruct (run_stays_open calls (RiskManager.max_daily_loss rm) Hl bot bot' log
              Hprofit) as ((Hm' & Hh' & Hp') & Hlive); [| exact Hrun |].
  { repeat split; assumption. }
  fold rm' in Hm', Hh', Hp', Hlive. rewrite Hm'.
  split; [exact Hh' |]. split; [exact Hp' | exact Hlive].
Qed.

Lemma run_never_halts_gate_witness :
  exists bot' log,
    run (demo_bot false)
        [CallTemporal demo_temporal_opp (demo_env 100);
         CallPure demo_pure_opp (demo_env 110)] = Some (bot', log)
    /\ RiskManager._halted (risk_manager bot') = false.
Proof.
  match goal with
  | |- exists bot' log, ?r = Some (bot', log) /\ _ =>
      destruct r as [[bot' log]|] eqn:E; [| vm_compute in E; discriminate]
  end.
  exists bot', log. split; [reflexivity |].
  refine (proj1 (run_never_halts_gate (demo_bot false) bot' _ log _ _ _ _ E)).
  - reflexivity.
  - discriminate.
  - discriminate.
  - discriminate.
Defined.
End BotFacts.

(** ** cex_price_feed.py: recording prices and pinning the window *)

Module FeedWriteFacts.
Import CexPriceFeed Invariants.

Lemma trim_older_suffix (cutoff : Q) (prices : list (PriceSnapshot Q)) :
  exists dropped,
    prices = dropped ++ trim_older cutoff prices
    /\ Forall (fun s => timestamp s < cutoff) dropped
    /\ match trim_older cutoff prices with
       | [] => True
       | s :: _ => cutoff <= timestamp s
       end.
Proof.
  induction prices as [|s rest IH]; [exists []; repeat split; constructor |].
  cbn [trim_older]. exact_arith. case_cmp.
  - destruct IH as (dropped & E & Hd & Hfirst). exists (s :: dropped).
    split; [cbn; f_equal; exact E |]. split; [constructor; assumption | exact Hfirst].
  - exists []. repeat split; [constructor | assumption].
Qed.

Lemma trim_older_last (cutoff : Q) (prices : list (PriceSnapshot Q)) (s : PriceSnapshot Q) :
  cutoff <= timestamp s ->
  last (trim_older cutoff (prices ++ [s])) = Some s.
Proof.
  intros Hs. induction prices as [|x rest IH].
  - cbn [app trim_older]. exact_arith. case_cmp; [lra | reflexivity].
  - cbn [app trim_older]. exact_arith. case_cmp; [exact IH |].
    change (x :: rest ++ [s]) with ((x :: rest) ++ [s]). apply last_snoc.
Qed.

Lemma deque_append_snoc (prices : list (PriceSnapshot Q)) (s : PriceSnapshot Q) :
  exists kept dropped,
    deque_append prices s = kept ++ [s]
    /\ prices = dropped ++ kept
    /\ (Z.of_nat (length prices) <= maxlen ->
        Z.of_nat (length (deque_append prices s)) <= maxlen)%Z.
Proof.
  unfold deque_append. destruct (Z.of_nat (length prices) <? maxlen)%Z eqn:E.
  - exists prices, []. split; [reflexivity |]. split; [reflexivity |].
    intros _. apply Z.ltb_lt in E. rewrite length_app. cbn [length]. lia.
  - exists (drop 1 prices), (take 1 prices). split; [reflexivity |].
    split; [symmetry; apply take_drop |].
    intros Hle. rewrite length_app, length_drop. cbn [length].
    apply Z.ltb_ge in E. unfold maxlen in *. lia.
Qed.

Lemma sorted_app_inv {A : Type} (R : A -> A -> Prop) (l1 l2 : list A) :
  StronglySorted R (l1 ++ l2) -> StronglySorted R l2.
Proof.
  induction l1 as [|x l1 IH]; [auto |].
  cbn [app]. intros Hs. inversion Hs; subst. apply IH. assumption.
Qed.

Lemma sorted_snoc (prices : list (PriceSnapshot Q)) (s : PriceSnapshot Q) :
  StronglySorted by_time prices ->
  Forall (fun x => timestamp x <= timestamp s) prices ->
  StronglySorted by_time (prices ++ [s]).
Proof.
  induction 1 as [|x rest Hs IH Hx]; intros Hall; cbn [app].
  - repeat constructor.
  - inversion Hall as [|? ? Hxs Hrest]; subst.
    constructor; [apply IH; exact Hrest |].
    apply Forall_app. split; [exact Hx |]. constructor; [exact Hxs | constructor].
Qed.

(** X13. [_record_price] reads the clock once, makes the price the current
    one and stamps it with that reading.  The history it leaves is what
    remains of the old history, followed by the new snapshot, after the
    oldest snapshots are dropped: it does not grow beyond 10000 snapshots;
    it ends with the new snapshot when the length of the window is not
    negative; and when the old history was in the order of its times, none
    of them later than the reading, the new history is in that order too
    and all its times lie in the window that ends at the reading. *)
Theorem record_price_keeps_history (clk : nat -> Q) (feed : Feed Q) (p : Q) (n : nat) :
  let feed' := fst (_record_price clk feed p n) in
  let now := clk n in
  let snap := {| price := p; timestamp := now; source := "binance" |} in
  snd (_record_price clk feed p n) = S n
  /\ _current_price feed' = Some p
  /\ _last_update feed' = now
  /\ (exists dropped, _prices feed ++ [snap] = dropped ++ _prices feed')
  /\ (Z.of_nat (length (_prices feed)) <= maxlen ->
      Z.of_nat (length (_prices feed')) <= maxlen)%Z
  /\ (0 <= _history_seconds feed -> last (_prices feed') = Some snap)
  /\ (StronglySorted by_time (_prices feed) ->
      Forall (fun s => timestamp s <= now) (_prices feed) ->
      StronglySorted by_time (_prices feed')
      /\ Forall (fun s => now - _history_seconds feed <= timestamp s <= now)
                (_prices feed')).
Proof.
  intros feed' now snap. subst feed'. unfold _record_price, bind, time_time, ret.
  cbn [fst snd _current_price _last_update _prices]. fold now. fold snap.
  exact_arith.
  destruct (deque_append_snoc (_prices feed) snap) as (kept & gone & Ea & Ep & Hlen).
  remember (deque_append (_prices feed) snap) as full eqn:Ef.
  destruct (trim_older_suffix (now - _history_seconds feed) full)
    as (dropped & Et & Hd & Hfirst).
  remember (trim_older (now - _history_seconds feed) full) as trimmed eqn:Etr.
  split; [reflexivity |]. split; [reflexivity |]. split; [reflexivity |].
  split; [| split; [| split]].
  - exists (gone ++ dropped). rewrite <- app_assoc, <- Et, Ea, Ep, <- app_assoc.
    reflexivity.
  - intros Hle. specialize (Hlen Hle). rewrite Et in Hlen.
    rewrite length_app in Hlen. lia.
  - intros Hh. rewrite Etr, Ea. apply trim_older_last. unfold snap. cbn [timestamp]. lra.
  - intros Hsorted Hall. rewrite Ep in Hsorted, Hall.
    apply sorted_app_inv in Hsorted. apply Forall_app in Hall as (_ & Hk).
    assert (Hsa : StronglySorted by_time full)
      by (rewrite Ea; apply sorted_snoc; assumption).
    assert (Hua : Forall (fun s => timestamp s <= now) full).
    { rewrite Ea. apply Forall_app. split; [exact Hk |].
      constructor; [unfold snap; cbn [timestamp]; lra | constructor]. }
    rewrite Et in Hsa, Hua. apply sorted_app_inv in Hsa.
    apply Forall_app in Hua as (_ & Hua).
    split; [exact Hsa |].
    destruct trimmed as [|s rest]; [constructor |].
    inversion Hsa as [|? ? _ Hs]; subst.
    inversion Hua as [|? ? Hsn Hrn]; subst.
    constructor; [split; assumption |].
    rewrite List.Forall_forall in Hs, Hrn. apply List.Forall_forall.
    intros x Hx. specialize (Hs x Hx). specialize (Hrn x Hx).
    unfold by_time in Hs. split; lra.
Qed.

(** X14. [set_window_start] reads the clock once and pins, with that reading
    as the start of the window, the price it is given or, when that is
    absent or zero, the current price of the feed; nothing else changes.
    It raises, after having written the two attributes, exactly when there
    was no price to pin.  Called without a price on a feed that has a
    current price, it returns, and as long as the current price is the one
    pinned [get_window_momentum] gives no signal. *)
Theorem set_window_start_pins (clk : nat -> Q) (feed : Feed Q)
        (start_price : option Q) (n : nat) :
  let r := set_window_start clk feed start_price n in
  let feed' := snd (fst r) in
  snd r = S n
  /\ _window_start_time feed' = clk n
  /\ _window_start_price feed'
     = (if truthy_opt start_price then start_price else _current_price feed)
  /\ _prices feed' = _prices feed
  /\ _current_price feed' = _current_price feed
  /\ (fst (fst r) = Ret tt <-> _window_start_price feed' <> None)
  /\ (start_price = None -> _current_price feed <> None ->
      fst (fst r) = Ret tt
      /\ forall m, fst (get_window_momentum clk feed' m) = Ret None).
Proof.
  intros r feed'. subst r feed'. unfold set_window_start, bind, time_time, ret.
  cbn [fst snd _window_start_time _window_start_price _prices _current_price].
  split; [reflexivity |]. split; [reflexivity |]. split.
  { destruct start_price as [p|]; [| reflexivity]. cbn [truthy_opt].
    destruct (truthy p); reflexivity. }
  split; [reflexivity |]. split; [reflexivity |]. split.
  { destruct (match start_price with Some p => _ | None => _ end);
      split; intros E; try discriminate; try reflexivity. contradiction. }
  intros -> Hcur. destruct (_current_price feed) as [c|] eqn:Ec; [| contradiction].
  split; [reflexivity |]. intros m.
  unfold get_window_momentum. cbn [_window_start_price _current_price].
  exact_arith. destruct (Qeq_bool c 0) eqn:E0; [reflexivity |]. cmp_hyps.
  assert (Hz : (c - c) / c * 100 == 0) by (field; assumption).
  assert (Hlt : Qltb (Qabs ((c - c) / c * 100)) 0.005 = true).
  { apply Qltb_lt. rewrite Hz. reflexivity. }
  rewrite Hlt. reflexivity.
Qed.
End FeedWriteFacts.

(** ** market_finder.py: slugs, and the clock of a market *)

Module MarketFacts.
Import MarketFinder.
Local Open Scope Z_scope.

(** *** Decimal text *)

Lemma pretty_N_char_digit (d : N) :
  (d < 10)%N ->
  is_digit (pretty_N_char d) = true
  /\ Z.of_N (N_of_ascii (pretty_N_char d) - 48) = Z.of_N d.
Proof.
  intros Hd.
  assert (Hcases : (d = 0 \/ d = 1 \/ d = 2 \/ d = 3 \/ d = 4 \/ d = 5 \/ d = 6
                    \/ d = 7 \/ d = 8 \/ d = 9)%N) by lia.
  repeat (destruct Hcases as [-> | Hcases]; [split; reflexivity |]).
  subst. split; reflexivity.
Qed.

Lemma int_of_digits_linear (s : string) (acc : Z) :
  int_of_digits acc s = acc * 10 ^ Z.of_nat (String.length s) + int_of_digits 0 s.
Proof.
  revert acc. induction s as [|c s IH]; intros acc.
  - cbn. lia.
  - cbn [int_of_digits String.length]. rewrite IH, (IH (10 * 0 + _)).
    rewrite Nat2Z.inj_succ, Z.pow_succ_r by lia. lia.
Qed.

Lemma pretty_N_go_value (x : N) :
  forall s, int_of_digits 0 (pretty_N_go x s)
            = Z.of_N x * 10 ^ Z.of_nat (String.length s) + int_of_digits 0 s.
Proof.
  induction (N.lt_wf_0 x) as [x _ IH]. intros s.
  assert (Hx : (x = 0 \/ 0 < x)%N) by lia. destruct Hx as [-> | Hx].
  - rewrite pretty_N_go_0. lia.
  - rewrite pretty_N_go_step by exact Hx.
    rewrite IH by (apply N.div_lt; [exact Hx | reflexivity]).
    cbn [int_of_digits String.length].
    rewrite (int_of_digits_linear s (10 * 0 + _)).
    destruct (pretty_N_char_digit (x mod 10)) as (_ & ->);
      [apply N.mod_lt; discriminate |].
    rewrite Nat2Z.inj_succ, Z.pow_succ_r by lia.
    rewrite (N.div_mod x 10) at 3 by discriminate.
    rewrite N2Z.inj_add, N2Z.inj_mul. change (Z.of_N 10) with 10. lia.
Qed.

Lemma pretty_N_go_digits (x : N) :
  forall s, digits_of (pretty_N_go x s) = pretty_N_go x (digits_of s)
            /\ after_digits (pretty_N_go x s) = after_digits s.
Proof.
  induction (N.lt_wf_0 x) as [x _ IH]. intros s.
  assert (Hx : (x = 0 \/ 0 < x)%N) by lia. destruct Hx as [-> | Hx].
  - rewrite !pretty_N_go_0. split; reflexivity.
  - rewrite (pretty_N_go_step x s), (pretty_N_go_step x (digits_of s)) by exact Hx.
    destruct (IH (x / 10)%N ltac:(apply N.div_lt; [exact Hx | reflexivity])
                 (String (pretty_N_char (x mod 10)) s)) as (E1 & E2).
    rewrite E1, E2. cbn [digits_of after_digits].
    destruct (pretty_N_char_digit (x mod 10)) as (-> & _);
      [apply N.mod_lt; discriminate |].
    split; reflexivity.
Qed.

(** The decimal text of a number that is not negative: digits only, not
    empty, and read back as the number. *)
Lemma pretty_nonneg (ts : Z) :
  0 <= ts ->
  digits_of (pretty ts) = pretty ts
  /\ after_digits (pretty ts) = ""
  /\ pretty ts <> ""
  /\ int_of_digits 0 (pretty ts) = ts.
Proof.
  intros Hts. destruct ts as [|p|p]; [repeat split; discriminate | | lia].
  change (pretty (Z.pos p)) with (pretty_N_go (N.pos p) "").
  destruct (pretty_N_go_digits (N.pos p) "") as (E1 & E2).
  assert (Ev : int_of_digits 0 (pretty_N_go (N.pos p) "") = Z.pos p).
  { rewrite pretty_N_go_value. change (String.length "") with 0%nat.
    change (int_of_digits 0 "") with 0. change (10 ^ Z.of_nat 0) with 1.
    change (Z.of_N (N.pos p)) with (Z.pos p). lia. }
  split; [exact E1 |]. split; [exact E2 |].
  split; [| exact Ev].
  intros E. rewrite E in Ev. discriminate Ev.
Qed.

Lemma strip_prefix_app (p s : string) : strip_prefix p (p +:+ s) = Some s.
Proof.
  induction p as [|a p IH]; [reflexivity |].
  change (strip_prefix (String a p) (String a (p +:+ s)) = Some s).
  cbn [strip_prefix]. rewrite Ascii.eqb_refl. exact IH.
Qed.

Lemma match_here_slug (ts : Z) :
  0 <= ts -> match_here (slug_of ts) = Some (pretty ts)
             /\ full_match (slug_of ts) = Some (pretty ts).
Proof.
  intros Hts. unfold match_here, full_match, slug_of. rewrite strip_prefix_app.
  destruct (pretty_nonneg ts Hts) as (Ed & Ea & Hne & _). rewrite Ed, Ea.
  destruct (pretty ts); [contradiction | split; reflexivity].
Qed.

Lemma search_here (s digits : string) :
  match_here s = Some digits -> search s = Some digits.
Proof. intros E. destruct s; cbn [search]; rewrite E; reflexivity. Qed.

Lemma timestamps_of_slug (ts : Z) :
  0 <= ts ->
  get_market_timestamps (slug_of ts) = (Some ts, Some (ts + BTC_15M_WINDOW)).
Proof.
  intros Hts. destruct (match_here_slug ts Hts) as (Em & _).
  destruct (pretty_nonneg ts Hts) as (_ & _ & _ & Ev).
  unfold get_market_timestamps. rewrite (search_here _ _ Em). cbv zeta.
  rewrite Ev. reflexivity.
Qed.

(** X15. The slug that [_find_via_computed_slugs] builds for a window that
    starts at [ts], a time that is not negative, is read back by
    [get_market_timestamps] as the window from [ts] to [ts + 900], and is
    matched in full by the pattern of [_find_via_gamma_api]. *)
Theorem slug_round_trip (ts : Z) :
  0 <= ts ->
  get_market_timestamps (slug_of ts) = (Some ts, Some (ts + BTC_15M_WINDOW))
  /\ (exists digits, full_match (slug_of ts) = Some digits
                     /\ int_of_digits 0 digits = ts).
Proof.
  intros Hts. destruct (match_here_slug ts Hts) as (Em & Ef).
  destruct (pretty_nonneg ts Hts) as (_ & _ & _ & Ev).
  split.
  - unfold get_market_timestamps. rewrite (search_here _ _ Em). cbv zeta.
    rewrite Ev. reflexivity.
  - exists (pretty ts). split; [exact Ef | exact Ev].
Qed.

Lemma slug_round_trip_witness :
  get_market_timestamps "btc-updown-15m-1767225600"
  = (Some 1767225600, Some 1767226500).
Proof.
  exact (proj1 (slug_round_trip 1767225600 ltac:(discriminate))).
Defined.

(** *** The search by computed slugs *)

Lemma window_start_spec (ts : Z) :
  window_start ts <= ts < window_start ts + BTC_15M_WINDOW
  /\ window_start ts mod BTC_15M_WINDOW = 0.
Proof.
  unfold window_start, BTC_15M_WINDOW.
  pose proof (Z.div_mod ts 900 ltac:(discriminate)) as Hd.
  pose proof (Z.mod_pos_bound ts 900 ltac:(reflexivity)) as Hm.
  split; [lia |]. apply Z.mod_mul. discriminate.
Qed.

Lemma try_windows_spec (fetches : string -> bool) (now_ts : Z) (offsets : list Z) :
  Forall (fun i => 0 <= i) offsets ->
  match try_windows fetches now_ts offsets with
  | None =>
      Forall (fun i => fetches (slug_of (window_start (now_ts + i * BTC_15M_WINDOW)))
                       = false) offsets
  | Some slug =>
      exists before i after,
        offsets = before ++ i :: after
        /\ slug = slug_of (window_start (now_ts + i * BTC_15M_WINDOW))
        /\ fetches slug = true
        /\ Forall (fun j => fetches (slug_of (window_start (now_ts + j * BTC_15M_WINDOW)))
                            = false) before
  end.
Proof.
  induction 1 as [|i rest Hi _ IH]; cbn [try_windows]; [constructor |].
  cbv zeta.
  destruct (fetches (slug_of (window_start (now_ts + i * BTC_15M_WINDOW)))) eqn:Ef.
  - destruct (window_start_spec (now_ts + i * BTC_15M_WINDOW)) as (Hw & _).
    assert (Hlt : (now_ts <? window_start (now_ts + i * BTC_15M_WINDOW) + BTC_15M_WINDOW)
                  = true)
      by (apply Z.ltb_lt; unfold BTC_15M_WINDOW in *; lia).
    rewrite Hlt. exists [], i, rest. repeat split; [exact Ef | constructor].
  - destruct (try_windows fetches now_ts rest) as [slug|].
    + destruct IH as (before & j & after & -> & Es & Hf & Hb).
      exists (i :: before), j, after. repeat split; try assumption.
      constructor; assumption.
    + constructor; assumption.
Qed.

(** X16. [_find_via_computed_slugs], at a time that is not negative, tries
    the window of the present time and the four that follow, in this
    order, and returns the slug of the first one that the exchange
    lists, or nothing when it lists none of the five.  The slug returned
    is that of a window which starts at a multiple of 900 seconds, at
    most an hour after the present time, and has not ended:
    [get_market_timestamps] reads the start and the end back from it, and
    a bot that takes the end from it does not see the market as closed at
    that time. *)
Theorem find_via_computed_slugs_spec (fetches : string -> bool) (now_ts : Z) :
  0 <= now_ts ->
  match _find_via_computed_slugs fetches now_ts with
  | None =>
      forall i, 0 <= i < 5 ->
        fetches (slug_of (window_start (now_ts + i * BTC_15M_WINDOW))) = false
  | Some slug =>
      exists i start,
        0 <= i < 5
        /\ start = window_start (now_ts + i * BTC_15M_WINDOW)
        /\ slug = slug_of start
        /\ fetches slug = true
        /\ (forall j, 0 <= j < i ->
              fetches (slug_of (window_start (now_ts + j * BTC_15M_WINDOW))) = false)
        /\ start mod BTC_15M_WINDOW = 0
        /\ now_ts - BTC_15M_WINDOW < start <= now_ts + 4 * BTC_15M_WINDOW
        /\ get_market_timestamps slug = (Some start, Some (start + BTC_15M_WINDOW))
        /\ _is_market_closed (snd (get_market_timestamps slug)) now_ts = false
  end.
Proof.
  intros Hnow. unfold _find_via_computed_slugs.
  pose proof (try_windows_spec fetches now_ts [0; 1; 2; 3; 4]
                ltac:(repeat constructor; lia)) as Hspec.
  destruct (try_windows fetches now_ts [0; 1; 2; 3; 4]) as [slug|].
  - destruct Hspec as (before & i & after & Eo & Es & Hf & Hb).
    assert (Hi : 0 <= i < 5 /\ forall j, 0 <= j < i -> In j before).
    { destruct before as [|b0 [|b1 [|b2 [|b3 [|b4 before]]]]];
        cbn [app] in Eo; injection Eo; intros; subst;
        try (split; [lia |]; intros j Hj; cbn [In]; lia).
      destruct before; discriminate. }
    destruct Hi as (Hi & Hbefore).
    destruct (window_start_spec (now_ts + i * BTC_15M_WINDOW)) as (Hw & Hmod).
    set (start := window_start (now_ts + i * BTC_15M_WINDOW)) in *.
    assert (Hstart : 0 <= start).
    { unfold start, window_start, BTC_15M_WINDOW.
      apply Z.mul_nonneg_nonneg; [| lia]. apply Z.div_pos; lia. }
    pose proof (timestamps_of_slug start Hstart) as Ert.
    exists i, start. split; [exact Hi |]. split; [reflexivity |].
    split; [exact Es |]. split; [exact Hf |]. split.
    { intros j Hj. rewrite List.Forall_forall in Hb. apply Hb, Hbefore, Hj. }
    split; [exact Hmod |]. split; [unfold BTC_15M_WINDOW in *; lia |].
    rewrite Es, Ert. split; [reflexivity |].
    cbn [snd _is_market_closed]. apply Z.leb_gt. unfold BTC_15M_WINDOW in *. lia.
  - intros i Hi. rewrite List.Forall_forall in Hspec. apply Hspec.
    cbn [In]. lia.
Qed.

Lemma find_via_computed_slugs_spec_witness :
  exists slug,
    _find_via_computed_slugs Samples.sample_fetches 1767225700 = Some slug
    /\ _is_market_closed (snd (get_market_timestamps slug)) 1767225700 = false.
Proof.
  pose proof (find_via_computed_slugs_spec Samples.sample_fetches 1767225700
                ltac:(discriminate)) as Hspec.
  destruct (_find_via_computed_slugs Samples.sample_fetches 1767225700)
    as [slug|] eqn:E.
  - destruct Hspec as (i & start & _ & _ & _ & _ & _ & _ & _ & _ & Hopen).
    exists slug. split; [reflexivity | exact Hopen].
  - exfalso. specialize (Hspec 1 ltac:(lia)). vm_compute in Hspec. discriminate Hspec.
Defined.

(** *** The search through the Gamma API *)

Lemma sorted_by_ts_head (l : list (Z * string)) :
  match sorted_by_ts l with
  | [] => l = []
  | h :: _ => In h l /\ Forall (fun x => fst h <= fst x) l
  end.
Proof.
  induction l as [|a l IH]; [reflexivity |].
  cbn [sorted_by_ts foldr]. fold (sorted_by_ts l).
  destruct (sorted_by_ts l) as [|b rest]; cbn [insert_by_ts].
  - subst l. split; [left; reflexivity | constructor; [lia | constructor]].
  - destruct IH as (Hin & Hall). destruct (fst b <? fst a) eqn:E.
    + apply Z.ltb_lt in E. split; [right; exact Hin |].
      constructor; [lia | exact Hall].
    + apply Z.ltb_ge in E. split; [left; reflexivity |].
      constructor; [lia |]. eapply Forall_impl; [exact Hall |].
      intros x Hx. cbn beta in Hx. lia.
Qed.

Lemma candidates_spec (now_ts : Z) (events : list (option string)) :
  match candidates now_ts events with
  | None => In None events
  | Some found =>
      ~ In None events
      /\ forall ts slug,
           In (ts, slug) found <-> In (Some slug) events /\ open_market now_ts slug ts
  end.
Proof.
  induction events as [|[slug|] rest IH]; cbn [candidates].
  - split; [intros [] |]. intros ts slug. split; [intros [] | intros ([] & _)].
  - destruct (candidates now_ts rest) as [found|]; [| right; exact IH].
    destruct IH as (Hnone & Hfound).
    assert (Hkeep : ~ In None (Some slug :: rest))
      by (intros [E | Hin]; [discriminate | exact (Hnone Hin)]).
    assert (Hrest : forall ts s,
               In (ts, s) found <->
               (In (Some s) rest /\ open_market now_ts s ts)) by exact Hfound.
    destruct (full_match slug) as [digits|] eqn:Em.
    + cbv zeta. destruct (now_ts <? int_of_digits 0 digits + BTC_15M_WINDOW) eqn:El.
      * apply Z.ltb_lt in El. split; [exact Hkeep |]. intros ts s. split.
        -- intros [E | Hin].
           ++ injection E as <- <-. split; [left; reflexivity |].
              exists digits. repeat split; assumption.
           ++ apply Hrest in Hin as (Hin & Ho). split; [right; exact Hin | exact Ho].
        -- intros ([E | Hin] & Ho).
           ++ injection E as ->. destruct Ho as (d & Ed & -> & _).
              rewrite Em in Ed. injection Ed as <-. left. reflexivity.
           ++ right. apply Hrest. split; assumption.
      * apply Z.ltb_ge in El. split; [exact Hkeep |]. intros ts s. split.
        -- intros Hin. apply Hrest in Hin as (Hin & Ho).
           split; [right; exact Hin | exact Ho].
        -- intros ([E | Hin] & Ho); [| apply Hrest; split; assumption].
           injection E as ->. destruct Ho as (d & Ed & -> & Hlt).
           rewrite Em in Ed. injection Ed as <-. lia.
    + split; [exact Hkeep |]. intros ts s. split.
      * intros Hin. apply Hrest in Hin as (Hin & Ho).
        split; [right; exact Hin | exact Ho].
      * intros ([E | Hin] & Ho); [| apply Hrest; split; assumption].
        injection E as ->. destruct Ho as (d & Ed & _). rewrite Em in Ed. discriminate.
  - left. reflexivity.
Qed.

(** X17. When [_find_via_gamma_api] returns a slug, the answer of the API was
    a list of events none of which made the search raise; the slug is
    that of one of them, matches the pattern in full and names a window
    that has not ended; and no event of the list that does so names a
    window that starts earlier.  It returns nothing when the answer is
    not a list, when an event makes the search raise, and when no event
    names a market of this kind that has not ended. *)
Theorem find_via_gamma_api_earliest (data : option (list (option string)))
        (now_ts : Z) :
  match _find_via_gamma_api data now_ts with
  | Some slug =>
      exists events ts,
        data = Some events
        /\ ~ In None events
        /\ In (Some slug) events
        /\ open_market now_ts slug ts
        /\ forall slug' ts',
             In (Some slug') events -> open_market now_ts slug' ts' -> ts <= ts'
  | None =>
      forall events, data = Some events ->
        In None events
        \/ forall slug ts, In (Some slug) events -> ~ open_market now_ts slug ts
  end.
Proof.
  unfold _find_via_gamma_api. destruct data as [[|e events']|].
  - intros events E. injection E as <-. right. intros slug ts [].
  - set (events := e :: events').
    pose proof (candidates_spec now_ts events) as Hc.
    destruct (candidates now_ts events) as [found|].
    + destruct Hc as (Hnone & Hfound).
      pose proof (sorted_by_ts_head found) as Hh.
      destruct (sorted_by_ts found) as [|[ts slug] rest].
      * intros ev E. injection E as <-. right. intros slug ts Hin Ho.
        assert (Hf : In (ts, slug) found) by (apply Hfound; split; assumption).
        rewrite Hh in Hf. destruct Hf.
      * destruct Hh as (Hin & Hall).
        apply Hfound in Hin as (Hin & Ho).
        exists events, ts. repeat split; try assumption.
        intros slug' ts' Hin' Ho'.
        assert (Hf : In (ts', slug') found) by (apply Hfound; split; assumption).
        rewrite List.Forall_forall in Hall. exact (Hall _ Hf).
    + intros ev E. injection E as <-. left. exact Hc.
  - intros events E. discriminate E.
Qed.

(** *** The time that remains *)

Lemma pretty_starts_with_digit (m : Z) (rest : string) :
  0 <= m -> pretty m +:+ rest <> "CLOSED".
Proof.
  intros Hm E. destruct (pretty_nonneg m Hm) as (Ed & _ & Hne & _).
  destruct (pretty m) as [|c s]; [contradiction |].
  cbn [append] in E. injection E as Ec _.
  cbn [digits_of] in Ed. rewrite Ec in Ed. cbn in Ed. discriminate Ed.
Qed.

(** X18. [get_time_remaining] and the test [_is_market_closed] of the bot
    agree when they read the same time: for a slug without a time, the
    answer is "Unknown" and the market is never seen as closed; for a slug
    with a time, the answer is "CLOSED" exactly when the bot sees the
    market as closed, that is, when the time read is at or after the end
    of the window, and before that it is the minutes and the seconds left,
    with seconds below 60, which add up to the time left. *)
Theorem time_remaining_agrees (slug : string) (now_ts : Z) :
  match snd (get_market_timestamps slug) with
  | None =>
      get_time_remaining slug now_ts = "Unknown"
      /\ _is_market_closed None now_ts = false
  | Some end_ts =>
      (_is_market_closed (Some end_ts) now_ts = true <-> end_ts <= now_ts)
      /\ (get_time_remaining slug now_ts = "CLOSED"
          <-> _is_market_closed (Some end_ts) now_ts = true)
      /\ (now_ts < end_ts ->
          exists m s,
            get_time_remaining slug now_ts = pretty m +:+ "m " +:+ pretty s +:+ "s"
            /\ 0 <= m /\ 0 <= s < 60 /\ 60 * m + s = end_ts - now_ts)
  end.
Proof.
  unfold get_time_remaining.
  destruct (snd (get_market_timestamps slug)) as [end_ts|]; [| split; reflexivity].
  cbn [_is_market_closed].
  pose proof (Z.div_mod (end_ts - now_ts) 60 ltac:(discriminate)) as Hd.
  pose proof (Z.mod_pos_bound (end_ts - now_ts) 60 ltac:(reflexivity)) as Hm.
  split; [apply Z.leb_le |]. split.
  - destruct (end_ts - now_ts <=? 0) eqn:E.
    + apply Z.leb_le in E. split; [intros _; apply Z.leb_le; lia | reflexivity].
    + apply Z.leb_gt in E. split.
      * intros Ec. exfalso. revert Ec. apply pretty_starts_with_digit.
        apply Z.div_pos; lia.
      * intros Ec. apply Z.leb_le in Ec. lia.
  - intros Hlt. destruct (end_ts - now_ts <=? 0) eqn:E; [apply Z.leb_le in E; lia |].
    exists ((end_ts - now_ts) / 60), ((end_ts - now_ts) mod 60).
    split; [reflexivity |]. split; [apply Z.div_pos; lia |]. split; lia.
Qed.
End MarketFacts.

(** ** agentfinobs: the spend tracker *)

Module TrackerFacts.
Import Agentfinobs.

Section AnyArithmetic.
Context {F : Type} `{Arith F}.

Lemma lookup_evict (evicted : list string) (txs : gmap string (AgentTx F)) (id : string) :
  evict evicted txs !! id = if decide (id ∈ evicted) then None else txs !! id.
Proof.
  revert txs. induction evicted as [|e evicted IH]; intros txs.
  - cbn. destruct (decide (id ∈ [])) as [Hin|_]; [inversion Hin | reflexivity].
  - cbn [evict fold_left]. fold (evict evicted (delete e txs)). rewrite IH.
    destruct (decide (id ∈ evicted)) as [Hin|Hnin].
    + rewrite decide_True by (right; exact Hin). reflexivity.
    + destruct (decide (e = id)) as [-> | Hne].
      * rewrite decide_True by left. apply lookup_delete_eq.
      * rewrite decide_False by (intros Hin; apply elem_of_cons in Hin as [-> | Hin];
                                 [apply Hne; reflexivity | exact (Hnin Hin)]).
        apply lookup_delete_ne. exact Hne.
Qed.

Lemma trim_spec (m : Z) (ids : list string) (txs : gmap string (AgentTx F)) :
  (0 <= m)%Z ->
  exists evicted kept,
    _trim m ids txs = Ret (kept, evict evicted txs)
    /\ ids = evicted ++ kept
    /\ Z.of_nat (length kept) = Z.min (Z.of_nat (length ids)) m.
Proof.
  intros Hm. revert txs. induction ids as [|old rest IH]; intros txs.
  - exists [], []. cbn [_trim]. rewrite (proj2 (Z.ltb_ge m 0) Hm).
    repeat split. cbn. lia.
  - cbn [_trim]. destruct (m <? Z.of_nat (length (old :: rest)))%Z eqn:E.
    + apply Z.ltb_lt in E. destruct (IH (delete old txs)) as (evicted & kept & Et & Ei & El).
      exists (old :: evicted), kept. split; [exact Et |].
      split; [cbn; f_equal; exact Ei |]. cbn [length] in *. lia.
    + apply Z.ltb_ge in E. exists [], (old :: rest). repeat split. lia.
Qed.

Lemma count_is_length (t : SpendTracker F) :
  tracker_ok t -> count t = length (_ordered_ids t).
Proof.
  intros (Hnd & Hdom & _ & _). unfold count.
  rewrite <- (size_dom (D := gset string)).
  replace (dom (_txs t)) with (list_to_set (_ordered_ids t) : gset string).
  - apply size_list_to_set. exact Hnd.
  - apply set_eq. intros id. rewrite elem_of_list_to_set, elem_of_dom.
    symmetry. apply Hdom.
Qed.

(** Recording a transaction with a fresh id, on a tracker in order. *)
Lemma record_spec (t : SpendTracker F) (tx : AgentTx F) :
  tracker_ok t -> tx_id tx ∉ _ordered_ids t ->
  exists evicted t',
    record t tx = Ret (tx, t')
    /\ tracker_ok t'
    /\ _max_history t' = _max_history t
    /\ _ordered_ids t ++ [tx_id tx] = evicted ++ _ordered_ids t'
    /\ Z.of_nat (length (_ordered_ids t'))
       = Z.min (Z.of_nat (length (_ordered_ids t)) + 1) (_max_history t)
    /\ (forall id, get t' id
                   = if decide (id ∈ evicted) then None
                     else if decide (id = tx_id tx) then Some tx else get t id).
Proof.
  intros (Hnd & Hdom & Hkey & Hlen) Hfresh.
  assert (Hm : (0 <= _max_history t)%Z) by lia.
  destruct (trim_spec (_max_history t) (_ordered_ids t ++ [tx_id tx])
              (<[tx_id tx := tx]> (_txs t)) Hm) as (evicted & kept & Et & Ei & El).
  exists evicted. unfold record. rewrite Et. eexists. split; [reflexivity |].
  assert (Hnd' : NoDup (evicted ++ kept)).
  { rewrite <- Ei. apply NoDup_app. split; [exact Hnd |]. split.
    - intros id Hin Hin'. apply list_elem_of_singleton in Hin'. subst. exact (Hfresh Hin).
    - apply NoDup_singleton. }
  apply NoDup_app in Hnd' as (_ & Hdisj & Hndk).
  assert (Hget : forall id,
             evict evicted (<[tx_id tx := tx]> (_txs t)) !! id
             = if decide (id ∈ evicted) then None
               else if decide (id = tx_id tx) then Some tx else _txs t !! id).
  { intros id. rewrite lookup_evict. destruct (decide (id ∈ evicted)); [reflexivity |].
    destruct (decide (id = tx_id tx)) as [-> | Hne].
    - apply lookup_insert_eq.
    - apply lookup_insert_ne. congruence. }
  split; [| split; [reflexivity |]; split; [exact Ei |]; split;
            [| intros id; apply Hget]].
  - unfold tracker_ok. cbn [_ordered_ids _txs _max_history].
    split; [exact Hndk |]. split; [| split].
    + intros id. rewrite Hget.
      assert (Hall : id ∈ evicted ++ kept <-> id ∈ _ordered_ids t \/ id = tx_id tx).
      { rewrite <- Ei, elem_of_app, list_elem_of_singleton. reflexivity. }
      rewrite elem_of_app in Hall.
      destruct (decide (id ∈ evicted)) as [Hev | Hev].
      * split; [intros [? E]; discriminate |]. intros Hk. exfalso. exact (Hdisj id Hev Hk).
      * destruct (decide (id = tx_id tx)) as [-> | Hne].
        -- split; [| eauto]. intros _.
           destruct (proj2 Hall (or_intror eq_refl)) as [Hev' | Hk]; [contradiction | exact Hk].
        -- rewrite Hdom. split.
           ++ intros Hin. destruct (proj2 Hall (or_introl Hin)); [contradiction | assumption].
           ++ intros Hk. destruct (proj1 Hall (or_intror Hk)); [assumption | contradiction].
    + intros id tx'. rewrite Hget.
      destruct (decide (id ∈ evicted)); [discriminate |].
      destruct (decide (id = tx_id tx)) as [-> | Hne].
      * intros E. injection E as <-. reflexivity.
      * apply Hkey.
    + rewrite El. lia.
  - cbn [_ordered_ids]. rewrite El, length_app. cbn [length]. lia.
Qed.
End AnyArithmetic.

(** X19. On a tracker in order, that is, one whose ids are distinct and are
    the keys of its store and whose history is within its bound (as after
    [__init__] with a bound that is not negative), [record] of a
    transaction with a fresh id returns that transaction and leaves the
    tracker in order.  The history becomes the old one followed by the new
    id, less the oldest ids in excess of the bound, which are evicted from
    the store too; every other transaction stays as it was; the count is
    the old count plus one, capped at the bound; and [get] of the new id
    gives the transaction back as soon as the bound is at least 1. *)
Theorem record_then_get {F : Type} `{Arith F} (t : SpendTracker F) (tx : AgentTx F) :
  tracker_ok t ->
  tx_id tx ∉ _ordered_ids t ->
  exists evicted t',
    record t tx = Ret (tx, t')
    /\ tracker_ok t'
    /\ _ordered_ids t ++ [tx_id tx] = evicted ++ _ordered_ids t'
    /\ (forall id, id ∈ evicted -> get t' id = None)
    /\ (forall id, id ∉ evicted -> id <> tx_id tx -> get t' id = get t id)
    /\ Z.of_nat (count t') = Z.min (Z.of_nat (count t) + 1) (_max_history t)
    /\ ((1 <= _max_history t)%Z ->
        get t' (tx_id tx) = Some tx /\ last (_ordered_ids t') = Some (tx_id tx)).
Proof.
  intros Hok Hfresh.
  destruct (record_spec t tx Hok Hfresh) as (evicted & t' & Er & Hok' & Hmax & Ei & El & Hget).
  exists evicted, t'. split; [exact Er |]. split; [exact Hok' |]. split; [exact Ei |].
  split; [intros id Hin; rewrite Hget, decide_True by exact Hin; reflexivity |].
  split.
  { intros id Hev Hne. rewrite Hget, decide_False, decide_False by assumption.
    reflexivity. }
  split; [rewrite (count_is_length t Hok), (count_is_length t' Hok'); exact El |].
  intros Hone.
  assert (Hlast : last (_ordered_ids t') = Some (tx_id tx)).
  { destruct (_ordered_ids t') as [|k ks] eqn:Ek using rev_ind.
    - cbn [length] in El. lia.
    - rewrite app_assoc in Ei. apply app_inj_tail in Ei as (_ & <-). apply last_snoc. }
  split; [| exact Hlast].
  rewrite Hget. destruct (decide (tx_id tx ∈ evicted)) as [Hev | _].
  - exfalso. destruct Hok as (Hnd & _).
    assert (Hnd' : NoDup (evicted ++ _ordered_ids t')).
    { rewrite <- Ei. apply NoDup_app. split; [exact Hnd |]. split.
      - intros id Hin Hin'. apply list_elem_of_singleton in Hin'. subst. exact (Hfresh Hin).
      - apply NoDup_singleton. }
    apply NoDup_app in Hnd' as (_ & Hdisj & _). apply (Hdisj _ Hev).
    apply last_Some_elem_of. exact Hlast.
  - rewrite decide_True by reflexivity. reflexivity.
Qed.

Lemma sample_tracker_ok : tracker_ok Samples.sample_tracker.
Proof.
  unfold tracker_ok, Samples.sample_tracker. cbn [_ordered_ids _txs _max_history].
  split; [apply NoDup_singleton |]. split; [| split; [| cbn; lia]].
  - intros id. rewrite list_elem_of_singleton. destruct (decide (id = "tx-1")) as [-> | Hne].
    + rewrite lookup_singleton_eq. split; eauto.
    + rewrite lookup_singleton_ne by congruence. split; [intros [? E]; discriminate | tauto].
  - intros id tx. destruct (decide (id = "tx-1")) as [-> | Hne].
    + rewrite lookup_singleton_eq. intros E. injection E as <-. reflexivity.
    + rewrite lookup_singleton_ne by congruence. discriminate.
Qed.

Lemma record_then_get_witness :
  exists evicted t',
    record Samples.sample_tracker (Samples.sample_tx "tx-2" 25 160)
    = Ret (Samples.sample_tx "tx-2" 25 160, t')
    /\ ["tx-1"; "tx-2"] = evicted ++ _ordered_ids t'
    /\ count t' = 1%nat
    /\ get t' "tx-2" = Some (Samples.sample_tx "tx-2" 25 160).
Proof.
  destruct (record_then_get Samples.sample_tracker (Samples.sample_tx "tx-2" 25 160))
    as (evicted & t' & Er & Hok & Ei & _ & _ & Hc & Hg).
  - exact sample_tracker_ok.
  - cbn. intros Hin. apply list_elem_of_singleton in Hin. discriminate.
  - exists evicted, t'. split; [exact Er |]. split; [exact Ei |].
    split; [| apply Hg; cbn; lia].
    unfold count in Hc at 2. cbn [Samples.sample_tracker _txs _max_history] in Hc.
    rewrite map_size_singleton in Hc. lia.
Defined.

(** *** Settlement *)

Section Settling.
Context {F : Type} `{Arith F}.

Lemma omap_settled (g : AgentTx F -> F) (txs : gmap string (AgentTx F)) (id : string)
      (tx tx' : AgentTx F) (ids : list string) :
  txs !! id = Some tx -> g tx' = g tx ->
  map g (omap (fun tid => <[id := tx']> txs !! tid) ids)
  = map g (omap (fun tid => txs !! tid) ids).
Proof.
  intros Hid Hg. induction ids as [|tid ids IH]; [reflexivity |].
  cbn [omap list_omap]. destruct (decide (tid = id)) as [-> | Hne].
  - rewrite lookup_insert_eq, Hid. cbn [map]. rewrite Hg. f_equal. exact IH.
  - rewrite lookup_insert_ne by congruence.
    destruct (txs !! tid); cbn [map]; [f_equal |]; exact IH.
Qed.
End Settling.

(** X20. [settle] of an id that the tracker does not hold returns [None] and
    changes nothing.  For an id that it holds, the transaction comes back
    with the revenue and the status given and the time of settlement, its
    id, amount and time of creation as they were, and is what [get] then
    gives; every other transaction, the order of the history and the
    count stay as they were, so that the amounts and the times of
    creation that [recent] lists are the same before and after: a
    settlement never changes what was spent, or when. *)
Theorem settle_keeps_spend {F : Type} `{Arith F} (t : SpendTracker F) (id : string)
        (new_revenue : F) (new_status : TxStatus) (now : F) :
  match get t id with
  | None => settle t id new_revenue new_status now = (None, t)
  | Some tx =>
      exists tx' t',
        settle t id new_revenue new_status now = (Some tx', t')
        /\ revenue tx' = new_revenue /\ status tx' = new_status
        /\ settled_at tx' = Some now
        /\ tx_id tx' = tx_id tx /\ amount tx' = amount tx
        /\ created_at tx' = created_at tx
        /\ get t' id = Some tx'
        /\ (forall other, other <> id -> get t' other = get t other)
        /\ _ordered_ids t' = _ordered_ids t
        /\ count t' = count t
        /\ (forall n, map amount (recent t' n) = map amount (recent t n))
        /\ (forall n, map created_at (recent t' n) = map created_at (recent t n))
        /\ (tracker_ok t -> tracker_ok t')
  end.
Proof.
  unfold get, settle. destruct (_txs t !! id) as [tx|] eqn:Hid; [| reflexivity].
  eexists _, _. split; [reflexivity |]. cbn [_txs _ordered_ids _max_history].
  repeat (split; [reflexivity |]).
  split; [apply lookup_insert_eq |].
  split; [intros other Hne; apply lookup_insert_ne; congruence |].
  split; [reflexivity |].
  split; [unfold count; cbn [_txs]; apply map_size_insert_Some; eauto |].
  split; [intros n; unfold recent; cbn [_txs _ordered_ids];
          apply omap_settled with (tx := tx); [exact Hid | reflexivity] |].
  split; [intros n; unfold recent; cbn [_txs _ordered_ids];
          apply omap_settled with (tx := tx); [exact Hid | reflexivity] |].
  intros (Hnd & Hdom & Hkey & Hlen). unfold tracker_ok. cbn [_txs _ordered_ids _max_history].
  split; [exact Hnd |]. split; [| split; [| exact Hlen]].
  - intros other. destruct (decide (other = id)) as [-> | Hne].
    + rewrite lookup_insert_eq, <- Hdom, Hid. split; eauto.
    + rewrite lookup_insert_ne by congruence. apply Hdom.
  - intros other tx0. destruct (decide (other = id)) as [-> | Hne].
    + rewrite lookup_insert_eq. intros E. injection E as <-. cbn [tx_settle tx_id].
      apply Hkey. exact Hid.
    + rewrite lookup_insert_ne by congruence. apply Hkey.
Qed.
End TrackerFacts.

(** ** agentfinobs: the budget rules *)

Module BudgetFacts.
Import Agentfinobs.

Section AnyArithmetic.
Context {F : Type} `{Arith F}.
Local Open Scope py_scope.

Lemma check_rules_spec (rules : list (BudgetRule F)) (tx : AgentTx F) (now : F) :
  forall b : BudgetManager F,
    let history := _tx_history b in
    let fired := filter (fun rule => Is_true (breached history now rule)) rules in
    let b' := check_rules b rules tx now in
    _rules b' = _rules b /\ _tx_history b' = history
    /\ _alerts b' = _alerts b ++ map (alert_of history now tx) fired
    /\ _halted b' = _halted b || existsb halt_on_breach fired
    /\ _halt_reason b'
       = match last (filter (fun rule => Is_true (halt_on_breach rule)) fired) with
         | Some rule => a_message (alert_of history now tx rule)
         | None => _halt_reason b
         end.
Proof.
  induction rules as [|rule rules IH]; intros b; cbn zeta.
  - cbn. rewrite app_nil_r, orb_false_r. auto.
  - cbn [check_rules]. cbn zeta. rewrite filter_cons.
    change (_window_spend (_tx_history b) (window_seconds rule) now >? max_amount rule)
      with (breached (_tx_history b) now rule).
    destruct (decide (Is_true (breached (_tx_history b) now rule))) as [Eb | Eb].
    + apply Is_true_true in Eb. rewrite Eb.
      specialize (IH (_fire_alert b rule
                                  (_window_spend (_tx_history b) (window_seconds rule) now)
                                  tx)).
      cbn zeta in IH. cbn [_fire_alert _rules _tx_history _alerts _halted _halt_reason] in IH.
      destruct IH as (-> & -> & -> & -> & ->).
      split; [reflexivity |]. split; [reflexivity |].
      split; [rewrite <- app_assoc; reflexivity |].
      split; [cbn [existsb]; destruct (halt_on_breach rule), (_halted b); reflexivity |].
      rewrite filter_cons. destruct (halt_on_breach rule) eqn:Eh.
      * rewrite decide_True by exact I. rewrite last_cons.
        destruct (last _); reflexivity.
      * rewrite decide_False by (intros []). reflexivity.
    + apply Is_true_false in Eb. rewrite Eb. apply IH.
Qed.

Lemma on_tx_spec (b : BudgetManager F) (tx : AgentTx F) (now : F) :
  let history := _tx_history b ++ [tx] in
  let fired := filter (fun rule => Is_true (breached history now rule)) (_rules b) in
  let b' := on_tx b tx now in
  _rules b' = _rules b /\ _tx_history b' = history
  /\ _alerts b' = _alerts b ++ map (alert_of history now tx) fired
  /\ _halted b' = _halted b || existsb halt_on_breach fired
  /\ _halt_reason b'
     = match last (filter (fun rule => Is_true (halt_on_breach rule)) fired) with
       | Some rule => a_message (alert_of history now tx rule)
       | None => _halt_reason b
       end.
Proof.
  cbn zeta. unfold on_tx. cbn zeta. cbn [_rules].
  apply (check_rules_spec (_rules b) tx now
           {| _rules := _rules b; _tx_history := _tx_history b ++ [tx];
              _halted := _halted b; _halt_reason := _halt_reason b;
              _alerts := _alerts b |}).
Qed.

Lemma on_txs_halted (events : list (AgentTx F * F)) :
  forall b : BudgetManager F, _halted b = true -> _halted (on_txs b events) = true.
Proof.
  induction events as [|[tx now] events IH]; intros b Hb; [exact Hb |].
  cbn [on_txs fold_left fst snd]. apply IH.
  destruct (on_tx_spec b tx now) as (_ & _ & _ & -> & _). rewrite Hb. reflexivity.
Qed.

Lemma on_txs_history (events : list (AgentTx F * F)) :
  forall b : BudgetManager F,
    _tx_history (on_txs b events) = _tx_history b ++ map fst events.
Proof.
  induction events as [|[tx now] events IH]; intros b.
  - cbn. rewrite app_nil_r. reflexivity.
  - cbn [on_txs fold_left fst snd map]. fold (on_txs (on_tx b tx now) events).
    rewrite IH. destruct (on_tx_spec b tx now) as (_ & -> & _).
    rewrite <- app_assoc. reflexivity.
Qed.
End AnyArithmetic.

(** X21. [on_tx] appends the transaction to the history, whether the budget
    is halted or not, and then judges every rule on the history that
    holds it already: it fires one alert for each rule whose spend in
    its window is strictly above its limit, in the order of the rules
    and after those raised before, with the spend, the limit and the
    transaction that set it off.  The budget is halted afterwards exactly
    when it was halted before or one of the breached rules halts on a
    breach, with the message of the last such rule as the reason: [on_tx]
    never clears a halt, and never changes the rules. *)
Theorem on_tx_fires_breached_rules {F : Type} `{Arith F}
        (b : BudgetManager F) (tx : AgentTx F) (now : F) :
  let history := _tx_history b ++ [tx] in
  let fired := filter (fun rule => Is_true (breached history now rule)) (_rules b) in
  let b' := on_tx b tx now in
  _rules b' = _rules b /\ _tx_history b' = history
  /\ _alerts b' = _alerts b ++ map (alert_of history now tx) fired
  /\ _halted b' = _halted b || existsb halt_on_breach fired
  /\ _halt_reason b'
     = match last (filter (fun rule => Is_true (halt_on_breach rule)) fired) with
       | Some rule => a_message (alert_of history now tx rule)
       | None => _halt_reason b
       end.
Proof. apply on_tx_spec. Qed.

(** X22. A halted budget stays halted through every transaction notified to
    it, each of which it still appends to the history, and refuses every
    pre-check, whatever the amount, with a reason that starts with
    "Agent halted: "; [reset_halt] is what clears the halt, and keeps the
    rules, the history and the alerts. *)
Theorem halt_lasts_until_reset {F : Type} `{Arith F}
        (b : BudgetManager F) (events : list (AgentTx F * F)) (spend now : F) :
  _halted b = true ->
  let b' := on_txs b events in
  _halted b' = true
  /\ _tx_history b' = _tx_history b ++ map fst events
  /\ check_can_spend b' spend now = (false, "Agent halted: " +:+ _halt_reason b')
  /\ _halted (reset_halt b') = false
  /\ _halt_reason (reset_halt b') = ""
  /\ _rules (reset_halt b') = _rules b'
  /\ _tx_history (reset_halt b') = _tx_history b'
  /\ _alerts (reset_halt b') = _alerts b'.
Proof.
  intros Hb. cbn zeta. pose proof (on_txs_halted events b Hb) as Hh.
  split; [exact Hh |]. split; [apply on_txs_history |].
  split; [unfold check_can_spend; rewrite Hh; reflexivity |].
  repeat split.
Qed.

Lemma halt_lasts_until_reset_witness :
  _halted (on_tx Samples.sample_budget (Samples.sample_tx "tx-2" 450 200) 200) = true
  /\ fst (check_can_spend
            (on_txs (on_tx Samples.sample_budget (Samples.sample_tx "tx-2" 450 200) 200)
                    [(Samples.sample_tx "tx-3" 1 300, 300)])
            1 400) = false.
Proof.
  assert (Hb : _halted (on_tx Samples.sample_budget (Samples.sample_tx "tx-2" 450 200) 200)
               = true) by (vm_compute; reflexivity).
  split; [exact Hb |].
  destruct (halt_lasts_until_reset
              (on_tx Samples.sample_budget (Samples.sample_tx "tx-2" 450 200) 200)
              [(Samples.sample_tx "tx-3" 1 300, 300)] 1 400 Hb) as (_ & _ & Hc & _).
  rewrite Hc. reflexivity.
Defined.

(** *** In exact arithmetic *)

Lemma py_sum_from (l : list Q) (a : Q) : fold_left Qplus l a == a + Qsum l.
Proof.
  revert a. induction l as [|x l IH]; intros a; cbn [fold_left Qsum foldr].
  - lra.
  - rewrite IH. fold (Qsum l). lra.
Qed.

Lemma py_sum_Qsum (l : list Q) : py_sum l == Qsum l.
Proof. unfold py_sum. exact_arith. rewrite py_sum_from. lra. Qed.

Lemma window_spend_sum (history : list (AgentTx Q)) (window now : Q) :
  _window_spend history window now
  == Qsum (map (fun tx => if in_window window now tx then amount tx else 0) history).
Proof.
  unfold _window_spend, in_window. exact_arith.
  destruct (Qle_bool window 0) eqn:Ew; rewrite py_sum_Qsum; cbn [orb].
  - reflexivity.
  - induction history as [|tx history IH]; [reflexivity |].
    rewrite filter_cons. destruct (Qle_bool (now - window) (created_at tx)) eqn:Ec.
    + rewrite decide_True by exact I. cbn [map Qsum foldr]. rewrite Ec.
      fold (Qsum (map amount (filter (fun tx0 => Is_true (Qle_bool (now - window) (created_at tx0))) history))).
      rewrite IH. reflexivity.
    + rewrite decide_False by (intros []). cbn [map Qsum foldr]. rewrite Ec.
      rewrite IH. unfold Qsum. lra.
Qed.

Lemma in_window_later (window now now' : Q) (tx : AgentTx Q) :
  now <= now' -> in_window window now' tx = true -> in_window window now tx = true.
Proof.
  unfold in_window. intros Hle. destruct (Qle_bool window 0); [reflexivity |].
  cbn [orb]. intros Hw. cmp_hyps. apply Qle_bool_iff. lra.
Qed.

Lemma window_spend_later (history : list (AgentTx Q)) (window now now' : Q) :
  Forall (fun old => 0 <= amount old) history -> now <= now' ->
  _window_spend history window now' <= _window_spend history window now.
Proof.
  intros Hpos Hle. rewrite !window_spend_sum.
  induction Hpos as [|tx history Htx _ IH]; cbn [map Qsum foldr]; [lra |].
  fold (Qsum (map (fun tx => if in_window window now' tx then amount tx else 0) history)).
  fold (Qsum (map (fun tx => if in_window window now tx then amount tx else 0) history)).
  destruct (in_window window now' tx) eqn:E'.
  - rewrite (in_window_later window now now' tx Hle E'). lra.
  - destruct (in_window window now tx); lra.
Qed.

Lemma window_spend_snoc (history : list (AgentTx Q)) (tx : AgentTx Q) (window now : Q) :
  _window_spend (history ++ [tx]) window now
  == _window_spend history window now
     + (if in_window window now tx then amount tx else 0).
Proof.
  rewrite !window_spend_sum. rewrite map_app. cbn [map].
  induction (map (fun tx0 => if in_window window now tx0 then amount tx0 else 0) history)
    as [|x l IH]; cbn [app Qsum foldr]; [lra |].
  fold (Qsum (l ++ [if in_window window now tx then amount tx else 0])). fold (Qsum l).
  rewrite IH. lra.
Qed.

Lemma first_breach_none (history : list (AgentTx Q)) (rules : list (BudgetRule Q))
      (spend now : Q) :
  first_breach history rules spend now = None
  <-> Forall (fun rule =>
                _window_spend history (window_seconds rule) now + spend
                <= max_amount rule) rules.
Proof.
  induction rules as [|rule rules IH]; cbn [first_breach]; [split; auto |].
  cbn zeta. exact_arith.
  destruct (Qltb (max_amount rule)
                 (_window_spend history (window_seconds rule) now + spend)) eqn:E;
    cmp_hyps.
  - split; [discriminate |]. intros Hall. apply Forall_cons in Hall as [Hr _]. lra.
  - rewrite IH. split.
    + intros Hall. apply Forall_cons. split; assumption.
    + intros Hall. apply Forall_cons in Hall as [_ Hrest]. exact Hrest.
Qed.

Lemma check_can_spend_ok (b : BudgetManager Q) (spend now : Q) :
  fst (check_can_spend b spend now) = true
  <-> _halted b = false
      /\ Forall (fun rule =>
                   _window_spend (_tx_history b) (window_seconds rule) now + spend
                   <= max_amount rule) (_rules b).
Proof.
  unfold check_can_spend. rewrite <- first_breach_none.
  destruct (_halted b); [cbn; split; [discriminate | intros [? _]; discriminate] |].
  destruct (first_breach _ _ _ _); cbn; split; auto; try discriminate.
  intros [_ ?]; discriminate.
Qed.

(** X23. A spend that [check_can_spend] approves does not breach a rule when
    it is made: if the amounts recorded so far and the amount of the
    transaction are not negative, and the transaction is notified no
    earlier than the pre-check was made, then [on_tx] of a transaction
    of the approved amount fires no alert and leaves the budget not
    halted. *)
Theorem approved_spend_fires_no_alert (b : BudgetManager Q) (tx : AgentTx Q)
        (now now' : Q) :
  Forall (fun old => 0 <= amount old) (_tx_history b) ->
  0 <= amount tx ->
  now <= now' ->
  fst (check_can_spend b (amount tx) now) = true ->
  _alerts (on_tx b tx now') = _alerts b
  /\ _halted (on_tx b tx now') = false
  /\ _halt_reason (on_tx b tx now') = _halt_reason b
  /\ _tx_history (on_tx b tx now') = _tx_history b ++ [tx].
Proof.
  intros Hpos Htx Hle Hok. apply check_can_spend_ok in Hok as [Hh Hall].
  assert (Hnone : filter (fun rule => Is_true (breached (_tx_history b ++ [tx]) now' rule))
                         (_rules b) = []).
  { induction Hall as [|rule rules Hr _ IH]; [reflexivity |].
    rewrite filter_cons. rewrite decide_False; [exact IH |].
    unfold breached. exact_arith. intros Hb. apply Is_true_true in Hb. cmp_hyps.
    rewrite window_spend_snoc in Hb.
    pose proof (window_spend_later (_tx_history b) (window_seconds rule) now now' Hpos Hle).
    destruct (in_window (window_seconds rule) now' tx); lra. }
  destruct (on_tx_spec b tx now') as (_ & Hhist & Hal & Hhalt & Hreason).
  rewrite Hnone in Hal, Hhalt, Hreason. rewrite filter_nil in Hreason.
  cbn [map existsb last] in Hal, Hhalt, Hreason.
  rewrite app_nil_r in Hal. rewrite Hh in Hhalt. cbn [orb] in Hhalt.
  repeat split; assumption.
Qed.

Lemma approved_spend_fires_no_alert_witness :
  fst (check_can_spend Samples.sample_budget 5 140) = true
  /\ _alerts (on_tx Samples.sample_budget (Samples.sample_tx "tx-2" 5 150) 150) = []
  /\ _halted (on_tx Samples.sample_budget (Samples.sample_tx "tx-2" 5 150) 150) = false.
Proof.
  assert (Hok : fst (check_can_spend Samples.sample_budget 5 140) = true)
    by (vm_compute; reflexivity).
  split; [exact Hok |].
  destruct (approved_spend_fires_no_alert
              Samples.sample_budget (Samples.sample_tx "tx-2" 5 150) 140 150)
    as (Ha & Hh & _).
  - repeat constructor. cbn. lra.
  - cbn. lra.
  - lra.
  - exact Hok.
  - split; [exact Ha | exact Hh].
Defined.

(** *** Headroom *)

Lemma fold_insert_other {A : Type} (k : A -> string) (v : A -> Q) (rules : list A) :
  forall (m0 : gmap string Q) (key : string),
    key ∉ map k rules ->
    fold_left (fun m r => <[k r := v r]> m) rules m0 !! key = m0 !! key.
Proof.
  induction rules as [|r rules IH]; intros m0 key Hkey; [reflexivity |].
  cbn [fold_left]. rewrite IH.
  - apply lookup_insert_ne. intros E. apply Hkey. cbn [map]. rewrite E. left.
  - intros Hin. apply Hkey. cbn [map]. right. exact Hin.
Qed.

Lemma fold_insert_lookup {A : Type} (k : A -> string) (v : A -> Q) (rules : list A) :
  forall (m0 : gmap string Q) (x : A),
    NoDup (map k rules) -> x ∈ rules ->
    fold_left (fun m r => <[k r := v r]> m) rules m0 !! k x = Some (v x).
Proof.
  induction rules as [|r rules IH]; intros m0 x Hnd Hin; [inversion Hin |].
  cbn [map] in Hnd. apply NoDup_cons in Hnd as [Hr Hnd]. cbn [fold_left].
  apply elem_of_cons in Hin as [-> | Hin].
  - rewrite fold_insert_other by exact Hr. apply lookup_insert_eq.
  - apply IH; assumption.
Qed.

Lemma fold_insert_some {A : Type} (k : A -> string) (v : A -> Q) (rules : list A) :
  forall (m0 : gmap string Q) (key : string) (h : Q),
    fold_left (fun m r => <[k r := v r]> m) rules m0 !! key = Some h ->
    m0 !! key = Some h \/ exists r, r ∈ rules /\ k r = key /\ h = v r.
Proof.
  induction rules as [|r rules IH]; intros m0 key h Hl; [left; exact Hl |].
  cbn [fold_left] in Hl. apply IH in Hl as [Hl | (r' & Hin & Hk & Hv)].
  - destruct (decide (k r = key)) as [E | E].
    + rewrite <- E, lookup_insert_eq in Hl. injection Hl as <-.
      right. exists r. split; [left | split; [exact E | reflexivity]].
    + rewrite lookup_insert_ne in Hl by exact E. left. exact Hl.
  - right. exists r'. split; [right; exact Hin | split; assumption].
Qed.

(** X24. [headroom] gives, for every rule, under its name, what is left of
    its limit after the spend in its window, and 0 when the limit is
    exceeded: no entry is negative, and every entry is that of a rule.
    When the rules have distinct names and the budget is not halted, a
    positive spend passes [check_can_spend] exactly when it is within the
    headroom of every rule. *)
Theorem spend_within_headroom (b : BudgetManager Q) (spend now : Q) :
  NoDup (map name (_rules b)) ->
  0 < spend ->
  _halted b = false ->
  (forall rule, rule ∈ _rules b ->
     headroom b now !! name rule
     = Some (Qmax 0 (max_amount rule
                     - _window_spend (_tx_history b) (window_seconds rule) now)))
  /\ (forall key h, headroom b now !! key = Some h ->
        0 <= h /\ exists rule, rule ∈ _rules b /\ name rule = key)
  /\ (fst (check_can_spend b spend now) = true
      <-> forall rule, rule ∈ _rules b ->
            exists h, headroom b now !! name rule = Some h /\ spend <= h).
Proof.
  intros Hnd Hspend Hh.
  assert (Hlook : forall rule, rule ∈ _rules b ->
            headroom b now !! name rule
            = Some (Qmax 0 (max_amount rule
                            - _window_spend (_tx_history b) (window_seconds rule) now))).
  { intros rule Hin. unfold headroom. cbn zeta.
    rewrite (fold_insert_lookup name
               (fun rule => pymax (lit 0)
                  (max_amount rule
                   - _window_spend (_tx_history b) (window_seconds rule) now)%py)
               (_rules b) ∅ rule Hnd Hin).
    rewrite pymax_Qmax. reflexivity. }
  split; [exact Hlook |]. split.
  - intros key h Hl. unfold headroom in Hl. cbn zeta in Hl.
    apply (fold_insert_some name
             (fun rule => pymax (lit 0)
                (max_amount rule
                 - _window_spend (_tx_history b) (window_seconds rule) now)%py))
      in Hl as [Hl | (r & Hin & Hk & ->)].
    + rewrite lookup_empty in Hl. discriminate.
    + split; [| exists r; split; assumption].
      rewrite pymax_Qmax. exact_arith. apply Q.le_max_l.
  - rewrite check_can_spend_ok, Forall_forall. split.
    + intros [_ Hall] rule Hin. eexists. split; [apply Hlook; exact Hin |].
      specialize (Hall rule Hin). cbn beta in Hall.
      destruct (Qmax_cases 0 (max_amount rule
                  - _window_spend (_tx_history b) (window_seconds rule) now))
        as [[Ha E] | [Ha E]]; rewrite E; lra.
    + intros Hall. split; [exact Hh |]. intros rule Hin.
      destruct (Hall rule Hin) as (h & Hl & Hle). rewrite (Hlook rule Hin) in Hl.
      injection Hl as <-.
      destruct (Qmax_cases 0 (max_amount rule
                  - _window_spend (_tx_history b) (window_seconds rule) now))
        as [[_ E] | [_ E]]; rewrite E in Hle; lra.
Qed.

Lemma spend_within_headroom_witness :
  headroom Samples.sample_budget 140 !! "hourly_cap" = Some (Qmax 0 (100 - (0 + 90)))
  /\ fst (check_can_spend Samples.sample_budget 5 140) = true.
Proof.
  destruct (spend_within_headroom Samples.sample_budget 5 140) as (Hl & _ & Hc).
  - cbn. repeat constructor; intros Hin.
    + apply list_elem_of_singleton in Hin. discriminate.
    + inversion Hin.
  - lra.
  - reflexivity.
  - split.
    + apply (Hl {| name := "hourly_cap"; max_amount := 100; window_seconds := 3600;
                   severity := WARNING; halt_on_breach := false |}). left.
    + apply Hc. intros rule Hin. eexists. split; [apply Hl; exact Hin |].
      cbn in Hin. apply elem_of_cons in Hin as [-> | Hin];
        [| apply list_elem_of_singleton in Hin; subst rule];
        vm_compute; discriminate.
Defined.
End BudgetFacts.

(** ** agentfinobs: the metrics *)

Module MetricsFacts.
Import Agentfinobs.

Lemma Qsum_app (l1 l2 : list Q) : Qsum (l1 ++ l2) == Qsum l1 + Qsum l2.
Proof.
  unfold Qsum. induction l1 as [|x l1 IH]; cbn [app foldr]; [lra |].
  rewrite IH. lra.
Qed.

Lemma total_of_insert (d : gmap string Q) (k : string) (v : Q) :
  d !! k = None -> total_of (<[k := v]> d) == v + total_of d.
Proof.
  intros Hk. unfold total_of.
  apply (map_fold_insert Qeq (fun _ v acc => v + acc) 0 k v d).
  - intros j z a a' Ha. rewrite Ha. reflexivity.
  - intros. lra.
  - exact Hk.
Qed.

Lemma total_of_add_to (d : gmap string Q) (k : string) (x : Q) :
  total_of (add_to d k x) == total_of d + x.
Proof.
  unfold add_to. exact_arith. destruct (d !! k) as [y|] eqn:Ek;
    cbn [default from_option]; unfold id.
  - rewrite <- (insert_delete_eq d k (y + x)).
    rewrite total_of_insert by apply lookup_delete_eq.
    pose proof (total_of_insert (delete k d) k y (lookup_delete_eq d k)) as E.
    rewrite (insert_delete_id d k y Ek) in E. lra.
  - rewrite total_of_insert by exact Ek. lra.
Qed.

Lemma total_of_fold (key : AgentTx Q -> string) (txs : list (AgentTx Q)) :
  forall d : gmap string Q,
    total_of (fold_left (fun d tx => add_to d (key tx) (amount tx)) txs d)
    == total_of d + Qsum (map amount txs).
Proof.
  unfold Qsum. induction txs as [|tx txs IH]; intros d; cbn [fold_left map foldr]; [lra |].
  rewrite IH, total_of_add_to. lra.
Qed.

Lemma total_of_fold_named (txs : list (AgentTx Q)) :
  forall d : gmap string Q,
    total_of (fold_left (fun d tx => if String.eqb (counterparty tx) "" then d
                                     else add_to d (counterparty tx) (amount tx)) txs d)
    == total_of d + Qsum (map amount (filter (fun tx => counterparty tx <> "") txs)).
Proof.
  unfold Qsum. induction txs as [|tx txs IH]; intros d; cbn [fold_left]; [cbn; lra |].
  rewrite IH, filter_cons. destruct (String.eqb_spec (counterparty tx) "") as [E | E].
  - rewrite decide_False by (intros Hne; exact (Hne E)). lra.
  - rewrite decide_True by exact E. cbn [map foldr].
    rewrite total_of_add_to. lra.
Qed.

Lemma total_of_empty : total_of ∅ = 0.
Proof. unfold total_of. apply map_fold_empty. Qed.

Lemma Qsum_pnl (txs : list (AgentTx Q)) :
  Qsum (map pnl txs) == Qsum (map revenue txs) - Qsum (map amount txs).
Proof.
  unfold Qsum. induction txs as [|tx txs IH]; cbn [map foldr]; [lra |].
  rewrite IH. unfold pnl. exact_arith. lra.
Qed.

Lemma inject_nat_pos (n : nat) : (0 < n)%nat -> 0 < inject_Z (Z.of_nat n).
Proof. intros Hn. rewrite <- (Zlt_Qlt 0). lia. Qed.

Lemma compute_sums (budget_total : option Q) (txs : list (AgentTx Q)) (now : Q) :
  tx_count (compute budget_total txs now) = Z.of_nat (length txs)
  /\ total_spent (compute budget_total txs now) = py_sum (map amount txs)
  /\ total_revenue (compute budget_total txs now) = py_sum (map revenue txs)
  /\ total_pnl (compute budget_total txs now)
     == py_sum (map revenue txs) - py_sum (map amount txs).
Proof.
  destruct txs as [|tx txs]; cbn [compute].
  - cbn. repeat split.
  - cbn zeta. cbn [tx_count total_spent total_revenue total_pnl]. repeat split.
Qed.

(** X25. The figures of a snapshot, in exact arithmetic, for every list of
    transactions, the empty one included: the count is the length of the
    list; the spend and the revenue are the sums of the amounts and of
    the revenues, and the P&L is their difference, which is the sum of
    the P&L of the transactions; the spend by task and the spend by rail
    each add up to the whole spend, the transactions without a task
    counted under "_no_task", while the spend by counterparty adds up to
    the spend of the transactions that name one; the average cost times
    the count is the spend; the ROI is absent exactly when nothing was
    spent, and is else the P&L in percent of the spend; and a win rate is
    between 0 and 100. *)
Theorem compute_totals (budget_total : option Q) (txs : list (AgentTx Q)) (now : Q) :
  let s := compute budget_total txs now in
  tx_count s = Z.of_nat (length txs)
  /\ total_spent s == Qsum (map amount txs)
  /\ total_revenue s == Qsum (map revenue txs)
  /\ total_pnl s == total_revenue s - total_spent s
  /\ total_pnl s == Qsum (map pnl txs)
  /\ total_of (spend_by_task s) == total_spent s
  /\ total_of (spend_by_rail s) == total_spent s
  /\ total_of (spend_by_counterparty s)
     == Qsum (map amount (filter (fun tx => counterparty tx <> "") txs))
  /\ avg_cost_per_tx s * inject_Z (tx_count s) == total_spent s
  /\ (roi_pct s = None <-> total_spent s <= 0)
  /\ (forall r, roi_pct s = Some r -> r * total_spent s == 100 * total_pnl s)
  /\ (forall w, win_rate_pct s = Some w -> 0 <= w <= 100).
Proof.
  cbn zeta. destruct (compute_sums budget_total txs now) as (Hc & Hs & Hr & Hp).
  split; [exact Hc |].
  split; [rewrite Hs; apply BudgetFacts.py_sum_Qsum |].
  split; [rewrite Hr; apply BudgetFacts.py_sum_Qsum |].
  split; [rewrite Hp, Hr, Hs; reflexivity |].
  split; [rewrite Hp, Qsum_pnl, !BudgetFacts.py_sum_Qsum; reflexivity |].
  rewrite Hs, Hc. clear Hc Hs Hr Hp.
  destruct txs as [|tx0 txs0]; [cbn; repeat split; try lra; try discriminate |].
  remember (tx0 :: txs0) as txs eqn:Etxs.
  assert (Hlen : (0 < length txs)%nat) by (subst txs; cbn; lia).
  assert (Hcomp : compute budget_total txs now
                  = compute budget_total (tx0 :: txs0) now) by (subst txs; reflexivity).
  rewrite Hcomp. cbn [compute]. cbn zeta. rewrite <- Etxs.
  cbn [spend_by_task spend_by_rail spend_by_counterparty avg_cost_per_tx roi_pct
       win_rate_pct total_spent total_pnl].
  pose proof (inject_nat_pos (length txs) Hlen) as Hn.
  pose proof (BudgetFacts.py_sum_Qsum (map amount txs)) as Hs.
  split.
  { rewrite (total_of_fold (fun tx => if String.eqb (task_id tx) "" then "_no_task"
                                      else task_id tx) txs ∅).
    rewrite total_of_empty, Hs. lra. }
  split.
  { rewrite (total_of_fold (fun tx => rail_value (rail tx)) txs ∅).
    rewrite total_of_empty, Hs. lra. }
  split.
  { rewrite (total_of_fold_named txs ∅), total_of_empty. lra. }
  split.
  { unfold of_int. exact_arith. field. lra. }
  exact_arith. split; [| split].
  - destruct (Qltb 0 (py_sum (map amount txs))) eqn:E; cmp_hyps.
    + split; [discriminate | lra].
    + split; [intros _; exact E | reflexivity].
  - intros r. destruct (Qltb 0 (py_sum (map amount txs))) eqn:E; cmp_hyps;
      [| discriminate].
    intros Er. injection Er as <-. field. lra.
  - intros w.
    set (settled := filter (fun tx => Is_true (is_settled tx)) txs).
    set (wins := filter (fun tx => Is_true (Qltb 0 (pnl tx))) settled).
    assert (Hw : (length wins <= length settled)%nat) by apply length_filter.
    destruct settled as [|s0 settled0] eqn:Es; [discriminate |].
    intros Ew. injection Ew as <-. unfold of_int. exact_arith.
    assert (Hd : 0 < inject_Z (Z.of_nat (length (s0 :: settled0))))
      by (apply inject_nat_pos; cbn; lia).
    assert (Hn0 : 0 <= inject_Z (Z.of_nat (length wins)))
      by (rewrite <- (Zle_Qle 0); lia).
    assert (Hn1 : inject_Z (Z.of_nat (length wins))
                  <= inject_Z (Z.of_nat (length (s0 :: settled0))))
      by (rewrite <- Zle_Qle; lia).
    split.
    + apply Qmult_le_0_compat; [| lra]. apply Qle_shift_div_l; [exact Hd | lra].
    + assert (inject_Z (Z.of_nat (length wins))
              / inject_Z (Z.of_nat (length (s0 :: settled0))) <= 1)
        by (apply Qle_shift_div_r; [exact Hd | lra]).
      cbn [length] in *. lra.
Qed.

(** *** A settlement in the snapshot *)

Lemma recent_all {F : Type} `{Arith F} (t : SpendTracker F) :
  tracker_ok t -> (_max_history t <= 10000)%Z ->
  recent t 10000 = omap (fun tid => _txs t !! tid) (_ordered_ids t).
Proof.
  intros (_ & _ & _ & Hlen) Hmax. unfold recent, last_ids.
  change (0 <? 10000)%Z with true. cbn iota.
  replace (length (_ordered_ids t) - Z.to_nat 10000)%nat with 0%nat by lia.
  rewrite drop_0. reflexivity.
Qed.

Lemma omap_insert_fresh {A : Type} (txs : gmap string A) (id : string) (x : A)
      (ids : list string) :
  id ∉ ids ->
  omap (fun tid => <[id := x]> txs !! tid) ids = omap (fun tid => txs !! tid) ids.
Proof.
  induction ids as [|tid ids IH]; intros Hid; [reflexivity |].
  cbn [omap list_omap]. rewrite lookup_insert_ne.
  - rewrite IH; [reflexivity |]. intros Hin. apply Hid. right. exact Hin.
  - intros ->. apply Hid. left.
Qed.

Lemma revenue_settled (txs : gmap string (AgentTx Q)) (id : string)
      (tx tx' : AgentTx Q) (ids : list string) :
  NoDup ids -> id ∈ ids -> txs !! id = Some tx ->
  Qsum (map revenue (omap (fun tid => <[id := tx']> txs !! tid) ids))
  == Qsum (map revenue (omap (fun tid => txs !! tid) ids))
     + (revenue tx' - revenue tx).
Proof.
  intros Hnd Hin Hid. unfold Qsum.
  induction ids as [|tid ids IH]; [inversion Hin |].
  apply NoDup_cons in Hnd as [Hfresh Hnd]. cbn [omap list_omap].
  destruct (decide (tid = id)) as [-> | Hne].
  - rewrite lookup_insert_eq, Hid, (omap_insert_fresh txs id tx' ids Hfresh).
    cbn [map foldr]. lra.
  - rewrite lookup_insert_ne by congruence.
    apply elem_of_cons in Hin as [-> | Hin]; [congruence |].
    specialize (IH Hnd Hin). destruct (txs !! tid); cbn [map foldr]; lra.
Qed.

(** X26. On a tracker in order that keeps at most the 10000 transactions
    that [snapshot] reads, settling a transaction that the tracker holds
    moves the revenue and the P&L of the snapshot by the change in that
    transaction's revenue, and leaves its count and its spend as they
    were. *)
Theorem settle_moves_snapshot (budget_total : option Q) (t : SpendTracker Q)
        (id : string) (tx : AgentTx Q) (new_revenue : Q) (new_status : TxStatus)
        (now at_time : Q) :
  tracker_ok t ->
  (_max_history t <= 10000)%Z ->
  get t id = Some tx ->
  let before := snapshot budget_total t at_time in
  let after := snapshot budget_total
                        (snd (settle t id new_revenue new_status now)) at_time in
  tx_count after = tx_count before
  /\ total_spent after = total_spent before
  /\ total_revenue after == total_revenue before + (new_revenue - revenue tx)
  /\ total_pnl after == total_pnl before + (new_revenue - revenue tx).
Proof.
  intros Hok Hmax Hget. cbn zeta.
  pose proof (TrackerFacts.omap_settled amount (_txs t) id tx
                (tx_settle tx new_revenue new_status now) (_ordered_ids t)
                Hget eq_refl) as Hamount.
  assert (Hrev := Hok). destruct Hrev as (Hnd & Hdom & _ & Hlen).
  assert (Hin : id ∈ _ordered_ids t) by (apply Hdom; unfold get in Hget; eauto).
  pose proof (revenue_settled (_txs t) id tx (tx_settle tx new_revenue new_status now)
                (_ordered_ids t) Hnd Hin Hget) as Hrevenue.
  cbn [tx_settle revenue] in Hrevenue.
  unfold snapshot, settle. unfold get in Hget. rewrite Hget. cbn [snd].
  rewrite (recent_all t Hok Hmax).
  unfold recent, last_ids. cbn [_txs _ordered_ids].
  change (0 <? 10000)%Z with true. cbn iota.
  replace (length (_ordered_ids t) - Z.to_nat 10000)%nat with 0%nat by lia.
  rewrite drop_0.
  set (settled := omap (fun tid => <[id := tx_settle tx new_revenue new_status now]>
                                     (_txs t) !! tid) (_ordered_ids t)) in *.
  set (held := omap (fun tid => _txs t !! tid) (_ordered_ids t)) in *.
  destruct (compute_sums budget_total settled at_time) as (-> & -> & -> & ->).
  destruct (compute_sums budget_total held at_time) as (-> & -> & -> & ->).
  split; [rewrite <- (length_map amount settled), Hamount, length_map; reflexivity |].
  split; [rewrite Hamount; reflexivity |].
  rewrite Hamount.
  pose proof (BudgetFacts.py_sum_Qsum (map revenue settled)) as Es.
  pose proof (BudgetFacts.py_sum_Qsum (map revenue held)) as Eh.
  split; lra.
Qed.

Lemma settle_moves_snapshot_witness :
  total_spent (snapshot None (snd (settle Samples.sample_tracker "tx-1" 12 CONFIRMED 200))
                        300)
  = total_spent (snapshot None Samples.sample_tracker 300)
  /\ total_pnl (snapshot None (snd (settle Samples.sample_tracker "tx-1" 12 CONFIRMED 200))
                         300)
     == total_pnl (snapshot None Samples.sample_tracker 300) + (12 - 0).
Proof.
  destruct (settle_moves_snapshot None Samples.sample_tracker "tx-1"
              (Samples.sample_tx "tx-1" 10 100) 12 CONFIRMED 200 300)
    as (_ & Hs & _ & Hp).
  - exact TrackerFacts.sample_tracker_ok.
  - cbn. lia.
  - apply lookup_singleton_eq.
  - split; [exact Hs | exact Hp].
Defined.
End MetricsFacts.

(** ** agentfinobs: the running statistics *)

Module AnomalyFacts.
Import Agentfinobs.

Lemma welford_step (n mu m2 s1 s2 x : Q) :
  0 <= n -> n * mu == s1 -> m2 == s2 - n * mu * mu ->
  (n + 1) * (mu + (x - mu) / (n + 1)) == s1 + x
  /\ m2 + (x - mu) * (x - (mu + (x - mu) / (n + 1)))
     == s2 + x * x - (n + 1) * (mu + (x - mu) / (n + 1)) * (mu + (x - mu) / (n + 1)).
Proof.
  intros Hn H1 H2. split.
  - rewrite <- H1. field. lra.
  - rewrite H2. field. lra.
Qed.

Lemma stats_after_snoc (xs : list Q) (x : Q) :
  stats_after (xs ++ [x]) = _update_stats (stats_after xs) x.
Proof. unfold stats_after. rewrite fold_left_app. reflexivity. Qed.

Lemma stats_invariant (xs : list Q) :
  _n (stats_after xs) = Z.of_nat (length xs)
  /\ inject_Z (_n (stats_after xs)) * _mean (stats_after xs) == Qsum xs
  /\ _m2 (stats_after xs)
     == Qsum (map (fun x => x * x) xs)
        - inject_Z (_n (stats_after xs)) * _mean (stats_after xs) * _mean (stats_after xs).
Proof.
  induction xs as [|x xs IH] using rev_ind.
  - cbn. repeat split; lra.
  - rewrite stats_after_snoc. destruct IH as (Hn & H1 & H2).
    unfold _update_stats. cbn zeta. cbn [_n _mean _m2]. unfold of_int. exact_arith.
    assert (Hpos : 0 <= inject_Z (_n (stats_after xs)))
      by (rewrite Hn, <- (Zle_Qle 0); lia).
    assert (Hplus : inject_Z (_n (stats_after xs) + 1) == inject_Z (_n (stats_after xs)) + 1)
      by (rewrite inject_Z_plus; reflexivity).
    destruct (welford_step (inject_Z (_n (stats_after xs))) (_mean (stats_after xs))
                (_m2 (stats_after xs)) (Qsum xs) (Qsum (map (fun x => x * x) xs)) x
                Hpos H1 H2) as (Ha & Hb).
    split; [rewrite Hn, length_app; cbn [length]; lia |].
    rewrite map_app, !MetricsFacts.Qsum_app. cbn [map]. unfold Qsum at 2 4. cbn [foldr].
    rewrite !Hplus. split.
    + rewrite Ha. lra.
    + rewrite Hb. lra.
Qed.

Lemma sum_of_squares (mu : Q) (xs : list Q) :
  Qsum (map (fun x => (x - mu) * (x - mu)) xs)
  == Qsum (map (fun x => x * x) xs) - 2 * mu * Qsum xs
     + inject_Z (Z.of_nat (length xs)) * mu * mu.
Proof.
  unfold Qsum. induction xs as [|x xs IH]; cbn [map foldr length].
  - change (inject_Z (Z.of_nat 0)) with 0. ring.
  - rewrite IH, Nat2Z.inj_succ. unfold Z.succ. rewrite inject_Z_plus. ring.
Qed.

Lemma square_nonneg (a : Q) : 0 <= a * a.
Proof.
  destruct (Qlt_le_dec a 0) as [Hneg | Hpos].
  - assert (Hsq : 0 <= (- a) * (- a)) by (apply Qmult_le_0_compat; lra).
    assert (E : (- a) * (- a) == a * a) by ring. rewrite <- E. exact Hsq.
  - apply Qmult_le_0_compat; exact Hpos.
Qed.

Lemma squares_nonneg (mu : Q) (xs : list Q) :
  0 <= Qsum (map (fun x => (x - mu) * (x - mu)) xs).
Proof.
  unfold Qsum. induction xs as [|x xs IH]; cbn [map foldr]; [apply Qle_refl |].
  pose proof (square_nonneg (x - mu)) as Hsq.
  apply (Qle_trans _ (0 + 0)); [apply Qle_refl |]. apply Qplus_le_compat; assumption.
Qed.

(** X27. The running statistics that [_update_stats] keeps are those of the
    amounts seen, in exact arithmetic: after any list of amounts, [_n] is
    their number, [_mean] times [_n] is their sum, so that [_mean] is
    their mean, and [_m2] is the sum of the squares of their distances
    to that mean, and so is never negative. *)
Theorem update_stats_mean_and_spread (xs : list Q) :
  let w := stats_after xs in
  _n w = Z.of_nat (length xs)
  /\ inject_Z (_n w) * _mean w == Qsum xs
  /\ _m2 w == Qsum (map (fun x => (x - _mean w) * (x - _mean w)) xs)
  /\ 0 <= _m2 w.
Proof.
  cbn zeta. destruct (stats_invariant xs) as (Hn & H1 & H2).
  assert (Hm : _m2 (stats_after xs)
               == Qsum (map (fun x => (x - _mean (stats_after xs))
                                      * (x - _mean (stats_after xs))) xs)).
  { rewrite sum_of_squares, <- Hn, <- H1, H2. ring. }
  split; [exact Hn |]. split; [exact H1 |]. split; [exact Hm |].
  rewrite Hm. apply squares_nonneg.
Qed.
End AnomalyFacts.
